(* ===== verification/_CoqProject ===== *)
-Q . S2P
Prelude.v
CString.v
Outcome.v
Wire.v
Negotiate.v
Fields.v
Crypto.v
Host.v
Keys.v
Sample.v
Io.v
Posix.v
Triple.v
Frame.v
Packet.v
Client.v
ClientPacket.v
ClientKex.v
ClientKexSpec.v
ClientSession.v
ClientSessionSpec.v
ClientRun.v
Server.v
ServerPacket.v
ServerKex.v
ServerAuth.v
ServerChannel.v
ServerServe.v
ServerChild.v
ServerFrame.v
Logged.v
ServerAuthSpec.v
ServerSafety.v
ServerKexSpec.v
ServerSpec.v
ServerLogin.v
SampleServer.v
Link.v
Base64.v
AuthorizedKeys.v
HostSeed.v
Listen.v
Daemon.v
SampleDaemon.v
ClientKeyFile.v
ClientConfig.v
KnownHosts.v
ClientLoop.v
ClientNet.v
ClientOptions.v
ClientMain.v
ClientSockets.v
SampleClient.v
