(* ===== verification/Prelude.v ===== *)
(** * A verification of NoxSSH

    NoxSSH is an SSH 2.0 client library, server library, command line client (noxssh) and
    daemon (noxsshd) for one suite of algorithms: curve25519-sha256, Ed25519 or
    RSA host keys, aes128-ctr with hmac-sha2-256, Ed25519 or password log in. This
    development models its C code as pure functions and as computations of a state monad,
    and proves what makes it correct. Paths are under src/.

    ** The parts, and where they are modelled

    The foundation: this file (machine integers, bytes, memory reads and writes, automation),
    [Outcome] (the outcome of a C function: a value, an error code, an access out of bounds,
    or no more fuel; the monad, its [wp] and its loops), [CString] (strtoul, fgets and the
    like), [Frame] and [Triple] (what computations leave alone; Hoare triples of protocol
    steps), [Host] and [Posix] (the surroundings).

    common/noxssh_common.c, the client library:
    - [Wire]: [netnox_ssh_payload_append_u32], .._string, .._mpint, [.._read_string_view];
      [Fields]: messages as runs of them;
    - [Negotiate]: name-lists and KEXINIT, built and validated, for both sides;
    - [Crypto]: [netnox_ssh_hmac_sha256], [netnox_ssh_ctr_increment_blocks];
    - [Keys]: the exchange hash and the key derivation of either side;
    - [Io], [Client], [Packet], [ClientPacket]: blocking I/O, the context
      [netnox_ssh_client_t], [netnox_ssh_send_packet] and [netnox_ssh_recv_packet];
    - [ClientKex], [ClientKexSpec]: the key exchange, its re-entry and what it establishes;
    - [ClientSession], [ClientSessionSpec], [ClientRun]: the API from
      [netnox_ssh_client_init] to [netnox_ssh_client_close], its invariant, and a run of it.

    common/noxssh_server.c, the server library:
    - [Server], [ServerPacket]: the context [netnox_ssh_server_t], deadlines, packets;
    - [ServerKex], [ServerKexSpec]: identification, KEXINIT and the signed key exchange;
    - [ServerAuth], [ServerAuthSpec], [ServerLogin]: [srv_handle_userauth_request];
    - [ServerChannel]: the channel, its windows, [srv_run_session_unix];
      [ServerChild]: the child it forks, up to exec;
    - [ServerServe]: [netnox_ssh_server_serve_one] and the other calls of the API;
    - [ServerFrame], [Logged], [ServerSafety], [ServerSpec]: what a served connection
      promises; [SampleServer] runs one. [Link] joins the two libraries.

    server/, the daemon:
    - [Base64], [AuthorizedKeys]: auth_posix.c, the check of authorized_keys, and the
      printed form of the host key;
    - [HostSeed]: [host_seed] of main.c, the file of the host key;
    - [Listen]: the listening socket and the accept loop of daemon_runtime.c;
    - [Daemon]: [noxsshd_serve_connection], which runs the server library with the check of
      authorized_keys as its callback, and [main]; [SampleDaemon] runs both.

    client/main.c, the command line client:
    - [ClientKeyFile]: hexadecimal seeds and OpenSSH private keys;
    - [ClientConfig]: ssh_config, host patterns, paths;
    - [KnownHosts]: the known hosts file and [noxssh_verify_host_key];
    - [ClientLoop]: keepalives, re-keying, channel output, the interactive shell;
    - [ClientNet]: [noxssh_connect_tcp];
    - [ClientOptions]: the arguments, and the settings made of them and ssh_config;
    - [ClientMain]: identities, [main]; [ClientSockets]: its socket, through everything the
      program does; [SampleClient] runs it.

    A C function keeps its name. A definition with another name is a piece of one (a loop
    body, a branch, a goto label), and the comment before it says which. The state of a
    computation is a [world]: the context structure [ctx] and the environment [env].

    ** The surroundings

    What the code calls and does not contain is a class of operations over a type of
    environments, and what the code relies on is a class of laws: [NoxTLS] ([NoxTLSLaws]:
    hashing in pieces is hashing, AES-CTR is counter mode, the lengths of outputs; that a
    signature verifies or that the two ends of X25519 agree is a hypothesis of the theorem
    that needs it), [Host] (the
    transport callbacks, random bytes, clock, debug switch; [HostLaws]: a byte stream, whose
    unread bytes are a ghost list), [AuthHost], [PosixHost] (fork, poll, pipes and wait for
    the session), [AccountHost], [SeedHost] ([SeedFs]: a directory and its descriptors),
    [DaemonHost] ([Processes]: sockets, children, and which of them have ended), [UserHost]
    ([UserFiles]: files by name, of which a write may reach only a part, and what the user
    types), [Terminal], [Network] ([Sockets]; [ClientSockets]: the other calls of the client
    leave them alone), [Prompt]. [Sample], [SampleServer],
    [SampleDaemon] and [SampleClient] hold instances that compute, so no class of laws is
    empty. The sample primitives are not secure; no theorem says that the primitives are.
    Security statements have the form "the peer sent a signature that verifies".

    ** What the theorems show

    - Log in on the server: [ServerSpec.serve_one_authorised] and
      [Daemon.daemon_children_authorized] (a program runs only for a user whose listed key
      signed this session), [ServerLogin.userauth_iff_valid_request],
      [AuthorizedKeys.authorized_ed25519_iff], [ServerChild.child_drops_privileges],
      [HostSeed.host_seed_correct], [Daemon.main_listens_with_stored_seed].
    - Trust in the server: [ClientMain.log_in_needs_trusted_key],
      [ClientKexSpec.exchange_kexinit_authenticates],
      [ClientSessionSpec.connect_authenticates_server],
      [KnownHosts.verify_host_key_decides], [KnownHosts.trust_on_first_use].
    - The two ends: [Link.kex_agreement], [ServerLogin.client_login_accepted],
      [Negotiate.kexinit_interoperates], [AuthorizedKeys.printed_key_is_entry].
    - Packets: [ClientPacket.recv_packet_authentic], [send_packet_wire],
      [recv_packet_accepts], [recv_packet_in_bounds] and its exception
      [recv_packet_short_overflow]; [Wire.read_view_bounds].
    - The client API: [ClientSessionSpec.api_reachable_invariant], [calls_out_of_order],
      [api_calls_terminate], [send_data_one_message], [recv_data_delivers].
    - Settings: [ClientOptions.settings_well_formed], [command_is_joined],
      [ClientConfig.config_first_value], [host_pattern_match_iff],
      [ClientKeyFile.openssh_key_file_loads].
    - Resources and progress: [Listen.listen_loop_bounded], [listen_pass_serves],
      [ClientNet.connect_attempts_sockets], [ClientSockets.main_closes_sockets],
      [ClientLoop.keepalives_bounded] (which keepalives a wait puts on the wire).
    - Reference definitions: [Keys.derive_key_block_rfc4253] (the first key exchange of a
      connection; later ones put the new hash in the place of the session id, which the RFC
      does not), [exchange_hash_rfc5656], [Crypto.hmac_rfc2104].

    ** Fuel

    A loop that the code bounds has its bound as fuel. A loop without one (read until the
    transport ends, accept, print until the channel closes) has [Host.forever], 2^62
    iterations; the termination theorems assume less than 2^62 unread bytes, more than any
    transport delivers. Scans of text have the length of the text or 2^32
    ([ClientKeyFile.key_fuel]), more than the largest object of a uint32_t length.
    A server that starts a key exchange within a key exchange makes
    [netnox_ssh_wait_for_message] recurse; [depth] bounds the nesting, and
    [ClientSessionSpec.api_calls_terminate] shows that the number of unread bytes is enough.
    Running out of fuel is the outcome [Diverge], never a result.

    ** Bounds and assumptions

    An integer is a [Z] with its wrap-around written at each operation that can wrap ([u8],
    [u32], ..). A pointer argument is not NULL, unless the code treats NULL as a case (then
    it is an option); a buffer is the list of its bytes, and a read or write outside it is
    the outcome [Oob]. The command line has at most 65535 arguments. malloc may fail where
    the code calls it in the server; addresses and descriptors are numbers.

    ** Not modelled

    - Output for people: debug output (NETNOX_SSH_DUMP_KEYS too), usage and error texts. They
      do not touch the state of the protocol.
    - Everything under _WIN32, with [srv_run_exec_win32] and the Windows accept loop.
    - NoxTLS, a git submodule, and the C library: the classes above.
    - server/embedded_adapter.h, which only declares an interface, and the smoke test
      tests/test_server_init.c.
    - The socket callbacks of client and daemon ([noxssh_send_cb], [noxssh_recv_cb]): they
      are the operations [send_cb] and [recv_cb] of [Host].
    - The clearing of secrets in memory where nothing reads the memory again.

    ** This file

    The shared vocabulary: machine-width integers, byte lists and C strings, and the tactics
    and hints the component files use. *)

From stdpp Require Export base list numbers strings sets.
From Stdlib Require Export ZArith Lia ZifyBool.

#[global] Open Scope Z_scope.

(** ** Machine-width integers *)

Definition u8 (z : Z) : Z := z mod 2 ^ 8.
Definition u16 (z : Z) : Z := z mod 2 ^ 16.
Definition u32 (z : Z) : Z := z mod 2 ^ 32.
Definition u64 (z : Z) : Z := z mod 2 ^ 64.

Definition is_u32 (z : Z) : Prop := 0 <= z < 2 ^ 32.

Create HintDb noxssh.

Lemma u8_small z : 0 <= z < 256 -> u8 z = z.
Proof. intros H. apply Z.mod_small. lia. Qed.
Lemma u16_small z : 0 <= z < 65536 -> u16 z = z.
Proof. intros H. apply Z.mod_small. lia. Qed.
Lemma u32_small z : is_u32 z -> u32 z = z.
Proof. intros H. apply Z.mod_small. exact H. Qed.
Lemma u64_small z : 0 <= z < 2 ^ 64 -> u64 z = z.
Proof. apply Z.mod_small. Qed.
Lemma u8_range z : 0 <= u8 z < 256.
Proof. apply (Z.mod_pos_bound z (2 ^ 8)). lia. Qed.
Lemma u32_range z : is_u32 (u32 z).
Proof. apply (Z.mod_pos_bound z (2 ^ 32)). lia. Qed.

(** ** Bytes and byte lists *)

Definition is_byte (b : Z) : Prop := 0 <= b < 256.
Definition bytes_ok (l : list Z) : Prop := Forall is_byte l.

#[export] Instance is_byte_dec b : Decision (is_byte b).
Proof. unfold is_byte. apply _. Defined.
#[export] Instance bytes_ok_dec l : Decision (bytes_ok l).
Proof. unfold bytes_ok. apply _. Defined.

(** Length of a list as the [Z] the code's [uint32_t] lengths are compared with. *)
Abbreviation zlen l := (Z.of_nat (length l)).

(** [take] and [drop] with the code's integer offsets. *)
Definition ztake (n : Z) (l : list Z) : list Z := take (Z.to_nat n) l.
Definition zdrop (n : Z) (l : list Z) : list Z := drop (Z.to_nat n) l.

(** A string literal as the bytes of the C string, without its terminator. *)
Definition bs (s : string) : list Z :=
  (fun a => Z.of_N (Ascii.N_of_ascii a)) <$> String.list_ascii_of_string s.

(** The C string held by a char array: its bytes up to the first NUL. *)
Fixpoint cstr (l : list Z) : list Z :=
  match l with
  | [] => []
  | b :: l' => if b =? 0 then [] else b :: cstr l'
  end.

Definition zeros (n : nat) : list Z := replicate n 0.

Lemma bytes_ok_nil : bytes_ok [].
Proof. constructor. Qed.
Lemma bytes_ok_cons b l : is_byte b -> bytes_ok l -> bytes_ok (b :: l).
Proof. by constructor. Qed.
Lemma bytes_ok_app l1 l2 : bytes_ok l1 -> bytes_ok l2 -> bytes_ok (l1 ++ l2).
Proof. intros ??. by apply Forall_app_2. Qed.
Lemma bytes_ok_app_iff l1 l2 : bytes_ok (l1 ++ l2) <-> bytes_ok l1 /\ bytes_ok l2.
Proof. apply Forall_app. Qed.
Lemma bytes_ok_take n l : bytes_ok l -> bytes_ok (take n l).
Proof. by apply Forall_take. Qed.
Lemma bytes_ok_drop n l : bytes_ok l -> bytes_ok (drop n l).
Proof. by apply Forall_drop. Qed.
Lemma bytes_ok_zeros n : bytes_ok (zeros n).
Proof. apply Forall_replicate. unfold is_byte. lia. Qed.
Lemma bytes_ok_bs s : bytes_ok (bs s).
Proof.
  apply Forall_fmap, Forall_true. intros a. unfold compose, is_byte.
  pose proof (Ascii.N_ascii_bounded a). lia.
Qed.
Lemma bytes_ok_u8 z : is_byte (u8 z).
Proof. apply u8_range. Qed.

#[export] Hint Resolve bytes_ok_nil bytes_ok_cons bytes_ok_app bytes_ok_take bytes_ok_drop
  bytes_ok_zeros bytes_ok_bs bytes_ok_u8 : noxssh.

Lemma cstr_prefix l : exists r, l = cstr l ++ r.
Proof.
  induction l as [|b l [r IH]]; simpl; [by exists []|].
  destruct (b =? 0); [by exists (b :: l)|].
  exists r. simpl. by rewrite <- IH.
Qed.
Lemma cstr_length l : (length (cstr l) <= length l)%nat.
Proof. destruct (cstr_prefix l) as [r E]. rewrite E at 2. rewrite length_app. lia. Qed.
Lemma cstr_bytes_ok l : bytes_ok l -> bytes_ok (cstr l).
Proof.
  intros H. destruct (cstr_prefix l) as [r E]. rewrite E in H.
  by apply bytes_ok_app_iff in H as [? _].
Qed.
Lemma cstr_no_nul l : ~ 0 ∈ l -> cstr l = l.
Proof.
  induction l as [|b l IH]; intros H; [done|]. simpl.
  destruct (Z.eqb_spec b 0) as [->|]; [set_solver|].
  f_equal. apply IH. set_solver.
Qed.
#[export] Hint Resolve cstr_bytes_ok : noxssh.

(** ** Lists *)

Lemma prefix_app_cases (w a b : list Z) : w `prefix_of` a ++ b ->
  w `prefix_of` a \/ exists w', w = a ++ w' /\ w' `prefix_of` b.
Proof.
  revert w. induction a as [|x a IH]; intros w Hw; [right; by exists w|].
  destruct w as [|y w]; [left; apply prefix_nil|]. destruct Hw as [k Hk]. injection Hk as <- Hk.
  destruct (IH w) as [Hl|(w' & -> & Hr)]; [by exists k|left; by apply prefix_cons|right; by exists w'].
Qed.
Lemma take_app_exact (l1 l2 : list Z) n : n = length l1 -> take n (l1 ++ l2) = l1.
Proof. intros ->. by rewrite take_app_length. Qed.
Lemma drop_app_exact (l1 l2 : list Z) n : n = length l1 -> drop n (l1 ++ l2) = l2.
Proof. intros ->. by rewrite drop_app_length. Qed.
Lemma ztake_all (l : list Z) n : zlen l <= n -> ztake n l = l.
Proof. intros H. unfold ztake. apply take_ge. lia. Qed.
Lemma ztake_length (l : list Z) n : 0 <= n <= zlen l -> zlen (ztake n l) = n.
Proof. intros H. unfold ztake. rewrite length_take. lia. Qed.
Lemma zdrop_length (l : list Z) n : 0 <= n <= zlen l -> zlen (zdrop n l) = zlen l - n.
Proof. intros H. unfold zdrop. rewrite length_drop. lia. Qed.
Lemma ztake_app_exact (l1 l2 : list Z) n : n = zlen l1 -> ztake n (l1 ++ l2) = l1.
Proof. intros ->. unfold ztake. apply take_app_exact. lia. Qed.
Lemma zdrop_app_exact (l1 l2 : list Z) n : n = zlen l1 -> zdrop n (l1 ++ l2) = l2.
Proof. intros ->. unfold zdrop. apply drop_app_exact. lia. Qed.
Lemma zdrop_0 (l : list Z) : zdrop 0 l = l.
Proof. apply drop_0. Qed.
Lemma ztake_bytes_ok n l : bytes_ok l -> bytes_ok (ztake n l).
Proof. apply bytes_ok_take. Qed.
Lemma zdrop_bytes_ok n l : bytes_ok l -> bytes_ok (zdrop n l).
Proof. apply bytes_ok_drop. Qed.
#[export] Hint Resolve ztake_bytes_ok zdrop_bytes_ok : noxssh.

(** Side conditions on lengths: push [length] through the list operations, then [lia]. *)
Ltac len_simpl :=
  unfold ztake, zdrop, zeros in *;
  repeat (progress (simpl length in *;
    rewrite ?length_app, ?length_take, ?length_drop, ?length_replicate, ?length_fmap in *)).
(** Arithmetic side conditions over the width predicates. *)
Ltac ulia := unfold is_u32, is_byte in *; lia.
Ltac len := len_simpl; ulia.
