(* ===== verification/CString.v ===== *)
(** Functions of the C library on strings and text streams, as the code uses them. A C
    string is the list of its characters, without the NUL. *)

From S2P Require Export Prelude.

(** ** Characters *)

(** The C locale. *)
Definition isspace (c : Z) : bool := (c =? 32) || ((9 <=? c) && (c <=? 13)).
Definition isdigit (c : Z) : bool := (48 <=? c) && (c <=? 57).
Definition tolower (c : Z) : Z := if (65 <=? c) && (c <=? 90) then c + 32 else c.

Fixpoint skip_space (s : list Z) : list Z :=
  match s with c :: s' => if isspace c then skip_space s' else s | [] => [] end.

(** ** Searching *)

(** [strstr(s, sub) != NULL] *)
Fixpoint strstr (s sub : list Z) : bool :=
  bool_decide (take (length sub) s = sub) || match s with [] => false | _ :: s' => strstr s' sub end.

(** What follows the first occurrence of [sub]. *)
Fixpoint strstr_after (s sub : list Z) : option (list Z) :=
  if bool_decide (take (length sub) s = sub) then Some (drop (length sub) s)
  else match s with [] => None | _ :: s' => strstr_after s' sub end.

(** What precedes the first occurrence of [sub]. *)
Fixpoint strstr_before (s sub : list Z) : option (list Z) :=
  if bool_decide (take (length sub) s = sub) then Some []
  else match s with [] => None | c :: s' => before ← strstr_before s' sub; Some (c :: before) end.

(** [strchr(s, c)]: the characters before and after the first [c]. *)
Fixpoint strchr_split (c : Z) (s : list Z) : option (list Z * list Z) :=
  match s with
  | [] => None
  | x :: s' =>
      if x =? c then Some ([], s')
      else '(a, b) ← strchr_split c s'; Some (x :: a, b)
  end.

(** [strrchr(s, c)]: the characters before and after the last [c]. *)
Fixpoint strrchr_split (c : Z) (s : list Z) : option (list Z * list Z) :=
  match s with
  | [] => None
  | x :: s' =>
      match strrchr_split c s' with
      | Some (a, b) => Some (x :: a, b)
      | None => if x =? c then Some ([], s') else None
      end
  end.

(** ** Numbers: [strtoul(s, &end, 10)] *)

Definition ULONG_MAX : Z := 2 ^ 64 - 1.

Fixpoint digits (s : list Z) : list Z * list Z :=
  match s with
  | c :: s' => if isdigit c then let '(d, r) := digits s' in (c :: d, r) else ([], s)
  | [] => ([], [])
  end.
Definition decimal (d : list Z) : Z := fold_left (fun v c => v * 10 + (c - 48)) d 0.

(** The value, and the rest at [end]; [None] when no number was there, and [end] is the
    start. A negative number is negated in unsigned arithmetic, a large one is
    ULONG_MAX. *)
Definition strtoul (s : list Z) : option (Z * list Z) :=
  let s := skip_space s in
  let '(neg, s) := match s with
                   | c :: s' => if c =? 45 then (true, s') else if c =? 43 then (false, s') else (false, s)
                   | [] => (false, [])
                   end in
  let '(d, rest) := digits s in
  if bool_decide (d = []) then None
  else
    let v := decimal d in
    Some (if v >? ULONG_MAX then ULONG_MAX else if (neg : bool) then u64 (- v) else v, rest).

(** The whole string is a number in the range. *)
Definition strtoul_all (s : list Z) (lo hi : Z) : option Z :=
  '(v, rest) ← strtoul s;
  if bool_decide (rest = []) && (lo <=? v) && (v <=? hi) then Some v else None.

(** [strtol(s, &end, 10)] of a whole string, in a range within that of [long]: a number
    beyond the range of [long] is cut to its ends, which lie outside. *)
Definition strtol_all (s : list Z) (lo hi : Z) : option Z :=
  let s := skip_space s in
  let '(neg, s) := match s with
                   | c :: s' => if c =? 45 then (true, s') else if c =? 43 then (false, s') else (false, s)
                   | [] => (false, [])
                   end in
  let '(d, rest) := digits s in
  let v := if (neg : bool) then - decimal d else decimal d in
  if negb (bool_decide (d = [])) && bool_decide (rest = []) && (lo <=? v) && (v <=? hi) then Some v else None.

(** ** Lines of a stream *)

(** [fgets] with room for [n] characters: a line with its LF, or [n] characters. *)
Fixpoint fgets (n : Z) (stream : list Z) : list Z * list Z :=
  match stream with
  | [] => ([], [])
  | c :: rest =>
      if n <=? 0 then ([], stream)
      else if c =? 10 then ([c], rest)
      else let '(line, rest) := fgets (n - 1) rest in (c :: line, rest)
  end.

Lemma fgets_split n stream : (fgets n stream).1 ++ (fgets n stream).2 = stream.
Proof.
  revert n. induction stream as [|c rest IH]; intros n; simpl; [done|].
  destruct (n <=? 0); [done|]. destruct (c =? 10); [done|]. specialize (IH (n - 1)).
  destruct (fgets (n - 1) rest) as [line rest']. simpl in *. by rewrite IH.
Qed.

Lemma fgets_progress n c rest : 0 < n -> (length (fgets n (c :: rest)).2 <= length rest)%nat.
Proof.
  intros Hn. pose proof (fgets_split n (c :: rest)) as Hs. apply (f_equal length) in Hs.
  rewrite length_app in Hs. simpl length in Hs at 3.
  enough (length (fgets n (c :: rest)).1 <> 0%nat) by lia. simpl.
  destruct (Z.leb_spec n 0); [lia|]. destruct (c =? 10); [done|]. by destruct (fgets (n - 1) rest).
Qed.

(** The lines of the file: each ends after its LF, or at the end of the file. *)
Fixpoint lines (stream : list Z) : list (list Z) :=
  match stream with
  | [] => []
  | c :: rest =>
      if c =? 10 then [c] :: lines rest
      else match lines rest with [] => [[c]] | line :: ls => (c :: line) :: ls end
  end.

Lemma lines_nil stream : lines stream = [] -> stream = [].
Proof. destruct stream as [|c rest]; [done|]. simpl. repeat case_match; done. Qed.

Lemma fgets_line n stream line ls : lines stream = line :: ls -> zlen line <= n ->
  exists rest, fgets n stream = (line, rest) /\ lines rest = ls.
Proof.
  revert n line ls. induction stream as [|c rest IH]; intros n line ls Hl Hn; [done|]. simpl in Hl |- *.
  destruct (c =? 10).
  - injection Hl as <- <-. simpl in Hn. destruct (Z.leb_spec n 0); [lia|]. by exists rest.
  - destruct (lines rest) as [|line' ls'] eqn:E.
    + injection Hl as <- <-. simpl in Hn. destruct (Z.leb_spec n 0); [lia|].
      rewrite (lines_nil _ E). by exists [].
    + injection Hl as <- <-. simpl in Hn. destruct (Z.leb_spec n 0); [lia|].
      destruct (IH (n - 1) line' ls' eq_refl ltac:(lia)) as (rest' & Hf & Hr). rewrite Hf. by exists rest'.
Qed.

Lemma fgets_full n junk rest : zlen junk = n -> 10 ∉ junk -> rest <> [] -> fgets n (junk ++ rest) = (junk, rest).
Proof.
  revert n. induction junk as [|c junk IH]; intros n Hn Hlf Hr.
  - simpl in Hn. subst n. destruct rest; done.
  - simpl in Hn |- *. destruct (Z.leb_spec n 0); [lia|].
    destruct (Z.eqb_spec c 10) as [->|]; [set_solver|]. rewrite IH; [done|lia|set_solver|done].
Qed.

(** ** A loop over [fgets] *)

Section pieces.
Context (n : Z).

(** The pieces in which [while(fgets(line, n + 1, f))] reads the stream. *)
Fixpoint pieces (fuel : nat) (stream : list Z) : list (list Z) :=
  match fuel, stream with
  | S fuel, _ :: _ => let '(line, rest) := fgets n stream in line :: pieces fuel rest
  | _, _ => []
  end.
Definition fgets_all (stream : list Z) : list (list Z) := pieces (length stream) stream.

Context (Hn : 0 < n).

(** When no line exceeds the buffer, the pieces are the lines. *)
Lemma fgets_all_lines stream : Forall (fun line => zlen line <= n) (lines stream) ->
  fgets_all stream = lines stream.
Proof.
  unfold fgets_all. assert (Hf : (length stream <= length stream)%nat) by lia. revert Hf.
  generalize (length stream) at 2 3. intros fuel. revert stream.
  induction fuel as [|fuel IH]; intros stream Hf Hall; [by destruct stream; [|simpl in Hf; lia]|].
  destruct stream as [|c rest]; [done|]. cbn [pieces].
  destruct (lines (c :: rest)) as [|line ls] eqn:E; [by apply lines_nil in E|].
  apply Forall_cons in Hall as [Hl Hls]. destruct (fgets_line n _ _ _ E Hl) as (rest' & Hfg & Hr).
  pose proof (fgets_progress n c rest Hn) as Hp. rewrite Hfg in Hp |- *. simpl in Hp, Hf.
  rewrite <- Hr in Hls |- *. f_equal. apply IH; [lia|done].
Qed.

Lemma pieces_fuel fuel stream : (length stream <= fuel)%nat -> pieces fuel stream = fgets_all stream.
Proof.
  unfold fgets_all. assert (Hg : forall f1 f2 s, (length s <= f1)%nat -> (length s <= f2)%nat -> pieces f1 s = pieces f2 s).
  { intros f1. induction f1 as [|f1 IH]; intros f2 s H1 H2; destruct s as [|c rest]; simpl in H1; try lia;
      [by destruct f2..|].
    destruct f2 as [|f2]; simpl in H2; [lia|]. cbn [pieces].
    pose proof (fgets_progress n c rest Hn) as Hp.
    destruct (fgets n (c :: rest)) as [line rest']. simpl in Hp. f_equal. apply IH; lia. }
  intros Hl. by apply Hg.
Qed.

Lemma fgets_all_full junk rest : zlen junk = n -> 10 ∉ junk -> rest <> [] ->
  fgets_all (junk ++ rest) = junk :: fgets_all rest.
Proof.
  intros Hl Hlf Hr. rewrite <- (pieces_fuel (S (length (junk ++ rest)))) by lia.
  destruct (junk ++ rest) as [|c s] eqn:E; [by apply app_nil in E as [_ ?]|]. cbn [pieces].
  rewrite <- E, fgets_full by done. rewrite pieces_fuel; [done|]. rewrite length_app. lia.
Qed.

Lemma fgets_all_concat stream : concat (fgets_all stream) = stream.
Proof.
  unfold fgets_all. assert (Hf : (length stream <= length stream)%nat) by lia. revert Hf.
  generalize (length stream) at 2 3. intros fuel. revert stream.
  induction fuel as [|fuel IH]; intros stream Hf; destruct stream as [|c rest]; simpl in Hf; try lia; [done..|].
  cbn [pieces]. pose proof (fgets_progress n c rest Hn) as Hp.
  pose proof (fgets_split n (c :: rest)) as Hs.
  destruct (fgets n (c :: rest)) as [line rest']. simpl in Hp, Hs. cbn [concat]. rewrite IH by lia. done.
Qed.

End pieces.

(** ** Formatting: "%u" *)

Fixpoint print_dec (fuel : nat) (v : Z) : list Z :=
  match fuel with
  | O => []
  | S fuel => if v <? 10 then [48 + v] else print_dec fuel (v / 10) ++ [48 + v mod 10]
  end.
(** A 32 bit number has at most ten digits. *)
Definition print_u (v : Z) : list Z := print_dec 10 v.

Lemma print_dec_digits fuel v : 0 <= v -> Forall (fun c => isdigit c = true) (print_dec fuel v).
Proof.
  unfold isdigit. revert v. induction fuel as [|fuel IH]; intros v Hv; simpl; [done|].
  destruct (Z.ltb_spec v 10); [repeat constructor; lia|].
  apply Forall_app. split; [apply IH; Z.to_euclidean_division_equations; lia|].
  repeat constructor. Z.to_euclidean_division_equations; lia.
Qed.
Lemma print_dec_nonempty fuel v : print_dec (S fuel) v <> [].
Proof. simpl. case_match; [done|]. by intros [_ ?]%app_nil. Qed.
Lemma print_dec_value fuel v : 0 <= v < 10 ^ Z.of_nat fuel -> decimal (print_dec fuel v) = v.
Proof.
  revert v. induction fuel as [|fuel IH]; intros v Hv; [unfold decimal; simpl; change (10 ^ Z.of_nat 0) with 1 in Hv; lia|].
  rewrite Nat2Z.inj_succ, Z.pow_succ_r in Hv by lia. simpl.
  destruct (Z.ltb_spec v 10); [unfold decimal; simpl; lia|]. unfold decimal. rewrite fold_left_app. simpl.
  fold (decimal (print_dec fuel (v / 10))). rewrite IH by (Z.to_euclidean_division_equations; lia).
  Z.to_euclidean_division_equations; lia.
Qed.

Lemma digits_app d rest : Forall (fun c => isdigit c = true) d ->
  match rest with [] => True | c :: _ => isdigit c = false end -> digits (d ++ rest) = (d, rest).
Proof.
  induction 1 as [|c d Hc Hd IH]; intros Hr; simpl.
  - destruct rest as [|c r]; [done|]. simpl. by rewrite Hr.
  - by rewrite Hc, IH.
Qed.

(** What "%u" prints is read back. *)
Lemma strtoul_print v rest : 0 <= v < 2 ^ 32 -> match rest with [] => True | c :: _ => isdigit c = false end ->
  strtoul (print_u v ++ rest) = Some (v, rest).
Proof.
  intros Hv Hr. unfold strtoul, print_u. pose proof (print_dec_digits 10 v ltac:(lia)) as Hd.
  pose proof (print_dec_nonempty 9 v) as Hne. pose proof (print_dec_value 10 v ltac:(simpl; lia)) as Hval.
  assert (Hs : skip_space (print_dec 10 v ++ rest) = print_dec 10 v ++ rest).
  { destruct (print_dec 10 v) as [|c d]; [done|]. apply Forall_cons in Hd as [Hc _]. simpl.
    replace (isspace c) with false by (unfold isspace, isdigit in *; lia). done. }
  rewrite Hs. destruct (print_dec 10 v) as [|c d] eqn:E; [done|]. rewrite <- app_comm_cons.
  pose proof Hd as Hd'. apply Forall_cons in Hd as [Hc _]. unfold isdigit in Hc.
  destruct (Z.eqb_spec c 45); [lia|]. destruct (Z.eqb_spec c 43); [lia|].
  rewrite app_comm_cons, digits_app by done. rewrite bool_decide_eq_false_2 by done. rewrite Hval.
  unfold ULONG_MAX. destruct (Z.gtb_spec v (2 ^ 64 - 1)); [lia|done].
Qed.

(** ** Words: "%255s" *)

(** Up to [n] characters that are not white space. *)
Fixpoint word (n : nat) (s : list Z) : list Z * list Z :=
  match n, s with
  | S n, c :: s' => if isspace c then ([], s) else let '(w, r) := word n s' in (c :: w, r)
  | _, _ => ([], s)
  end.
Definition scan_word (n : nat) (s : list Z) : option (list Z * list Z) :=
  let '(w, r) := word n (skip_space s) in if bool_decide (w = []) then None else Some (w, r).

Lemma word_app n w rest : Forall (fun c => isspace c = false) w -> (length w <= n)%nat ->
  match rest with [] => True | c :: _ => isspace c = true end -> word n (w ++ rest) = (w, rest).
Proof.
  intros Hw. revert n. induction Hw as [|c w Hc Hw IH]; intros n Hn Hr; simpl in *.
  - destruct n; [done|]. destruct rest as [|c r]; [done|]. simpl. by rewrite Hr.
  - destruct n as [|n]; [lia|]. simpl. rewrite Hc, IH by (done || lia). done.
Qed.
Lemma scan_word_app n w rest : w <> [] -> Forall (fun c => isspace c = false) w -> (length w <= n)%nat ->
  match rest with [] => True | c :: _ => isspace c = true end -> scan_word n (w ++ rest) = Some (w, rest).
Proof.
  intros Hne Hw Hn Hr. unfold scan_word.
  assert (Hs : skip_space (w ++ rest) = w ++ rest).
  { destruct w as [|c w]; [done|]. apply Forall_cons in Hw as [Hc _]. simpl. by rewrite Hc. }
  rewrite Hs, word_app by done. by rewrite bool_decide_eq_false_2.
Qed.

(** ** Appending to a text file *)

(** The file ends at the end of a line. *)
Definition ends_line (s : list Z) : Prop := s = [] \/ exists s', s = s' ++ [10].

Lemma ends_line_tail c s : ends_line (c :: s) -> c <> 10 -> s <> [] /\ ends_line s.
Proof.
  intros [|(s' & Hs)] Hc; [done|]. destruct s' as [|c' s']; simpl in Hs; [by injection Hs|].
  injection Hs as -> ->. split; [by destruct s'|]. right. by exists s'.
Qed.
Lemma ends_line_after c s : ends_line (c :: s) -> ends_line s.
Proof.
  intros [|(s' & Hs)]; [done|]. destruct s' as [|c' s']; simpl in Hs; injection Hs as -> ->; [by left|].
  right. by exists s'.
Qed.

Lemma fgets_ends_line n a b : a <> [] -> ends_line a ->
  fgets n (a ++ b) = ((fgets n a).1, (fgets n a).2 ++ b) /\ ends_line (fgets n a).2.
Proof.
  revert n. induction a as [|c a IH]; intros n Hne Ha; [done|]. simpl. destruct (n <=? 0); [done|].
  destruct (Z.eqb_spec c 10) as [->|Hc]; [split; [done|by eapply ends_line_after]|].
  destruct (ends_line_tail _ _ Ha Hc) as [Hne' Ha']. destruct (IH (n - 1) Hne' Ha') as [Hf He]. rewrite Hf.
  by destruct (fgets (n - 1) a).
Qed.

Lemma fgets_all_app n a b : 0 < n -> ends_line a -> fgets_all n (a ++ b) = fgets_all n a ++ fgets_all n b.
Proof.
  intros Hn. remember (length a) as k eqn:Hk. assert (Hle : (length a <= k)%nat) by lia. clear Hk.
  revert a Hle. induction k as [|k IH]; intros a Hle Ha; [by destruct a; [|simpl in Hle; lia]|].
  destruct a as [|c a]; [done|]. destruct (fgets_ends_line n (c :: a) b ltac:(done) Ha) as [Hf He].
  pose proof (fgets_progress n c a Hn) as Hp. unfold fgets_all. simpl length. cbn [app pieces].
  change (c :: a ++ b) with ((c :: a) ++ b). rewrite Hf. destruct (fgets n (c :: a)) as [line rest]. simpl in Hp, Hf, He |- *.
  f_equal. rewrite !pieces_fuel by (done || rewrite ?length_app; lia). apply IH; [simpl in Hle; lia|done].
Qed.

Lemma fgets_all_line n line : 0 < n -> 10 ∉ line -> zlen line + 1 <= n -> fgets_all n (line ++ [10]) = [line ++ [10]].
Proof.
  intros Hn Hl Hlen. assert (Hlines : lines (line ++ [10]) = [line ++ [10]]).
  { clear Hn Hlen. induction line as [|c line IH]; [done|]. simpl. destruct (Z.eqb_spec c 10) as [->|]; [set_solver|].
    rewrite IH by set_solver. done. }
  rewrite fgets_all_lines by (done || rewrite Hlines; repeat constructor; rewrite length_app; simpl; lia). done.
Qed.

Lemma fgets_all_single n line : 0 < n -> line <> [] -> 10 ∉ line -> zlen line <= n -> fgets_all n line = [line].
Proof.
  intros Hn Hne Hl Hlen. assert (Hlines : lines line = [line]).
  { clear Hn Hlen. induction line as [|c line IH]; [done|]. simpl. destruct (Z.eqb_spec c 10) as [->|]; [set_solver|].
    destruct line as [|c' line]; [done|]. rewrite IH by set_solver. done. }
  rewrite fgets_all_lines; [done|done|]. rewrite Hlines. by constructor.
Qed.

(** A number that is all of its string. *)
Lemma strtoul_digits s v rest : Forall (fun c => isdigit c = true) s -> strtoul s = Some (v, rest) -> rest = [].
Proof.
  intros Hd. pose proof (digits_app s [] Hd I) as Ha. rewrite app_nil_r in Ha.
  destruct s as [|c s]; [done|]. apply Forall_cons in Hd as [Hc _]. unfold isdigit in Hc. unfold strtoul. cbn [skip_space].
  replace (isspace c) with false by (unfold isspace; lia).
  destruct (Z.eqb_spec c 45); [lia|]. destruct (Z.eqb_spec c 43); [lia|]. rewrite Ha.
  case_bool_decide; [done|]. by intros [= _ <-].
Qed.
