(* ===== verification/Outcome.v ===== *)
(** The effects of the modelled C functions: the outcome of a call (a value, an
    error code, an access outside an object, or exhausted fuel), the state monad
    over it, its program logic [wp], and bounded loops with binary fuel. *)

From S2P Require Export Prelude.

(** Return codes of the library ([netnox_return_t]). *)
Inductive netnox_return_t : Type :=
| NETNOX_RETURN_SUCCESS
| NETNOX_RETURN_FAILED
| NETNOX_RETURN_BAD_PARAM
| NETNOX_RETURN_NULL
| NETNOX_RETURN_INSUFF_MEMORY
| NETNOX_RETURN_PORT_IN_USE
| NETNOX_RETURN_PORT_NOT_EXIT
| NETNOX_RETURN_INVALID_PKT
| NETNOX_RETURN_UNKNOWN_PROTOCOL
| NETNOX_RETURN_AUTH_REJECTED.

#[export] Instance netnox_return_eq_dec : EqDecision netnox_return_t.
Proof. solve_decision. Defined.

(** [Ok a]: the function returned NETNOX_RETURN_SUCCESS with results [a].
    [Err rc]: it returned the error code [rc].
    [Oob]: it accessed memory outside the object (or the initialised part of it).
    [Diverge]: a loop ran out of the fuel the model gave it. *)
Inductive outcome (A : Type) : Type :=
| Ok (a : A)
| Err (rc : netnox_return_t)
| Oob
| Diverge.
Arguments Ok {A} a.
Arguments Err {A} rc.
Arguments Oob {A}.
Arguments Diverge {A}.

#[export] Instance outcome_eq_dec `{EqDecision A} : EqDecision (outcome A).
Proof. solve_decision. Defined.

#[export] Instance outcome_ret : MRet outcome := fun A a => Ok a.
#[export] Instance outcome_bind : MBind outcome := fun A B f m =>
  match m with Ok a => f a | Err rc => Err rc | Oob => Oob | Diverge => Diverge end.

(** [if(f(..) != NETNOX_RETURN_SUCCESS) return rc;] *)
Definition orc {A} (rc : netnox_return_t) (m : outcome A) : outcome A :=
  match m with Err _ => Err rc | _ => m end.

(** [if(c) return rc;] *)
Definition check (ok : bool) (rc : netnox_return_t) : outcome unit :=
  if ok then Ok tt else Err rc.

Definition is_ok {A} (o : outcome A) : bool := match o with Ok _ => true | _ => false end.

(** The access stayed inside the object. *)
Definition in_bounds {A} (o : outcome A) : Prop := o <> Oob.

Lemma outcome_bind_Ok {A B} (m : outcome A) (f : A -> outcome B) b :
  m ≫= f = Ok b -> exists a, m = Ok a /\ f a = Ok b.
Proof. destruct m; simpl; intros; try done. by eexists. Qed.
Lemma orc_Ok {A} rc (m : outcome A) a : orc rc m = Ok a -> m = Ok a.
Proof. by destruct m. Qed.
Lemma check_Ok b rc u : check b rc = Ok u -> b = true.
Proof. by destruct b. Qed.

(** Split a successful sequence of fallible steps into its steps. *)
Ltac inv_ok :=
  repeat match goal with
  | H : _ ≫= _ = Ok _ |- _ =>
      let a := fresh "a" in let Ha := fresh "Hok" in
      apply outcome_bind_Ok in H as (a & Ha & H)
  | H : orc _ _ = Ok _ |- _ => apply orc_Ok in H
  | H : check _ _ = Ok _ |- _ => apply check_Ok in H
  | H : Ok _ = Ok _ |- _ => injection H as H; subst
  | H : Err _ = Ok _ |- _ => discriminate H
  | H : (let '(_, _) := ?p in _) = Ok _ |- _ => destruct p eqn:?
  end.

(** The fuel sufficed. *)
Definition terminates {A} (o : outcome A) : Prop := o <> Diverge.

Lemma terminates_bind {A B} (m : outcome A) (f : A -> outcome B) :
  terminates m -> (forall a, terminates (f a)) -> terminates (m ≫= f).
Proof. unfold terminates. by destruct m; simpl. Qed.
Lemma terminates_orc {A} rc (m : outcome A) : terminates m -> terminates (orc rc m).
Proof. unfold terminates. by destruct m. Qed.
Lemma terminates_check b rc : terminates (check b rc).
Proof. by destruct b. Qed.
Lemma terminates_ok {A} (a : A) : terminates (Ok a).
Proof. done. Qed.
Lemma terminates_err {A} rc : terminates (@Err A rc).
Proof. done. Qed.
Lemma terminates_oob {A} : terminates (@Oob A).
Proof. done. Qed.
#[export] Hint Resolve terminates_check terminates_ok terminates_err terminates_oob : noxssh.

Ltac terminate :=
  repeat match goal with
  | |- terminates (_ ≫= _) => apply terminates_bind; [|intros ?]
  | |- terminates (orc _ _) => apply terminates_orc
  | |- terminates (if ?b then _ else _) => destruct b
  | |- terminates (let '(_, _) := ?p in _) => destruct p
  end; auto with noxssh.

(** ** The state monad *)

Definition M (S A : Type) : Type := S -> outcome A * S.

#[export] Instance M_ret {S} : MRet (M S) := fun A a s => (Ok a, s).
#[export] Instance M_bind {S} : MBind (M S) := fun A B f m s =>
  match m s with
  | (Ok a, s') => f a s'
  | (Err rc, s') => (Err rc, s')
  | (Oob, s') => (Oob, s')
  | (Diverge, s') => (Diverge, s')
  end.

Definition lift {S A} (o : outcome A) : M S A := fun s => (o, s).
Definition get {S} : M S S := fun s => (Ok s, s).
Definition gets {S A} (f : S -> A) : M S A := fun s => (Ok (f s), s).
Definition modify {S} (f : S -> S) : M S unit := fun s => (Ok tt, f s).
Definition fail {S A} (rc : netnox_return_t) : M S A := fun s => (Err rc, s).

(** [if(f(..) != NETNOX_RETURN_SUCCESS) return rc;] *)
Definition or_return {S A} (m : M S A) (rc : netnox_return_t) : M S A := fun s =>
  let '(o, s') := m s in (orc rc o, s').

(** [if(!c) return rc;] *)
Definition guard_m {S} (ok : bool) (rc : netnox_return_t) : M S unit := lift (check ok rc).

(** [(void)f(..);] : the return code is ignored, faults are not. *)
Definition ignore {S A} (m : M S A) : M S unit := fun s =>
  match m s with
  | (Ok _, s') | (Err _, s') => (Ok tt, s')
  | (Oob, s') => (Oob, s')
  | (Diverge, s') => (Diverge, s')
  end.

(** [rc = f(..);] : the return code is a value the caller goes on with. *)
Definition return_code {S A} (m : M S A) : M S netnox_return_t := fun s =>
  match m s with
  | (Ok _, s') => (Ok NETNOX_RETURN_SUCCESS, s')
  | (Err rc, s') => (Ok rc, s')
  | (Oob, s') => (Oob, s')
  | (Diverge, s') => (Diverge, s')
  end.

(** [if(f(..) != NETNOX_RETURN_SUCCESS) ..] with another continuation than a return. *)
Definition attempt {S A} (m : M S A) : M S (option A) := fun s =>
  match m s with
  | (Ok a, s') => (Ok (Some a), s')
  | (Err _, s') => (Ok None, s')
  | (Oob, s') => (Oob, s')
  | (Diverge, s') => (Diverge, s')
  end.

Notation "'try' m" := (or_return m NETNOX_RETURN_FAILED) (at level 58, m at level 57, only parsing).

(** Running a first step whose result is known. *)
Section run.
Context {S : Type}.
Lemma bind_gets {A B} (f : S -> A) (k : A -> M S B) s : (gets f ≫= k) s = k (f s) s.
Proof. done. Qed.
Lemma bind_lift_ok {A B} (a : A) (k : A -> M S B) s : (lift (Ok a) ≫= k) s = k a s.
Proof. done. Qed.
Lemma bind_guard {B} b rc (k : unit -> M S B) s :
  (guard_m b rc ≫= k) s = if b then k tt s else (Err rc, s).
Proof. by destruct b. Qed.
Lemma bind_try_ok {A B} (a : A) rc (k : A -> M S B) s : (or_return (lift (Ok a)) rc ≫= k) s = k a s.
Proof. done. Qed.
Lemma bind_attempt_ok {A B} (a : A) (k : option A -> M S B) s :
  (attempt (lift (Ok a)) ≫= k) s = k (Some a) s.
Proof. done. Qed.
Lemma bind_modify {B} (f : S -> S) (k : unit -> M S B) s : (modify f ≫= k) s = k tt (f s).
Proof. done. Qed.
Lemma bind_run {A B} (m : M S A) (k : A -> M S B) s a s' :
  m s = (Ok a, s') -> (m ≫= k) s = k a s'.
Proof. unfold mbind, M_bind. by intros ->. Qed.
Lemma try_run {A} (m : M S A) rc s a s' : m s = (Ok a, s') -> or_return m rc s = (Ok a, s').
Proof. unfold or_return. by intros ->. Qed.
End run.
Create Rewrite HintDb run.
#[export] Hint Rewrite @bind_gets @bind_lift_ok @bind_try_ok @bind_attempt_ok @bind_guard @bind_modify : run.

(** ** Program logic: the outcome and final state of [m] from [s] satisfy [Q] *)

Definition wp {S A} (m : M S A) (Q : outcome A -> S -> Prop) (s : S) : Prop :=
  let '(o, s') := m s in Q o s'.

(** Continue with [k] on success, fall through to [Q] otherwise. *)
Definition ok_or {S A B} (k : A -> S -> Prop) (Q : outcome B -> S -> Prop)
    (o : outcome A) (s : S) : Prop :=
  match o with
  | Ok a => k a s
  | Err rc => Q (Err rc) s
  | Oob => Q Oob s
  | Diverge => Q Diverge s
  end.

Section wp.
Context {S : Type}.

Lemma wp_bind {A B} (m : M S A) (f : A -> M S B) Q s :
  wp m (ok_or (fun a => wp (f a) Q) Q) s -> wp (mbind f m) Q s.
Proof.
  unfold wp, mbind, M_bind, ok_or. destruct (m s) as [[a|rc| |] s']; auto.
Qed.
Lemma wp_ret {A} (a : A) (Q : outcome A -> S -> Prop) s : Q (Ok a) s -> wp (mret a) Q s.
Proof. auto. Qed.
Lemma wp_lift {A} (o : outcome A) (Q : outcome A -> S -> Prop) s : Q o s -> wp (lift o) Q s.
Proof. auto. Qed.
Lemma wp_get (Q : outcome S -> S -> Prop) s : Q (Ok s) s -> wp get Q s.
Proof. auto. Qed.
Lemma wp_gets {A} (f : S -> A) Q s : Q (Ok (f s)) s -> wp (gets f) Q s.
Proof. auto. Qed.
Lemma wp_modify (f : S -> S) Q s : Q (Ok tt) (f s) -> wp (modify f) Q s.
Proof. auto. Qed.
Lemma wp_fail {A} rc (Q : outcome A -> S -> Prop) s : Q (Err rc) s -> wp (fail rc) Q s.
Proof. auto. Qed.
Lemma wp_guard ok rc (Q : outcome unit -> S -> Prop) s :
  (ok = true -> Q (Ok tt) s) -> (ok = false -> Q (Err rc) s) -> wp (guard_m ok rc) Q s.
Proof. unfold wp, guard_m, lift, check. destruct ok; auto. Qed.
Lemma wp_or_return {A} (m : M S A) rc Q s :
  wp m (fun o s' => Q (orc rc o) s') s -> wp (or_return m rc) Q s.
Proof. unfold wp, or_return. by destruct (m s). Qed.
Lemma wp_mono {A} (m : M S A) (P Q : outcome A -> S -> Prop) s :
  wp m P s -> (forall o s', P o s' -> Q o s') -> wp m Q s.
Proof. unfold wp. destruct (m s). auto. Qed.
Lemma wp_and {A} (m : M S A) (P Q : outcome A -> S -> Prop) s :
  wp m P s -> wp m Q s -> wp m (fun o s' => P o s' /\ Q o s') s.
Proof. unfold wp. destruct (m s). auto. Qed.
Lemma wp_ignore {A} (m : M S A) Q s :
  wp m (fun o s' => match o with
                    | Ok _ | Err _ => Q (Ok tt) s'
                    | Oob => Q Oob s' | Diverge => Q Diverge s' end) s ->
  wp (ignore m) Q s.
Proof. unfold wp, ignore. destruct (m s) as [[]]; auto. Qed.
Lemma wp_return_code {A} (m : M S A) Q s :
  wp m (fun o s' => match o with
                    | Ok _ => Q (Ok NETNOX_RETURN_SUCCESS) s' | Err rc => Q (Ok rc) s'
                    | Oob => Q Oob s' | Diverge => Q Diverge s' end) s ->
  wp (return_code m) Q s.
Proof. unfold wp, return_code. destruct (m s) as [[]]; auto. Qed.
Lemma wp_attempt {A} (m : M S A) Q s :
  wp m (fun o s' => match o with
                    | Ok a => Q (Ok (Some a)) s' | Err _ => Q (Ok None) s'
                    | Oob => Q Oob s' | Diverge => Q Diverge s' end) s ->
  wp (attempt m) Q s.
Proof. unfold wp, attempt. destruct (m s) as [[]]; auto. Qed.
Lemma wp_run {A} (m : M S A) Q s o s' : wp m Q s -> m s = (o, s') -> Q o s'.
Proof. unfold wp. intros H E. by rewrite E in H. Qed.
Lemma wp_intro {A} (m : M S A) (Q : outcome A -> S -> Prop) s :
  (forall o s', m s = (o, s') -> Q o s') -> wp m Q s.
Proof. unfold wp. destruct (m s). auto. Qed.
End wp.

(** ** Loops *)

(** Run [body] up to [p] times, stopping as soon as it yields [inr]. The fuel is
    binary, so a bound such as [2 ^ 32] costs nothing when the loop ends early. *)
Fixpoint loop_pos {S A B} (p : positive) (body : A -> M S (A + B)) (a : A) : M S (A + B) :=
  match p with
  | xH => body a
  | xO q =>
      r ← loop_pos q body a;
      match r with inl a' => loop_pos q body a' | inr b => mret (inr b) end
  | xI q =>
      r ← body a;
      match r with
      | inl a' =>
          r' ← loop_pos q body a';
          match r' with inl a'' => loop_pos q body a'' | inr b => mret (inr b) end
      | inr b => mret (inr b)
      end
  end.

Definition loop {S A B} (fuel : positive) (body : A -> M S (A + B)) (a : A) : M S B :=
  r ← loop_pos fuel body a;
  match r with inl _ => lift Diverge | inr b => mret b end.

Section loop.
Context {S A B : Type} (body : A -> M S (A + B)).
Context (I : A -> S -> Prop) (mu : A -> S -> Z) (Q : outcome B -> S -> Prop).

(** One more iteration: the invariant holds again and the measure went down. *)
Definition loop_step (a : A) (s : S) (k : Z) (o : outcome (A + B)) (s' : S) : Prop :=
  match o with
  | Ok (inl a') => I a' s' /\ 0 <= mu a' s' /\ mu a' s' + k <= mu a s
  | Ok (inr b) => Q (Ok b) s'
  | Err rc => Q (Err rc) s'
  | Oob => Q Oob s'
  | Diverge => Q Diverge s'
  end.

Hypothesis step : forall a s, I a s -> wp (body a) (loop_step a s 1) s.

Lemma wp_loop_pos p : forall a s, I a s -> wp (loop_pos p body a) (loop_step a s (Zpos p)) s.
Proof.
  assert (again : forall q a s k,
    (forall a s, I a s -> wp (loop_pos q body a) (loop_step a s (Zpos q)) s) ->
    forall m : M S (A + B), wp m (loop_step a s k) s ->
    wp (r ← m; match r with inl a' => loop_pos q body a' | inr b => mret (inr b) end)
       (loop_step a s (k + Zpos q)) s).
  { intros q a s k IH m Hm. apply wp_bind. eapply wp_mono; [exact Hm|].
    intros [[a'|b]| | |] s'; simpl; auto.
    intros (HI & ? & Hle). eapply wp_mono; [by apply IH|].
    intros [[a''|b]| | |] s''; simpl; auto. intros (?&?&?). split_and!; auto; lia. }
  induction p as [q IH|q IH|]; intros a s HI; simpl.
  - replace (Zpos q~1) with (1 + Zpos q~0) by lia.
    apply wp_bind. eapply wp_mono; [by apply step|].
    intros [[a'|b]| | |] s'; simpl; auto.
    intros (HI' & ? & Hle). eapply wp_mono; [apply again; [exact IH|by apply IH]|].
    intros [[a''|b]| | |] s''; simpl; auto. intros (?&?&?). split_and!; auto; lia.
  - replace (Zpos q~0) with (Zpos q + Zpos q) by lia. by apply again; [|apply IH].
  - by apply step.
Qed.

(** Total correctness: fuel above the measure is never exhausted. *)
Lemma wp_loop fuel a s :
  I a s -> 0 <= mu a s < Zpos fuel -> wp (loop fuel body a) Q s.
Proof.
  intros HI Hmu. apply wp_bind. eapply wp_mono; [by apply wp_loop_pos|].
  intros [[a'|b]| | |] s'; simpl; auto. lia.
Qed.
End loop.

(** Partial correctness: any fuel, when the postcondition tolerates exhaustion. *)
Lemma wp_loop_partial {S A B} (body : A -> M S (A + B)) (I : A -> S -> Prop)
    (Q : outcome B -> S -> Prop) fuel :
  (forall a s, I a s -> Q Diverge s) ->
  (forall a s, I a s ->
     wp (body a) (fun o s' => match o with
                              | Ok (inl a') => I a' s' | Ok (inr b) => Q (Ok b) s'
                              | Err rc => Q (Err rc) s' | Oob => Q Oob s'
                              | Diverge => Q Diverge s' end) s) ->
  forall a s, I a s -> wp (loop fuel body a) Q s.
Proof.
  intros HD step a s HI. apply wp_bind.
  enough (H : forall p a s, I a s -> wp (loop_pos p body a)
    (fun o s' => match o with
                 | Ok (inl a') => I a' s' | Ok (inr b) => Q (Ok b) s'
                 | Err rc => Q (Err rc) s' | Oob => Q Oob s'
                 | Diverge => Q Diverge s' end) s).
  { eapply wp_mono; [by apply H|]. intros [[]| | |] s'; simpl; auto. apply HD. }
  clear a s HI. induction p as [q IH|q IH|]; intros a s HI; simpl; auto.
  - apply wp_bind. eapply wp_mono; [by apply step|].
    intros [[a'|b]| | |] s'; simpl; auto. intros HI'.
    apply wp_bind. eapply wp_mono; [by apply IH|].
    intros [[a''|b]| | |] s''; simpl; auto.
  - apply wp_bind. eapply wp_mono; [by apply IH|].
    intros [[a'|b]| | |] s'; simpl; auto.
Qed.

(** One step of symbolic execution in [wp]. *)
Ltac wp_step :=
  first
    [ apply wp_bind
    | apply wp_ret
    | apply wp_lift
    | apply wp_gets
    | apply wp_get
    | apply wp_modify
    | apply wp_fail
    | apply wp_or_return
    | apply wp_ignore
    | apply wp_return_code ]; simpl.

Ltac wp_steps := repeat wp_step.
