(* ===== verification/Wire.v ===== *)
(** The SSH data representation: big-endian [uint32], length-prefixed strings,
    mpints, and the bounded payload builders and readers of
    common/noxssh_common.c. A payload buffer is the list of the bytes written so
    far (its length is the C [*payload_len]); a pointer the code reads through is
    the memory from that byte to the end of the object. *)

From S2P Require Export Outcome.

(** ** Big-endian uint32 *)

Definition netnox_ssh_write_u32_be (value : Z) : list Z :=
  [ Z.land (Z.shiftr value 24) 255;
    Z.land (Z.shiftr value 16) 255;
    Z.land (Z.shiftr value 8) 255;
    Z.land value 255 ].

Definition netnox_ssh_read_u32_be (in0 in1 in2 in3 : Z) : Z :=
  Z.lor (Z.lor (Z.lor (Z.shiftl in0 24) (Z.shiftl in1 16)) (Z.shiftl in2 8)) in3.

(** ** Memory *)

(** [n] bytes at offset [off] of an object. *)
Definition mem_read (mem : list Z) (off n : Z) : outcome (list Z) :=
  if (0 <=? off) && (off + n <=? zlen mem) then Ok (ztake n (zdrop off mem)) else Oob.

(** One byte, [mem\[off\]]. *)
Definition mem_byte (mem : list Z) (off : Z) : outcome Z :=
  if 0 <=? off then match mem !! Z.to_nat off with Some b => Ok b | None => Oob end else Oob.

(** What [netnox_ssh_payload_read_string_view] hands out: a pointer (the memory
    from the first byte of the field on) and the length the peer claimed. *)
Record view : Type := mkView { v_mem : list Z; v_len : Z }.

Definition null_view : view := mkView [] 0.

(** The bytes of a view, as [memcpy] reads them. *)
Definition view_bytes (v : view) : outcome (list Z) := mem_read (v_mem v) 0 (v_len v).

(** [v.len == strlen(s) && memcmp(v.data, s, v.len) == 0] *)
Definition view_is (v : view) (s : list Z) : outcome bool :=
  if v_len v =? zlen s then d ← mem_read (v_mem v) 0 (zlen s); Ok (bool_decide (d = s)) else Ok false.

(** The field lies inside the object it points into. *)
Definition view_valid (v : view) : Prop := 0 <= v_len v <= zlen (v_mem v).

(** ** Payload builders *)

(** [memcpy]/stores behind the capacity test [claimed > payload_max]: [n] bytes
    are written at [payload\[*payload_len\]]. *)
Definition put (payload : list Z) (payload_max claimed : Z) (data : list Z) : outcome (list Z) :=
  if claimed >? payload_max then Err NETNOX_RETURN_BAD_PARAM
  else if zlen payload + zlen data >? payload_max then Oob
  else Ok (payload ++ data).

Definition netnox_ssh_payload_append_u8 (payload : list Z) (payload_max value : Z) :=
  put payload payload_max (u32 (zlen payload + 1)) [value].

Definition netnox_ssh_payload_append_u32 (payload : list Z) (payload_max value : Z) :=
  put payload payload_max (u32 (zlen payload + 4)) (netnox_ssh_write_u32_be value).

Definition netnox_ssh_payload_append_string (payload : list Z) (payload_max : Z) (str : list Z) :=
  let str_len := u32 (zlen str) in
  put payload payload_max (u32 (u32 (zlen payload + 4) + str_len))
    (netnox_ssh_write_u32_be str_len ++ str).

Definition netnox_ssh_payload_append_namelist (payload : list Z) (payload_max : Z) (names : list Z) :=
  let list_len := u32 (zlen names) in
  put payload payload_max (u32 (u32 (zlen payload + 4) + list_len))
    (netnox_ssh_write_u32_be list_len ++ names).

Definition netnox_ssh_buf_append (out : list Z) (out_max : Z) (data : list Z) :=
  put out out_max (u32 (zlen out + u32 (zlen data))) data.

(** Index of the first non-zero byte ([while(first < in_len && in\[first\] == 0)]). *)
Fixpoint skip_zeros (l : list Z) : list Z :=
  match l with b :: l' => if b =? 0 then skip_zeros l' else l | [] => [] end.

Definition netnox_ssh_buf_append_mpint_be (out : list Z) (out_max : Z) (input : list Z) :=
  match skip_zeros input with
  | [] => netnox_ssh_payload_append_u32 out out_max 0
  | b :: rest =>
      let value := b :: rest in
      let value_len := zlen value in
      out ← (if negb (Z.land b 128 =? 0) then
               out ← orc NETNOX_RETURN_BAD_PARAM
                       (netnox_ssh_payload_append_u32 out out_max (u32 (value_len + 1)));
               orc NETNOX_RETURN_BAD_PARAM (netnox_ssh_buf_append out out_max [0])
             else orc NETNOX_RETURN_BAD_PARAM (netnox_ssh_payload_append_u32 out out_max value_len));
      netnox_ssh_buf_append out out_max value
  end.

Definition netnox_ssh_buf_append_mpint_be_32 (out : list Z) (out_max : Z) (input : list Z) :=
  if u32 (u32 (zlen out + 4) + 33) >? out_max then Err NETNOX_RETURN_BAD_PARAM
  else
    in32 ← mem_read input 0 32;
    let b0 := default 0 (head in32) in
    let data := if negb (Z.land b0 128 =? 0)
                then netnox_ssh_write_u32_be 33 ++ [0] ++ in32
                else netnox_ssh_write_u32_be 32 ++ in32 in
    if zlen out + zlen data >? out_max then Oob else Ok (out ++ data).

(** ** Payload readers *)

Definition netnox_ssh_payload_read_u32 (payload : list Z) (payload_len offset : Z)
    : outcome (Z * Z) :=
  if u32 (offset + 4) >? payload_len then Err NETNOX_RETURN_BAD_PARAM
  else
    d ← mem_read payload offset 4;
    match d with
    | [b0; b1; b2; b3] => Ok (netnox_ssh_read_u32_be b0 b1 b2 b3, u32 (offset + 4))
    | _ => Oob
    end.

Definition netnox_ssh_payload_read_string_view (payload : list Z) (payload_len offset : Z)
    : outcome (view * Z) :=
  '(str_len, offset) ← orc NETNOX_RETURN_BAD_PARAM
                         (netnox_ssh_payload_read_u32 payload payload_len offset);
  if u32 (offset + str_len) >? payload_len then Err NETNOX_RETURN_BAD_PARAM
  else Ok (mkView (zdrop offset payload) str_len, u32 (offset + str_len)).

(** Reading from a payload whose length is the length of the object. *)
Definition read_u32 (p : list Z) (off : Z) := netnox_ssh_payload_read_u32 p (zlen p) off.
Definition read_view (p : list Z) (off : Z) := netnox_ssh_payload_read_string_view p (zlen p) off.

(** ** Specification: the RFC 4251 encodings *)

(** Unsigned big-endian value of a byte string. *)
Definition be_value (l : list Z) : Z := fold_left (fun acc b => acc * 256 + b) l 0.

(** RFC 4251 section 5 [string]. *)
Definition str_field (s : list Z) : list Z := netnox_ssh_write_u32_be (zlen s) ++ s.

(** RFC 4251 section 5 [mpint] of a non-negative number: no unnecessary leading
    zero bytes, the sign bit clear, zero as the empty string. *)
Definition mpint_canonical (body : list Z) : Prop :=
  match body with
  | [] => True
  | [b] => 0 < b < 128
  | b :: b' :: _ => 0 <= b < 128 /\ (b = 0 -> 128 <= b')
  end.

(** The mpint body the code writes. *)
Definition mpint_body (input : list Z) : list Z :=
  match skip_zeros input with
  | [] => []
  | b :: rest => if negb (Z.land b 128 =? 0) then 0 :: b :: rest else b :: rest
  end.

(** ** Facts: big-endian integers *)

Lemma lor_shiftl_add a b n : 0 <= n -> 0 <= b < 2 ^ n -> Z.lor (Z.shiftl a n) b = a * 2 ^ n + b.
Proof.
  intros Hn Hb. rewrite Z.add_comm, <- (Z.shiftl_mul_pow2 a n) by done.
  pose proof (Z.add_lor_land b (Z.shiftl a n)) as E.
  enough (Z.land b (Z.shiftl a n) = 0) as Hz by (rewrite Z.lor_comm; lia).
  apply Z.bits_inj'. intros i Hi. rewrite Z.land_spec, Z.bits_0.
  destruct (Z.ltb_spec i n).
  - rewrite (Z.shiftl_spec_low a n i) by lia. apply andb_false_r.
  - rewrite <- (Z.mod_small b (2 ^ n)), Z.mod_pow2_bits_high by lia. done.
Qed.

Lemma read_u32_be_value b0 b1 b2 b3 :
  is_byte b0 -> is_byte b1 -> is_byte b2 -> is_byte b3 ->
  netnox_ssh_read_u32_be b0 b1 b2 b3 = be_value [b0; b1; b2; b3].
Proof.
  unfold is_byte, netnox_ssh_read_u32_be, be_value. intros H0 H1 H2 H3. cbn [fold_left].
  replace (Z.shiftl b1 16) with (b1 * 2 ^ 16) by (rewrite Z.shiftl_mul_pow2; lia).
  rewrite lor_shiftl_add by lia.
  replace (b0 * 2 ^ 24 + b1 * 2 ^ 16) with (Z.shiftl (b0 * 256 + b1) 16)
    by (rewrite Z.shiftl_mul_pow2; lia).
  replace (Z.shiftl b2 8) with (b2 * 2 ^ 8) by (rewrite Z.shiftl_mul_pow2; lia).
  rewrite lor_shiftl_add by lia.
  replace ((b0 * 256 + b1) * 2 ^ 16 + b2 * 2 ^ 8) with (Z.shiftl ((b0 * 256 + b1) * 256 + b2) 8)
    by (rewrite Z.shiftl_mul_pow2; lia).
  rewrite lor_shiftl_add by lia. lia.
Qed.

Lemma land_255 z : Z.land z 255 = z mod 256.
Proof. change 255 with (Z.ones 8). apply Z.land_ones. lia. Qed.

Lemma write_u32_be_bytes v :
  netnox_ssh_write_u32_be v =
  [v / 2 ^ 24 mod 256; v / 2 ^ 16 mod 256; v / 2 ^ 8 mod 256; v mod 256].
Proof.
  unfold netnox_ssh_write_u32_be. rewrite !land_255, !Z.shiftr_div_pow2 by lia. done.
Qed.

Lemma write_u32_be_length v : length (netnox_ssh_write_u32_be v) = 4%nat.
Proof. done. Qed.

Lemma write_u32_be_bytes_ok v : bytes_ok (netnox_ssh_write_u32_be v).
Proof.
  rewrite write_u32_be_bytes. repeat constructor; apply (Z.mod_pos_bound _ 256); lia.
Qed.

Lemma be_value_write_u32_be v : is_u32 v -> be_value (netnox_ssh_write_u32_be v) = v.
Proof.
  intros [H0 H1]. rewrite write_u32_be_bytes. unfold be_value. cbn [fold_left].
  pose proof (Z.div_mod v 256 ltac:(lia)). pose proof (Z.div_mod (v / 256) 256 ltac:(lia)).
  pose proof (Z.div_mod (v / 256 / 256) 256 ltac:(lia)).
  replace (v / 2 ^ 24) with (v / 256 / 256 / 256) by (rewrite !Z.div_div by lia; done).
  replace (v / 2 ^ 16) with (v / 256 / 256) by (rewrite !Z.div_div by lia; done).
  change (2 ^ 8) with 256.
  rewrite (Z.mod_small (v / 256 / 256 / 256) 256); [lia|].
  rewrite !Z.div_div by lia. split; [apply Z.div_pos; lia|].
  apply Z.div_lt_upper_bound; lia.
Qed.

Lemma read_write_u32_be v : is_u32 v ->
  match netnox_ssh_write_u32_be v with
  | [b0; b1; b2; b3] => netnox_ssh_read_u32_be b0 b1 b2 b3
  | _ => 0
  end = v.
Proof.
  intros Hv. pose proof (write_u32_be_bytes_ok v) as Hb.
  rewrite <- (be_value_write_u32_be v Hv) at 2. unfold netnox_ssh_write_u32_be in *.
  inversion Hb as [|?? B0 Hb1]; subst. inversion Hb1 as [|?? B1 Hb2]; subst.
  inversion Hb2 as [|?? B2 Hb3]; subst. inversion Hb3 as [|?? B3 _]; subst.
  by apply read_u32_be_value.
Qed.

Lemma be_value_range l : bytes_ok l -> 0 <= be_value l < 256 ^ zlen l.
Proof.
  unfold be_value. intros Hl.
  enough (H : forall l k acc, bytes_ok l -> 0 <= acc < 256 ^ (Z.of_nat k) ->
    0 <= fold_left (fun acc b => acc * 256 + b) l acc < 256 ^ (Z.of_nat (k + length l))).
  { apply (H l 0%nat 0 Hl). simpl. lia. }
  clear. induction l as [|b l IH]; intros k acc Hl Ha; simpl.
  - by rewrite Nat.add_0_r.
  - replace (k + S (length l))%nat with (S k + length l)%nat by lia.
    inversion Hl as [|?? Hb Hl']; subst. apply IH; [done|].
    unfold is_byte in Hb. rewrite Nat2Z.inj_succ, Z.pow_succ_r by lia. lia.
Qed.

Lemma be_value_app_zero l : be_value (0 :: l) = be_value l.
Proof. done. Qed.

Lemma be_value_skip_zeros l : be_value (skip_zeros l) = be_value l.
Proof.
  induction l as [|b l IH]; simpl; [done|].
  destruct (Z.eqb_spec b 0) as [->|]; [|done]. by rewrite IH.
Qed.

(** ** Facts: memory and views *)

Lemma mem_read_app (pre s post : list Z) off n :
  off = zlen pre -> n = zlen s -> mem_read (pre ++ s ++ post) off n = Ok s.
Proof.
  intros -> ->. unfold mem_read.
  destruct ((0 <=? zlen pre) && _) eqn:E.
  - rewrite zdrop_app_exact, ztake_app_exact by done. done.
  - rewrite !length_app in E. lia.
Qed.

Lemma mem_read_ok mem off n d : mem_read mem off n = Ok d ->
  d = ztake n (zdrop off mem) /\ 0 <= off /\ off + n <= zlen mem.
Proof. unfold mem_read. destruct (_ && _) eqn:E; intros H; simplify_eq. split; [done|lia]. Qed.

Lemma mem_read_in_bounds mem off n :
  0 <= off -> off + n <= zlen mem -> mem_read mem off n = Ok (ztake n (zdrop off mem)).
Proof. intros. unfold mem_read. destruct (_ && _) eqn:E; [done|lia]. Qed.

Lemma view_bytes_valid v : view_valid v -> view_bytes v = Ok (ztake (v_len v) (v_mem v)).
Proof.
  unfold view_valid, view_bytes. intros H. by rewrite mem_read_in_bounds by lia.
Qed.

Lemma view_is_valid v s : view_valid v ->
  view_is v s = Ok (bool_decide (ztake (v_len v) (v_mem v) = s)).
Proof.
  unfold view_valid, view_is. intros H.
  destruct (Z.eqb_spec (v_len v) (zlen s)) as [E|E].
  - rewrite mem_read_in_bounds by lia. simpl. by rewrite E.
  - f_equal. symmetry. apply bool_decide_eq_false. intros <-. rewrite ztake_length in E; lia.
Qed.

(** ** Facts: builders *)

Lemma put_ok p max claimed d :
  claimed = zlen p + zlen d -> zlen p + zlen d <= max -> put p max claimed d = Ok (p ++ d).
Proof. intros -> H. unfold put. rewrite !Z.gtb_ltb. repeat (case_match; [lia|]). done. Qed.

Lemma append_u8_ok p max v : zlen p + 1 <= max -> is_u32 max ->
  netnox_ssh_payload_append_u8 p max v = Ok (p ++ [v]).
Proof. intros H [_ Hm]. apply put_ok; simpl; [apply u32_small; split|]; lia. Qed.

Lemma append_u32_ok p max v : zlen p + 4 <= max -> is_u32 max ->
  netnox_ssh_payload_append_u32 p max v = Ok (p ++ netnox_ssh_write_u32_be v).
Proof. intros H [_ Hm]. apply put_ok; simpl; [apply u32_small; split|]; lia. Qed.

Lemma append_string_ok p max s : zlen p + 4 + zlen s <= max -> is_u32 max ->
  netnox_ssh_payload_append_string p max s = Ok (p ++ str_field s).
Proof.
  intros H [_ Hm]. unfold netnox_ssh_payload_append_string, str_field.
  rewrite (u32_small (zlen s)) by (split; lia).
  apply put_ok; [|len].
  rewrite (u32_small (zlen p + 4)) by (split; lia). rewrite u32_small by (split; lia). len.
Qed.

Lemma append_namelist_ok p max s : zlen p + 4 + zlen s <= max -> is_u32 max ->
  netnox_ssh_payload_append_namelist p max s = Ok (p ++ str_field s).
Proof. apply append_string_ok. Qed.

Lemma buf_append_ok p max s : zlen p + zlen s <= max -> is_u32 max ->
  netnox_ssh_buf_append p max s = Ok (p ++ s).
Proof.
  intros H [_ Hm]. apply put_ok; [|done].
  rewrite (u32_small (zlen s)) by (split; lia). apply u32_small. split; lia.
Qed.

(** A string that does not fit is refused with BAD_PARAM, with no wrap-around in
    the capacity test, as long as its length and the buffer's are below 2^31. *)
Lemma append_string_refused p max s :
  max < zlen p + 4 + zlen s -> zlen p < 2 ^ 31 - 4 -> zlen s < 2 ^ 31 ->
  netnox_ssh_payload_append_string p max s = Err NETNOX_RETURN_BAD_PARAM.
Proof.
  intros H Hp Hs. unfold netnox_ssh_payload_append_string, put.
  rewrite (u32_small (zlen s)) by (split; lia).
  rewrite (u32_small (zlen p + 4)) by (split; lia). rewrite u32_small by (split; lia).
  rewrite Z.gtb_ltb. case_match; [done|lia].
Qed.

Lemma str_field_length s : length (str_field s) = (4 + length s)%nat.
Proof. done. Qed.

Lemma str_field_bytes_ok s : bytes_ok s -> bytes_ok (str_field s).
Proof. intros H. apply bytes_ok_app; [apply write_u32_be_bytes_ok|done]. Qed.

#[export] Hint Resolve write_u32_be_bytes_ok str_field_bytes_ok : noxssh.

Lemma put_Ok_inv p max claimed d p' : put p max claimed d = Ok p' ->
  p' = p ++ d /\ zlen p + zlen d <= max.
Proof.
  unfold put. rewrite !Z.gtb_ltb. repeat case_match; intros; simplify_eq. split; [done|lia].
Qed.

(** ** Facts: readers *)

Lemma read_u32_field p n off pre v post :
  p = pre ++ netnox_ssh_write_u32_be v ++ post -> off = zlen pre -> n = zlen p ->
  is_u32 (zlen p) -> is_u32 v ->
  netnox_ssh_payload_read_u32 p n off = Ok (v, off + 4).
Proof.
  intros -> -> -> [_ Hp] Hv. unfold netnox_ssh_payload_read_u32.
  assert (Hl : zlen (pre ++ netnox_ssh_write_u32_be v ++ post) = zlen pre + 4 + zlen post) by len.
  rewrite (u32_small (zlen pre + 4)) by (split; lia). rewrite Z.gtb_ltb.
  case_match; [lia|]. rewrite mem_read_app by done. simpl.
  pose proof (read_write_u32_be v Hv) as E. unfold netnox_ssh_write_u32_be in E. by rewrite E.
Qed.

Lemma read_view_field p n off pre s post :
  p = pre ++ str_field s ++ post -> off = zlen pre -> n = zlen p -> is_u32 (zlen p) ->
  netnox_ssh_payload_read_string_view p n off =
  Ok (mkView (s ++ post) (zlen s), off + 4 + zlen s).
Proof.
  intros Hp -> -> [_ Hlen]. unfold netnox_ssh_payload_read_string_view.
  assert (Hl : zlen p = zlen pre + 4 + zlen s + zlen post) by (subst p; unfold str_field; len).
  rewrite (read_u32_field p (zlen p) (zlen pre) pre (zlen s) (s ++ post));
    [|by rewrite Hp; unfold str_field; rewrite <- app_assoc|done|done|split; lia..].
  simpl. rewrite (u32_small (zlen pre + 4 + zlen s)) by (split; lia).
  rewrite Z.gtb_ltb. case_match; [lia|]. repeat f_equal.
  rewrite Hp. unfold str_field. rewrite <- app_assoc, (app_assoc pre).
  apply zdrop_app_exact. len.
Qed.

(** The string length announced at [off], when four bytes are there. *)
Definition announced (p : list Z) (off : Z) : Z := be_value (ztake 4 (zdrop off p)).

Lemma ztake_4 (l : list Z) : 4 <= zlen l -> exists b0 b1 b2 b3, ztake 4 l = [b0; b1; b2; b3].
Proof.
  intros H. destruct l as [|b0 [|b1 [|b2 [|b3 l]]]]; simpl in H; try lia.
  by exists b0, b1, b2, b3.
Qed.

Lemma announced_u32 p off : bytes_ok p -> is_u32 (announced p off).
Proof.
  intros Hp. unfold announced.
  pose proof (be_value_range (ztake 4 (zdrop off p)) ltac:(auto with noxssh)) as H.
  assert (256 ^ zlen (ztake 4 (zdrop off p)) <= 256 ^ 4).
  { apply Z.pow_le_mono_r; [lia|]. unfold ztake. rewrite length_take. lia. }
  split; lia.
Qed.

Lemma read_u32_spec p off : bytes_ok p -> is_u32 (zlen p + 4) -> 0 <= off <= zlen p ->
  read_u32 p off =
  if zlen p <? off + 4 then Err NETNOX_RETURN_BAD_PARAM else Ok (announced p off, off + 4).
Proof.
  intros Hb Hl [? Ho]. unfold read_u32, netnox_ssh_payload_read_u32.
  rewrite (u32_small (off + 4)) by (unfold is_u32 in *; lia). rewrite Z.gtb_ltb.
  case_match; [done|]. rewrite mem_read_in_bounds by lia. unfold announced.
  destruct (ztake_4 (zdrop off p)) as (b0 & b1 & b2 & b3 & E); [rewrite zdrop_length; lia|].
  assert (Hd : bytes_ok (ztake 4 (zdrop off p))) by auto with noxssh.
  simpl. rewrite E in *.
  inversion Hd as [|?? B0 Hb1]; subst. inversion Hb1 as [|?? B1 Hb2]; subst.
  inversion Hb2 as [|?? B2 Hb3]; subst. inversion Hb3 as [|?? B3 _]; subst.
  by rewrite read_u32_be_value.
Qed.

Lemma read_view_spec p off : bytes_ok p -> is_u32 (zlen p + 4) -> 0 <= off <= zlen p ->
  read_view p off =
  if zlen p <? off + 4 then Err NETNOX_RETURN_BAD_PARAM
  else if u32 (off + 4 + announced p off) >? zlen p then Err NETNOX_RETURN_BAD_PARAM
  else Ok (mkView (zdrop (off + 4) p) (announced p off), u32 (off + 4 + announced p off)).
Proof.
  intros Hb Hl Ho. unfold read_view, netnox_ssh_payload_read_string_view.
  pose proof (read_u32_spec p off Hb Hl Ho) as E. unfold read_u32 in E. rewrite E.
  by case_match.
Qed.

Lemma view_is_bytes v s : view_is v s = Ok true -> view_bytes v = Ok s.
Proof.
  unfold view_is, view_bytes. destruct (Z.eqb_spec (v_len v) (zlen s)) as [E|]; [|done].
  intros H. inv_ok. rewrite E, Hok. f_equal. by apply bool_decide_eq_true in H.
Qed.

(** ** Facts: mpints *)

Lemma land_128_byte b : is_byte b -> (Z.land b 128 =? 0) = (b <? 128).
Proof.
  unfold is_byte. intros [H0 H1].
  assert (Hall : forallb (fun n => Bool.eqb (Z.land (Z.of_nat n) 128 =? 0) (Z.of_nat n <? 128))
                   (seq 0 256) = true) by (vm_compute; reflexivity).
  rewrite forallb_forall in Hall. specialize (Hall (Z.to_nat b)).
  rewrite Z2Nat.id in Hall by lia. apply eqb_prop. apply Hall. apply in_seq. lia.
Qed.

Lemma skip_zeros_bytes_ok l : bytes_ok l -> bytes_ok (skip_zeros l).
Proof. induction 1; simpl; [constructor|]. case_match; [done|by constructor]. Qed.

Lemma skip_zeros_head l b r : skip_zeros l = b :: r -> b <> 0.
Proof. induction l as [|c l IH]; simpl; [done|]. case_match; [auto|]. intros. simplify_eq. lia. Qed.

Lemma skip_zeros_length l : (length (skip_zeros l) <= length l)%nat.
Proof. induction l; simpl; [lia|]. case_match; simpl; lia. Qed.

Lemma mpint_body_length l : (length (mpint_body l) <= S (length l))%nat.
Proof.
  unfold mpint_body. pose proof (skip_zeros_length l). repeat case_match; simplify_eq/=; lia.
Qed.

Lemma mpint_body_bytes_ok l : bytes_ok l -> bytes_ok (mpint_body l).
Proof.
  intros H. apply skip_zeros_bytes_ok in H. unfold mpint_body.
  repeat case_match; simplify_eq/=; auto. constructor; [unfold is_byte; lia|done].
Qed.

Lemma mpint_body_canonical l : bytes_ok l -> mpint_canonical (mpint_body l).
Proof.
  intros H. apply skip_zeros_bytes_ok in H. unfold mpint_body.
  destruct (skip_zeros l) as [|b r] eqn:E; [done|]. pose proof (skip_zeros_head _ _ _ E).
  inversion H as [|?? Hb Hr]; subst. rewrite land_128_byte by done. unfold is_byte in Hb.
  destruct (Z.ltb_spec b 128); simpl; [|lia]. destruct r; simpl; lia.
Qed.

Lemma mpint_body_value l : be_value (mpint_body l) = be_value l.
Proof.
  rewrite <- (be_value_skip_zeros l). unfold mpint_body. repeat case_match; done.
Qed.

Lemma append_mpint_ok out max input :
  zlen out + 4 + zlen (mpint_body input) <= max -> is_u32 max -> is_u32 (zlen input + 1) ->
  netnox_ssh_buf_append_mpint_be out max input = Ok (out ++ str_field (mpint_body input)).
Proof.
  unfold netnox_ssh_buf_append_mpint_be, mpint_body. intros H Hm Hi.
  pose proof (skip_zeros_length input) as Hs.
  destruct (skip_zeros input) as [|b r]; simpl in H.
  { rewrite append_u32_ok by ulia. done. }
  revert H. destruct (negb _) eqn:E; simpl length; intros H; simpl length in Hs.
  - rewrite (u32_small (Z.of_nat (S (length r)) + 1)) by (destruct Hi; split; lia).
    rewrite append_u32_ok by ulia. simpl.
    rewrite buf_append_ok by len. simpl. rewrite buf_append_ok by len.
    unfold str_field. simpl length. rewrite <- !app_assoc. do 2 f_equal.
    replace (Z.of_nat (S (length r)) + 1) with (Z.of_nat (S (S (length r)))) by lia. done.
  - rewrite append_u32_ok by ulia. simpl. rewrite buf_append_ok by len.
    unfold str_field. simpl length. by rewrite <- !app_assoc.
Qed.

(** The builders below 2^31: the field when it fits, BAD_PARAM when it does not. *)
Lemma put_total p max claimed d : claimed = zlen p + zlen d ->
  put p max claimed d = if zlen p + zlen d <=? max then Ok (p ++ d) else Err NETNOX_RETURN_BAD_PARAM.
Proof. intros ->. unfold put. rewrite !Z.gtb_ltb. repeat case_match; done || lia. Qed.

Lemma append_u32_total p max v : zlen p < 2 ^ 31 ->
  netnox_ssh_payload_append_u32 p max v =
  if zlen p + 4 <=? max then Ok (p ++ netnox_ssh_write_u32_be v) else Err NETNOX_RETURN_BAD_PARAM.
Proof. intros H. apply put_total. rewrite u32_small by ulia. done. Qed.

Lemma buf_append_total p max d : zlen p < 2 ^ 31 -> zlen d < 2 ^ 31 ->
  netnox_ssh_buf_append p max d =
  if zlen p + zlen d <=? max then Ok (p ++ d) else Err NETNOX_RETURN_BAD_PARAM.
Proof. intros H Hd. apply put_total. rewrite (u32_small (zlen d)), u32_small by ulia. done. Qed.

Lemma append_mpint_total out max input :
  zlen out <= max -> max < 2 ^ 31 - 4 -> zlen input < 2 ^ 30 ->
  netnox_ssh_buf_append_mpint_be out max input =
  if zlen out + 4 + zlen (mpint_body input) <=? max
  then Ok (out ++ str_field (mpint_body input)) else Err NETNOX_RETURN_BAD_PARAM.
Proof.
  intros Ho Hm Hi. case_match eqn:E; [apply append_mpint_ok; ulia|].
  unfold netnox_ssh_buf_append_mpint_be, mpint_body in *.
  pose proof (skip_zeros_length input) as Hs.
  destruct (skip_zeros input) as [|b r]; [rewrite append_u32_total by ulia; simpl in E; case_match; [lia|done]|].
  simpl length in Hs. destruct (negb _).
  - rewrite append_u32_total by ulia. case_match; [|done]. cbn [orc mbind outcome_bind].
    rewrite buf_append_total by len. case_match; [|done]. cbn [orc mbind outcome_bind].
    rewrite buf_append_total by len. case_match; [len|done].
  - rewrite append_u32_total by ulia. case_match; [|done]. cbn [orc mbind outcome_bind].
    rewrite buf_append_total by len. case_match; [len|done].
Qed.

(** ** Properties *)

(** What [netnox_ssh_payload_append_string] writes is read back by
    [netnox_ssh_payload_read_string_view] at the offset it was written at, whatever
    follows it in the packet: the same bytes, and the offset just past them. *)
Theorem append_string_read_back p max s post p' :
  netnox_ssh_payload_append_string p max s = Ok p' ->
  is_u32 (zlen (p' ++ post)) ->
  exists v, read_view (p' ++ post) (zlen p) = Ok (v, zlen p') /\
            view_valid v /\ view_bytes v = Ok s.
Proof.
  intros H Hl. apply put_Ok_inv in H as [-> _]. rewrite (u32_small (zlen s)) in * by len.
  exists (mkView (s ++ post) (zlen s)). split_and!.
  - unfold read_view. erewrite read_view_field with (pre := p) (s := s) (post := post).
    + do 2 f_equal. len.
    + unfold str_field. by rewrite <- !app_assoc.
    + done.
    + done.
    + done.
  - unfold view_valid. simpl. len.
  - unfold view_bytes. by rewrite (mem_read_app [] s post) by done.
Qed.

Lemma append_string_read_back_witness :
  exists v, read_view ([50; 0; 0; 0; 2; 104; 105] ++ [7]) 1 = Ok (v, 7) /\
            view_valid v /\ view_bytes v = Ok [104; 105].
Proof.
  apply (append_string_read_back [50] 16 [104; 105] [7] [50; 0; 0; 0; 2; 104; 105]).
  - vm_compute. reflexivity.
  - vm_compute. split; [discriminate | reflexivity].
Defined.

(** A string append either writes the whole field inside the buffer or refuses
    with NETNOX_RETURN_BAD_PARAM: for buffers and strings below 2^31 bytes the
    capacity test does not wrap and no byte is written outside the buffer. *)
Theorem append_string_total p max s :
  zlen p <= max -> max < 2 ^ 31 - 4 -> zlen s < 2 ^ 31 ->
  netnox_ssh_payload_append_string p max s =
  if zlen p + 4 + zlen s <=? max then Ok (p ++ str_field s) else Err NETNOX_RETURN_BAD_PARAM.
Proof.
  intros Hp Hm Hs. case_match.
  - apply append_string_ok; ulia.
  - apply append_string_refused; lia.
Qed.

Lemma append_string_total_witness :
  netnox_ssh_payload_append_string [50] 8 [1; 2; 3; 4] = Err NETNOX_RETURN_BAD_PARAM.
Proof. apply (append_string_total [50] 8 [1; 2; 3; 4]); simpl; lia. Defined.

(** C39: for every well-formed payload and offset inside it,
    [netnox_ssh_payload_read_string_view] touches only the payload; the view it
    returns lies inside the payload exactly when the announced length does not
    wrap the 32-bit bound check. Past that point the check is passed by a view
    longer than the payload and the offset moves backwards. *)
Theorem read_view_bounds p off v off' :
  bytes_ok p -> is_u32 (zlen p + 4) -> 0 <= off <= zlen p ->
  read_view p off = Ok (v, off') ->
  (off + 4 + announced p off < 2 ^ 32 ->
     view_valid v /\ off' = off + 4 + v_len v /\ off' <= zlen p) /\
  (2 ^ 32 <= off + 4 + announced p off ->
     ~ view_valid v /\ off' = off + 4 + v_len v - 2 ^ 32 /\ off' < off + 4).
Proof.
  intros Hb Hl Ho H. pose proof (announced_u32 p off Hb) as Ha.
  rewrite read_view_spec in H by done. case_match eqn:E1; [done|].
  rewrite Z.gtb_ltb in H. case_match eqn:E2; simplify_eq/=.
  unfold view_valid. simpl. rewrite zdrop_length by lia. split; intros Hw.
  - rewrite u32_small in E2 |- * by ulia. ulia.
  - assert (E : u32 (off + 4 + announced p off) = off + 4 + announced p off - 2 ^ 32).
    { unfold u32. symmetry. apply (Z.mod_unique_pos _ _ 1); ulia. }
    rewrite E in *. ulia.
Qed.

Lemma read_view_bounds_witness :
  (1 + 4 + 4294967295 < 2 ^ 32 ->
     view_valid (mkView [9] 4294967295) /\ 4 = 1 + 4 + 4294967295 /\ 4 <= 6) /\
  (2 ^ 32 <= 1 + 4 + 4294967295 ->
     ~ view_valid (mkView [9] 4294967295) /\ 4 = 1 + 4 + 4294967295 - 2 ^ 32 /\ 4 < 1 + 4).
Proof.
  apply (read_view_bounds [94; 255; 255; 255; 255; 9] 1 (mkView [9] 4294967295) 4).
  - repeat constructor; lia.
  - vm_compute. split; [discriminate | reflexivity].
  - vm_compute. split; discriminate.
  - vm_compute. reflexivity.
Defined.

(** [netnox_ssh_buf_append_mpint_be] appends the RFC 4251 mpint of the unsigned
    big-endian number in its input: a length-prefixed body with the same value, no
    unnecessary leading zero byte, and a clear sign bit. *)
Theorem append_mpint_rfc4251 out max input :
  bytes_ok input -> zlen out + 5 + zlen input <= max -> is_u32 max ->
  exists body,
    netnox_ssh_buf_append_mpint_be out max input = Ok (out ++ str_field body) /\
    mpint_canonical body /\ be_value body = be_value input.
Proof.
  intros Hb Hl Hm. exists (mpint_body input). pose proof (mpint_body_length input). split_and!.
  - apply append_mpint_ok; [lia|done|ulia].
  - by apply mpint_body_canonical.
  - apply mpint_body_value.
Qed.

Lemma append_mpint_rfc4251_witness :
  exists body,
    netnox_ssh_buf_append_mpint_be [1] 64 [0; 0; 130; 5] = Ok ([1] ++ str_field body) /\
    mpint_canonical body /\ be_value body = be_value [0; 0; 130; 5].
Proof.
  apply (append_mpint_rfc4251 [1] 64 [0; 0; 130; 5]).
  - repeat constructor; lia.
  - simpl. lia.
  - vm_compute. split; [discriminate | reflexivity].
Defined.

Example mpint_zero : netnox_ssh_buf_append_mpint_be [] 64 [0; 0] = Ok [0; 0; 0; 0].
Proof. reflexivity. Qed.
Example mpint_sign : netnox_ssh_buf_append_mpint_be [] 64 [0; 128] = Ok [0; 0; 0; 2; 0; 128].
Proof. reflexivity. Qed.
