(* ===== verification/Negotiate.v ===== *)
(** Algorithm negotiation: the name-list scanner, the validators of the peer's
    SSH_MSG_KEXINIT (client and server), and the KEXINIT payloads both sides
    build, with the specification of a name-list as a comma-separated split. *)

From S2P Require Export Wire.

(** ** Configuration (common/noxssh_common_config.h) *)

Definition NETNOX_SSH_KEX_ALG_LIST := bs "curve25519-sha256,diffie-hellman-group14-sha256".
Definition NETNOX_SSH_HOST_KEY_ALG_LIST := bs "ssh-ed25519,rsa-sha2-256,ssh-rsa".
Definition NETNOX_SSH_CIPHER_ALG_LIST :=
  bs "aes128-ctr,aes256-ctr,chacha20-poly1305@openssh.com".
Definition NETNOX_SSH_MAC_ALG_LIST := bs "hmac-sha2-256,hmac-sha1".
Definition NETNOX_SSH_COMPRESSION_ALG_LIST := bs "none".
Definition NETNOX_SSH_REQUIRED_KEX_ALG := bs "curve25519-sha256".
Definition NETNOX_SSH_REQUIRED_HOST_KEY_ALG := bs "ssh-ed25519".
Definition NETNOX_SSH_REQUIRED_CIPHER_ALG := bs "aes128-ctr".
Definition NETNOX_SSH_REQUIRED_MAC_ALG := bs "hmac-sha2-256".
Definition NETNOX_SSH_REQUIRED_COMPRESSION_ALG := bs "none".

Definition NETNOX_SSH_MSG_KEXINIT : Z := 20.
Definition NETNOX_SSH_KEXINIT_COOKIE_LEN : Z := 16.

(** ** The name-list scanner *)

Definition comma : Z := 44.

(** [while(end < list_len && list\[end\] != ',') end++;] *)
Fixpoint find_end (fuel : nat) (lst : list Z) (list_len e : Z) : outcome Z :=
  if e <? list_len then
    c ← mem_byte lst e;
    if c =? comma then Ok e
    else match fuel with O => Diverge | S f => find_end f lst list_len (e + 1) end
  else Ok e.

Fixpoint namelist_scan (fuel : nat) (lst : list Z) (list_len : Z) (token : list Z) (start : Z)
    : outcome bool :=
  if start <? list_len then
    e ← find_end (length lst) lst list_len start;
    same ← (if e - start =? zlen token
            then d ← mem_read lst start (zlen token); Ok (bool_decide (d = token))
            else Ok false);
    if (same : bool) then Ok true
    else if e >=? list_len then Ok false
    else match fuel with O => Diverge | S f => namelist_scan f lst list_len token (e + 1) end
  else Ok false.

Definition netnox_ssh_namelist_contains (lst : list Z) (list_len : Z) (token : list Z)
    : outcome bool :=
  if zlen token =? 0 then Ok false else namelist_scan (length lst) lst list_len token 0.

(** ** KEXINIT validation *)

(** [if(read_string_view(..) != SUCCESS || namelist_contains(..) == 0) return FAILED;] *)
Definition require_alg (payload : list Z) (offset : Z) (alg : list Z) : outcome Z :=
  '(field, offset) ← orc NETNOX_RETURN_FAILED (read_view payload offset);
  found ← netnox_ssh_namelist_contains (v_mem field) (v_len field) alg;
  if (found : bool) then Ok offset else Err NETNOX_RETURN_FAILED.

Definition required_algs : list (list Z) :=
  [ NETNOX_SSH_REQUIRED_KEX_ALG; NETNOX_SSH_REQUIRED_HOST_KEY_ALG;
    NETNOX_SSH_REQUIRED_CIPHER_ALG; NETNOX_SSH_REQUIRED_CIPHER_ALG;
    NETNOX_SSH_REQUIRED_MAC_ALG; NETNOX_SSH_REQUIRED_MAC_ALG;
    NETNOX_SSH_REQUIRED_COMPRESSION_ALG; NETNOX_SSH_REQUIRED_COMPRESSION_ALG ].

Fixpoint require_algs (payload : list Z) (offset : Z) (algs : list (list Z)) : outcome Z :=
  match algs with
  | [] => Ok offset
  | a :: algs => offset ← require_alg payload offset a; require_algs payload offset algs
  end.

Definition kexinit_header (payload : list Z) : outcome unit :=
  if zlen payload <? 1 + NETNOX_SSH_KEXINIT_COOKIE_LEN then Err NETNOX_RETURN_BAD_PARAM
  else
    t ← mem_byte payload 0;
    if t =? NETNOX_SSH_MSG_KEXINIT then Ok tt else Err NETNOX_RETURN_FAILED.

Definition netnox_ssh_validate_server_kexinit (payload : list Z) : outcome unit :=
  _ ← kexinit_header payload;
  _ ← require_algs payload (1 + NETNOX_SSH_KEXINIT_COOKIE_LEN) required_algs;
  Ok tt.

(** The server's validator additionally reads the two language lists. *)
Definition netnox_ssh_validate_client_kexinit (payload : list Z) : outcome unit :=
  _ ← kexinit_header payload;
  offset ← require_algs payload (1 + NETNOX_SSH_KEXINIT_COOKIE_LEN) required_algs;
  '(_, offset) ← orc NETNOX_RETURN_FAILED (read_view payload offset);
  '(_, offset) ← orc NETNOX_RETURN_FAILED (read_view payload offset);
  Ok tt.

(** ** KEXINIT construction *)

(** The name-lists of the two offers, in the order the builders append them. *)
Definition client_offer : list (list Z) :=
  [ NETNOX_SSH_KEX_ALG_LIST; NETNOX_SSH_HOST_KEY_ALG_LIST;
    NETNOX_SSH_CIPHER_ALG_LIST; NETNOX_SSH_CIPHER_ALG_LIST;
    NETNOX_SSH_MAC_ALG_LIST; NETNOX_SSH_MAC_ALG_LIST;
    NETNOX_SSH_COMPRESSION_ALG_LIST; NETNOX_SSH_COMPRESSION_ALG_LIST; []; [] ].

Definition server_offer : list (list Z) :=
  [ bs "curve25519-sha256"; bs "ssh-ed25519"; bs "aes128-ctr"; bs "aes128-ctr";
    bs "hmac-sha2-256"; bs "hmac-sha2-256";
    NETNOX_SSH_COMPRESSION_ALG_LIST; NETNOX_SSH_COMPRESSION_ALG_LIST; []; [] ].

Fixpoint append_namelists (payload : list Z) (payload_max : Z) (lists : list (list Z))
    : outcome (list Z) :=
  match lists with
  | [] => Ok payload
  | l :: lists =>
      payload ← orc NETNOX_RETURN_FAILED (netnox_ssh_payload_append_namelist payload payload_max l);
      append_namelists payload payload_max lists
  end.

(** Everything of the builders after the random cookie has been drawn. *)
Definition build_kexinit_from_cookie (offer : list (list Z)) (cookie : list Z) (payload_max : Z)
    : outcome (list Z) :=
  payload ← append_namelists (NETNOX_SSH_MSG_KEXINIT :: cookie) payload_max offer;
  if u32 (u32 (zlen payload + 1) + 4) >? payload_max then Err NETNOX_RETURN_FAILED
  else if zlen payload + 5 >? payload_max then Oob
  else Ok (payload ++ [0] ++ netnox_ssh_write_u32_be 0).

(** ** Specification *)

(** RFC 4251 name-list: the comma-separated names of a byte string. *)
Fixpoint names (l : list Z) : list (list Z) :=
  match l with
  | [] => [[]]
  | b :: l' =>
      if b =? comma then [] :: names l'
      else match names l' with s :: ss => (b :: s) :: ss | [] => [[b]] end
  end.

(** The bytes before the first comma. *)
Fixpoint seg (l : list Z) : list Z :=
  match l with [] => [] | b :: l' => if b =? comma then [] else b :: seg l' end.

(** The KEXINIT payload of RFC 4253 section 7.1. *)
Definition kexinit_payload (offer : list (list Z)) (cookie : list Z) : list Z :=
  (NETNOX_SSH_MSG_KEXINIT :: cookie) ++ concat (str_field <$> offer) ++ [0; 0; 0; 0; 0].

(** ** Facts *)

Lemma seg_length l : (length (seg l) <= length l)%nat.
Proof. induction l; simpl; [lia|]. case_match; simpl; lia. Qed.

Lemma names_seg l : names l =
  seg l :: (match drop (length (seg l)) l with [] => [] | _ :: r => names r end).
Proof.
  induction l as [|b l IH]; [done|]. simpl.
  destruct (b =? comma); simpl; [by rewrite ?drop_0|]. by rewrite IH.
Qed.

Lemma seg_prefix l : take (length (seg l)) l = seg l.
Proof. induction l as [|b l IH]; [done|]. simpl. case_match; [done|]. simpl. by rewrite IH. Qed.

Lemma mem_byte_lookup (mem : list Z) off b r :
  0 <= off -> zdrop off mem = b :: r -> mem_byte mem off = Ok b.
Proof.
  unfold mem_byte, zdrop. intros H E. destruct (0 <=? off) eqn:E0; [|lia].
  replace (mem !! Z.to_nat off) with (Some b); [done|].
  rewrite <- (Nat.add_0_r (Z.to_nat off)), <- lookup_drop, E. done.
Qed.

Lemma zdrop_cons (l : list Z) off : 0 <= off < zlen l ->
  exists b, zdrop off l = b :: zdrop (off + 1) l.
Proof.
  intros H. unfold zdrop. replace (Z.to_nat (off + 1)) with (S (Z.to_nat off)) by lia.
  destruct (lookup_lt_is_Some_2 l (Z.to_nat off)) as [b Hb]; [lia|].
  exists b. by apply drop_S.
Qed.

Lemma zdrop_ztake_cons (l : list Z) n e b :
  0 <= e < n -> n <= zlen l -> zdrop e l = b :: zdrop (e + 1) l ->
  zdrop e (ztake n l) = b :: zdrop (e + 1) (ztake n l).
Proof.
  intros He Hn E. unfold zdrop, ztake in *. rewrite !skipn_firstn_comm, E.
  replace (Z.to_nat n - Z.to_nat e)%nat with (S (Z.to_nat n - Z.to_nat (e + 1)))%nat by lia.
  done.
Qed.

Lemma zdrop_ztake_nil (l : list Z) n e : n <= e -> 0 <= n -> zdrop e (ztake n l) = [].
Proof. intros. apply nil_length_inv. len. Qed.

Lemma find_end_spec fuel lst n e :
  n <= zlen lst -> 0 <= e <= n -> n - e <= Z.of_nat fuel ->
  find_end fuel lst n e = Ok (e + zlen (seg (zdrop e (ztake n lst)))).
Proof.
  revert e. induction fuel as [|f IH]; intros e Hn He Hf; simpl.
  - destruct (Z.ltb_spec e n); [lia|]. rewrite zdrop_ztake_nil by lia. f_equal. simpl. lia.
  - destruct (Z.ltb_spec e n).
    + destruct (zdrop_cons lst e) as [b Hb]; [lia|].
      rewrite (mem_byte_lookup lst e b _ ltac:(lia) Hb). simpl.
      rewrite (zdrop_ztake_cons lst n e b) by (done || lia). simpl.
      destruct (b =? comma); [f_equal; simpl; lia|].
      rewrite IH by lia. f_equal. simpl. lia.
    + rewrite zdrop_ztake_nil by lia. f_equal. simpl. lia.
Qed.

Lemma names_drop l : length (seg l) <> length l ->
  names l = seg l :: names (drop (S (length (seg l))) l).
Proof.
  intros H. rewrite names_seg at 1. pose proof (seg_length l).
  destruct (drop (length (seg l)) l) as [|b r] eqn:E.
  - apply (f_equal length) in E. rewrite length_drop in E. simpl in E. lia.
  - do 2 f_equal. rewrite <- Nat.add_1_r, <- drop_drop, E. done.
Qed.

Lemma ztake_seg lst n start : 0 <= start <= n -> n <= zlen lst ->
  ztake (zlen (seg (zdrop start (ztake n lst)))) (zdrop start lst) = seg (zdrop start (ztake n lst)).
Proof.
  intros Hs Hn. set (l := zdrop start (ztake n lst)).
  assert (Hl : (length l <= Z.to_nat n - Z.to_nat start)%nat) by (unfold l; len).
  pose proof (seg_length l). rewrite <- (seg_prefix l) at 2. unfold ztake at 1. rewrite Nat2Z.id.
  unfold l at 3. unfold zdrop, ztake. rewrite skipn_firstn_comm, take_take. f_equal. lia.
Qed.

Lemma bool_decide_not_nil (token : list Z) : token <> [] -> bool_decide (token ∈ [[]]) = false.
Proof. intros H. apply bool_decide_eq_false. by intros ?%list_elem_of_singleton. Qed.

Lemma namelist_scan_spec fuel lst n token start :
  n <= zlen lst -> 0 <= start <= n -> n - start <= Z.of_nat fuel -> token <> [] ->
  namelist_scan fuel lst n token start =
  Ok (bool_decide (token ∈ names (zdrop start (ztake n lst)))).
Proof.
  revert start. induction fuel as [|f IH]; intros start Hn Hs Hf Ht; simpl.
  { destruct (Z.ltb_spec start n); [lia|]. rewrite zdrop_ztake_nil by lia.
    simpl. by rewrite bool_decide_not_nil. }
  destruct (Z.ltb_spec start n) as [Hlt|]; cycle 1.
  { rewrite zdrop_ztake_nil by lia.
    simpl. by rewrite bool_decide_not_nil. }
  rewrite find_end_spec by lia. simpl. set (l := zdrop start (ztake n lst)).
  assert (Hl : zlen l = n - start) by (unfold l; len).
  pose proof (seg_length l) as Hseg.
  replace (start + zlen (seg l) - start) with (zlen (seg l)) by lia.
  assert (Hsame : (if zlen (seg l) =? zlen token
                   then d ← mem_read lst start (zlen token); Ok (bool_decide (d = token))
                   else Ok false) = Ok (bool_decide (seg l = token))).
  { destruct (Z.eqb_spec (zlen (seg l)) (zlen token)) as [E|E].
    - rewrite mem_read_in_bounds by lia. simpl. rewrite <- E. unfold l. by rewrite ztake_seg by lia.
    - f_equal. symmetry. apply bool_decide_eq_false. congruence. }
  rewrite Hsame. simpl. destruct (bool_decide (seg l = token)) eqn:Eb.
  - apply bool_decide_eq_true in Eb. f_equal. symmetry. apply bool_decide_eq_true.
    rewrite names_seg, Eb. left.
  - apply bool_decide_eq_false in Eb. rewrite Z.geb_leb.
    destruct (Z.leb_spec n (start + zlen (seg l))) as [Hle|Hgt].
    + f_equal. symmetry. apply bool_decide_eq_false. rewrite names_seg, drop_ge by lia.
      intros ?%list_elem_of_singleton. congruence.
    + rewrite IH by (done || lia). f_equal. apply bool_decide_ext. rewrite (names_drop l) by lia.
      assert (E : zdrop (start + zlen (seg l) + 1) (ztake n lst) = drop (S (length (seg l))) l).
      { transitivity (drop (S (length (seg l))) (drop (Z.to_nat start) (ztake n lst))); [|done].
        rewrite drop_drop. unfold zdrop. f_equal. lia. }
      rewrite E, elem_of_cons. split; [by right|]. intros [?|?]; [congruence|done].
Qed.

Lemma namelist_contains_spec lst n token :
  0 <= n <= zlen lst -> token <> [] ->
  netnox_ssh_namelist_contains lst n token = Ok (bool_decide (token ∈ names (ztake n lst))).
Proof.
  intros Hn Ht. unfold netnox_ssh_namelist_contains.
  destruct (Z.eqb_spec (zlen token) 0) as [E|_]; [destruct token; [done|simpl in E; lia]|].
  by rewrite namelist_scan_spec by (done || lia).
Qed.

(** The fields of a KEXINIT, read one after the other. *)
Definition offered (algs lists : list (list Z)) : Prop :=
  Forall2 (fun a l => a ∈ names l) algs lists.

#[export] Instance offered_dec algs lists : Decision (offered algs lists).
Proof. unfold offered. apply _. Defined.

Lemma require_alg_field p pre l post a :
  p = pre ++ str_field l ++ post -> is_u32 (zlen p) -> a <> [] ->
  require_alg p (zlen pre) a =
  if bool_decide (a ∈ names l) then Ok (zlen (pre ++ str_field l)) else Err NETNOX_RETURN_FAILED.
Proof.
  intros Hp Hl Ha. unfold require_alg, read_view.
  rewrite (read_view_field p (zlen p) (zlen pre) pre l post) by done. simpl.
  rewrite namelist_contains_spec by (done || len). rewrite ztake_app_exact by done. simpl.
  case_match; [|done]. f_equal. len.
Qed.

Lemma require_algs_fields algs : forall p pre lists post,
  p = pre ++ concat (str_field <$> lists) ++ post -> is_u32 (zlen p) ->
  Forall (fun a => a <> []) algs -> (length algs <= length lists)%nat ->
  require_algs p (zlen pre) algs =
  if bool_decide (offered algs (take (length algs) lists))
  then Ok (zlen (pre ++ concat (str_field <$> take (length algs) lists)))
  else Err NETNOX_RETURN_FAILED.
Proof.
  induction algs as [|a algs IH]; intros p pre lists post Hp Hl Ha Hn.
  - rewrite bool_decide_eq_true_2 by constructor. simpl. f_equal. len.
  - destruct lists as [|l lists]; [simpl in Hn; lia|]. apply Forall_cons in Ha as [Ha1 Ha].
    simpl in Hp. rewrite <- app_assoc in Hp. cbn [require_algs length take].
    rewrite (require_alg_field p pre l _ a Hp Hl Ha1).
    destruct (decide (a ∈ names l)) as [Hin|Hni].
    + rewrite bool_decide_eq_true_2 by done. cbn [mbind outcome_bind].
      rewrite (IH p (pre ++ str_field l) lists post); [|by rewrite <- app_assoc|done..|simpl in Hn; lia].
      destruct (decide (offered algs (take (length algs) lists))) as [Ho|Ho].
      * rewrite (bool_decide_eq_true_2 (offered algs _)) by done.
        rewrite bool_decide_eq_true_2 by (by constructor).
        f_equal. cbn [fmap list_fmap concat]. by rewrite app_assoc.
      * rewrite (bool_decide_eq_false_2 (offered algs _)) by done.
        rewrite bool_decide_eq_false_2; [done|]. by inversion 1.
    + rewrite (bool_decide_eq_false_2 (a ∈ names l)) by done. simpl.
      rewrite bool_decide_eq_false_2; [done|]. by inversion 1.
Qed.

Lemma kexinit_header_ok cookie rest :
  length cookie = 16%nat -> kexinit_header ((NETNOX_SSH_MSG_KEXINIT :: cookie) ++ rest) = Ok tt.
Proof.
  intros Hc. unfold kexinit_header. destruct (_ <? _) eqn:E; [|done].
  unfold NETNOX_SSH_KEXINIT_COOKIE_LEN in E. len.
Qed.

Lemma required_algs_nonempty : Forall (fun a => a <> []) required_algs.
Proof. repeat constructor; discriminate. Qed.

(** The KEXINIT body both validators see. *)
Lemma require_algs_kexinit cookie lists tail :
  length cookie = 16%nat -> (8 <= length lists)%nat ->
  is_u32 (zlen ((NETNOX_SSH_MSG_KEXINIT :: cookie) ++ concat (str_field <$> lists) ++ tail)) ->
  require_algs ((NETNOX_SSH_MSG_KEXINIT :: cookie) ++ concat (str_field <$> lists) ++ tail)
    (1 + NETNOX_SSH_KEXINIT_COOKIE_LEN) required_algs =
  if bool_decide (offered required_algs (take 8 lists))
  then Ok (zlen ((NETNOX_SSH_MSG_KEXINIT :: cookie) ++ concat (str_field <$> take 8 lists)))
  else Err NETNOX_RETURN_FAILED.
Proof.
  intros Hc Hl Hlen.
  replace (1 + NETNOX_SSH_KEXINIT_COOKIE_LEN) with (zlen (NETNOX_SSH_MSG_KEXINIT :: cookie))
    by (simpl; rewrite Hc; done).
  by apply (require_algs_fields required_algs) with (post := tail); auto using required_algs_nonempty.
Qed.

Lemma validate_server_lemma cookie lists tail :
  length cookie = 16%nat -> (8 <= length lists)%nat ->
  is_u32 (zlen ((NETNOX_SSH_MSG_KEXINIT :: cookie) ++ concat (str_field <$> lists) ++ tail)) ->
  netnox_ssh_validate_server_kexinit
    ((NETNOX_SSH_MSG_KEXINIT :: cookie) ++ concat (str_field <$> lists) ++ tail) =
  if bool_decide (offered required_algs (take 8 lists)) then Ok tt else Err NETNOX_RETURN_FAILED.
Proof.
  intros Hc Hl Hlen. unfold netnox_ssh_validate_server_kexinit.
  rewrite kexinit_header_ok by done. cbn [mbind outcome_bind].
  rewrite require_algs_kexinit by done. by case_match.
Qed.

Lemma validate_client_lemma cookie lists l1 l2 tail p :
  length cookie = 16%nat -> length lists = 8%nat ->
  p = (NETNOX_SSH_MSG_KEXINIT :: cookie) ++
      concat (str_field <$> lists ++ [l1; l2]) ++ tail -> is_u32 (zlen p) ->
  netnox_ssh_validate_client_kexinit p =
  if bool_decide (offered required_algs lists) then Ok tt else Err NETNOX_RETURN_FAILED.
Proof.
  intros Hc Hl Hp Hlen. unfold netnox_ssh_validate_client_kexinit.
  rewrite Hp, kexinit_header_ok by done. cbn [mbind outcome_bind].
  rewrite require_algs_kexinit; [|done|rewrite length_app; simpl; lia|by rewrite <- Hp].
  rewrite (take_app_length' lists) by done. rewrite <- Hp. case_match; [|done]. cbn [mbind outcome_bind].
  set (pre := (NETNOX_SSH_MSG_KEXINIT :: cookie) ++ concat (str_field <$> lists)).
  assert (Hp' : p = pre ++ str_field l1 ++ str_field l2 ++ tail).
  { rewrite Hp, fmap_app, concat_app. unfold pre. cbn [fmap list_fmap concat].
    by rewrite app_nil_r, <- !app_assoc. }
  unfold read_view. rewrite (read_view_field p (zlen p) (zlen pre) pre l1 _ Hp') by done.
  cbn [orc mbind outcome_bind].
  rewrite (read_view_field p (zlen p) _ (pre ++ str_field l1) l2 tail); [done| |len|done|done].
  by rewrite Hp', <- app_assoc.
Qed.

Lemma append_namelists_ok lists : forall p max,
  zlen p + zlen (concat (str_field <$> lists)) <= max -> is_u32 max ->
  append_namelists p max lists = Ok (p ++ concat (str_field <$> lists)).
Proof.
  induction lists as [|l lists IH]; intros p max Hl Hm.
  - simpl. by rewrite app_nil_r.
  - cbn [append_namelists]. change (concat (str_field <$> l :: lists))
      with (str_field l ++ concat (str_field <$> lists)) in *.
    pose proof (str_field_length l). rewrite append_namelist_ok by (done || len). simpl.
    rewrite IH by (done || len). by rewrite <- app_assoc.
Qed.

Lemma build_kexinit_ok offer cookie max :
  zlen (kexinit_payload offer cookie) <= max -> is_u32 max ->
  build_kexinit_from_cookie offer cookie max = Ok (kexinit_payload offer cookie).
Proof.
  unfold kexinit_payload, build_kexinit_from_cookie. intros Hl Hm.
  set (h := NETNOX_SSH_MSG_KEXINIT :: cookie) in *.
  set (f := concat (str_field <$> offer)) in *.
  assert (E : zlen (h ++ f ++ [0; 0; 0; 0; 0]) = zlen h + zlen f + 5) by len.
  rewrite append_namelists_ok; [fold f; cbn [mbind outcome_bind]|fold f; lia|done].
  assert (E' : zlen (h ++ f) = zlen h + zlen f) by len.
  rewrite (u32_small (zlen (h ++ f) + 1)) by ulia. rewrite u32_small by ulia.
  rewrite !Z.gtb_ltb, E'. repeat (case_match; [lia|]). by rewrite <- app_assoc.
Qed.

Lemma offers_fit offer cookie : offer = client_offer \/ offer = server_offer ->
  length cookie = 16%nat -> zlen (kexinit_payload offer cookie) <= 1024.
Proof.
  unfold kexinit_payload. intros Ho Hc.
  rewrite !length_app. simpl (length (_ :: cookie)). rewrite Hc.
  destruct Ho as [-> | ->]; vm_compute; discriminate.
Qed.

(** The scanner's fuel always suffices, whatever length is claimed for the list. *)
Lemma mem_byte_terminates mem off : terminates (mem_byte mem off).
Proof. unfold mem_byte. repeat case_match; done. Qed.
Lemma mem_byte_inside mem off c : mem_byte mem off = Ok c -> 0 <= off < zlen mem.
Proof.
  unfold mem_byte. repeat case_match; intros; simplify_eq.
  match goal with Hl : _ !! _ = Some _ |- _ => apply lookup_lt_Some in Hl end. lia.
Qed.

Lemma find_end_terminates fuel lst n e : zlen lst <= Z.of_nat fuel + e ->
  terminates (find_end fuel lst n e) /\ (forall e', find_end fuel lst n e = Ok e' -> e <= e').
Proof.
  revert e. induction fuel as [|fuel IH]; intros e Hf; cbn [find_end];
    (destruct (e <? n); [|split; [done|intros; simplify_eq; lia]]);
    pose proof (mem_byte_terminates lst e) as Ht; destruct (mem_byte lst e) eqn:Em; try done;
    apply mem_byte_inside in Em; cbn [mbind outcome_bind];
    (destruct (_ =? comma); [split; [done|intros; simplify_eq; lia]|]).
  - lia.
  - destruct (IH (e + 1)) as [Hd Hle]; [lia|]. split; [done|]. intros e' He. specialize (Hle e' He). lia.
Qed.

Lemma mem_read_terminates mem off n : terminates (mem_read mem off n).
Proof. unfold mem_read. by case_match. Qed.

Lemma namelist_scan_terminates fuel lst n token start :
  0 <= start -> zlen lst <= Z.of_nat fuel + start -> terminates (namelist_scan fuel lst n token start).
Proof.
  revert start. induction fuel as [|fuel IH]; intros start H0 Hf; cbn [namelist_scan];
    (destruct (start <? n) eqn:Es; [|done]);
    destruct (find_end_terminates (length lst) lst n start) as [Hd Hle]; try lia;
    destruct (find_end _ lst n start) as [e| | |] eqn:Ee; try done; specialize (Hle e eq_refl);
    cbn [mbind outcome_bind].
  - pose proof (mem_byte_inside lst start) as Hin.
    destruct (length lst) as [|k]; cbn [find_end] in Ee; rewrite Es in Ee;
      destruct (mem_byte lst start) eqn:Em; cbn [mbind outcome_bind] in Ee; try done;
      specialize (Hin _ eq_refl); lia.
  - destruct (e - start =? zlen token).
    + pose proof (mem_read_terminates lst start (zlen token)).
      destruct (mem_read _ _ _); try done. cbn [mbind outcome_bind].
      destruct (bool_decide _); [done|]. destruct (e >=? n); [done|]. apply IH; lia.
    + cbn [mbind outcome_bind]. destruct (e >=? n); [done|]. apply IH; lia.
Qed.

Lemma payload_read_u32_terminates p n off : terminates (netnox_ssh_payload_read_u32 p n off).
Proof.
  unfold netnox_ssh_payload_read_u32. terminate; [apply mem_read_terminates|].
  by destruct a as [|? [|? [|? [|? [|]]]]].
Qed.

Lemma payload_read_view_terminates p n off : terminates (netnox_ssh_payload_read_string_view p n off).
Proof.
  unfold netnox_ssh_payload_read_string_view. terminate. apply payload_read_u32_terminates.
Qed.

Lemma view_bytes_terminates v : terminates (view_bytes v).
Proof. apply mem_read_terminates. Qed.
Lemma view_is_terminates v s : terminates (view_is v s).
Proof. unfold view_is. terminate. apply mem_read_terminates. Qed.
#[export] Hint Resolve mem_byte_terminates mem_read_terminates payload_read_u32_terminates
  payload_read_view_terminates view_bytes_terminates view_is_terminates : noxssh.

Lemma put_terminates p max claimed d : terminates (put p max claimed d).
Proof. unfold put. terminate. Qed.
#[export] Hint Resolve put_terminates : noxssh.
Lemma append_u8_terminates p max v : terminates (netnox_ssh_payload_append_u8 p max v).
Proof. apply put_terminates. Qed.
Lemma append_u32_terminates p max v : terminates (netnox_ssh_payload_append_u32 p max v).
Proof. apply put_terminates. Qed.
Lemma append_string_terminates p max s : terminates (netnox_ssh_payload_append_string p max s).
Proof. apply put_terminates. Qed.
#[export] Hint Resolve append_u8_terminates append_u32_terminates append_string_terminates : noxssh.

(** What an append returns fits the buffer. *)
Lemma append_u8_max p max v p' : netnox_ssh_payload_append_u8 p max v = Ok p' -> zlen p' <= max.
Proof. intros Hp. apply put_Ok_inv in Hp as [-> ?]. rewrite length_app. lia. Qed.
Lemma append_u32_max p max v p' : netnox_ssh_payload_append_u32 p max v = Ok p' -> zlen p' <= max.
Proof. intros Hp. apply put_Ok_inv in Hp as [-> ?]. rewrite length_app. lia. Qed.
Lemma append_string_max p max s p' :
  netnox_ssh_payload_append_string p max s = Ok p' -> zlen p' <= max.
Proof. intros Hp. apply put_Ok_inv in Hp as [-> ?]. rewrite length_app. lia. Qed.

Lemma require_algs_terminates p off algs : terminates (require_algs p off algs).
Proof.
  revert off. induction algs as [|a algs IH]; intros off; [done|]. cbn [require_algs]. unfold require_alg, read_view.
  terminate. unfold netnox_ssh_namelist_contains. terminate. apply namelist_scan_terminates; lia.
Qed.

Lemma validate_server_terminates p : terminates (netnox_ssh_validate_server_kexinit p).
Proof.
  unfold netnox_ssh_validate_server_kexinit, kexinit_header. terminate. apply require_algs_terminates.
Qed.

(** ** Properties *)

(** [netnox_ssh_namelist_contains] answers exactly whether the token is one of
    the comma-separated names of the list, and reads only the bytes of the list. *)
Theorem namelist_contains_names lst n token :
  0 <= n <= zlen lst -> token <> [] ->
  netnox_ssh_namelist_contains lst n token = Ok (bool_decide (token ∈ names (ztake n lst))).
Proof. apply namelist_contains_spec. Qed.

Lemma namelist_contains_names_witness :
  netnox_ssh_namelist_contains (bs "none,zlib") 9 (bs "zlib") = Ok true.
Proof.
  transitivity (Ok (bool_decide (bs "zlib" ∈ names (ztake 9 (bs "none,zlib"))))).
  - apply (namelist_contains_names (bs "none,zlib") 9 (bs "zlib")).
    + vm_compute. split; discriminate.
    + discriminate.
  - vm_compute. reflexivity.
Defined.

(** The client accepts a server KEXINIT of at least eight name-lists if and only
    if every algorithm it requires (one key exchange, one host key, a cipher and a
    MAC per direction, no compression) is named by the list of that position; any
    other such KEXINIT is refused with NETNOX_RETURN_FAILED. *)
Theorem validate_server_kexinit_spec cookie lists tail p :
  length cookie = 16%nat -> (8 <= length lists)%nat ->
  p = (NETNOX_SSH_MSG_KEXINIT :: cookie) ++ concat (str_field <$> lists) ++ tail ->
  is_u32 (zlen p) ->
  netnox_ssh_validate_server_kexinit p =
  if bool_decide (offered required_algs (take 8 lists)) then Ok tt else Err NETNOX_RETURN_FAILED.
Proof. intros Hc Hl -> Hlen. by apply validate_server_lemma. Qed.

Lemma validate_server_kexinit_spec_witness :
  netnox_ssh_validate_server_kexinit
    ((NETNOX_SSH_MSG_KEXINIT :: replicate 16 0) ++
     concat (str_field <$> replicate 8 (bs "aes128-ctr")) ++ []) = Err NETNOX_RETURN_FAILED.
Proof.
  apply (validate_server_kexinit_spec (replicate 16 0) (replicate 8 (bs "aes128-ctr")) []).
  - reflexivity.
  - simpl. lia.
  - reflexivity.
  - vm_compute. split; [discriminate | reflexivity].
Defined.

(** C38: the two sides negotiate: whatever cookie was drawn, the payload the client
    builds fits its 1024-byte buffer and passes the server's validator, and the one
    the server builds passes the client's. *)
Theorem kexinit_interoperates cookie :
  length cookie = 16%nat ->
  exists pc ps,
    build_kexinit_from_cookie client_offer cookie 1024 = Ok pc /\
    build_kexinit_from_cookie server_offer cookie 1024 = Ok ps /\
    netnox_ssh_validate_client_kexinit pc = Ok tt /\
    netnox_ssh_validate_server_kexinit ps = Ok tt.
Proof.
  intros Hc. exists (kexinit_payload client_offer cookie), (kexinit_payload server_offer cookie).
  pose proof (offers_fit client_offer cookie (or_introl eq_refl) Hc).
  pose proof (offers_fit server_offer cookie (or_intror eq_refl) Hc).
  split_and!; [apply build_kexinit_ok; ulia..| |].
  - erewrite (validate_client_lemma cookie (take 8 client_offer) [] []);
      [|done|done|reflexivity|ulia].
    rewrite bool_decide_eq_true_2; [done|]. apply (bool_decide_unpack _). vm_compute. exact I.
  - unfold kexinit_payload. rewrite validate_server_lemma;
      [|done|simpl; lia|unfold kexinit_payload in *; ulia].
    rewrite bool_decide_eq_true_2; [done|]. apply (bool_decide_unpack _). vm_compute. exact I.
Qed.

Lemma kexinit_interoperates_witness :
  exists pc ps,
    build_kexinit_from_cookie client_offer (replicate 16 7) 1024 = Ok pc /\
    build_kexinit_from_cookie server_offer (replicate 16 7) 1024 = Ok ps /\
    netnox_ssh_validate_client_kexinit pc = Ok tt /\
    netnox_ssh_validate_server_kexinit ps = Ok tt.
Proof. apply (kexinit_interoperates (replicate 16 7)). reflexivity. Defined.
