(* ===== verification/Fields.v ===== *)
(** Messages as sequences of fields: the runs of [netnox_ssh_payload_append_*] calls
    with which both sides build their requests and replies, and what they build. *)

From S2P Require Export Negotiate.

(** ** Message numbers, names and limits *)

Definition NETNOX_SSH_MAX_BANNER_LINES : nat := 8.
Definition NETNOX_SSH_MAX_COMMAND_LEN : Z := 512.
Definition NETNOX_SSH_MAX_DATA_LEN : Z := 4096.
Definition NETNOX_SSH_CHANNEL_WINDOW_SIZE : Z := 65536.
Definition NETNOX_SSH_CHANNEL_MAX_PACKET_SIZE : Z := 32768.
Definition NETNOX_SSH_MAX_KEXINIT_PAYLOAD_LEN : Z := 32768.
Definition NETNOX_SSH_KEXINIT_PAYLOAD_MAX_LEN : Z := 1024.
Definition NETNOX_SSH_MSG_KEX_ECDH_INIT : Z := 30.
Definition NETNOX_SSH_MSG_KEX_ECDH_REPLY : Z := 31.
Definition NETNOX_SSH_MSG_NEWKEYS : Z := 21.
Definition NETNOX_SSH_MSG_DISCONNECT : Z := 1.
Definition NETNOX_SSH_MSG_EXT_INFO : Z := 7.
Definition NETNOX_SSH_MSG_GLOBAL_REQUEST : Z := 80.
Definition NETNOX_SSH_MSG_REQUEST_FAILURE : Z := 82.
Definition NETNOX_SSH_MSG_CHANNEL_WINDOW_ADJUST : Z := 93.
Definition NETNOX_SSH_MSG_IGNORE : Z := 2.
Definition NETNOX_SSH_MSG_SERVICE_REQUEST : Z := 5.
Definition NETNOX_SSH_MSG_SERVICE_ACCEPT : Z := 6.
Definition NETNOX_SSH_MSG_USERAUTH_REQUEST : Z := 50.
Definition NETNOX_SSH_MSG_USERAUTH_FAILURE : Z := 51.
Definition NETNOX_SSH_MSG_USERAUTH_SUCCESS : Z := 52.
Definition NETNOX_SSH_MSG_CHANNEL_OPEN : Z := 90.
Definition NETNOX_SSH_MSG_CHANNEL_OPEN_CONFIRMATION : Z := 91.
Definition NETNOX_SSH_MSG_CHANNEL_OPEN_FAILURE : Z := 92.
Definition NETNOX_SSH_MSG_CHANNEL_DATA : Z := 94.
Definition NETNOX_SSH_MSG_CHANNEL_EXTENDED_DATA : Z := 95.
Definition NETNOX_SSH_MSG_CHANNEL_EOF : Z := 96.
Definition NETNOX_SSH_MSG_CHANNEL_CLOSE : Z := 97.
Definition NETNOX_SSH_MSG_CHANNEL_REQUEST : Z := 98.
Definition NETNOX_SSH_MSG_CHANNEL_SUCCESS : Z := 99.
Definition NETNOX_SSH_MSG_CHANNEL_FAILURE : Z := 100.

Definition NETNOX_SSH_SERVICE_USERAUTH : list Z := bs "ssh-userauth".
Definition NETNOX_SSH_SERVICE_CONNECTION : list Z := bs "ssh-connection".
Definition NETNOX_SSH_AUTH_METHOD_PASSWORD : list Z := bs "password".
Definition NETNOX_SSH_AUTH_METHOD_PUBLICKEY : list Z := bs "publickey".
Definition NETNOX_SSH_KEYALG_ED25519 : list Z := bs "ssh-ed25519".
Definition NETNOX_SSH_CHANNEL_TYPE_SESSION : list Z := bs "session".
Definition NETNOX_SSH_CHANNEL_REQ_EXEC : list Z := bs "exec".
Definition NETNOX_SSH_CHANNEL_REQ_SHELL : list Z := bs "shell".

(** [payload_len == 0 || payload\[0\] != type] *)
Definition is_message (payload : list Z) (type : Z) : bool :=
  match payload with b :: _ => b =? type | [] => false end.

(** ** Fields *)

Inductive field : Type :=
| FU8 (v : Z)
| FU32 (v : Z)
| FStr (s : list Z).

Definition append_field (p : list Z) (max : Z) (f : field) : outcome (list Z) :=
  match f with
  | FU8 v => netnox_ssh_payload_append_u8 p max v
  | FU32 v => netnox_ssh_payload_append_u32 p max v
  | FStr s => netnox_ssh_payload_append_string p max s
  end.

(** A run of [if(append(..) != NETNOX_RETURN_SUCCESS) return NETNOX_RETURN_FAILED;] *)
Fixpoint append_fields (p : list Z) (max : Z) (fs : list field) : outcome (list Z) :=
  match fs with
  | [] => Ok p
  | f :: fs =>
      p ← orc NETNOX_RETURN_FAILED (append_field p max f);
      append_fields p max fs
  end.

(** [payload_read_string_view] on a blob that is itself a view. *)
Definition view_field (blob : view) (off : Z) : outcome (view * Z) :=
  orc NETNOX_RETURN_FAILED (netnox_ssh_payload_read_string_view (v_mem blob) (v_len blob) off).

(** ** Specification: RFC 4251 section 5 data types *)

Definition field_bytes (f : field) : list Z :=
  match f with
  | FU8 v => [v]
  | FU32 v => netnox_ssh_write_u32_be v
  | FStr s => str_field s
  end.
Definition message (fs : list field) : list Z := concat (field_bytes <$> fs).

(** Strings far below the 32-bit range, as all buffers are. *)
Definition field_small (f : field) : Prop :=
  match f with FStr s => zlen s < 2 ^ 30 | _ => True end.

(** ** Facts *)

Lemma message_cons f fs : message (f :: fs) = field_bytes f ++ message fs.
Proof. done. Qed.
Lemma message_app fs1 fs2 : message (fs1 ++ fs2) = message fs1 ++ message fs2.
Proof. unfold message. by rewrite fmap_app, concat_app. Qed.

Definition field_size (f : field) : Z :=
  match f with FU8 _ => 1 | FU32 _ => 4 | FStr s => 4 + zlen s end.
Lemma message_length fs : zlen (message fs) = foldr (fun f n => field_size f + n) 0 fs.
Proof.
  induction fs as [|f fs IH]; [done|]. rewrite message_cons, length_app, Nat2Z.inj_add, IH.
  cbn [foldr]. f_equal. destruct f; cbn [field_bytes field_size];
    [done|by rewrite write_u32_be_length|rewrite str_field_length; lia].
Qed.

Lemma append_u8_total p max v : zlen p < 2 ^ 31 ->
  netnox_ssh_payload_append_u8 p max v =
  if zlen p + 1 <=? max then Ok (p ++ [v]) else Err NETNOX_RETURN_BAD_PARAM.
Proof. intros H. apply put_total. rewrite u32_small by ulia. done. Qed.

Lemma orc_append_field p max f : zlen p <= max -> max < 2 ^ 30 -> field_small f ->
  orc NETNOX_RETURN_FAILED (append_field p max f) =
  if zlen (p ++ field_bytes f) <=? max then Ok (p ++ field_bytes f) else Err NETNOX_RETURN_FAILED.
Proof.
  intros Hp Hm Hf. rewrite length_app, Nat2Z.inj_add. destruct f as [v|v|s]; cbn [append_field field_bytes].
  - rewrite append_u8_total by lia. change (zlen [v]) with 1. by case_match.
  - rewrite append_u32_total by lia. rewrite write_u32_be_length. change (Z.of_nat 4) with 4. by case_match.
  - simpl in Hf. rewrite str_field_length. case_match.
    + by rewrite append_string_ok by ulia.
    + by rewrite append_string_refused by lia.
Qed.

Lemma append_fields_spec max fs : max < 2 ^ 30 -> Forall field_small fs ->
  forall p, zlen p <= max ->
  append_fields p max fs =
  if zlen (p ++ message fs) <=? max then Ok (p ++ message fs) else Err NETNOX_RETURN_FAILED.
Proof.
  intros Hm. induction 1 as [|f fs Hf Hfs IH]; intros p Hp; cbn [append_fields].
  { unfold message. simpl. rewrite app_nil_r. case_match; [done|lia]. }
  rewrite orc_append_field by done. rewrite message_cons, app_assoc.
  destruct (zlen (p ++ field_bytes f) <=? max) eqn:E; cbn [mbind outcome_bind].
  - apply IH. lia.
  - rewrite (length_app (p ++ _)). case_match; [lia|done].
Qed.

(** The message fits: it is what is built. *)
Lemma append_fields_ok max fs : max < 2 ^ 30 -> Forall field_small fs ->
  zlen (message fs) <= max -> append_fields [] max fs = Ok (message fs).
Proof.
  intros Hm Hf Hl. rewrite append_fields_spec by (done || (simpl; lia)). simpl.
  case_match; [done|lia].
Qed.

Lemma append_field_terminates p max f : terminates (append_field p max f).
Proof. destruct f; simpl; auto with noxssh. Qed.
#[export] Hint Resolve append_field_terminates : noxssh.
Lemma append_fields_terminates max fs p : terminates (append_fields p max fs).
Proof. revert p. induction fs as [|f fs IH]; intros p; cbn [append_fields]; terminate. Qed.
#[export] Hint Resolve append_fields_terminates : noxssh.

Lemma append_field_max p max f p' : append_field p max f = Ok p' -> zlen p' <= max.
Proof.
  destruct f; simpl; [apply append_u8_max|apply append_u32_max|apply append_string_max].
Qed.
Lemma append_fields_max max fs p p' : zlen p <= max -> append_fields p max fs = Ok p' -> zlen p' <= max.
Proof.
  revert p. induction fs as [|f fs IH]; intros p Hp Ha; cbn [append_fields] in Ha.
  - by simplify_eq.
  - inv_ok. eapply IH; [|exact Ha]. by eapply append_field_max.
Qed.


(** The length of a message with literal strings. *)
Ltac literal_lengths :=
  repeat match goal with
  | |- context [length ?c] =>
      first [is_const c | match c with bs _ => idtac end];
      let n := eval vm_compute in (length c) in change (length c) with n
  end.
Ltac message_len := rewrite ?message_length; cbn [foldr field_size app]; literal_lengths.
Ltac fields_small :=
  repeat (apply Forall_cons_2; [cbn [field_small]; first [exact I|literal_lengths; lia]|]);
  apply Forall_nil_2.
