(* ===== verification/Crypto.v ===== *)
(** The cryptographic helpers of common/noxssh_common.c over the NoxTLS interface:
    HMAC-SHA256, one-shot SHA-256, and the AES-CTR block counter. NoxTLS is a git
    submodule outside this repository, so its functions are the class [NoxTLS] and
    what the code relies on is the class [NoxTLSLaws]. *)

From S2P Require Export Wire.

(** ** The NoxTLS interface *)

Inductive noxtls_hash_algos_t : Type := NOXTLS_HASH_SHA1 | NOXTLS_HASH_SHA_256.
Inductive rsa_key_size_t : Type := RSA_1024_BIT | RSA_2048_BIT | RSA_3072_BIT | RSA_4096_BIT.

Record rsa_key_t : Type := mkRsaKey { key_bytes : Z; rsa_n : list Z; rsa_e : list Z }.

(** Each function returns whether its code was NOXTLS_RETURN_SUCCESS, and what it wrote. *)
Class NoxTLS : Type := {
  noxtls_sha_ctx_t : Type;
  noxtls_sha_init : noxtls_hash_algos_t -> bool * noxtls_sha_ctx_t;
  noxtls_sha_update : noxtls_sha_ctx_t -> list Z -> bool * noxtls_sha_ctx_t;
  noxtls_sha_finish : noxtls_sha_ctx_t -> bool * list Z;
  (** key, data, initial counter block (AES-128) *)
  noxtls_aes_encrypt_ctr : list Z -> list Z -> list Z -> bool * list Z;
  noxtls_x25519_shared_secret : list Z -> list Z -> bool * list Z;
  noxtls_x25519_public_key : list Z -> bool * list Z;
  noxtls_x25519_clamp_scalar : list Z -> list Z;
  (** public key, message, signature *)
  noxtls_ed25519_verify : list Z -> list Z -> list Z -> bool;
  noxtls_ed25519_sign : list Z -> list Z -> bool * list Z;
  noxtls_ed25519_public_key : list Z -> bool * list Z;
  noxtls_rsa_key_init : rsa_key_size_t -> bool * rsa_key_t;
  noxtls_rsa_verify : rsa_key_t -> list Z -> list Z -> noxtls_hash_algos_t -> bool
}.

(** ** HMAC-SHA256 and SHA-256 *)

(** [for(i = 0; i < key_len; i++) pad\[i\] ^= key\[i\];] *)
Definition xor_prefix (pad key : list Z) : list Z :=
  zip_with Z.lxor pad key ++ drop (length key) pad.

Section code.
Context `{NoxTLS}.

Definition netnox_ssh_hmac_sha256 (key data : list Z) : outcome (list Z) :=
  let '(ok, ctx) := noxtls_sha_init NOXTLS_HASH_SHA_256 in
  if negb ok then Err NETNOX_RETURN_FAILED
  else
    let key := if zlen key >? 64
               then ztake 32 (noxtls_sha_finish (noxtls_sha_update ctx key).2).2
               else key in
    let ipad := xor_prefix (replicate 64 0x36) key in
    let opad := xor_prefix (replicate 64 0x5C) key in
    let ctx := (noxtls_sha_init NOXTLS_HASH_SHA_256).2 in
    let ctx := (noxtls_sha_update ctx ipad).2 in
    let ctx := (noxtls_sha_update ctx data).2 in
    let inner_hash := ztake 32 (noxtls_sha_finish ctx).2 in
    let ctx := (noxtls_sha_init NOXTLS_HASH_SHA_256).2 in
    let ctx := (noxtls_sha_update ctx opad).2 in
    let ctx := (noxtls_sha_update ctx inner_hash).2 in
    Ok (noxtls_sha_finish ctx).2.

Definition netnox_ssh_sha256 (data : list Z) : outcome (list Z) :=
  let '(ok, ctx) := noxtls_sha_init NOXTLS_HASH_SHA_256 in
  if negb ok then Err NETNOX_RETURN_FAILED
  else
    let '(ok, ctx) := if zlen data >? 0 then noxtls_sha_update ctx data else (true, ctx) in
    if negb ok then Err NETNOX_RETURN_FAILED
    else
      let '(ok, out) := noxtls_sha_finish ctx in
      if negb ok then Err NETNOX_RETURN_FAILED else Ok out.

(** The init/update/finish sequence of the exchange hash and the key derivation. *)
Definition sha256_checked (data : list Z) : outcome (list Z) :=
  let '(ok, ctx) := noxtls_sha_init NOXTLS_HASH_SHA_256 in
  if negb ok then Err NETNOX_RETURN_FAILED
  else
    let '(ok, ctx) := noxtls_sha_update ctx data in
    if negb ok then Err NETNOX_RETURN_FAILED
    else
      let '(ok, out) := noxtls_sha_finish ctx in
      if negb ok then Err NETNOX_RETURN_FAILED else Ok out.
End code.

(** ** The AES-CTR counter *)

(** The loop runs from byte 15 down: on the reversed counter, byte by byte. *)
Fixpoint ctr_increment_le (counter : list Z) (carry : Z) : list Z :=
  match counter with
  | [] => []
  | b :: counter' =>
      if carry >? 0 then
        let carry := u64 (carry + b) in
        Z.land carry 255 :: ctr_increment_le counter' (Z.shiftr carry 8)
      else counter
  end.

Definition netnox_ssh_ctr_increment_blocks (counter_16 : list Z) (n_blocks : Z) : list Z :=
  rev (ctr_increment_le (rev counter_16) n_blocks).

(** ** Specification *)

(** [k] big-endian bytes of [v]. *)
Fixpoint le_bytes (k : nat) (v : Z) : list Z :=
  match k with O => [] | S k => v mod 256 :: le_bytes k (v / 256) end.
Definition be_bytes (k : nat) (v : Z) : list Z := rev (le_bytes k v).
Definition le_value (l : list Z) : Z := foldr (fun b acc => b + 256 * acc) 0 l.

(** The counter block [n] blocks further on: a 128-bit big-endian counter. *)
Definition ctr_add (ctr : list Z) (n : Z) : list Z :=
  be_bytes 16 ((be_value ctr + n) mod 2 ^ 128).

(** CTR mode of the block function [E] (NIST SP 800-38A, RFC 4344 section 4). *)
Fixpoint keystream (E : list Z -> list Z) (ctr : list Z) (blocks : nat) : list Z :=
  match blocks with O => [] | S k => E ctr ++ keystream E (ctr_add ctr 1) k end.

Definition blocks_of (n : nat) : nat := Nat.div (n + 15) 16.

Definition ctr_mode (E : list Z -> list Z) (ctr data : list Z) : list Z :=
  zip_with Z.lxor data (keystream E ctr (blocks_of (length data))).

(** RFC 2104 with block length 64. *)
Definition hmac_spec (H : list Z -> list Z) (key data : list Z) : list Z :=
  let k := if zlen key >? 64 then H key else key in
  let k64 := k ++ replicate (64 - length k) 0 in
  H (((fun b => Z.lxor b 0x5C) <$> k64) ++ H (((fun b => Z.lxor b 0x36) <$> k64) ++ data)).

(** What the code relies on: SHA-256 is the hash of what was absorbed, AES-CTR is
    counter mode of a block cipher, and the fixed output lengths. *)
Class NoxTLSLaws (T : NoxTLS) : Type := {
  sha256 : list Z -> list Z;
  sha_absorbed : noxtls_sha_ctx_t -> list Z -> Prop;
  aes_block : list Z -> list Z -> list Z;
  sha_init_law : (noxtls_sha_init NOXTLS_HASH_SHA_256).1 = true /\
                 sha_absorbed (noxtls_sha_init NOXTLS_HASH_SHA_256).2 [];
  sha_update_law c d x : sha_absorbed c d ->
    (noxtls_sha_update c x).1 = true /\ sha_absorbed (noxtls_sha_update c x).2 (d ++ x);
  sha_finish_law c d : sha_absorbed c d -> noxtls_sha_finish c = (true, sha256 d);
  sha256_length d : length (sha256 d) = 32%nat;
  sha256_bytes_ok d : bytes_ok (sha256 d);
  aes_block_length k b : length (aes_block k b) = 16%nat;
  aes_block_bytes_ok k b : bytes_ok (aes_block k b);
  aes_ctr_law k data ctr : length k = 16%nat -> length ctr = 16%nat -> bytes_ok ctr ->
    noxtls_aes_encrypt_ctr k data ctr = (true, ctr_mode (aes_block k) ctr data);
  x25519_shared_length priv pub s :
    noxtls_x25519_shared_secret priv pub = (true, s) -> length s = 32%nat /\ bytes_ok s;
  x25519_public_length priv s :
    noxtls_x25519_public_key priv = (true, s) -> length s = 32%nat /\ bytes_ok s;
  ed25519_sign_length sk m s :
    noxtls_ed25519_sign sk m = (true, s) -> length s = 64%nat /\ bytes_ok s;
  ed25519_public_length sk pk :
    noxtls_ed25519_public_key sk = (true, pk) -> length pk = 32%nat /\ bytes_ok pk;
  rsa_key_init_law size key : noxtls_rsa_key_init size = (true, key) ->
    length (rsa_n key) = Z.to_nat (key_bytes key) /\
    length (rsa_e key) = Z.to_nat (key_bytes key) /\
    key_bytes key = match size with
                    | RSA_1024_BIT => 128 | RSA_2048_BIT => 256
                    | RSA_3072_BIT => 384 | RSA_4096_BIT => 512 end
}.

(** ** Facts: hashing *)

Section laws.
Context {T : NoxTLS} {L : NoxTLSLaws T}.

Lemma sha_run_law d : exists c,
  sha_absorbed c d /\
  noxtls_sha_update (noxtls_sha_init NOXTLS_HASH_SHA_256).2 d = (true, c) /\
  noxtls_sha_finish c = (true, sha256 d).
Proof.
  destruct sha_init_law as [_ H0]. pose proof (sha_update_law _ _ d H0) as [E H1].
  destruct (noxtls_sha_update _ d) as [b c]. simpl in *. subst b. exists c.
  split_and!; [done..|by apply sha_finish_law].
Qed.

Lemma sha_init_true :
  noxtls_sha_init NOXTLS_HASH_SHA_256 = (true, (noxtls_sha_init NOXTLS_HASH_SHA_256).2).
Proof. destruct sha_init_law as [E _]. destruct (noxtls_sha_init _). by simpl in *; subst. Qed.

Lemma sha256_checked_ok d : sha256_checked d = Ok (sha256 d).
Proof.
  unfold sha256_checked. rewrite sha_init_true. simpl.
  destruct (sha_run_law d) as (c & _ & -> & ->). done.
Qed.

Lemma netnox_ssh_sha256_ok d : netnox_ssh_sha256 d = Ok (sha256 d).
Proof.
  unfold netnox_ssh_sha256. rewrite sha_init_true. simpl. rewrite Z.gtb_ltb.
  destruct (0 <? zlen d) eqn:E.
  - destruct (sha_run_law d) as (c & _ & -> & ->). done.
  - destruct d; [|simpl in E; lia]. destruct sha_init_law as [_ H0].
    by rewrite (sha_finish_law _ _ H0).
Qed.

Lemma sha_finish2 x y :
  (noxtls_sha_finish (noxtls_sha_update (noxtls_sha_update
    (noxtls_sha_init NOXTLS_HASH_SHA_256).2 x).2 y).2).2 = sha256 (x ++ y).
Proof.
  destruct sha_init_law as [_ H0]. pose proof (sha_update_law _ _ x H0) as [_ H1].
  pose proof (sha_update_law _ _ y H1) as [_ H2]. by rewrite (sha_finish_law _ _ H2).
Qed.

Lemma xor_prefix_spec v n key : (length key <= n)%nat ->
  xor_prefix (replicate n v) key = (fun b => Z.lxor b v) <$> key ++ replicate (n - length key) 0.
Proof.
  unfold xor_prefix. revert n. induction key as [|b key IH]; intros n Hn; simpl.
  - rewrite Nat.sub_0_r, fmap_replicate. by destruct n.
  - destruct n as [|n]; simpl in Hn; [lia|]. simpl. rewrite IH by lia. f_equal. apply Z.lxor_comm.
Qed.

Lemma hmac_ok key data : netnox_ssh_hmac_sha256 key data = Ok (hmac_spec sha256 key data).
Proof.
  unfold netnox_ssh_hmac_sha256, hmac_spec. rewrite sha_init_true. simpl.
  set (k := if zlen key >? 64 then _ else key).
  assert (E : k = if zlen key >? 64 then sha256 key else key).
  { unfold k. case_match; [|done]. destruct (sha_run_law key) as (c & _ & -> & E). simpl.
    rewrite E. apply ztake_all. simpl. rewrite sha256_length. lia. }
  rewrite !sha_finish2, E. f_equal.
  set (k' := if zlen key >? 64 then _ else key).
  assert (Hk : (length k' <= 64)%nat)
    by (unfold k'; case_match; [rewrite sha256_length|]; lia).
  rewrite (ztake_all (sha256 _)) by (rewrite sha256_length; lia).
  pose proof (xor_prefix_spec 0x36 64 k' Hk) as Ei. pose proof (xor_prefix_spec 0x5C 64 k' Hk) as Eo.
  by rewrite <- Ei, <- Eo.
Qed.

Lemma hmac_length key data mac :
  netnox_ssh_hmac_sha256 key data = Ok mac -> length mac = 32%nat /\ bytes_ok mac.
Proof.
  rewrite hmac_ok. intros; simplify_eq. unfold hmac_spec.
  split; [apply sha256_length|apply sha256_bytes_ok].
Qed.
End laws.

(** ** Facts: the counter *)

Lemma le_bytes_length k v : length (le_bytes k v) = k.
Proof. revert v. induction k; intros; simpl; auto. Qed.
Lemma be_bytes_length k v : length (be_bytes k v) = k.
Proof. unfold be_bytes. by rewrite length_rev, le_bytes_length. Qed.

Lemma le_bytes_ok k v : bytes_ok (le_bytes k v).
Proof.
  revert v. induction k; intros; constructor; [|apply IHk]. apply (Z.mod_pos_bound _ 256). lia.
Qed.
Lemma bytes_ok_rev l : bytes_ok l -> bytes_ok (rev l).
Proof. intros. rewrite rev_alt. by apply Forall_reverse. Qed.
Lemma be_bytes_ok k v : bytes_ok (be_bytes k v).
Proof. apply bytes_ok_rev, le_bytes_ok. Qed.

Lemma be_value_fold l acc : fold_left (fun acc b => acc * 256 + b) l acc =
  acc * 256 ^ zlen l + be_value l.
Proof.
  unfold be_value. revert acc. induction l as [|b l IH]; intros acc; [simpl; lia|].
  cbn [fold_left]. rewrite (IH (acc * 256 + b)), (IH (0 * 256 + b)).
  simpl length. rewrite Nat2Z.inj_succ, Z.pow_succ_r by lia. lia.
Qed.

Lemma be_value_app l1 l2 : be_value (l1 ++ l2) = be_value l1 * 256 ^ zlen l2 + be_value l2.
Proof. unfold be_value at 1. rewrite fold_left_app. apply be_value_fold. Qed.

Lemma le_value_rev l : le_value l = be_value (rev l).
Proof.
  induction l as [|b l IH]; [done|]. simpl. rewrite be_value_app, <- IH. simpl length.
  unfold be_value. cbn [fold_left]. change (Z.of_nat 1) with 1. lia.
Qed.

Lemma le_bytes_value l : bytes_ok l -> le_bytes (length l) (le_value l) = l.
Proof.
  induction 1 as [|b l Hb Hl IH]; [done|]. simpl. fold (le_value l). unfold is_byte in Hb. f_equal.
  - rewrite Z.mul_comm, Z_mod_plus_full. by apply Z.mod_small.
  - rewrite Z.mul_comm, Z.div_add by lia. by rewrite Z.div_small.
Qed.

Lemma le_value_bytes k v : 0 <= v -> le_value (le_bytes k v) = v mod 256 ^ (Z.of_nat k).
Proof.
  revert v. induction k as [|k IH]; intros v Hv; simpl.
  - by rewrite Z.mod_1_r.
  - rewrite IH by (apply Z.div_pos; lia). rewrite Nat2Z.inj_succ, Z.pow_succ_r by lia.
    rewrite (Z.rem_mul_r v 256 (256 ^ Z.of_nat k)) by lia. lia.
Qed.

Lemma be_bytes_value l : bytes_ok l -> be_bytes (length l) (be_value l) = l.
Proof.
  intros H. unfold be_bytes.
  replace (be_value l) with (le_value (rev l)) by (by rewrite le_value_rev, rev_involutive).
  rewrite <- length_rev, le_bytes_value, rev_involutive by (by apply bytes_ok_rev). done.
Qed.

Lemma be_value_bytes k v : 0 <= v -> be_value (be_bytes k v) = v mod 256 ^ (Z.of_nat k).
Proof. intros. unfold be_bytes. rewrite <- le_value_rev. by apply le_value_bytes. Qed.

Lemma ctr_increment_le_spec l c : bytes_ok l -> 0 <= c < 2 ^ 63 ->
  ctr_increment_le l c = le_bytes (length l) (le_value l + c).
Proof.
  intros Hl. revert c. induction Hl as [|b l Hb Hl IH]; intros c Hc; [done|].
  simpl. fold (le_value l). rewrite Z.gtb_ltb. unfold is_byte in Hb.
  destruct (Z.ltb_spec 0 c).
  - rewrite u64_small, land_255, Z.shiftr_div_pow2 by lia. change (2 ^ 8) with 256. f_equal.
    + replace (b + 256 * le_value l + c) with (c + b + le_value l * 256) by lia.
      by rewrite Z_mod_plus_full.
    + rewrite IH.
      * f_equal. replace (b + 256 * le_value l + c) with (c + b + le_value l * 256) by lia.
        rewrite Z.div_add by lia. lia.
      * split; [apply Z.div_pos; lia|]. apply Z.div_lt_upper_bound; lia.
  - replace c with 0 by lia. rewrite Z.add_0_r.
    pose proof (le_bytes_value (b :: l) ltac:(by constructor)) as E. simpl in E.
    fold (le_value l) in E. by rewrite E.
Qed.

Lemma ctr_increment_spec ctr n : length ctr = 16%nat -> bytes_ok ctr -> 0 <= n < 2 ^ 63 ->
  netnox_ssh_ctr_increment_blocks ctr n = ctr_add ctr n.
Proof.
  intros Hl Hb Hn. unfold netnox_ssh_ctr_increment_blocks, ctr_add.
  rewrite ctr_increment_le_spec by (auto using bytes_ok_rev).
  rewrite length_rev, Hl, le_value_rev, rev_involutive. unfold be_bytes. f_equal.
  pose proof (be_value_range ctr Hb).
  rewrite <- (le_bytes_value (le_bytes 16 (be_value ctr + n))) by apply le_bytes_ok.
  by rewrite le_bytes_length, le_value_bytes by lia.
Qed.

Lemma ctr_add_length ctr n : length (ctr_add ctr n) = 16%nat.
Proof. apply be_bytes_length. Qed.
Lemma ctr_add_bytes_ok ctr n : bytes_ok (ctr_add ctr n).
Proof. apply be_bytes_ok. Qed.
Lemma ctr_add_add ctr m n : bytes_ok ctr -> 0 <= m -> 0 <= n ->
  ctr_add (ctr_add ctr m) n = ctr_add ctr (m + n).
Proof.
  intros Hb Hm Hn. unfold ctr_add. pose proof (be_value_range ctr Hb).
  pose proof (Z.mod_pos_bound (be_value ctr + m) (2 ^ 128) ltac:(lia)).
  rewrite be_value_bytes by lia. change (256 ^ Z.of_nat 16) with (2 ^ 128).
  rewrite Zmod_mod, Zplus_mod_idemp_l. do 2 f_equal. lia.
Qed.
Lemma ctr_add_0 ctr : length ctr = 16%nat -> bytes_ok ctr -> ctr_add ctr 0 = ctr.
Proof.
  intros Hl Hb. unfold ctr_add. rewrite Z.add_0_r, Z.mod_small.
  - rewrite <- Hl. by apply be_bytes_value.
  - pose proof (be_value_range ctr Hb) as H. by rewrite Hl in H.
Qed.
#[export] Hint Resolve ctr_add_length ctr_add_bytes_ok be_bytes_ok bytes_ok_rev
  sha256_bytes_ok aes_block_bytes_ok : noxssh.

(** ** Facts: fields *)

(** Four bytes are the encoding of their value. *)
Lemma write_u32_be_of_bytes d : bytes_ok d -> length d = 4%nat ->
  netnox_ssh_write_u32_be (be_value d) = d.
Proof.
  intros Hb Hl. assert (E : forall v, netnox_ssh_write_u32_be v = be_bytes 4 v).
  { intros v. rewrite write_u32_be_bytes. unfold be_bytes. simpl.
    rewrite !Z.div_div by lia. done. }
  rewrite E, <- Hl. by apply be_bytes_value.
Qed.

(** Whatever the claimed length: a field that was read and whose bytes are all in
    memory is the encoding of those bytes, and the offset is just past it. *)
Lemma read_view_inv mem n off v off' s :
  bytes_ok mem -> is_u32 (zlen mem + 4) -> 0 <= off <= zlen mem ->
  netnox_ssh_payload_read_string_view mem n off = Ok (v, off') -> view_bytes v = Ok s ->
  zdrop off mem = str_field s ++ zdrop off' mem /\ off' = off + 4 + zlen s /\
  off' <= zlen mem /\ off' <= n /\ v_len v = zlen s /\ v_mem v = zdrop (off + 4) mem.
Proof.
  intros Hb Hl Ho Hr Hv. unfold netnox_ssh_payload_read_string_view, netnox_ssh_payload_read_u32 in Hr.
  rewrite (u32_small (off + 4)) in Hr by ulia. rewrite Z.gtb_ltb in Hr.
  destruct (n <? off + 4); [done|]. destruct (mem_read mem off 4) as [d| | |] eqn:Ed; try done.
  apply mem_read_ok in Ed as (-> & _ & H4). cbn [mbind outcome_bind orc] in Hr.
  assert (Hd : bytes_ok (ztake 4 (zdrop off mem))) by auto with noxssh.
  destruct (ztake_4 (zdrop off mem)) as (b0 & b1 & b2 & b3 & E); [rewrite zdrop_length; lia|].
  rewrite E in Hr, Hd. pose proof (be_value_range _ Hd) as Hrange.
  assert (Ev : netnox_ssh_read_u32_be b0 b1 b2 b3 = be_value [b0; b1; b2; b3])
    by (inversion Hd as [|?? B0 Hb1]; inversion Hb1 as [|?? B1 Hb2]; inversion Hb2 as [|?? B2 Hb3];
        inversion Hb3; by apply read_u32_be_value).
  rewrite Ev in Hr. rewrite <- E in Hr, Ev, Hrange, Hd.
  set (len := be_value (ztake 4 (zdrop off mem))) in *. cbn [orc mbind outcome_bind] in Hr.
  rewrite Z.gtb_ltb in Hr. destruct (n <? u32 (off + 4 + len)) eqn:En; [done|]. simplify_eq Hr.
  intros <- <-. unfold view_bytes in Hv. simpl in Hv. apply mem_read_ok in Hv as (-> & _ & Hlen).
  rewrite zdrop_length in Hlen by lia. rewrite u32_small in En |- * by ulia.
  assert (Es : zlen (ztake len (zdrop 0 (zdrop (off + 4) mem))) = len)
    by (rewrite zdrop_0, ztake_length; rewrite ?zdrop_length; lia).
  rewrite Es. split_and!; try lia; try done.
  unfold str_field. rewrite Es, zdrop_0.
  assert (Ew : netnox_ssh_write_u32_be len = ztake 4 (zdrop off mem)).
  { unfold len. apply write_u32_be_of_bytes; [done|]. rewrite E. done. }
  rewrite Ew, <- app_assoc. unfold ztake, zdrop.
  replace (Z.to_nat (off + 4 + len)) with (Z.to_nat len + Z.to_nat (off + 4))%nat by lia.
  rewrite Nat.add_comm, <- drop_drop, take_drop.
  replace (Z.to_nat (off + 4)) with (Z.to_nat off + Z.to_nat 4)%nat by lia.
  by rewrite <- drop_drop, take_drop.
Qed.

(** ** Facts: counter mode *)

Section ctr_mode.
Context (E : list Z -> list Z) (E_length : forall b, length (E b) = 16%nat).

Lemma keystream_length ctr k : length (keystream E ctr k) = (16 * k)%nat.
Proof. revert ctr. induction k; intros; simpl; [done|]. rewrite length_app, E_length, IHk. lia. Qed.

Lemma keystream_app ctr a b : length ctr = 16%nat -> bytes_ok ctr ->
  keystream E ctr (a + b) = keystream E ctr a ++ keystream E (ctr_add ctr (Z.of_nat a)) b.
Proof.
  revert ctr. induction a as [|a IH]; intros ctr Hl Hb; simpl.
  - by rewrite ctr_add_0.
  - rewrite IH, <- app_assoc by auto with noxssh. rewrite ctr_add_add by (done || lia).
    do 3 f_equal. f_equal. lia.
Qed.

Lemma blocks_of_enough n : (n <= 16 * blocks_of n)%nat.
Proof. unfold blocks_of. pose proof (Nat.div_mod_eq (n + 15) 16). pose proof (Nat.mod_upper_bound (n + 15) 16). lia. Qed.

Lemma blocks_of_le n : (blocks_of n <= n + 1)%nat.
Proof. unfold blocks_of. pose proof (Nat.div_mod_eq (n + 15) 16). lia. Qed.

Lemma ctr_mode_length ctr d : length (ctr_mode E ctr d) = length d.
Proof.
  unfold ctr_mode. rewrite length_zip_with, keystream_length.
  pose proof (blocks_of_enough (length d)). lia.
Qed.

Lemma ctr_mode_involutive ctr d : ctr_mode E ctr (ctr_mode E ctr d) = d.
Proof.
  unfold ctr_mode at 1. rewrite ctr_mode_length. unfold ctr_mode.
  assert (H : (length d <= length (keystream E ctr (blocks_of (length d))))%nat)
    by (rewrite keystream_length; apply blocks_of_enough).
  revert H. generalize (keystream E ctr (blocks_of (length d))).
  induction d as [|b d IH]; intros ks Hk; [done|]. destruct ks as [|k ks]; simpl in Hk; [lia|].
  simpl. rewrite IH by lia. by rewrite Z.lxor_assoc, Z.lxor_nilpotent, Z.lxor_0_r.
Qed.

Lemma zip_with_lxor_app (a b ka kb : list Z) : length a = length ka ->
  zip_with Z.lxor (a ++ b) (ka ++ kb) = zip_with Z.lxor a ka ++ zip_with Z.lxor b kb.
Proof. apply zip_with_app. Qed.

(** Whole blocks can be processed separately, with the counter advanced. *)
Lemma ctr_mode_app ctr a b k : length ctr = 16%nat -> bytes_ok ctr -> length a = (16 * k)%nat ->
  ctr_mode E ctr (a ++ b) = ctr_mode E ctr a ++ ctr_mode E (ctr_add ctr (Z.of_nat k)) b.
Proof.
  intros Hl Hb Ha. unfold ctr_mode. rewrite length_app, Ha.
  assert (E1 : blocks_of (16 * k + length b) = (k + blocks_of (length b))%nat).
  { unfold blocks_of. replace (16 * k + length b + 15)%nat with (length b + 15 + k * 16)%nat by lia.
    rewrite Nat.div_add by lia. lia. }
  assert (E2 : blocks_of (16 * k) = k).
  { unfold blocks_of. replace (16 * k + 15)%nat with (15 + k * 16)%nat by lia.
    by rewrite Nat.div_add by lia. }
  rewrite E1, E2, keystream_app by done.
  apply zip_with_lxor_app. by rewrite keystream_length.
Qed.

Lemma zip_with_lxor_bytes_ok a b : bytes_ok a -> bytes_ok b -> bytes_ok (zip_with Z.lxor a b).
Proof.
  intros Ha. revert b. induction Ha as [|x a Hx Ha IH]; intros b Hb; [constructor|].
  destruct Hb as [|y b Hy Hb]; constructor; [|by apply IH].
  unfold is_byte in *. pose proof (proj2 (Z.lxor_nonneg x y) ltac:(lia)).
  split; [done|]. destruct (Z.eq_dec (Z.lxor x y) 0) as [->|Hne]; [lia|].
  apply (Z.log2_lt_pow2 _ 8); [lia|].
  pose proof (Z.log2_lxor x y ltac:(lia) ltac:(lia)).
  assert (Hlog : forall z, 0 <= z < 256 -> Z.log2 z < 8).
  { intros z Hz. destruct (Z.eq_dec z 0) as [->|]; [done|]. apply Z.log2_lt_pow2; lia. }
  pose proof (Hlog x ltac:(lia)). pose proof (Hlog y ltac:(lia)). lia.
Qed.

Lemma keystream_bytes_ok ctr k : (forall b, bytes_ok (E b)) -> bytes_ok (keystream E ctr k).
Proof. intros HE. revert ctr. induction k; intros; simpl; auto with noxssh. Qed.

Lemma ctr_mode_bytes_ok ctr d : (forall b, bytes_ok (E b)) -> bytes_ok d ->
  bytes_ok (ctr_mode E ctr d).
Proof. intros. apply zip_with_lxor_bytes_ok; [done|]. by apply keystream_bytes_ok. Qed.
End ctr_mode.

Section aes_ctr.
Context {T : NoxTLS} {L : NoxTLSLaws T}.

Lemma aes_ctr_length k ctr d : length (ctr_mode (aes_block k) ctr d) = length d.
Proof. apply ctr_mode_length, aes_block_length. Qed.
Lemma aes_ctr_bytes_ok k ctr d : bytes_ok d -> bytes_ok (ctr_mode (aes_block k) ctr d).
Proof. apply ctr_mode_bytes_ok. apply aes_block_bytes_ok. Qed.
Lemma hmac_spec_length k d : length (hmac_spec sha256 k d) = 32%nat.
Proof. apply sha256_length. Qed.
Lemma hmac_spec_bytes_ok k d : bytes_ok (hmac_spec sha256 k d).
Proof. apply sha256_bytes_ok. Qed.
End aes_ctr.
#[export] Hint Resolve aes_ctr_bytes_ok : noxssh.

(** ** Properties *)

(** C40: [netnox_ssh_hmac_sha256] is RFC 2104 HMAC over SHA-256 for keys of every
    length (a key longer than the 64-byte block is hashed first), and it succeeds. *)
Theorem hmac_rfc2104 (T : NoxTLS) (L : NoxTLSLaws T) key data :
  netnox_ssh_hmac_sha256 key data = Ok (hmac_spec sha256 key data).
Proof. apply hmac_ok. Qed.

(** [netnox_ssh_ctr_increment_blocks] adds the number of blocks to the 16-byte
    big-endian counter, with every carry propagated and wrap-around modulo 2^128. *)
Theorem ctr_increment_adds ctr n :
  length ctr = 16%nat -> bytes_ok ctr -> is_u32 n ->
  length (netnox_ssh_ctr_increment_blocks ctr n) = 16%nat /\
  be_value (netnox_ssh_ctr_increment_blocks ctr n) = (be_value ctr + n) mod 2 ^ 128.
Proof.
  intros Hl Hb Hn. pose proof (be_value_range ctr Hb).
  rewrite ctr_increment_spec by ((done || ulia)). split; [apply ctr_add_length|].
  unfold ctr_add. pose proof (Z.mod_pos_bound (be_value ctr + n) (2 ^ 128) ltac:(lia)).
  rewrite be_value_bytes by lia. by rewrite Z.mod_small.
Qed.

Lemma ctr_increment_adds_witness :
  length (netnox_ssh_ctr_increment_blocks (replicate 16 255) 2) = 16%nat /\
  be_value (netnox_ssh_ctr_increment_blocks (replicate 16 255) 2) =
    (be_value (replicate 16 255) + 2) mod 2 ^ 128.
Proof.
  apply (ctr_increment_adds (replicate 16 255) 2).
  - reflexivity.
  - apply Forall_replicate. unfold is_byte. lia.
  - vm_compute. split; [discriminate | reflexivity].
Defined.
