(* ===== verification/Host.v ===== *)
(** The surroundings of the protocol code: the transport callbacks the caller
    installs ([send_cb], [recv_cb]), and the C library and NoxTLS functions that
    are not functions of their arguments ([rand], [getenv], key generation). They
    are the class [Host] over a type of environments; the class [HostLaws] states
    the contract of a byte-stream transport. Also record update for the state
    records. *)

From S2P Require Export Crypto.

(** ** Record update: [r <| field := v |>] *)

(** [eta r] rebuilds the record from its fields; a setter replaces one of them. *)
Class Eta (R : Type) := eta : R -> R.
Class Setter {R E : Type} (proj : R -> E) := set : (E -> E) -> R -> R.
Arguments set {R E} proj {_} f r.

Notation "r <| f := v |>" := (set f (fun _ => v) r)
  (at level 12, f at next level, v at level 100, left associativity).

Ltac build_setter :=
  lazymatch goal with
  | |- @Setter ?R ?E ?proj =>
      let e := constr:(_ : Eta R) in
      let e' := eval hnf in e in
      let f := fresh "f" in
      let r := fresh "r" in
      unfold Setter; intros f r;
      let t := eval cbv beta in (e' r) in
      let t' := eval pattern (proj r) in t in
      lazymatch t' with
      | ?g _ => let b := eval cbv beta in (g (f (proj r))) in exact b
      end
  end.

(** ** The environment *)

Class Host (E : Type) : Type := {
  (** [send_cb(io_user_data, data, len)]: the int32_t result *)
  send_cb : list Z -> E -> Z * E;
  (** [recv_cb(io_user_data, data, len)]: the result and the bytes stored *)
  recv_cb : Z -> E -> (Z * list Z) * E;
  c_rand : E -> Z * E;
  c_srand_time : E -> E;
  c_getenv : list Z -> E -> option (list Z);
  (** private key, public key *)
  noxtls_x25519_generate_key : E -> (bool * (list Z * list Z)) * E;
  (** the value of [srv_now_ms]: CLOCK_MONOTONIC in ms, UINT64_MAX on failure *)
  c_clock_ms : E -> Z * E;
  (** [getrandom(.., len, 0)]: the bytes drawn, or a negative result and EINTR or not *)
  c_getrandom : Z -> E -> (option (list Z) * bool) * E
}.

(** The transport contract: [sent] is what the peer was given, [inbox] what it has
    sent and was not read yet. A positive result of [send_cb] is a number of
    leading bytes taken; a positive result of [recv_cb] is a number of bytes, at
    most [len], taken from the front of the inbox. *)
Class HostLaws (E : Type) `{Host E} : Type := {
  sent : E -> list Z;
  inbox : E -> list Z;
  send_law data e n e' : send_cb data e = (n, e') ->
    inbox e' = inbox e /\
    (0 < n -> n <= zlen data /\ sent e' = sent e ++ ztake n data) /\
    (n <= 0 -> sent e' = sent e);
  recv_law len e n bytes e' : recv_cb len e = ((n, bytes), e') -> 0 <= len ->
    sent e' = sent e /\
    (0 < n -> n <= len /\ zlen bytes = n /\ inbox e = bytes ++ inbox e') /\
    (n <= 0 -> bytes = [] /\ inbox e' = inbox e);
  inbox_bytes_ok e : bytes_ok (inbox e);
  rand_law e : sent (c_rand e).2 = sent e /\ inbox (c_rand e).2 = inbox e;
  srand_law e : sent (c_srand_time e) = sent e /\ inbox (c_srand_time e) = inbox e;
  x25519_generate_law e b priv pub e' : noxtls_x25519_generate_key e = ((b, (priv, pub)), e') ->
    sent e' = sent e /\ inbox e' = inbox e /\
    (b = true -> length priv = 32%nat /\ length pub = 32%nat /\ bytes_ok pub);
  clock_law e : sent (c_clock_ms e).2 = sent e /\ inbox (c_clock_ms e).2 = inbox e;
  getrandom_law len e r b e' : c_getrandom len e = ((r, b), e') -> 0 <= len ->
    sent e' = sent e /\ inbox e' = inbox e /\
    match r with Some d => zlen d <= len /\ bytes_ok d | None => True end
}.

(** A transport that does not fail while it can make progress. *)
Class ReliableHost (E : Type) `{HostLaws E} : Prop := {
  send_progress data e : data <> [] -> 0 < (send_cb data e).1;
  recv_progress len e : 0 < len -> inbox e <> [] -> 0 < (recv_cb len e).1.1
}.

(** The loops that read until the transport ends or a message arrives have no
    bound in the code; the model gives them fuel for 2^62 iterations. *)
Definition forever : positive := (2 ^ 62)%positive.
