(* ===== verification/Keys.v ===== *)
(** Key exchange material: the exchange hash and the key derivation of
    common/noxssh_common.c (and their copies in common/noxssh_server.c), over the
    record of the transport fields both netnox_ssh_client_t and
    netnox_ssh_server_t declare. *)

From S2P Require Export Host.

#[global] Arguments str_field _ : simpl never.
#[global] Arguments netnox_ssh_write_u32_be _ : simpl never.

(** ** Transport state *)

(** The fields common to the two context structures. A char array is the list of
    all its bytes (read as a C string through [cstr]), a payload array with its
    length field is the list of the bytes in use, a uint8_t flag is a bool. *)
Record ssh_transport_t : Type := mkTransport {
  client_ident : list Z;
  server_ident : list Z;
  connected : bool;
  kexinit_exchanged : bool;
  userauth_service_ready : bool;
  connection_service_ready : bool;
  authenticated : bool;
  channel_open : bool;
  key_exchange_complete : bool;
  local_channel_id : Z;
  remote_channel_id : Z;
  local_window_size : Z;
  remote_window_size : Z;
  remote_max_packet_size : Z;
  kexinit_client_payload : list Z;
  kexinit_server_payload : list Z;
  session_id : list Z;
  session_id_len : Z;
  shared_secret_raw : list Z;
  c2s_iv : list Z;
  s2c_iv : list Z;
  c2s_key : list Z;
  s2c_key : list Z;
  c2s_mac_key : list Z;
  s2c_mac_key : list Z;
  send_seq : Z;
  recv_seq : Z;
  c2s_counter : list Z;
  s2c_counter : list Z;
  pending_newkeys : list Z
}.

#[export] Instance transport_eta : Eta ssh_transport_t := fun r =>
  mkTransport (client_ident r) (server_ident r) (connected r) (kexinit_exchanged r)
    (userauth_service_ready r) (connection_service_ready r) (authenticated r) (channel_open r)
    (key_exchange_complete r) (local_channel_id r) (remote_channel_id r) (local_window_size r)
    (remote_window_size r) (remote_max_packet_size r) (kexinit_client_payload r)
    (kexinit_server_payload r) (session_id r) (session_id_len r) (shared_secret_raw r)
    (c2s_iv r) (s2c_iv r) (c2s_key r) (s2c_key r) (c2s_mac_key r) (s2c_mac_key r)
    (send_seq r) (recv_seq r) (c2s_counter r) (s2c_counter r) (pending_newkeys r).

#[export] Instance set_client_ident : Setter client_ident := ltac:(build_setter).
#[export] Instance set_server_ident : Setter server_ident := ltac:(build_setter).
#[export] Instance set_connected : Setter connected := ltac:(build_setter).
#[export] Instance set_kexinit_exchanged : Setter kexinit_exchanged := ltac:(build_setter).
#[export] Instance set_userauth_service_ready : Setter userauth_service_ready := ltac:(build_setter).
#[export] Instance set_connection_service_ready : Setter connection_service_ready := ltac:(build_setter).
#[export] Instance set_authenticated : Setter authenticated := ltac:(build_setter).
#[export] Instance set_channel_open : Setter channel_open := ltac:(build_setter).
#[export] Instance set_key_exchange_complete : Setter key_exchange_complete := ltac:(build_setter).
#[export] Instance set_local_channel_id : Setter local_channel_id := ltac:(build_setter).
#[export] Instance set_remote_channel_id : Setter remote_channel_id := ltac:(build_setter).
#[export] Instance set_local_window_size : Setter local_window_size := ltac:(build_setter).
#[export] Instance set_remote_window_size : Setter remote_window_size := ltac:(build_setter).
#[export] Instance set_remote_max_packet_size : Setter remote_max_packet_size := ltac:(build_setter).
#[export] Instance set_kexinit_client_payload : Setter kexinit_client_payload := ltac:(build_setter).
#[export] Instance set_kexinit_server_payload : Setter kexinit_server_payload := ltac:(build_setter).
#[export] Instance set_session_id : Setter session_id := ltac:(build_setter).
#[export] Instance set_session_id_len : Setter session_id_len := ltac:(build_setter).
#[export] Instance set_shared_secret_raw : Setter shared_secret_raw := ltac:(build_setter).
#[export] Instance set_c2s_iv : Setter c2s_iv := ltac:(build_setter).
#[export] Instance set_s2c_iv : Setter s2c_iv := ltac:(build_setter).
#[export] Instance set_c2s_key : Setter c2s_key := ltac:(build_setter).
#[export] Instance set_s2c_key : Setter s2c_key := ltac:(build_setter).
#[export] Instance set_c2s_mac_key : Setter c2s_mac_key := ltac:(build_setter).
#[export] Instance set_s2c_mac_key : Setter s2c_mac_key := ltac:(build_setter).
#[export] Instance set_send_seq : Setter send_seq := ltac:(build_setter).
#[export] Instance set_recv_seq : Setter recv_seq := ltac:(build_setter).
#[export] Instance set_c2s_counter : Setter c2s_counter := ltac:(build_setter).
#[export] Instance set_s2c_counter : Setter s2c_counter := ltac:(build_setter).
#[export] Instance set_pending_newkeys : Setter pending_newkeys := ltac:(build_setter).

(** [memset(.., 0, sizeof(..))] *)
Definition transport_zero : ssh_transport_t :=
  mkTransport (zeros 256) (zeros 256) false false false false false false false 0 0 0 0 0 [] []
    (zeros 32) 0 (zeros 32) (zeros 16) (zeros 16) (zeros 16) (zeros 16) (zeros 32) (zeros 32)
    0 0 (zeros 16) (zeros 16) [].

(** ** The exchange hash *)

(** A run of [if(append_string(..) != SUCCESS) return FAILED;] *)
Fixpoint append_strings (out : list Z) (out_max : Z) (strs : list (list Z)) : outcome (list Z) :=
  match strs with
  | [] => Ok out
  | s :: strs =>
      out ← orc NETNOX_RETURN_FAILED (netnox_ssh_payload_append_string out out_max s);
      append_strings out out_max strs
  end.

Section code.
Context `{NoxTLS}.

Definition netnox_ssh_compute_exchange_hash (client : ssh_transport_t)
    (host_key_blob client_pub server_pub shared_secret_raw : list Z) : outcome (list Z) :=
  h_input ← append_strings [] 4096
    [ cstr (client_ident client); cstr (server_ident client);
      kexinit_client_payload client; kexinit_server_payload client;
      host_key_blob; client_pub; server_pub ];
  h_input ← orc NETNOX_RETURN_FAILED
              (netnox_ssh_buf_append_mpint_be h_input 4096 shared_secret_raw);
  sha256_checked h_input.

(** ** Key derivation *)

(** K as an mpint, or the raw 32 bytes: the prefix of every hashed buffer. *)
Definition append_k (use_mpint : bool) (secret buf : list Z) (buf_max : Z) : outcome (list Z) :=
  if use_mpint then
    k_enc ← orc NETNOX_RETURN_FAILED (netnox_ssh_buf_append_mpint_be [] (4 + 33) secret);
    orc NETNOX_RETURN_FAILED (netnox_ssh_buf_append buf buf_max k_enc)
  else orc NETNOX_RETURN_FAILED (netnox_ssh_buf_append buf buf_max secret).

(** The [while(produced < out_len)] loop; [out] holds the bytes produced so far. *)
Fixpoint derive_more (fuel : nat) (use_mpint : bool) (secret sid out : list Z) (out_len : Z)
    : outcome (list Z) :=
  if zlen out <? out_len then
    match fuel with
    | O => Diverge
    | S fuel =>
        cont_in ← append_k use_mpint secret [] 2048;
        cont_in ← orc NETNOX_RETURN_FAILED (netnox_ssh_buf_append cont_in 2048 sid);
        cont_in ← orc NETNOX_RETURN_FAILED (netnox_ssh_buf_append cont_in 2048 out);
        digest ← sha256_checked cont_in;
        let take := Z.min (out_len - zlen out) 32 in
        derive_more fuel use_mpint secret sid (out ++ ztake take digest) out_len
    end
  else Ok out.

(** [env] is the value of NETNOX_SSH_KEY_DERIV_MPINT. *)
Definition netnox_ssh_derive_key_block (env : option (list Z)) (client : ssh_transport_t)
    (selector out_len : Z) : outcome (list Z) :=
  if (out_len =? 0) || (session_id_len client =? 0) then Err NETNOX_RETURN_BAD_PARAM
  else
    let use_mpint := negb (bool_decide (env = Some (bs "0"))) in
    sid ← mem_read (session_id client) 0 (session_id_len client);
    seed ← append_k use_mpint (shared_secret_raw client) [] 1024;
    seed ← orc NETNOX_RETURN_FAILED (netnox_ssh_buf_append seed 1024 sid);
    seed ← orc NETNOX_RETURN_FAILED (netnox_ssh_buf_append seed 1024 [selector]);
    seed ← orc NETNOX_RETURN_FAILED (netnox_ssh_buf_append seed 1024 sid);
    digest ← sha256_checked seed;
    derive_more (Z.to_nat out_len) use_mpint (shared_secret_raw client) sid
      (ztake (Z.min out_len 32) digest) out_len.

(** Derive one block and store it in its field. *)
Definition derive_into (env : option (list Z)) (proj : ssh_transport_t -> list Z)
    `{!Setter proj} (selector out_len : Z) : M ssh_transport_t unit :=
  client ← get;
  k ← lift (orc NETNOX_RETURN_FAILED (netnox_ssh_derive_key_block env client selector out_len));
  modify (set proj (fun _ => k)).

(** The selectors 'A' to 'F'. *)
Definition netnox_ssh_derive_transport_keys (env : option (list Z)) : M ssh_transport_t unit :=
  client ← get;
  guard_m (negb (session_id_len client =? 0)) NETNOX_RETURN_BAD_PARAM;;
  derive_into env c2s_iv 65 16;;
  derive_into env s2c_iv 66 16;;
  derive_into env c2s_key 67 16;;
  derive_into env s2c_key 68 16;;
  derive_into env c2s_mac_key 69 32;;
  derive_into env s2c_mac_key 70 32;;
  modify (fun c => c <| c2s_counter := c2s_iv c |> <| s2c_counter := s2c_iv c |>).
End code.

(** ** Specification *)

(** RFC 4253 section 8, RFC 5656 section 4: the hashed transcript. *)
Definition transcript (t : ssh_transport_t) (host_key client_pub server_pub secret : list Z)
    : list Z :=
  concat (str_field <$>
    [ cstr (client_ident t); cstr (server_ident t); kexinit_client_payload t;
      kexinit_server_payload t; host_key; client_pub; server_pub; mpint_body secret ]).

(** RFC 4253 section 7.2: K1 = HASH(K || H || X || session_id), and then
    K(n+1) = HASH(K || H || K1 || .. || Kn); [n + 1] blocks of it, for [kh] the bytes of
    K || H and [first] those of X || session_id. *)
Fixpoint kdf_blocks (hash : list Z -> list Z) (kh first : list Z) (n : nat) : list Z :=
  match n with
  | O => hash (kh ++ first)
  | S n => let out := kdf_blocks hash kh first n in out ++ hash (kh ++ out)
  end.

(** The key of a selector, for the encoded secret [k], the exchange hash [h] and the session
    id [id]: [out_len] bytes of the stream. The RFC's K is an mpint. *)
Definition rfc4253_key (hash : list Z -> list Z) (k h id : list Z) (selector out_len : Z) : list Z :=
  ztake out_len (kdf_blocks hash (k ++ h) (selector :: id) (Z.to_nat (out_len / 32))).
Definition mpint_of (secret : list Z) : list Z := str_field (mpint_body secret).

(** The key the code derives. Its [session_id] is the hash of the exchange that is running,
    and it stands for H and for the session id: the RFC's key in the first exchange, whose
    hash is the session id, but not in later ones. The compatibility switch puts the raw
    secret in the place of the mpint. *)
Definition kdf_k (env : option (list Z)) (secret : list Z) : list Z :=
  if bool_decide (env = Some (bs "0")) then secret else mpint_of secret.
Definition kdf (hash : list Z -> list Z) (env : option (list Z)) (secret sid : list Z)
    (selector out_len : Z) : list Z :=
  rfc4253_key hash (kdf_k env secret) sid sid selector out_len.

(** The field sizes of the structure, and a secret and session id in place. *)
Definition kex_done (t : ssh_transport_t) : Prop :=
  length (session_id t) = 32%nat /\ session_id_len t = 32 /\
  length (shared_secret_raw t) = 32%nat.

(** ** Facts *)

Lemma zlen_app (a b : list Z) : zlen (a ++ b) = zlen a + zlen b.
Proof. rewrite length_app. lia. Qed.

Lemma orc_append_string p max s : zlen p <= max -> max < 2 ^ 31 - 4 -> zlen s < 2 ^ 31 ->
  orc NETNOX_RETURN_FAILED (netnox_ssh_payload_append_string p max s) =
  if zlen p + 4 + zlen s <=? max then Ok (p ++ str_field s) else Err NETNOX_RETURN_FAILED.
Proof.
  intros Hp Hm Hs. case_match.
  - by rewrite append_string_ok by ulia.
  - by rewrite append_string_refused by lia.
Qed.

Lemma append_strings_spec max strs : max < 2 ^ 31 - 4 ->
  Forall (fun s => zlen s < 2 ^ 31) strs -> forall p, zlen p <= max ->
  append_strings p max strs =
  if zlen (p ++ concat (str_field <$> strs)) <=? max
  then Ok (p ++ concat (str_field <$> strs)) else Err NETNOX_RETURN_FAILED.
Proof.
  intros Hm. induction 1 as [|s strs Hs Hss IH]; intros p Hp; simpl.
  { rewrite app_nil_r. case_match; [done|lia]. }
  rewrite orc_append_string by done. case_match eqn:E; simpl.
  - rewrite IH by (unfold str_field; len). simpl. by rewrite <- app_assoc.
  - rewrite !zlen_app. unfold str_field in *. case_match; [|done]. len.
Qed.

(** The transcript fields are far below the 32-bit range (the struct's arrays). *)
Definition fields_small (t : ssh_transport_t) (host_key client_pub server_pub secret : list Z)
    : Prop :=
  Forall (fun s => zlen s < 2 ^ 30)
    [ cstr (client_ident t); cstr (server_ident t); kexinit_client_payload t;
      kexinit_server_payload t; host_key; client_pub; server_pub; secret ].

Section facts.
Context {T : NoxTLS} {L : NoxTLSLaws T}.

Lemma exchange_hash_total t hk cp sp sec : fields_small t hk cp sp sec ->
  netnox_ssh_compute_exchange_hash t hk cp sp sec =
  if zlen (transcript t hk cp sp sec) <=? 4096
  then Ok (sha256 (transcript t hk cp sp sec)) else Err NETNOX_RETURN_FAILED.
Proof.
  intros Hs. unfold netnox_ssh_compute_exchange_hash, transcript.
  change [_; _; _; _; _; _; _; mpint_body sec] with
    ([cstr (client_ident t); cstr (server_ident t); kexinit_client_payload t;
      kexinit_server_payload t; hk; cp; sp] ++ [mpint_body sec]).
  pose proof (Forall_take _ 7 _ Hs) as H7. pose proof (Forall_drop _ 7 _ Hs) as Hsec.
  simpl in H7, Hsec. apply Forall_cons_1 in Hsec as [Hsec _].
  rewrite append_strings_spec by (done || (eapply Forall_impl; [exact H7|]; simpl; lia)).
  rewrite fmap_app, concat_app. rewrite !app_nil_l.
  replace (concat (str_field <$> [mpint_body sec])) with (str_field (mpint_body sec))
    by (symmetry; apply app_nil_r).
  generalize (concat (str_field <$> [cstr (client_ident t); cstr (server_ident t);
    kexinit_client_payload t; kexinit_server_payload t; hk; cp; sp])). intros c.
  rewrite (zlen_app c).
  case_match eqn:E1; cbn [mbind outcome_bind].
  - rewrite append_mpint_total by lia.
    replace (zlen c + zlen (str_field (mpint_body sec)))
      with (zlen c + 4 + zlen (mpint_body sec)) by (rewrite str_field_length; lia).
    case_match; [|done]. cbn [orc mbind outcome_bind]. by rewrite sha256_checked_ok.
  - case_match; [lia|done].
Qed.

Lemma append_k_ok b secret max : length secret = 32%nat -> 64 <= max < 2 ^ 31 - 4 ->
  append_k b secret [] max = Ok (if b then str_field (mpint_body secret) else secret).
Proof.
  intros Hs Hm. unfold append_k. pose proof (mpint_body_length secret). destruct b.
  - rewrite append_mpint_ok by (simpl; ulia). cbn [orc mbind outcome_bind app].
    by rewrite buf_append_ok by (unfold str_field; len).
  - by rewrite buf_append_ok by len.
Qed.

Lemma kdf_k_length env secret : length secret = 32%nat -> (length (kdf_k env secret) <= 37)%nat.
Proof.
  intros H. unfold kdf_k, mpint_of. pose proof (mpint_body_length secret).
  case_match; [lia|]. unfold str_field. len.
Qed.

Lemma kdf_blocks_length kh first n : length (kdf_blocks sha256 kh first n) = (32 * (n + 1))%nat.
Proof.
  induction n as [|n IH]; simpl; [by rewrite sha256_length|].
  rewrite length_app, IH, sha256_length. lia.
Qed.

Lemma kdf_blocks_bytes_ok kh first n : bytes_ok (kdf_blocks sha256 kh first n).
Proof. induction n; simpl; auto with noxssh. Qed.

(** More blocks do not change the first ones. *)
Lemma kdf_blocks_take kh first n m k : (n <= m)%nat -> k <= 32 * (Z.of_nat n + 1) ->
  ztake k (kdf_blocks sha256 kh first m) = ztake k (kdf_blocks sha256 kh first n).
Proof.
  induction 1 as [|m Hm IH]; [done|]. intros Hk. simpl. unfold ztake in *.
  rewrite take_app_le; [by apply IH|]. rewrite kdf_blocks_length. lia.
Qed.

Lemma derive_more_done fuel b secret sid out out_len : out_len <= zlen out ->
  derive_more fuel b secret sid out out_len = Ok out.
Proof. intros. destruct fuel; simpl; case_match; done || lia. Qed.

Lemma derive_more_ok env secret sid first out_len fuel :
  length secret = 32%nat -> length sid = 32%nat -> out_len <= 1024 ->
  forall n, 32 * (Z.of_nat n + 1) <= out_len <= 32 * (Z.of_nat (n + fuel) + 1) ->
  derive_more fuel (negb (bool_decide (env = Some (bs "0")))) secret sid
    (kdf_blocks sha256 (kdf_k env secret ++ sid) first n) out_len =
  Ok (ztake out_len (kdf_blocks sha256 (kdf_k env secret ++ sid) first (n + fuel))).
Proof.
  intros Hs Hsid Hmax. pose proof (kdf_k_length env secret Hs) as Hk.
  induction fuel as [|fuel IH]; intros n Hn.
  { rewrite derive_more_done by (rewrite kdf_blocks_length; lia).
    by rewrite Nat.add_0_r, ztake_all by (rewrite kdf_blocks_length; lia). }
  destruct (Z.eq_dec (32 * (Z.of_nat n + 1)) out_len) as [E|E].
  { rewrite derive_more_done by (rewrite kdf_blocks_length; lia).
    rewrite (kdf_blocks_take _ _ n) by lia.
    by rewrite ztake_all by (rewrite kdf_blocks_length; lia). }
  cbn [derive_more]. rewrite kdf_blocks_length.
  destruct (Z.ltb_spec (Z.of_nat (32 * (n + 1))) out_len); [|lia].
  rewrite append_k_ok by (done || lia). cbn [mbind outcome_bind].
  replace (if negb _ then _ else secret) with (kdf_k env secret)
    by (unfold kdf_k; by destruct (bool_decide _)).
  rewrite buf_append_ok by len. cbn [orc mbind outcome_bind].
  rewrite buf_append_ok by (rewrite ?length_app, ?kdf_blocks_length; ulia).
  cbn [orc mbind outcome_bind]. rewrite sha256_checked_ok. cbn [mbind outcome_bind].
  destruct (Z.le_gt_cases (32 * (Z.of_nat (S n) + 1)) out_len) as [Hle|Hgt].
  - rewrite ztake_all by (rewrite sha256_length; lia).
    change (kdf_blocks sha256 ?kh first n ++ _) with (kdf_blocks sha256 kh first (S n)).
    rewrite IH by lia. do 3 f_equal. lia.
  - rewrite derive_more_done
      by (len_simpl; rewrite kdf_blocks_length, sha256_length; lia).
    f_equal. rewrite (kdf_blocks_take _ _ (S n)) by lia. simpl. unfold ztake.
    rewrite take_app_ge by (rewrite kdf_blocks_length; lia).
    rewrite kdf_blocks_length. f_equal. f_equal. lia.
Qed.

Lemma derive_key_block_ok env t selector out_len : kex_done t -> 0 < out_len <= 1024 ->
  netnox_ssh_derive_key_block env t selector out_len =
  Ok (kdf sha256 env (shared_secret_raw t) (session_id t) selector out_len).
Proof.
  intros (Hsid & Hlen & Hs) Ho. unfold netnox_ssh_derive_key_block.
  pose proof (kdf_k_length env _ Hs) as Hk.
  rewrite Hlen. case_match; [lia|].
  rewrite mem_read_in_bounds by lia. cbn [mbind outcome_bind].
  rewrite append_k_ok by (done || lia). cbn [mbind outcome_bind].
  replace (if negb _ then _ else shared_secret_raw t) with (kdf_k env (shared_secret_raw t))
    by (unfold kdf_k; by destruct (bool_decide _)).
  unfold zdrop. rewrite drop_0, (ztake_all (session_id t)) by lia.
  rewrite buf_append_ok by len. cbn [orc mbind outcome_bind].
  rewrite buf_append_ok by len. cbn [orc mbind outcome_bind].
  rewrite buf_append_ok by len. cbn [orc mbind outcome_bind].
  rewrite sha256_checked_ok. cbn [mbind outcome_bind]. rewrite <- !app_assoc.
  set (first := [selector] ++ session_id t). unfold kdf, rfc4253_key.
  change (selector :: session_id t) with first.
  set (kh := kdf_k env (shared_secret_raw t) ++ session_id t).
  replace (kdf_k env (shared_secret_raw t) ++ session_id t ++ first) with (kh ++ first)
    by (unfold kh; by rewrite <- app_assoc).
  change (sha256 (kh ++ first)) with (kdf_blocks sha256 kh first 0).
  pose proof (Z.div_mod out_len 32 ltac:(lia)). pose proof (Z.mod_pos_bound out_len 32 ltac:(lia)).
  destruct (Z.le_gt_cases 32 out_len).
  - rewrite ztake_all by (rewrite kdf_blocks_length; lia). unfold kh.
    rewrite derive_more_ok by (done || lia). f_equal.
    rewrite (kdf_blocks_take _ _ (Z.to_nat (out_len / 32))); [done|lia|lia].
  - rewrite derive_more_done by (rewrite ztake_length; rewrite ?kdf_blocks_length; lia).
    rewrite Z.min_l by lia. by rewrite (kdf_blocks_take _ _ 0 (Z.to_nat _)) by lia.
Qed.

Lemma kdf_length env secret sid selector out_len : 0 <= out_len ->
  length (kdf sha256 env secret sid selector out_len) = Z.to_nat out_len.
Proof.
  intros H. unfold kdf, rfc4253_key, ztake. rewrite length_take, kdf_blocks_length.
  pose proof (Z.div_mod out_len 32 ltac:(lia)). pose proof (Z.mod_pos_bound out_len 32 ltac:(lia)).
  lia.
Qed.

Lemma kdf_bytes_ok env secret sid selector out_len :
  bytes_ok (kdf sha256 env secret sid selector out_len).
Proof. apply ztake_bytes_ok, kdf_blocks_bytes_ok. Qed.

(** The transport state after the keys were derived. *)
Definition with_keys (env : option (list Z)) (t : ssh_transport_t) : ssh_transport_t :=
  let k sel n := kdf sha256 env (shared_secret_raw t) (session_id t) sel n in
  t <| c2s_iv := k 65 16 |> <| s2c_iv := k 66 16 |> <| c2s_key := k 67 16 |>
    <| s2c_key := k 68 16 |> <| c2s_mac_key := k 69 32 |> <| s2c_mac_key := k 70 32 |>
    <| c2s_counter := k 65 16 |> <| s2c_counter := k 66 16 |>.

Lemma derive_transport_keys_ok env t : kex_done t ->
  netnox_ssh_derive_transport_keys env t = (Ok tt, with_keys env t).
Proof.
  intros Ht. unfold netnox_ssh_derive_transport_keys, derive_into, with_keys.
  destruct Ht as (Hsid & Hlen & Hs).
  assert (Hk : forall u, session_id u = session_id t -> session_id_len u = session_id_len t ->
    shared_secret_raw u = shared_secret_raw t -> forall sel n, 0 < n <= 1024 ->
    netnox_ssh_derive_key_block env u sel n =
    Ok (kdf sha256 env (shared_secret_raw t) (session_id t) sel n)).
  { intros u E1 E2 E3 sel n Hn. rewrite derive_key_block_ok; [by rewrite E1, E3| |done].
    unfold kex_done. by rewrite E1, E2, E3. }
  unfold mbind, M_bind, get, guard_m, lift, check, modify. rewrite Hlen. simpl.
  repeat (rewrite Hk by (done || lia); simpl). done.
Qed.
End facts.

(** ** Properties *)

(** C33: [netnox_ssh_compute_exchange_hash] returns the SHA-256 of the transcript
    V_C, V_S, I_C, I_S, K_S, Q_C, Q_S (as strings) and K (as an mpint) of RFC 5656
    section 4 whenever the transcript fits its 4096-byte buffer, and fails with
    NETNOX_RETURN_FAILED, without hashing a truncated transcript, when it does not. *)
Theorem exchange_hash_rfc5656 (T : NoxTLS) (L : NoxTLSLaws T) t host_key client_pub server_pub secret :
  fields_small t host_key client_pub server_pub secret ->
  netnox_ssh_compute_exchange_hash t host_key client_pub server_pub secret =
  if zlen (transcript t host_key client_pub server_pub secret) <=? 4096
  then Ok (sha256 (transcript t host_key client_pub server_pub secret))
  else Err NETNOX_RETURN_FAILED.
Proof. apply exchange_hash_total. Qed.

(** C32: [netnox_ssh_derive_key_block] derives the keys of RFC 4253 section 7.2 for the first
    key exchange of a connection, the one whose exchange hash [h] is the session id: for each
    selector, and every length up to 1024 bytes, HASH(K || h || X || h) extended with
    HASH(K || h || everything so far), K being the mpint of the secret. The loop terminates.
    With the switch NETNOX_SSH_KEY_DERIV_MPINT at 0, for peers that do not follow the RFC, the
    32 bytes of the secret stand for K instead. (In a later exchange the code puts the new
    hash into both places, where the RFC keeps the session id of the first.) *)
Theorem derive_key_block_rfc4253 (T : NoxTLS) (L : NoxTLSLaws T) env t h selector out_len :
  kex_done t -> session_id t = h -> 0 < out_len <= 1024 ->
  let k := if bool_decide (env = Some (bs "0")) then shared_secret_raw t else mpint_of (shared_secret_raw t) in
  netnox_ssh_derive_key_block env t selector out_len = Ok (rfc4253_key sha256 k h h selector out_len) /\
  length (rfc4253_key sha256 k h h selector out_len) = Z.to_nat out_len.
Proof. intros Ht <- Ho. split; [by apply derive_key_block_ok|apply (kdf_length env); lia]. Qed.

(** After [netnox_ssh_derive_transport_keys] the six keys are the derived
    keys of the selectors A to F, each in its own field and of its own length,
    and the two packet counters start at the derived initial IVs. *)
Theorem derive_transport_keys_rfc4253 (T : NoxTLS) (L : NoxTLSLaws T) env t :
  kex_done t ->
  let k := kdf sha256 env (shared_secret_raw t) (session_id t) in
  exists t', netnox_ssh_derive_transport_keys env t = (Ok tt, t') /\
    c2s_iv t' = k 65 16 /\ s2c_iv t' = k 66 16 /\ c2s_key t' = k 67 16 /\
    s2c_key t' = k 68 16 /\ c2s_mac_key t' = k 69 32 /\ s2c_mac_key t' = k 70 32 /\
    c2s_counter t' = k 65 16 /\ s2c_counter t' = k 66 16 /\
    send_seq t' = send_seq t /\ recv_seq t' = recv_seq t.
Proof. intros Ht k. exists (with_keys env t). by rewrite derive_transport_keys_ok. Qed.
