(* ===== verification/Sample.v ===== *)
(** A concrete instance of the NoxTLS interface that satisfies its laws: small
    computable functions with the output lengths of the real primitives. The
    witnesses of the properties that assume the laws evaluate on it. *)

From S2P Require Export Crypto Keys.

Definition sample_hash (d : list Z) : list Z :=
  be_bytes 32 (fold_left (fun acc b => Z.land (acc * 3 + b + 1) 16777215) d 1).
Definition sample_block (k b : list Z) : list Z := be_bytes 16 (be_value k * 5 + be_value b * 3 + 1).
Definition sample_sig (pk m : list Z) : list Z := be_bytes 32 (be_value pk) ++ sample_hash m.
Definition sample_rsa_key (size : rsa_key_size_t) : rsa_key_t :=
  let n := match size with RSA_1024_BIT => 128 | RSA_2048_BIT => 256
                         | RSA_3072_BIT => 384 | RSA_4096_BIT => 512 end in
  mkRsaKey n (zeros (Z.to_nat n)) (zeros (Z.to_nat n)).

#[local] Instance sample_noxtls : NoxTLS := {|
  noxtls_sha_ctx_t := list Z;
  noxtls_sha_init _ := (true, []);
  noxtls_sha_update c d := (true, c ++ d);
  noxtls_sha_finish c := (true, sample_hash c);
  noxtls_aes_encrypt_ctr k d c := (true, ctr_mode (sample_block k) c d);
  noxtls_x25519_shared_secret priv pub := (true, be_bytes 32 (be_value priv * be_value pub));
  noxtls_x25519_public_key priv := (true, be_bytes 32 (be_value priv * 9));
  noxtls_x25519_clamp_scalar priv := priv;
  noxtls_ed25519_verify pk m s := bool_decide (s = sample_sig pk m);
  noxtls_ed25519_sign sk m := (true, sample_sig sk m);
  noxtls_ed25519_public_key sk := (true, be_bytes 32 (be_value sk));
  noxtls_rsa_key_init size := (true, sample_rsa_key size);
  noxtls_rsa_verify key h s _ := bool_decide (s = rsa_n key)
|}.

#[local] Instance sample_laws : NoxTLSLaws sample_noxtls.
Proof.
  refine {| sha256 := sample_hash;
            sha_absorbed := (fun (c : noxtls_sha_ctx_t) d => c = d);
            aes_block := sample_block |}; cbn [noxtls_sha_ctx_t sample_noxtls].
  - done.
  - by intros c d x ->.
  - by intros c d ->.
  - intros d. unfold sample_hash. by rewrite be_bytes_length.
  - intros. apply be_bytes_ok.
  - intros k b. unfold sample_block. by rewrite be_bytes_length.
  - intros. apply be_bytes_ok.
  - done.
  - intros priv pub s [= <-]. split; [apply be_bytes_length|apply be_bytes_ok].
  - intros priv s [= <-]. split; [apply be_bytes_length|apply be_bytes_ok].
  - intros sk m s [= <-]. unfold sample_sig, sample_hash. rewrite length_app, !be_bytes_length.
    auto with noxssh.
  - intros sk pk [= <-]. split; [apply be_bytes_length|apply be_bytes_ok].
  - intros [] ? [= <-]; cbn [sample_rsa_key rsa_n rsa_e key_bytes]; unfold zeros;
      by rewrite ?length_replicate.
Defined.

Lemma hmac_rfc2104_witness :
  @netnox_ssh_hmac_sha256 sample_noxtls (replicate 70 7) (bs "data") =
  Ok (hmac_spec sample_hash (replicate 70 7) (bs "data")).
Proof. apply (hmac_rfc2104 sample_noxtls sample_laws (replicate 70 7) (bs "data")). Defined.

Definition sample_transport : ssh_transport_t :=
  transport_zero <| client_ident := bs "SSH-2.0-a" |> <| server_ident := bs "SSH-2.0-b" |>
    <| kexinit_client_payload := [20; 1] |> <| kexinit_server_payload := [20; 2] |>
    <| session_id := replicate 32 5 |> <| session_id_len := 32 |>
    <| shared_secret_raw := replicate 32 200 |>.

Lemma sample_kex_done : kex_done sample_transport.
Proof. repeat split. Qed.

Lemma exchange_hash_rfc5656_witness :
  netnox_ssh_compute_exchange_hash sample_transport [9; 9] (zeros 32) (zeros 32) (replicate 32 200) =
  Ok (sample_hash (transcript sample_transport [9; 9] (zeros 32) (zeros 32) (replicate 32 200))).
Proof.
  etransitivity.
  - apply (exchange_hash_rfc5656 sample_noxtls sample_laws sample_transport [9; 9]
             (zeros 32) (zeros 32) (replicate 32 200)).
    repeat constructor.
  - vm_compute. reflexivity.
Defined.

Lemma derive_key_block_rfc4253_witness :
  netnox_ssh_derive_key_block None sample_transport 67 80 =
    Ok (rfc4253_key sample_hash (mpint_of (replicate 32 200)) (replicate 32 5) (replicate 32 5) 67 80) /\
  length (rfc4253_key sample_hash (mpint_of (replicate 32 200)) (replicate 32 5) (replicate 32 5) 67 80) = 80%nat.
Proof.
  apply (derive_key_block_rfc4253 sample_noxtls sample_laws None sample_transport (replicate 32 5) 67 80
           sample_kex_done eq_refl ltac:(lia)).
Defined.

Lemma derive_transport_keys_rfc4253_witness :
  let k := kdf sample_hash (Some (bs "0")) (replicate 32 200) (replicate 32 5) in
  exists t', netnox_ssh_derive_transport_keys (Some (bs "0")) sample_transport = (Ok tt, t') /\
    c2s_iv t' = k 65 16 /\ s2c_iv t' = k 66 16 /\ c2s_key t' = k 67 16 /\
    s2c_key t' = k 68 16 /\ c2s_mac_key t' = k 69 32 /\ s2c_mac_key t' = k 70 32 /\
    c2s_counter t' = k 65 16 /\ s2c_counter t' = k 66 16 /\ send_seq t' = 0 /\ recv_seq t' = 0.
Proof.
  apply (derive_transport_keys_rfc4253 sample_noxtls sample_laws (Some (bs "0")) sample_transport
           sample_kex_done).
Defined.

(** ** A sample environment: a byte stream with short writes, and an LCG for [rand] *)

Record sample_env : Type := mkSample { se_in : list Z; se_out : list Z; se_rand : Z }.

#[local] Instance sample_host : Host sample_env := {|
  send_cb data e :=
    let n := Z.min (zlen data) 100 in (n, mkSample (se_in e) (se_out e ++ ztake n data) (se_rand e));
  recv_cb len e :=
    let n := Z.min len (zlen (se_in e)) in
    ((n, u8 <$> ztake n (se_in e)), mkSample (zdrop n (se_in e)) (se_out e) (se_rand e));
  c_rand e := let r := (se_rand e * 1103515245 + 12345) mod 2 ^ 31 in
              (r, mkSample (se_in e) (se_out e) r);
  c_srand_time e := mkSample (se_in e) (se_out e) 1;
  c_getenv _ _ := None;
  noxtls_x25519_generate_key e :=
    ((true, (be_bytes 32 3, be_bytes 32 27)), e);
  c_clock_ms e := (1000, e);
  c_getrandom len e := ((Some (replicate (Z.to_nat len) 7), false), e)
|}.

#[local] Instance sample_host_laws : HostLaws sample_env.
Proof.
  refine {| sent := se_out; inbox := fun e => u8 <$> se_in e |}; try done.
  - intros data e n e' [= <- <-]. cbn [se_in se_out]. split_and!; [done|intros; split; [lia|done]|].
    intros Hn. unfold ztake. replace (Z.to_nat (Z.min (zlen data) 100)) with 0%nat by lia.
    by rewrite take_0, app_nil_r.
  - intros len e n bytes e' [= <- <- <-] Hlen. cbn [se_in se_out]. split_and!; [done|..].
    + intros Hn. split_and!; [lia| |].
      * rewrite length_fmap. apply ztake_length. lia.
      * rewrite <- fmap_app. f_equal. symmetry. apply take_drop.
    + intros Hn. assert (E0 : Z.min len (zlen (se_in e)) = 0) by lia. by rewrite E0.
  - intros e. apply Forall_fmap, Forall_true. intros. apply u8_range.
  - intros e b priv pub e' [= <- <- <- <-]. split_and!; try done. intros _.
    split_and!; [apply be_bytes_length|apply be_bytes_length|apply be_bytes_ok].
  - intros len e r b e' [= <- <- <-] Hlen. cbn [se_in se_out]. rewrite length_replicate.
    split_and!; [done|done|lia|by apply Forall_replicate].
Defined.

#[local] Instance sample_reliable : ReliableHost sample_env.
Proof.
  split.
  - intros data e Hd. cbn. destruct data; [done|]. simpl. lia.
  - intros len e Hl Hi. cbn in Hi |- *. destruct (se_in e); [done|]. simpl. lia.
Qed.

(** Importing this module makes the sample implementation the one that is inferred. *)
Module SampleInstances.
#[export] Existing Instance sample_noxtls.
#[export] Existing Instance sample_laws.
#[export] Existing Instance sample_host.
#[export] Existing Instance sample_host_laws.
#[export] Existing Instance sample_reliable.
End SampleInstances.
