(* ===== verification/Io.v ===== *)
(** Blocking input and output over the transport callbacks: the byte loops of
    [netnox_ssh_send_all], [netnox_ssh_recv_exact] and [netnox_ssh_recv_line]. The
    client and the server copies differ only in what they test before each
    callback (the server its deadlines), which is the parameter [tick]. *)

From S2P Require Export Keys.

(** The state a protocol function runs in: the context structure, the environment,
    and the static variable g_netnox_ssh_prng_seeded of noxssh_common.c. *)
Record world (C E : Type) : Type := mkWorld { ctx : C; env : E; prng_seeded : bool }.
Arguments mkWorld {C E} ctx env prng_seeded.
Arguments ctx {C E} w : rename.
Arguments env {C E} w : rename.
Arguments prng_seeded {C E} w : rename.

#[export] Instance world_eta C E : Eta (world C E) := fun r => mkWorld (ctx r) (env r) (prng_seeded r).
#[export] Instance set_ctx C E : Setter (@ctx C E) := ltac:(build_setter).
#[export] Instance set_env C E : Setter (@env C E) := ltac:(build_setter).
#[export] Instance set_prng_seeded C E : Setter (@prng_seeded C E) := ltac:(build_setter).

(** Call a function of the environment. *)
Definition call {C E A} (f : E -> A * E) : M (world C E) A := fun w =>
  let '(a, e) := f (env w) in (Ok a, w <| env := e |>).

(** [mem\[off..\] = data] inside an object. *)
Definition mem_write (mem : list Z) (off : Z) (data : list Z) : outcome (list Z) :=
  if (0 <=? off) && (off + zlen data <=? zlen mem)
  then Ok (ztake off mem ++ data ++ zdrop (off + zlen data) mem) else Oob.

(** ** C strings *)

(** [netnox_ssh_copy_string(dst, sizeof(dst), src)]: the new contents of [dst]. *)
Definition netnox_ssh_copy_string (dst src : list Z) : outcome (list Z) :=
  if (zlen dst =? 0) || (zlen src >? zlen dst - 1) then Err NETNOX_RETURN_BAD_PARAM
  else mem_write dst 0 (src ++ [0]).

(** [s\[0\] != '\0'] of a char array. *)
Definition nonempty (s : list Z) : bool := match cstr s with [] => false | _ :: _ => true end.

Section io.
Context {C E : Type} `{Host E}.
Implicit Types w : world C E.

(** [while(sent_total < len) { tick; sent = send_cb(data + sent_total, len - sent_total); .. }] *)
Definition send_loop (tick : M (world C E) unit) (data : list Z) : M (world C E) unit :=
  loop (Z.to_pos (zlen data + 1)) (fun sent_total =>
    if sent_total <? zlen data then
      tick;;
      n ← call (send_cb (zdrop sent_total data));
      if n <=? 0 then fail NETNOX_RETURN_FAILED
      else mret (inl (u32 (sent_total + n)))
    else mret (inr tt)) 0.

(** [while(recv_total < len) { tick; got = recv_cb(data + recv_total, len - recv_total); .. }]
    into an object with room for [room] bytes. *)
Definition recv_loop (tick : M (world C E) unit) (room len : Z) : M (world C E) (list Z) :=
  loop (Z.to_pos (len + 1)) (fun '(recv_total, data) =>
    if recv_total <? len then
      tick;;
      '(got, bytes) ← call (recv_cb (len - recv_total));
      if zlen data + zlen bytes >? room then lift Oob
      else if got <=? 0 then fail NETNOX_RETURN_FAILED
      else mret (inl (u32 (recv_total + got), data ++ bytes))
    else mret (inr data)) (0, []).

Definition NETNOX_SSH_CHAR_CR : Z := 13.
Definition NETNOX_SSH_CHAR_LF : Z := 10.

(** One character; [None] when the callback returned zero or an error. *)
Definition recv_char : M (world C E) (option Z) :=
  '(rc, bytes) ← call (recv_cb 1);
  mret (if rc <=? 0 then None else Some (default 0 (head bytes))).

(** The two loops of recv_line. [store used ch] is [out\[used\] = ch]. *)
Definition recv_line_loop (tick : M (world C E) unit) (store : Z -> Z -> M (world C E) unit)
    (out_len : Z) : M (world C E) unit :=
  used ← loop forever (fun used =>
    if used <? out_len - 1 then
      tick;;
      c ← recv_char;
      match c with
      | None => fail NETNOX_RETURN_FAILED
      | Some ch =>
          if ch =? NETNOX_SSH_CHAR_LF then mret (inr used)
          else if ch =? NETNOX_SSH_CHAR_CR then mret (inl used)
          else store used ch;; mret (inl (u16 (used + 1)))
      end
    else mret (inr used)) 0;
  if used =? out_len - 1 then
    _ ← loop forever (fun _ : unit =>
      c ← recv_char;
      match c with
      | None => fail NETNOX_RETURN_FAILED
      | Some ch => if ch =? NETNOX_SSH_CHAR_LF then mret (inr tt) else mret (inl tt)
      end) tt;
    store 0 0
  else store used 0.
End io.

(** [strncmp(line, "SSH-", 4) == 0] *)
Definition netnox_ssh_is_ident_line (line : list Z) : bool :=
  bool_decide (take 4 (cstr line) = bs "SSH-").

(** [snprintf(tx_ident, sizeof(tx_ident), "%s\r\n", client->client_ident)] *)
Definition tx_ident (ident : list Z) : list Z :=
  ztake 257 (cstr ident ++ [NETNOX_SSH_CHAR_CR; NETNOX_SSH_CHAR_LF]).

(** ** Facts *)

Section facts.
Context {C E : Type} `{HostLaws E}.
Implicit Types w : world C E.

(** The context, the inbox and what was sent are untouched. *)
Definition quiet w w' : Prop :=
  ctx w' = ctx w /\ prng_seeded w' = prng_seeded w /\
  sent (env w') = sent (env w) /\ inbox (env w') = inbox (env w).

(** A check made before a callback: it changes nothing, and fails with FAILED if at all. *)
Definition passive (tick : M (world C E) unit) : Prop :=
  forall w, wp tick (fun o w' => quiet w w' /\
    match o with Ok _ => True | Err rc => rc = NETNOX_RETURN_FAILED | _ => False end) w.

(** Nothing but the peer can make the loop fail. *)
Definition live (tick : M (world C E) unit) : Prop :=
  ReliableHost E /\ forall w, exists w', tick w = (Ok tt, w').

Lemma passive_ret : passive (mret tt).
Proof. intros w. by repeat split. Qed.

Lemma wp_call {A} (f : E -> A * E) (Q : outcome A -> world C E -> Prop) w :
  (forall a e, f (env w) = (a, e) -> Q (Ok a) (w <| env := e |>)) -> wp (call f) Q w.
Proof. unfold wp, call. destruct (f (env w)) as [a e]. auto. Qed.

Lemma ztake_zdrop_app (l : list Z) i n : 0 <= i -> 0 <= n ->
  ztake i l ++ ztake n (zdrop i l) = ztake (i + n) l.
Proof.
  intros Hi Hn. unfold ztake, zdrop. rewrite Z2Nat.inj_add by lia. apply take_take_drop.
Qed.

Section loops.
Context (tick : M (world C E) unit) (tick_passive : passive tick).

Lemma send_loop_spec data w : is_u32 (zlen data) ->
  wp (send_loop tick data) (fun o w' =>
    ctx w' = ctx w /\ prng_seeded w' = prng_seeded w /\ inbox (env w') = inbox (env w) /\
    exists k, sent (env w') = sent (env w) ++ ztake k data /\
    match o with
    | Ok _ => k = zlen data
    | Err rc => rc = NETNOX_RETURN_FAILED /\ ~ live tick
    | _ => False
    end) w.
Proof.
  intros Hd. unfold send_loop.
  eapply (wp_loop _ (fun i w' => 0 <= i <= zlen data /\ ctx w' = ctx w /\
    prng_seeded w' = prng_seeded w /\ inbox (env w') = inbox (env w) /\
    sent (env w') = sent (env w) ++ ztake i data) (fun i _ => zlen data - i)); [|by
    repeat split; simpl; rewrite ?app_nil_r; try lia|lia].
  intros i w1 (Hi & Hc & Hp & Hin & Hs). destruct (Z.ltb_spec i (zlen data)) as [Hlt|Hge].
  - apply wp_bind. pose proof (tick_passive w1) as Ht.
    destruct (tick w1) as [o w2] eqn:Et. unfold wp in *. rewrite Et in *.
    destruct Ht as ((E1 & E2 & E3 & E4) & Ho). destruct o as [[]|rc| |]; simpl; [|..|done|done].
    2:{ repeat split; [congruence..|]. exists i. rewrite E3. repeat split; [done..|].
        intros [_ Hl]. destruct (Hl w1) as [? Hl']. congruence. }
    apply wp_bind, wp_call. intros n e' En. cbn [ok_or].
    destruct (send_law _ _ _ _ En) as (Hi' & Hpos & Hneg).
    destruct (Z.leb_spec n 0) as [Hn|Hn].
    + split_and!; simpl; try congruence. exists i. rewrite Hneg by done.
      split_and!; try congruence. intros [[Hl _] _]. specialize (Hl (zdrop i data) (env w2)).
      rewrite En in Hl. simpl in Hl. enough (zdrop i data <> []) by (specialize (Hl ltac:(done)); lia).
      intros Hnil. pose proof (zdrop_length data i ltac:(lia)) as Hz. rewrite Hnil in Hz.
      simpl in Hz. lia.
    + destruct (Hpos ltac:(lia)) as [Hle Hsent]. rewrite zdrop_length in Hle by lia.
      simpl. rewrite u32_small by ulia. split_and!; simpl; try lia; try congruence.
      rewrite Hsent, E3, Hs, <- app_assoc. by rewrite ztake_zdrop_app by lia.
  - repeat split; [done..|]. exists i. split; [done|lia].
Qed.

Lemma recv_loop_spec room len w : is_u32 len ->
  wp (recv_loop tick room len) (fun o w' =>
    ctx w' = ctx w /\ prng_seeded w' = prng_seeded w /\ sent (env w') = sent (env w) /\
    match o with
    | Ok d => zlen d = len /\ zlen d <= Z.max 0 room /\ inbox (env w) = d ++ inbox (env w')
    | Err rc => rc = NETNOX_RETURN_FAILED /\ (live tick -> zlen (inbox (env w)) < len /\
                  zlen (inbox (env w)) <= Z.max 0 room) /\
                exists d, inbox (env w) = d ++ inbox (env w')
    | Oob => room < len /\ room < zlen (inbox (env w))
    | Diverge => False
    end) w.
Proof.
  intros Hlen. unfold recv_loop.
  eapply (wp_loop _ (fun '(i, d) w' => 0 <= i <= len /\ zlen d = i /\ i <= Z.max 0 room /\ ctx w' = ctx w /\
    prng_seeded w' = prng_seeded w /\ sent (env w') = sent (env w) /\
    inbox (env w) = d ++ inbox (env w')) (fun '(i, _) _ => len - i));
    [|by repeat split; simpl; destruct Hlen; try lia|destruct Hlen; lia].
  intros [i d] w1 (Hi & Hd & Hr & Hc & Hp & Hs & Hin). destruct (Z.ltb_spec i len) as [Hlt|Hge].
  - apply wp_bind. pose proof (tick_passive w1) as Ht.
    destruct (tick w1) as [o w2] eqn:Et. unfold wp in *. rewrite Et in *.
    destruct Ht as ((E1 & E2 & E3 & E4) & Ho). destruct o as [[]|rc| |]; simpl; [|..|done|done].
    2:{ split_and!; try congruence.
        - intros [_ Hl]. destruct (Hl w1) as [? Hl']. congruence.
        - exists d. congruence. }
    apply wp_bind, wp_call. intros [got bytes] e' En. cbn [ok_or].
    destruct (recv_law _ _ _ _ _ En ltac:(lia)) as (Hs' & Hpos & Hneg).
    assert (Hle : zlen bytes <= len - i).
    { destruct (Z.leb_spec got 0); [rewrite (proj1 (Hneg ltac:(lia))); simpl; lia|].
      destruct (Hpos ltac:(lia)). lia. }
    assert (Happ : inbox (env w2) = bytes ++ inbox e').
    { destruct (Z.leb_spec got 0).
      - destruct (Hneg ltac:(lia)) as [-> ->]. done.
      - by destruct (Hpos ltac:(lia)) as (_ & _ & ?). }
    rewrite Z.gtb_ltb. destruct (Z.ltb_spec room (zlen d + zlen bytes)).
    { cbn [loop_step]. split_and!; simpl; try congruence; [lia|]. rewrite Hin, <- E4, Happ, !length_app. lia. }
    destruct (Z.leb_spec got 0) as [Hn|Hn].
    + destruct (Hneg Hn) as [-> Hi']. cbn [loop_step]. split_and!; simpl; try congruence.
      * intros [[_ Hl] _]. specialize (Hl (len - i) (env w2) ltac:(lia)). rewrite En in Hl.
        simpl in Hl. destruct (inbox (env w2)) eqn:Ei; [|specialize (Hl ltac:(done)); lia].
        rewrite Hin, <- E4, app_nil_r. lia.
      * exists d. congruence.
    + destruct (Hpos ltac:(lia)) as (Hg & Hb & _). simpl. rewrite u32_small by ulia.
      split_and!; simpl; try lia; try congruence.
      * rewrite length_app. lia.
      * by rewrite Hin, <- E4, Happ, app_assoc.
  - simpl. split_and!; try done; lia.
Qed.
End loops.
End facts.
