(* ===== verification/Posix.v ===== *)
(** Data of the POSIX calls that more than one component makes: results of reads and
    writes, accounts and file status; and calls of an environment without a context. *)

From S2P Require Export Io.

(** The entry of the password database; a NULL member is [None]. *)
Record passwd : Type := mkPasswd {
  pw_name : list Z; pw_uid : Z; pw_gid : Z; pw_dir : option (list Z); pw_shell : option (list Z)
}.

(** The members of [struct stat] the code reads. *)
Record stat_t : Type := mkStat { st_mode : Z; st_uid : Z; st_size : Z }.

(** [S_ISDIR], [S_ISREG], and [mode & bits]: S_IFMT is 0170000. *)
Definition S_ISDIR (mode : Z) : bool := Z.land mode 61440 =? 16384.
Definition S_ISREG (mode : Z) : bool := Z.land mode 61440 =? 32768.
Definition has_bits (mode bits : Z) : bool := negb (Z.land mode bits =? 0).

(** ** Reading and writing *)

Inductive errno : Type := EINTR | EAGAIN | EIO | OTHER_ERRNO.

#[export] Instance errno_eq_dec : EqDecision errno.
Proof. solve_decision. Defined.

(** The result of [read]: bytes, zero, or an error; of [write] and [send]: a
    positive count, or (zero or) an error. *)
Inductive read_result : Type := ReadBytes (bytes : list Z) | ReadEof | ReadErr (e : errno).
Inductive write_result : Type := Wrote (n : Z) | WriteErr (e : errno).

(** ** Calls of the environment *)

Definition ask {E A} (f : E -> A * E) : M E A := fun e => let '(a, e) := f e in (Ok a, e).

Lemma ask_run {E A B} (f : E -> A * E) (k : A -> M E B) e : (ask f ≫= k) e = k (f e).1 (f e).2.
Proof. unfold ask, mbind, M_bind. by destruct (f e). Qed.
Lemma wp_ask {E A} (f : E -> A * E) (Q : outcome A -> E -> Prop) e :
  (forall a e', f e = (a, e') -> Q (Ok a) e') -> wp (ask f) Q e.
Proof. unfold wp, ask. destruct (f e) as [a e']. auto. Qed.
