(* ===== verification/Triple.v ===== *)
(** Hoare triples for the protocol steps of both sides. A triple fixes an invariant
    of the context and a frame (what the step may change), which hold on every
    outcome (together they are a [logic]), bounds the bytes the peer still has pending, and claims that the fuel
    suffices; only on success it gives a postcondition. *)

From S2P Require Export Io.

Record logic (C : Type) : Type := mkLogic {
  l_inv : C -> Prop;
  l_frame : C -> C -> Prop;
  l_frame_refl c : l_frame c c;
  l_frame_trans c1 c2 c3 : l_frame c1 c2 -> l_frame c2 c3 -> l_frame c1 c3
}.
Arguments mkLogic {C} l_inv l_frame l_frame_refl l_frame_trans.
Arguments l_inv {C} l c.
Arguments l_frame {C} l c1 c2.
Arguments l_frame_refl {C} l c.
Arguments l_frame_trans {C} l c1 c2 c3.

Section triple.
Context {C E : Type} `{HostLaws E} (L : logic C).
Local Abbreviation Inv := (l_inv L).
Local Abbreviation Fr := (l_frame L).
Implicit Types w : world C E.
Implicit Types P : C -> Prop.

(** The postcondition of one run from [w]. *)
Definition ends {A} (Q : A -> C -> Prop) w (o : outcome A) w' : Prop :=
  Inv (ctx w') /\ Fr (ctx w) (ctx w') /\
  match o with
  | Ok a => zlen (inbox (env w')) <= zlen (inbox (env w)) /\ Q a (ctx w')
  | Err _ => zlen (inbox (env w')) <= zlen (inbox (env w))
  | Oob => True
  | Diverge => False
  end.

Definition triple (n : Z) P {A} (Q : A -> C -> Prop) (m : M (world C E) A) : Prop :=
  forall w, Inv (ctx w) -> zlen (inbox (env w)) <= n -> P (ctx w) -> wp m (ends Q w) w.

Lemma triple_run n P {A} Q (m : M _ A) w o w' :
  triple n P Q m -> Inv (ctx w) -> zlen (inbox (env w)) <= n -> P (ctx w) -> m w = (o, w') ->
  ends Q w o w'.
Proof. intros Hm Hi Hn HP Hrun. exact (wp_run _ _ _ _ _ (Hm w Hi Hn HP) Hrun). Qed.

(** A step that starts after [w1], which was reached from [w]. *)
Lemma ends_trans {A} (Q : A -> C -> Prop) w w1 o w' :
  Fr (ctx w) (ctx w1) -> zlen (inbox (env w1)) <= zlen (inbox (env w)) ->
  ends Q w1 o w' -> ends Q w o w'.
Proof.
  intros Hf Hn (Hi & Hf' & Ho). split; [done|]. split; [by eapply l_frame_trans|].
  destruct o; try done; [|lia]. destruct Ho. split; [lia|done].
Qed.

Lemma triple_bind n P {A B} R Q (m : M _ A) (k : A -> M _ B) :
  triple n P R m -> (forall a, triple n (R a) Q (k a)) -> triple n P Q (m ≫= k).
Proof.
  intros Hm Hk w Hi Hn HP. apply wp_bind. eapply wp_mono; [by apply Hm|].
  intros o w1 (Hi1 & Hf1 & Ho). destruct o as [a|rc| |]; cbn [ok_or]; try done.
  destruct Ho as [Hn1 HR]. eapply wp_mono; [apply Hk; [done|lia|done]|].
  intros o w2 Ho. by eapply ends_trans.
Qed.

Lemma triple_conseq n n' P P' {A} (Q Q' : A -> C -> Prop) m :
  triple n P Q m -> n' <= n -> (forall c, P' c -> P c) -> (forall a c, Q a c -> Q' a c) ->
  triple n' P' Q' m.
Proof.
  intros Hm Hn HP HQ w Hi Hn' HP'. eapply wp_mono; [apply Hm; [done|lia|auto]|].
  intros o w' (? & ? & Ho). split; [done|]. split; [done|].
  destruct o; try done. destruct Ho. auto.
Qed.

Lemma triple_weaken n P P' {A} (Q : A -> C -> Prop) m :
  triple n P Q m -> (forall c, P' c -> P c) -> triple n P' Q m.
Proof. intros Hm HP. by eapply triple_conseq; [exact Hm|lia|exact HP|]. Qed.

Lemma triple_pre n (phi : Prop) P {A} (Q : A -> C -> Prop) m :
  (phi -> triple n P Q m) -> triple n (fun c => phi /\ P c) Q m.
Proof. intros Hm w Hi Hn [Hphi HP]. by apply Hm. Qed.

(** What the frame keeps holds afterwards too. *)
Lemma triple_frame n (F : C -> Prop) P {A} (Q : A -> C -> Prop) m :
  (forall c c', Fr c c' -> F c -> F c') -> triple n P Q m ->
  triple n (fun c => P c /\ F c) (fun a c => Q a c /\ F c) m.
Proof.
  intros HF Hm w Hi Hn [HP HFw]. eapply wp_mono; [by apply Hm|]. intros o w' (? & Hfr & Ho).
  split; [done|]. split; [done|]. destruct o; try done. destruct Ho as [? ?]. split; [done|].
  split; [done|by eapply HF].
Qed.

Lemma triple_lift n P {A} (o : outcome A) Q :
  terminates o -> (forall a c, o = Ok a -> P c -> Q a c) -> triple n P Q (lift o).
Proof.
  intros Hd HQ w Hi Hn HP. apply wp_lift. split; [done|]. split; [apply l_frame_refl|].
  destruct o; try done. split; [lia|auto].
Qed.

Lemma triple_ret n P {A} (a : A) Q : (forall c, P c -> Q a c) -> triple n P Q (mret a).
Proof. intros HQ. apply (triple_lift n P (Ok a)); [done|]. intros ? c [= <-]. apply HQ. Qed.

Lemma triple_fail n P {A} rc (Q : A -> C -> Prop) : triple n P Q (fail rc).
Proof. by apply (triple_lift n P (Err rc)). Qed.

Lemma triple_guard n P b rc (Q : unit -> C -> Prop) :
  (forall c, b = true -> P c -> Q tt c) -> triple n P Q (guard_m b rc).
Proof.
  intros HQ. apply triple_lift; [auto with noxssh|]. intros [] c Hb. apply check_Ok in Hb. auto.
Qed.

Lemma triple_try n P {A} (Q : A -> C -> Prop) m rc : triple n P Q m -> triple n P Q (or_return m rc).
Proof.
  intros Hm w Hi Hn HP. apply wp_or_return. eapply wp_mono; [by apply Hm|].
  intros o w' (? & ? & Ho). by destruct o.
Qed.

Lemma triple_modify n P (Q : unit -> C -> Prop) f :
  (forall c, Inv c -> P c -> Inv (f c) /\ Fr c (f c) /\ Q tt (f c)) ->
  triple n P Q (modify (set ctx f)).
Proof.
  intros Hf w Hi Hn HP. apply wp_modify. destruct (Hf (ctx w) Hi HP) as (? & ? & ?).
  split; [done|]. split; [done|]. split; [simpl; lia|done].
Qed.

(** Composition with a first step that is not a call: a read of the state, a
    computation, a guard, a change of the context. *)
Lemma triple_gets_then n P {A B} (f : world C E -> A) (k : A -> M _ B) Q :
  (forall a, triple n P Q (k a)) -> triple n P Q (gets f ≫= k).
Proof. intros Hk w Hi Hn HP. apply wp_bind, wp_gets. cbn [ok_or]. by apply Hk. Qed.

Lemma triple_ctx_then n P {A B} (f : C -> A) (k : A -> M _ B) Q :
  (forall c0, Inv c0 -> P c0 -> triple n (fun c => P c /\ c = c0) Q (k (f c0))) ->
  triple n P Q (gets (fun w => f (ctx w)) ≫= k).
Proof.
  intros Hk w Hi Hn HP. apply wp_bind, wp_gets. cbn [ok_or]. by apply (Hk (ctx w)).
Qed.

Lemma triple_lift_then n P {A B} (o : outcome A) (k : A -> M _ B) Q :
  terminates o -> (forall a, o = Ok a -> triple n P Q (k a)) -> triple n P Q (lift o ≫= k).
Proof.
  intros Ho Hk. apply (triple_bind n P (fun a c => o = Ok a /\ P c)).
  - apply triple_lift; auto.
  - intros a w Hi Hn [Ha HP]. by apply (Hk a Ha).
Qed.

Lemma triple_try_lift_then n P {A B} (o : outcome A) rc (k : A -> M _ B) Q :
  terminates o -> (forall a, o = Ok a -> triple n P Q (k a)) ->
  triple n P Q (or_return (lift o) rc ≫= k).
Proof.
  intros Ho Hk. change (or_return (lift o) rc) with (@lift (world C E) _ (orc rc o)).
  apply triple_lift_then; [by apply terminates_orc|]. intros a Ha. apply Hk. by destruct o.
Qed.

Lemma triple_guard_then n P {B} b rc (k : unit -> M _ B) Q :
  (b = true -> triple n P Q (k tt)) -> triple n P Q (guard_m b rc ≫= k).
Proof.
  intros Hk. apply triple_lift_then; [auto with noxssh|]. intros [] Hb. apply check_Ok in Hb. auto.
Qed.

Lemma triple_modify_then n P P' {B} f (k : unit -> M _ B) Q :
  (forall c, Inv c -> P c -> Inv (f c) /\ Fr c (f c) /\ P' (f c)) ->
  triple n P' Q (k tt) -> triple n P Q (modify (set ctx f) ≫= k).
Proof.
  intros Hf Hk. apply (triple_bind n P (fun _ => P')); [by apply triple_modify|]. by intros [].
Qed.

(** [rc = f(..);] where the first step of [f] returns [rc0] when it fails. *)
Lemma triple_return_code_bind n P {A B} R (Q : netnox_return_t -> C -> Prop) (m : M _ A)
    (k : A -> M _ B) rc0 :
  triple n P R m -> (forall c, Q rc0 c) -> (forall a, triple n (R a) Q (return_code (k a))) ->
  triple n P Q (return_code (or_return m rc0 ≫= k)).
Proof.
  intros Hm Herr Hk w Hi Hn HP. apply wp_return_code, wp_bind, wp_or_return.
  eapply wp_mono; [by apply Hm|]. intros o w1 (Hi1 & Hf1 & Ho).
  destruct o as [a|rc| |]; cbn [ok_or orc]; try done.
  destruct Ho as [Hn1 HR]. pose proof (Hk a w1 Hi1 ltac:(lia) HR) as Hka.
  unfold wp, return_code in *. destruct (k a w1) as [[]]; by apply (ends_trans _ w w1).
Qed.


Lemma triple_return_code_ok n P {A} (Q : netnox_return_t -> C -> Prop) (m : M _ A) :
  (forall w, is_ok (m w).1 = true) -> triple n P (fun _ => Q NETNOX_RETURN_SUCCESS) m ->
  triple n P Q (return_code m).
Proof.
  intros Hok Hm w Hi Hn HP. pose proof (Hm w Hi Hn HP) as Hw. specialize (Hok w).
  unfold wp, return_code in *. by destruct (m w) as [[]].
Qed.

(** A step that consumes input: what follows it has less to read. *)
Definition consumes (n : Z) P {A} (Q : A -> C -> Prop) (m : M (world C E) A) : Prop :=
  forall w, Inv (ctx w) -> zlen (inbox (env w)) <= n -> P (ctx w) ->
  wp m (fun o w' => ends Q w o w' /\
          (is_ok o = true -> zlen (inbox (env w')) < zlen (inbox (env w)))) w.

Lemma consumes_triple n P {A} (Q : A -> C -> Prop) m : consumes n P Q m -> triple n P Q m.
Proof. intros Hm w Hi Hn HP. eapply wp_mono; [by apply Hm|]. by intros o w' []. Qed.

Lemma consumes_try n P {A} (Q : A -> C -> Prop) m rc :
  consumes n P Q m -> consumes n P Q (or_return m rc).
Proof.
  intros Hm w Hi Hn HP. apply wp_or_return. eapply wp_mono; [by apply Hm|].
  intros o w' [(? & ? & ?) ?]. by destruct o.
Qed.

Lemma consumes_then n P {A B} R Q (m : M _ A) (k : A -> M _ B) :
  consumes n P R m -> (forall a, triple (n - 1) (R a) Q (k a)) -> consumes n P Q (m ≫= k).
Proof.
  intros Hm Hk w Hi Hn HP. apply wp_bind. eapply wp_mono; [by apply Hm|].
  intros o w1 [(Hi1 & Hf1 & Ho) Hlt]. destruct o as [a|rc| |]; cbn [ok_or]; try done.
  destruct Ho as [Hn1 HR]. specialize (Hlt eq_refl).
  eapply wp_mono; [apply Hk; [done|lia|done]|]. intros o w2 Ho.
  split; [by eapply ends_trans|]. intros Hok. destruct Ho as (_ & _ & Ho).
  destruct o; try done. destruct Ho. lia.
Qed.

Lemma triple_consumes_then n P {A B} R Q (m : M _ A) (k : A -> M _ B) :
  consumes n P R m -> (forall a, triple (n - 1) (R a) Q (k a)) -> triple n P Q (m ≫= k).
Proof. intros Hm Hk. by eapply consumes_triple, consumes_then. Qed.

(** ** Lines *)

(** A character is taken from the inbox, or the read failed and nothing changed. *)
Lemma recv_char_spec w :
  wp recv_char (fun o w' => ctx w' = ctx w /\
    match o with
    | Ok None => inbox (env w') = inbox (env w)
    | Ok (Some ch) => inbox (env w) = ch :: inbox (env w')
    | _ => False
    end) w.
Proof.
  apply wp_bind, wp_call. intros [rc bytes] e Hr. apply wp_ret.
  destruct (recv_law _ _ _ _ _ Hr ltac:(lia)) as (_ & Hpos & Hneg). split; [done|].
  destruct (Z.leb_spec rc 0); [by destruct (Hneg ltac:(lia))|].
  destruct (Hpos ltac:(lia)) as (? & Hl & Hin). destruct bytes as [|b [|]]; simpl in *; [lia|done|lia].
Qed.

(** A pass of a loop: it ends the loop with [Q], or goes on with [I] after having
    read something. *)
Definition pass_post {A B} (I : A -> C -> Prop) (Q : B -> C -> Prop) (r : A + B) (c : C) : Prop :=
  match r with inl a => I a c | inr b => Q b c end.
Definition pass (n : Z) P {A B} (I : A -> C -> Prop) (Q : B -> C -> Prop)
    (m : M (world C E) (A + B)) : Prop :=
  forall w, Inv (ctx w) -> zlen (inbox (env w)) <= n -> P (ctx w) ->
  wp m (fun o w' => ends (pass_post I Q) w o w' /\
          (forall a, o = Ok (inl a) -> zlen (inbox (env w')) < zlen (inbox (env w)))) w.

(** A pass that stops. *)
Lemma pass_stop n P {A B} (I : A -> C -> Prop) (Q : B -> C -> Prop) (b : B) :
  (forall c, P c -> Q b c) -> pass n P I Q (mret (inr b)).
Proof.
  intros HQ w Hi Hn HP. apply wp_ret. split; [|done].
  split; [done|]. split; [apply l_frame_refl|]. split; [lia|by apply HQ].
Qed.

Lemma pass_fail n P {A B} (I : A -> C -> Prop) (Q : B -> C -> Prop) rc : pass n P I Q (fail rc).
Proof.
  intros w Hi Hn HP. apply wp_fail. split; [|done]. by split; [|split; [apply l_frame_refl|]].
Qed.

Lemma pass_bind n P {A B D} R (I : A -> C -> Prop) (Q : B -> C -> Prop) (m : M _ D) k :
  triple n P R m -> (forall d, pass n (R d) I Q (k d)) -> pass n P I Q (m ≫= k).
Proof.
  intros Hm Hk w Hi Hn HP. apply wp_bind. eapply wp_mono; [by apply Hm|].
  intros o w1 (Hi1 & Hf1 & Ho). destruct o as [d|rc| |]; cbn [ok_or]; try done.
  destruct Ho as [Hn1 HR]. eapply wp_mono; [apply Hk; [done|lia|done]|].
  intros o w2 [Ho Hlt]. split; [by eapply ends_trans|]. intros a Ha. specialize (Hlt a Ha). lia.
Qed.

(** After a step that consumed input the pass may go on. *)
Lemma pass_consumes n P {A B D} R (I : A -> C -> Prop) (Q : B -> C -> Prop) (m : M _ D) k :
  consumes n P R m -> (forall d, triple (n - 1) (R d) (pass_post I Q) (k d)) ->
  pass n P I Q (m ≫= k).
Proof.
  intros Hm Hk w Hi Hn HP. apply wp_bind. eapply wp_mono; [by apply Hm|].
  intros o w1 [(Hi1 & Hf1 & Ho) Hlt]. destruct o as [d|rc| |]; cbn [ok_or]; try done.
  destruct Ho as [Hn1 HR]. specialize (Hlt eq_refl).
  eapply wp_mono; [apply Hk; [done|lia|done]|].
  intros o w2 Ho. split; [by eapply ends_trans|]. intros a ->. destruct Ho as (_ & _ & ? & _). lia.
Qed.

Lemma pass_char n P {A B} (I : A -> C -> Prop) (Q : B -> C -> Prop) k :
  pass n P I Q (k None) -> (forall ch, triple (n - 1) P (pass_post I Q) (k (Some ch))) ->
  pass n P I Q (recv_char ≫= k).
Proof.
  intros Hnone Hsome w Hi Hn HP. apply wp_bind. eapply wp_mono; [apply recv_char_spec|].
  intros o w1 [Hc Ho]. destruct o as [[ch|]| | |]; cbn [ok_or]; try done.
  - eapply wp_mono; [apply Hsome; [by rewrite Hc|rewrite Ho in Hn; simpl in Hn; lia|by rewrite Hc]|].
    intros o w2 Hend. split.
    + apply (ends_trans _ w w1); [rewrite Hc; apply l_frame_refl|rewrite Ho; simpl; lia|done].
    + intros a ->. destruct Hend as (_ & _ & ? & _). rewrite Ho. simpl. lia.
  - eapply wp_mono; [apply Hnone; [by rewrite Hc|by rewrite Ho|by rewrite Hc]|].
    intros o w2 Hend. unfold ends in *. by rewrite Hc, Ho in Hend.
Qed.

(** Loops that read something in every pass end before 2^62 passes. *)
Lemma triple_loop {A B} n (I : A -> C -> Prop) (Q : B -> C -> Prop) (body : A -> M _ (A + B)) a :
  n < 2 ^ 62 -> (forall a, pass n (I a) I Q (body a)) -> triple n (I a) Q (loop forever body a).
Proof.
  intros Hn Hbody w Hi Hw HI.
  eapply (wp_loop body (fun a w' => Inv (ctx w') /\ Fr (ctx w) (ctx w') /\
      zlen (inbox (env w')) <= zlen (inbox (env w)) /\ I a (ctx w'))
    (fun _ w' => zlen (inbox (env w')))); [|by split; [|split; [apply l_frame_refl|]]|unfold forever; lia].
  intros a1 w1 (Hi1 & Hf1 & Hn1 & HI1).
  eapply wp_mono; [apply Hbody; [done|lia|done]|]. intros o w2 [Ho Hlt].
  pose proof (ends_trans _ _ _ _ _ Hf1 Hn1 Ho) as (? & ? & Ho').
  destruct o as [[a2|b]| | |]; simpl; try done. destruct Ho'. specialize (Hlt a2 eq_refl).
  split; [by split_and!|lia].
Qed.

(** [recv_line]: every character read is consumed input, so 2^62 of them are enough;
    what is stored lies before the last byte of the line buffer. *)
Lemma recv_line_triple n P tick store out_len :
  2 <= out_len < 2 ^ 16 -> n < 2 ^ 62 ->
  triple n P (fun _ => P) tick ->
  (forall i ch, 0 <= i < out_len - 1 -> triple n P (fun _ => P) (store i ch)) ->
  triple n P (fun _ => P) (recv_line_loop tick store out_len).
Proof.
  intros Hlen Hn Htick Hstore. unfold recv_line_loop.
  set (I := fun used c => 0 <= used <= out_len - 1 /\ P c).
  apply (triple_bind _ _ I).
  - apply (triple_weaken n (I 0)); [|split; [lia|done]].
    apply triple_loop; [done|]. intros used.
    destruct (Z.ltb_spec used (out_len - 1)); [|by apply pass_stop].
    apply (pass_bind n _ (fun _ c => 0 <= used <= out_len - 1 /\ P c)).
    { intros w Hi Hw [Hu HP]. eapply wp_mono; [by apply Htick|]. intros o w1 (? & ? & Ho).
      split; [done|]. split; [done|]. destruct o; try done. by destruct Ho. }
    intros _. apply pass_char; [apply pass_fail|]. intros ch.
    case_match; [by apply triple_ret|]. case_match; [by apply triple_ret|].
    apply triple_pre. intros Hu. eapply triple_bind; [|intros []].
    + eapply triple_conseq; [apply (Hstore used ch); lia|lia|done|done].
    + apply triple_ret. intros c HP. unfold I. simpl. rewrite u16_small by lia. split; [lia|done].
  - intros used. apply triple_pre. intros Hu. case_match; [|apply Hstore; lia].
    apply (triple_bind _ _ (fun _ => P)); [|intros []; apply Hstore; lia].
    apply (triple_loop n (fun _ => P) (fun _ => P)); [done|]. intros [].
    apply pass_char; [apply pass_fail|]. intros ch. case_match; by apply triple_ret.
Qed.
End triple.
