(* ===== verification/Frame.v ===== *)
(** Frames: what every run of a computation leaves as it is, whatever its outcome.
    [moves R m] says that [m] takes each state to an [R]-related one, for a preorder
    [R]; the rules follow the combinators of the monad and the tactic [mv] applies
    them. An invariant [G] is the preorder [fun s s' => G s -> G s']. *)

From S2P Require Export Triple.
From Stdlib Require Import RelationClasses.

Definition moves {S} (R : S -> S -> Prop) {A} (m : M S A) : Prop := forall s, R s (m s).2.

(** The preorder of an invariant. *)
Definition keeping {S} (G : S -> Prop) (s s' : S) : Prop := G s -> G s'.

#[export] Instance keeping_preorder {S} (G : S -> Prop) : PreOrder (keeping G).
Proof. split; unfold keeping; [by intros s|by intros s1 s2 s3 H1 H2; auto]. Qed.

Lemma keeping_wp {S} (G : S -> Prop) {A} (m : M S A) :
  moves (keeping G) m <-> forall s, G s -> wp m (fun _ s' => G s') s.
Proof. unfold moves, keeping, wp. split; intros H s; specialize (H s); by destruct (m s). Qed.

(** Go on from a step whose outcome does not matter for the invariant. *)
Lemma wp_keeping_then {S} (G : S -> Prop) {A B} (m : M S A) (k : A -> M S B) s :
  wp m (fun _ s' => G s') s -> (forall a, moves (keeping G) (k a)) ->
  wp m (ok_or (fun a => wp (k a) (fun _ s' => G s')) (fun (_ : outcome B) s' => G s')) s.
Proof.
  intros Hm Hk. eapply wp_mono; [exact Hm|]. intros o s' Hs.
  destruct o; cbn [ok_or]; try done. by apply keeping_wp.
Qed.

Section rules.
Context {S : Type} (R : S -> S -> Prop) `{!PreOrder R}.

Lemma moves_wp {A} (m : M S A) : moves R m <-> forall s, wp m (fun _ s' => R s s') s.
Proof. unfold moves, wp. split; intros H s; specialize (H s); by destruct (m s). Qed.

Lemma moves_sub (R' : S -> S -> Prop) {A} (m : M S A) :
  (forall s s', R' s s' -> R s s') -> moves R' m -> moves R m.
Proof. intros HR Hm s. apply HR, Hm. Qed.

Lemma moves_bind {A B} (m : M S A) (k : A -> M S B) :
  moves R m -> (forall a, moves R (k a)) -> moves R (m ≫= k).
Proof.
  intros Hm Hk s. specialize (Hm s). unfold mbind, M_bind. destruct (m s) as [[a|rc| |] s']; try done.
  etransitivity; [exact Hm|apply Hk].
Qed.

(** With what is known of the result. *)
Lemma moves_bind_ok {A B} (m : M S A) (k : A -> M S B) :
  moves R m -> (forall a s s', m s = (Ok a, s') -> R s s' -> R s (k a s').2) -> moves R (m ≫= k).
Proof.
  intros Hm Hk s. specialize (Hm s). unfold mbind, M_bind. destruct (m s) as [[a|rc| |] s'] eqn:E; try done.
  by eapply Hk.
Qed.

Lemma moves_gets_then {A B} (f : S -> A) (k : A -> M S B) :
  (forall s, R s (k (f s) s).2) -> moves R (gets f ≫= k).
Proof. done. Qed.

Lemma moves_lift {A} (o : outcome A) : moves R (lift o).
Proof. intros s. done. Qed.
Lemma moves_ret {A} (a : A) : moves R (mret a).
Proof. intros s. done. Qed.
Lemma moves_fail {A} rc : moves R (@fail S A rc).
Proof. intros s. done. Qed.
Lemma moves_guard b rc : moves R (guard_m b rc).
Proof. intros s. done. Qed.
Lemma moves_gets {A} (f : S -> A) : moves R (gets f).
Proof. intros s. done. Qed.
Lemma moves_modify (f : S -> S) : (forall s, R s (f s)) -> moves R (modify f).
Proof. intros Hf s. apply Hf. Qed.

Lemma moves_or_return {A} (m : M S A) rc : moves R m -> moves R (or_return m rc).
Proof. intros Hm s. specialize (Hm s). unfold or_return. by destruct (m s). Qed.
Lemma moves_ignore {A} (m : M S A) : moves R m -> moves R (ignore m).
Proof. intros Hm s. specialize (Hm s). unfold ignore. by destruct (m s) as [[]]. Qed.
Lemma moves_attempt {A} (m : M S A) : moves R m -> moves R (attempt m).
Proof. intros Hm s. specialize (Hm s). unfold attempt. by destruct (m s) as [[]]. Qed.

Lemma moves_return_code {A} (m : M S A) : moves R m -> moves R (return_code m).
Proof. intros Hm s. specialize (Hm s). unfold return_code. by destruct (m s) as [[]]. Qed.

Lemma moves_loop {A B} fuel (body : A -> M S (A + B)) : (forall a, moves R (body a)) ->
  forall a, moves R (loop fuel body a).
Proof.
  intros Hb. assert (Hp : forall p a, moves R (loop_pos p body a)).
  { induction p as [q IH|q IH|]; intros a; simpl; [| |apply Hb];
      repeat (apply moves_bind; [auto|]; intros [?|?]); auto using moves_ret. }
  intros a. apply moves_bind; [apply Hp|]. intros [?|?]; [apply moves_lift|apply moves_ret].
Qed.

Lemma moves_snd {A} (m : M S A) s s0 : R s0 s -> moves R m -> R s0 (m s).2.
Proof. intros H Hm. etransitivity; [exact H|apply Hm]. Qed.
End rules.

Lemma moves_call {C E} (R : world C E -> world C E -> Prop) `{!PreOrder R} {A} (f : E -> A * E) :
  (forall w, R w (w <| env := (f (env w)).2 |>)) -> moves R (call f).
Proof. intros Hf w. specialize (Hf w). unfold call. by destruct (f (env w)). Qed.

Create HintDb moves discriminated.
#[export] Hint Constants Opaque : moves.
#[export] Hint Variables Opaque : moves.

(** One rule; what is left are the state changes and the calls of the environment. *)
Ltac mv_step :=
  cbv zeta;
  lazymatch goal with
  | |- moves _ (mbind _ _) => apply moves_bind; [exact _| |intros ?]
  | |- moves _ (or_return _ _) => apply moves_or_return
  | |- moves _ (ignore _) => apply moves_ignore
  | |- moves _ (attempt _) => apply moves_attempt
  | |- moves _ (return_code _) => apply moves_return_code
  | |- moves _ (lift _) => apply moves_lift; exact _
  | |- moves _ (mret _) => apply moves_ret; exact _
  | |- moves _ (fail _) => apply moves_fail; exact _
  | |- moves _ (guard_m _ _) => apply moves_guard; exact _
  | |- moves _ (gets _) => apply moves_gets; exact _
  | |- moves _ (loop _ _ _) => apply moves_loop; [exact _|intros ?]
  | |- moves _ (match ?x with _ => _ end) => destruct x
  end.
Ltac mv := repeat first [solve [eauto 2 with moves nocore]|mv_step].
