(* ===== verification/Packet.v ===== *)
(** The SSH binary packet protocol (RFC 4253 section 6): its specification, and the
    receiving side, which [netnox_ssh_recv_packet] of common/noxssh_common.c and
    [srv_recv_packet] of common/noxssh_server.c write out twice. The two differ in the
    fields of their contexts (the client receives with the s2c keys, the server
    with the c2s keys), in how they read bytes and how they compare MACs: a
    [Receiver] instance and the parameters [recv_exact] and [same_mac]. *)

From S2P Require Export Triple Fields.

(** ** Configuration *)

Definition NETNOX_SSH_MAX_PACKET_LEN : Z := 35000.
Definition NETNOX_SSH_MIN_PADDING_LEN : Z := 4.
Definition NETNOX_SSH_PACKET_BLOCK_SIZE : Z := 8.
Definition NETNOX_SSH_AES_BLOCK_LEN : Z := 16.
Definition NETNOX_SSH_MAC_LEN : Z := 32.
(** packet_length, padding_length, payload, padding. *)
Definition packet (payload padding : list Z) : list Z :=
  netnox_ssh_write_u32_be (1 + zlen payload + zlen padding) ++ [zlen padding] ++ payload ++ padding.

Definition packet_ok (payload padding : list Z) : Prop :=
  4 <= zlen padding < 256 /\ 1 + zlen payload + zlen padding <= NETNOX_SSH_MAX_PACKET_LEN.

(** One direction of an encrypted connection. *)
Record direction : Type := mkDirection {
  d_encrypted : bool; d_key : list Z; d_counter : list Z; d_mac_key : list Z; d_seq : Z
}.

(** ** Padding, the same on both sides *)

(** [while((1 + payload_len + padding_len + 4) % block_size != 0) padding_len++;] *)
Fixpoint pad_loop (fuel : nat) (payload_len padding_len block_size : Z) : outcome Z :=
  if u32 (1 + payload_len + padding_len + 4) mod block_size =? 0 then Ok padding_len
  else match fuel with
       | O => Diverge
       | S fuel => pad_loop fuel payload_len (u32 (padding_len + 1)) block_size
       end.

(** ** Receiving a packet *)

(** The receiving half of a context: its direction, and the updates of the counter,
    of the sequence number and of the count of encrypted bytes. *)
Class Receiver (C : Type) : Type := {
  receiving : C -> direction;
  set_r_counter : list Z -> C -> C;
  r_next : C -> C;
  r_count : Z -> C -> C
}.

Section code.
Context {C E : Type} `{Host E} `{NoxTLS} `{Receiver C}.
Context (recv_exact : Z -> Z -> M (world C E) (list Z)) (same_mac : list Z -> list Z -> bool).

Local Abbreviation P := (M (world C E)).

(** The end of the encrypted branch: MAC over sequence number and plaintext, then
    the padding and the payload. (The code's HMAC reads and writes [mac_input];
    it reads all of it before it writes.) *)
Definition recv_verify (plain0 plain1 mac_buf : list Z) (packet_len plain_len payload_max : Z)
    (t : C) : P (list Z) :=
  let plain := plain0 ++ plain1 in
  body ← lift (mem_read plain 0 plain_len);
  mac ← try (lift (netnox_ssh_hmac_sha256 (d_mac_key (receiving t))
                     (netnox_ssh_write_u32_be (d_seq (receiving t)) ++ body)));
  guard_m (same_mac (ztake NETNOX_SSH_MAC_LEN mac) mac_buf) NETNOX_RETURN_FAILED;;
  modify (set ctx r_next);;
  modify (set ctx (r_count (u32 (plain_len + NETNOX_SSH_MAC_LEN))));;
  padding_len ← lift (mem_byte plain 4);
  guard_m ((NETNOX_SSH_MIN_PADDING_LEN <=? padding_len) && (padding_len <? packet_len))
    NETNOX_RETURN_FAILED;;
  let payload_len := packet_len - 1 - padding_len in
  guard_m (payload_len <=? payload_max) NETNOX_RETURN_FAILED;;
  lift (mem_read plain 5 payload_len).

(** After the first block: the rest of the packet, and the MAC. *)
Definition recv_rest (plain0 : list Z) (packet_len payload_max : Z) : P (list Z) :=
  let object := 4 + NETNOX_SSH_MAX_PACKET_LEN in
  let plain_len := u32 (4 + packet_len) in
  rest ← try (recv_exact (object - NETNOX_SSH_AES_BLOCK_LEN)
                        (u32 (plain_len - NETNOX_SSH_AES_BLOCK_LEN)));
  t ← gets ctx;
  let '(aes_ok, plain1) := noxtls_aes_encrypt_ctr (d_key (receiving t)) rest (d_counter (receiving t)) in
  guard_m aes_ok NETNOX_RETURN_FAILED;;
  let n_blocks := u32 (plain_len + NETNOX_SSH_AES_BLOCK_LEN - 1) / NETNOX_SSH_AES_BLOCK_LEN in
  modify (set ctx (set_r_counter
            (netnox_ssh_ctr_increment_blocks (d_counter (receiving t)) (u32 (n_blocks - 1)))));;
  mac_buf ← try (recv_exact NETNOX_SSH_MAC_LEN NETNOX_SSH_MAC_LEN);
  recv_verify plain0 plain1 mac_buf packet_len plain_len payload_max t.

Definition recv_packet_encrypted (payload_max : Z) : P (list Z) :=
  let object := 4 + NETNOX_SSH_MAX_PACKET_LEN in
  first ← try (recv_exact object NETNOX_SSH_AES_BLOCK_LEN);
  t ← gets ctx;
  let '(aes_ok, plain0) := noxtls_aes_encrypt_ctr (d_key (receiving t)) first (d_counter (receiving t)) in
  guard_m aes_ok NETNOX_RETURN_FAILED;;
  modify (set ctx (set_r_counter (netnox_ssh_ctr_increment_blocks (d_counter (receiving t)) 1)));;
  '(packet_len, _) ← lift (read_u32 plain0 0);
  guard_m ((1 + NETNOX_SSH_MIN_PADDING_LEN <=? packet_len) &&
           (packet_len <=? NETNOX_SSH_MAX_PACKET_LEN)) NETNOX_RETURN_FAILED;;
  recv_rest plain0 packet_len payload_max.

Definition recv_packet_plain (payload_max : Z) : P (list Z) :=
  len_buf ← try (recv_exact 4 4);
  '(packet_len, _) ← lift (read_u32 len_buf 0);
  guard_m ((1 + NETNOX_SSH_MIN_PADDING_LEN <=? packet_len) &&
           (packet_len <=? NETNOX_SSH_MAX_PACKET_LEN)) NETNOX_RETURN_FAILED;;
  packet ← try (recv_exact NETNOX_SSH_MAX_PACKET_LEN packet_len);
  padding_len ← lift (mem_byte packet 0);
  guard_m (NETNOX_SSH_MIN_PADDING_LEN <=? padding_len) NETNOX_RETURN_FAILED;;
  guard_m (padding_len <? packet_len) NETNOX_RETURN_FAILED;;
  let payload_len := packet_len - 1 - padding_len in
  guard_m (payload_len <=? payload_max) NETNOX_RETURN_FAILED;;
  payload ← lift (mem_read packet 1 payload_len);
  modify (set ctx r_next);;
  mret payload.
End code.

(** ** What the receiving side promises *)

(** The updates do to the direction what their names say, and stay in a frame. *)
Class ReceiverLaws (C : Type) `{Receiver C} : Type := {
  r_frame : C -> C -> Prop;
  r_frame_refl c : r_frame c c;
  r_frame_trans c1 c2 c3 : r_frame c1 c2 -> r_frame c2 c3 -> r_frame c1 c3;
  r_frame_set k c : r_frame c (set_r_counter k c);
  r_frame_next c : r_frame c (r_next c);
  r_frame_count n c : r_frame c (r_count n c);
  receiving_set k c : receiving (set_r_counter k c) =
    let d := receiving c in mkDirection (d_encrypted d) (d_key d) k (d_mac_key d) (d_seq d);
  receiving_next c : receiving (r_next c) =
    let d := receiving c in
    mkDirection (d_encrypted d) (d_key d) (d_counter d) (d_mac_key d) (u32 (d_seq d + 1));
  receiving_count n c : receiving (r_count n c) = receiving c
}.
#[export] Hint Resolve r_frame_refl r_frame_set r_frame_next r_frame_count : noxssh.

Definition direction_wf (d : direction) : Prop :=
  length (d_key d) = 16%nat /\ length (d_counter d) = 16%nat /\ bytes_ok (d_counter d).

(** The bytes of a packet on the wire, and the direction's state after it:
    AES-128-CTR (RFC 4344), MAC = HMAC(key, sequence number || packet). *)
Definition wire `{L : NoxTLSLaws} (d : direction) (pkt : list Z) : list Z :=
  if d_encrypted d
  then ctr_mode (aes_block (d_key d)) (d_counter d) pkt ++
       hmac_spec sha256 (d_mac_key d) (netnox_ssh_write_u32_be (d_seq d) ++ pkt)
  else pkt.

Definition next_counter (d : direction) (pkt : list Z) : list Z :=
  if d_encrypted d then ctr_add (d_counter d) (Z.of_nat (blocks_of (length pkt))) else d_counter d.

Definition advance (d : direction) (pkt : list Z) : direction :=
  mkDirection (d_encrypted d) (d_key d) (next_counter d pkt) (d_mac_key d) (u32 (d_seq d + 1)).

(** ** Facts: packets *)

Lemma packet_length payload padding :
  zlen (packet payload padding) = 5 + zlen payload + zlen padding.
Proof. unfold packet. rewrite !zlen_app, write_u32_be_length. simpl length. lia. Qed.

Lemma packet_bytes_ok payload padding : zlen padding < 256 ->
  bytes_ok payload -> bytes_ok padding -> bytes_ok (packet payload padding).
Proof.
  intros. unfold packet. repeat apply bytes_ok_app; auto with noxssh.
  repeat constructor; lia.
Qed.

Lemma pad_loop_ok block fuel n q :
  block = 8 \/ block = 16 -> 0 <= n < 2 ^ 31 -> 4 <= q -> q + Z.of_nat fuel < 2 ^ 30 ->
  (- (5 + n + q)) mod block <= Z.of_nat fuel ->
  pad_loop fuel n q block = Ok (q + (- (5 + n + q)) mod block).
Proof.
  intros Hb Hn. revert q. induction fuel as [|fuel IH]; intros q Hq Hf Hm; cbn [pad_loop];
    rewrite u32_small by ulia; destruct (Z.eqb_spec ((1 + n + q + 4) mod block) 0) as [E|E].
  - f_equal. destruct Hb; subst; Z.to_euclidean_division_equations; lia.
  - exfalso. destruct Hb; subst; Z.to_euclidean_division_equations; lia.
  - f_equal. destruct Hb; subst; Z.to_euclidean_division_equations; lia.
  - rewrite u32_small by ulia. rewrite IH; [f_equal|lia|lia|];
      destruct Hb; subst; Z.to_euclidean_division_equations; lia.
Qed.

Definition padding_length (n block : Z) : Z := 4 + (- (9 + n)) mod block.

Lemma pad_loop_16 n block : block = 8 \/ block = 16 -> 0 <= n < 2 ^ 31 ->
  pad_loop 16 n 4 block = Ok (padding_length n block).
Proof.
  intros Hb Hn. unfold padding_length. rewrite pad_loop_ok; try lia.
  - do 3 f_equal. lia.
  - destruct Hb; subst; Z.to_euclidean_division_equations; lia.
Qed.

Lemma padding_length_spec n block : block = 8 \/ block = 16 ->
  4 <= padding_length n block < 4 + block /\ (5 + n + padding_length n block) mod block = 0.
Proof.
  intros Hb. unfold padding_length. destruct Hb; subst; Z.to_euclidean_division_equations; lia.
Qed.

(** What both sides frame: with this much padding the bytes are an RFC 4253 packet
    whose length is a multiple of the block size. *)
Lemma framed payload padding block :
  block = 8 \/ block = 16 -> let q := padding_length (zlen payload) block in
  zlen padding = q -> 1 + zlen payload + q <= NETNOX_SSH_MAX_PACKET_LEN ->
  packet_ok payload padding /\ zlen (packet payload padding) mod block = 0 /\
  netnox_ssh_write_u32_be (1 + zlen payload + q) ++ [u8 q] ++ payload ++ padding = packet payload padding /\
  zlen (packet payload padding) = 4 + (1 + zlen payload + q) /\
  zlen (packet payload padding) <= 4 + NETNOX_SSH_MAX_PACKET_LEN.
Proof.
  intros Hb q Hq Hm. destruct (padding_length_spec (zlen payload) block Hb) as [Hp Hmod].
  fold q in Hp, Hmod. assert (Hok : packet_ok payload padding) by (unfold packet_ok; rewrite Hq; lia).
  pose proof (packet_length payload padding) as Hl. rewrite Hq in Hl.
  split_and!; [done|by rewrite Hl| |lia|lia]. unfold packet. rewrite Hq, u8_small by ulia. done.
Qed.

Lemma ceil_blocks n : Z.of_nat n < 2 ^ 30 ->
  u32 (Z.of_nat n + 16 - 1) / 16 = Z.of_nat (blocks_of n).
Proof.
  intros H. rewrite u32_small by ulia. unfold blocks_of. rewrite Nat2Z.inj_div. f_equal. lia.
Qed.

(** ** Facts: parsing a packet *)

Lemma mem_read_shift (a b : list Z) i n : 0 <= i ->
  mem_read (a ++ b) (zlen a + i) n = mem_read b i n.
Proof.
  intros Hi. unfold mem_read. rewrite zlen_app.
  replace (zlen a + i + n <=? zlen a + zlen b) with (i + n <=? zlen b) by lia.
  replace (0 <=? zlen a + i) with (0 <=? i) by lia.
  replace (zdrop (zlen a + i) (a ++ b)) with (zdrop i b); [done|].
  unfold zdrop. rewrite Z2Nat.inj_add, Nat2Z.id by lia. by rewrite drop_app_add.
Qed.

Lemma mem_byte_shift (a b : list Z) i : 0 <= i -> mem_byte (a ++ b) (zlen a + i) = mem_byte b i.
Proof.
  intros Hi. unfold mem_byte. replace (0 <=? zlen a + i) with (0 <=? i) by lia.
  rewrite Z2Nat.inj_add, Nat2Z.id, lookup_app_r by lia.
  by replace (length a + Z.to_nat i - length a)%nat with (Z.to_nat i) by lia.
Qed.

Lemma parse_packet plain packet_len :
  bytes_ok plain -> zlen plain = 4 + packet_len -> packet_len = be_value (ztake 4 plain) ->
  1 + NETNOX_SSH_MIN_PADDING_LEN <= packet_len <= NETNOX_SSH_MAX_PACKET_LEN ->
  exists padding_len, mem_byte plain 4 = Ok padding_len /\ is_byte padding_len /\
    (NETNOX_SSH_MIN_PADDING_LEN <= padding_len < packet_len ->
     exists payload padding, mem_read plain 5 (packet_len - 1 - padding_len) = Ok payload /\
       plain = packet payload padding /\ packet_ok payload padding /\
       zlen payload = packet_len - 1 - padding_len).
Proof.
  intros Hb Hl Hv Hr. unfold NETNOX_SSH_MIN_PADDING_LEN, NETNOX_SSH_MAX_PACKET_LEN in *.
  assert (E4 : zlen (ztake 4 plain) = 4) by (apply ztake_length; lia).
  destruct (zdrop_cons plain 4) as [b Eb]; [lia|]. exists b.
  assert (Hbyte : is_byte b).
  { assert (Hd : bytes_ok (zdrop 4 plain)) by auto with noxssh. rewrite Eb in Hd.
    by inversion Hd. }
  split_and!; [by eapply mem_byte_lookup; [lia|]|done|].
  intros Hp. set (n := packet_len - 1 - b).
  exists (ztake n (zdrop 5 plain)), (zdrop n (zdrop 5 plain)).
  assert (El : zlen (zdrop 5 plain) = packet_len - 1) by (rewrite zdrop_length; lia).
  assert (Epay : zlen (ztake n (zdrop 5 plain)) = n) by (apply ztake_length; lia).
  assert (Epad : zlen (zdrop n (zdrop 5 plain)) = b) by (rewrite zdrop_length; lia).
  split_and!.
  - by rewrite mem_read_in_bounds by lia.
  - unfold packet. rewrite Epay, Epad. replace (1 + n + b) with packet_len by lia.
    rewrite Hv, write_u32_be_of_bytes by (auto with noxssh; lia).
    replace (ztake n (zdrop 5 plain) ++ zdrop n (zdrop 5 plain)) with (zdrop 5 plain)
      by (symmetry; apply take_drop).
    change (zdrop 5 plain) with (zdrop (4 + 1) plain). simpl ([b] ++ _). rewrite <- Eb.
    symmetry. apply take_drop.
  - unfold packet_ok, is_byte, NETNOX_SSH_MAX_PACKET_LEN in *. rewrite Epay, Epad. lia.
  - done.
Qed.

Lemma packet_payload_bytes payload padding : bytes_ok (packet payload padding) -> bytes_ok payload.
Proof. unfold packet. rewrite !bytes_ok_app_iff. tauto. Qed.

Lemma unparse_packet payload padding : packet_ok payload padding ->
  let plain := packet payload padding in
  be_value (ztake 4 plain) = 1 + zlen payload + zlen padding /\
  mem_byte plain 4 = Ok (zlen padding) /\ mem_read plain 5 (zlen payload) = Ok payload.
Proof.
  intros [Hp Hl]. unfold NETNOX_SSH_MAX_PACKET_LEN in *. cbn zeta. unfold packet.
  set (h := netnox_ssh_write_u32_be _). split_and!.
  - rewrite ztake_app_exact by done. apply be_value_write_u32_be. ulia.
  - change 4 with (zlen h + 0). by rewrite mem_byte_shift by lia.
  - change 5 with (zlen h + 1). rewrite mem_read_shift by lia.
    by apply (mem_read_app [zlen padding] payload padding).
Qed.


Lemma inbox_suffix_ok (d r i : list Z) : i = d ++ r -> bytes_ok i -> bytes_ok d.
Proof. intros ->. by intros [? _]%bytes_ok_app_iff. Qed.

Lemma read_u32_0 d : bytes_ok d -> 4 <= zlen d < 2 ^ 31 ->
  read_u32 d 0 = Ok (be_value (ztake 4 d), 4).
Proof.
  intros Hb Hl. rewrite read_u32_spec by (done || ulia).
  destruct (Z.ltb_spec (zlen d) (0 + 4)); [lia|]. by unfold announced, zdrop.
Qed.

Ltac pw_step :=
  lazymatch goal with
  | |- wp ?m _ _ =>
      lazymatch m with
      | mbind _ _ => apply wp_bind
      | guard_m _ _ => apply wp_guard; intros ?
      | mret _ => apply wp_ret
      | lift _ => apply wp_lift
      | gets _ => apply wp_gets
      | modify _ => apply wp_modify
      | fail _ => apply wp_fail
      | or_return _ _ => apply wp_or_return
      | ignore _ => apply wp_ignore
      | return_code _ => apply wp_return_code
      end
  end; cbn [ok_or orc].
Ltac pw := repeat pw_step.

Section recv.
Context {C E : Type} `{HostLaws E} {T : NoxTLS} {L : NoxTLSLaws T} {R : Receiver C} {RL : ReceiverLaws C}.
Context (recv_exact : Z -> Z -> M (world C E) (list Z)) (same_mac : list Z -> list Z -> bool).
Implicit Types w : world C E.

(** A context in which nothing but a lack of bytes makes a read fail. *)
Context (ready : C -> Prop) (ready_set : forall k c, ready c -> ready (set_r_counter k c)).

Hypothesis recv_exact_spec : forall room len w, is_u32 len ->
  wp (recv_exact room len) (fun o w' =>
    ctx w' = ctx w /\ sent (env w') = sent (env w) /\
    match o with
    | Ok d => zlen d = len /\ zlen d <= Z.max 0 room /\ inbox (env w) = d ++ inbox (env w')
    | Err _ => (ready (ctx w) ->
                  zlen (inbox (env w)) < len /\ zlen (inbox (env w)) <= Z.max 0 room) /\
               exists d, inbox (env w) = d ++ inbox (env w')
    | Oob => room < len /\ room < zlen (inbox (env w))
    | Diverge => False
    end) w.
Hypothesis same_mac_spec : forall a b, length a = 32%nat -> length b = 32%nat ->
  bytes_ok a -> bytes_ok b -> same_mac a b = bool_decide (a = b).

(** Decrypting in two chunks, the first block and then the rest. *)
Lemma decrypt_chunks key ctr first rest n :
  length ctr = 16%nat -> bytes_ok ctr -> zlen first = 16 -> zlen (first ++ rest) < 2 ^ 30 ->
  n = u32 (zlen (first ++ rest) + 16 - 1) / 16 ->
  let plain := ctr_mode (aes_block key) ctr first ++
               ctr_mode (aes_block key) (netnox_ssh_ctr_increment_blocks ctr 1) rest in
  first ++ rest = ctr_mode (aes_block key) ctr plain /\ length plain = length (first ++ rest) /\
  netnox_ssh_ctr_increment_blocks (netnox_ssh_ctr_increment_blocks ctr 1) (u32 (n - 1)) =
  ctr_add ctr (Z.of_nat (blocks_of (length plain))).
Proof.
  intros Hl Hb Hf Hs ->. rewrite ctr_increment_spec by (done || lia). cbn zeta.
  pose proof (ctr_mode_app (aes_block key) (aes_block_length key) ctr first rest 1 Hl Hb
    ltac:(lia)) as Ha. change (Z.of_nat 1) with 1 in Ha. rewrite <- Ha, aes_ctr_length. split_and!; [|done|].
  - symmetry. apply ctr_mode_involutive, aes_block_length.
  - rewrite ceil_blocks by done.
    pose proof (blocks_of_le (length (first ++ rest))) as Hle.
    pose proof (blocks_of_enough (length (first ++ rest))) as Hge. rewrite zlen_app in Hs.
    rewrite length_app in Hle, Hge.
    assert (1 <= Z.of_nat (blocks_of (length (first ++ rest)))) by (rewrite length_app; lia).
    rewrite u32_small by (rewrite length_app in *; ulia).
    rewrite ctr_increment_spec
      by (apply ctr_add_length || apply ctr_add_bytes_ok || (rewrite length_app in *; lia)).
    rewrite ctr_add_add by (done || lia). f_equal. lia.
Qed.

(** What a receive leaves behind. *)
Definition received w w' : Prop :=
  r_frame (ctx w) (ctx w') /\ sent (env w') = sent (env w) /\ direction_wf (receiving (ctx w')).

(** [p] was taken from the front of the inbox as one well-formed, authenticated packet. *)
Definition took (max : Z) w w' (p : list Z) : Prop :=
  let d := receiving (ctx w) in
  exists padding, packet_ok p padding /\ bytes_ok p /\ zlen p <= max /\
    (d_encrypted d = true -> 16 <= zlen (packet p padding)) /\
    inbox (env w) = wire d (packet p padding) ++ inbox (env w') /\
    receiving (ctx w') = advance d (packet p padding).

(** The first block announces a packet shorter than a cipher block. *)
Definition short_first w : Prop :=
  let d := receiving (ctx w) in
  d_encrypted d = true /\
  let first := ctr_mode (aes_block (d_key d)) (d_counter d) (ztake 16 (inbox (env w))) in
  16 <= zlen (inbox (env w)) /\ 5 <= be_value (ztake 4 first) < 12.

Lemma received_env w w1 w' :
  received w w1 -> ctx w' = ctx w1 -> sent (env w') = sent (env w1) -> received w w'.
Proof. unfold received. by intros (? & -> & ?) -> ->. Qed.

Lemma received_modify w w1 f :
  received w w1 -> r_frame (ctx w1) (f (ctx w1)) -> direction_wf (receiving (f (ctx w1))) ->
  received w (set ctx f w1).
Proof.
  intros (F1 & F2 & F3) Hf Hd. split; [|done]. eapply r_frame_trans; [exact F1|exact Hf].
Qed.

Lemma received_refl w : direction_wf (receiving (ctx w)) -> received w w.
Proof. intros Hd. split; [apply r_frame_refl|done]. Qed.

(** Enough bytes are there: they are read, and nothing else. *)
Lemma recv_prefix room d rest w :
  ready (ctx w) -> zlen d <= room -> is_u32 (zlen d) -> inbox (env w) = d ++ rest ->
  wp (recv_exact room (zlen d)) (fun o w' =>
    o = Ok d /\ ctx w' = ctx w /\ sent (env w') = sent (env w) /\ inbox (env w') = rest) w.
Proof.
  intros Hready Hroom Hlen Hin. eapply wp_mono; [by apply recv_exact_spec|].
  intros o w' (Hc & Hs & Ho). destruct o as [d'|rc| |]; [|exfalso|lia|done].
  - destruct Ho as (Hl & _ & Hin'). rewrite Hin in Hin'.
    apply app_inj_1 in Hin' as [-> ->]; [|lia]. done.
  - destruct Ho as [Ho _]. specialize (Ho Hready). rewrite Hin, zlen_app in Ho. lia.
Qed.

Lemma recv_plain_sound max w :
  direction_wf (receiving (ctx w)) -> d_encrypted (receiving (ctx w)) = false ->
  wp (recv_packet_plain recv_exact max) (fun o w' => received w w' /\
    match o with
    | Ok p => took max w w' p
    | Err _ => True
    | _ => False
    end) w.
Proof.
  intros Hcan Hkex. unfold recv_packet_plain. pw.
  eapply wp_mono; [by apply recv_exact_spec|]. intros o w1 (Hc & Hs & Ho).
  pose proof (received_env _ _ _ (received_refl w Hcan) Hc Hs) as Hr.
  destruct o as [d|rc| |]; cbn [ok_or orc]; [|done|lia|done].
  destruct Ho as (Hl & _ & Hin). pose proof (inbox_suffix_ok _ _ _ Hin (inbox_bytes_ok _)) as Hb.
  pw. rewrite read_u32_0, ztake_all by (done || lia). cbn [ok_or]. pw; [|done].
  pose proof (be_value_range d Hb) as Hrange. rewrite Hl in Hrange. set (n := be_value d) in *.
  unfold NETNOX_SSH_MIN_PADDING_LEN, NETNOX_SSH_MAX_PACKET_LEN in *.
  eapply wp_mono; [apply recv_exact_spec; ulia|]. intros o w2 (Hc2 & Hs2 & Ho2).
  pose proof (received_env _ _ _ Hr Hc2 Hs2) as Hr2.
  destruct o as [pk|rc| |]; cbn [ok_or orc]; [|done|lia|done].
  destruct Ho2 as (Hl2 & _ & Hin2).
  pose proof (inbox_suffix_ok _ _ _ Hin2 (inbox_bytes_ok _)) as Hb2.
  destruct (parse_packet (d ++ pk) n) as (b & Eb & _ & Hparse);
    [by apply bytes_ok_app|rewrite zlen_app; lia|by rewrite ztake_app_exact by lia|
     unfold NETNOX_SSH_MIN_PADDING_LEN, NETNOX_SSH_MAX_PACKET_LEN; lia|].
  rewrite <- Hl in Eb. rewrite <- (Z.add_0_r (zlen d)), mem_byte_shift in Eb by lia.
  pw. rewrite Eb. cbn [ok_or]. pw; [|done..].
  destruct Hparse as (p & padding & Hread & Hpk & Hok & Hlp);
    [unfold NETNOX_SSH_MIN_PADDING_LEN; lia|].
  change 5 with (4 + 1) in Hread. rewrite <- Hl, mem_read_shift in Hread by lia.
  rewrite Hread. cbn [ok_or]. pw. split.
  - apply received_modify; [done|apply r_frame_next|].
    destruct Hr2 as (_ & _ & Hwf). by rewrite receiving_next.
  - exists padding. unfold wire, advance, next_counter. cbn [ctx env set]. simpl.
    rewrite receiving_next, Hc2, Hc, Hkex. simpl. rewrite Hkex.
    split_and!; [done| |lia|done| |done].
    + eapply packet_payload_bytes. rewrite <- Hpk. by apply bytes_ok_app.
    + by rewrite Hin, Hin2, app_assoc, Hpk.
Qed.

Lemma recv_verify_sound plain0 plain1 mac packet_len max c w :
  let plain := plain0 ++ plain1 in let d := receiving c in
  bytes_ok plain -> zlen plain = 4 + packet_len -> packet_len = be_value (ztake 4 plain) ->
  5 <= packet_len <= 35000 -> zlen mac = 32 -> bytes_ok mac ->
  wp (recv_verify same_mac plain0 plain1 mac packet_len (4 + packet_len) max c) (fun o w' =>
    (w' = w \/ exists k, w' = set ctx (fun c => r_count k (r_next c)) w) /\
    match o with
    | Ok p => mac = hmac_spec sha256 (d_mac_key d) (netnox_ssh_write_u32_be (d_seq d) ++ plain) /\
        (exists k, w' = set ctx (fun c => r_count k (r_next c)) w) /\
        zlen p <= max /\ exists padding, plain = packet p padding /\ packet_ok p padding
    | Err _ => True
    | _ => False
    end) w.
Proof.
  intros plain d Hb Hl Hv Hr Hlm Hbm. unfold recv_verify. fold plain. fold d. pw.
  rewrite mem_read_in_bounds by lia. unfold zdrop. rewrite drop_0, ztake_all by lia. cbn [ok_or].
  pw. rewrite hmac_ok. cbn [orc ok_or]. pw; [|by auto].
  destruct (parse_packet plain packet_len) as (b & Eb & _ & Hparse); [done..|].
  set (w1 := set ctx (r_count _) _).
  assert (Hw1 : exists k, w1 = set ctx (fun c => r_count k (r_next c)) w) by (eexists; reflexivity).
  rewrite Eb. cbn [ok_or]. pw; [|by auto|by auto].
  unfold NETNOX_SSH_MIN_PADDING_LEN in *.
  destruct Hparse as (p & padding & Hread & Hpk & Hok & Hlp); [lia|]. rewrite Hread.
  split; [by auto|]. rewrite ztake_all in * by (rewrite hmac_spec_length; done).
  split_and!; [|done|lia|by exists padding].
  match goal with Hm : same_mac _ _ = true |- _ =>
    rewrite same_mac_spec in Hm by (apply hmac_spec_length || apply hmac_spec_bytes_ok || done || lia);
    apply bool_decide_eq_true in Hm; by symmetry end.
Qed.

(** The MAC after the packet, its check, and the payload of the packet. *)
Lemma recv_mac_sound plain0 plain1 n max t w0 w :
  let plain := plain0 ++ plain1 in let d := receiving t in
  received w0 w -> bytes_ok plain -> zlen plain = 4 + n -> n = be_value (ztake 4 plain) -> 5 <= n <= 35000 ->
  wp (mac ← try (recv_exact NETNOX_SSH_MAC_LEN NETNOX_SSH_MAC_LEN);
      recv_verify same_mac plain0 plain1 mac n (4 + n) max t) (fun o w' => received w0 w' /\
    match o with
    | Ok p => exists padding j, packet_ok p padding /\ bytes_ok p /\ zlen p <= max /\ plain = packet p padding /\
        inbox (env w) = hmac_spec sha256 (d_mac_key d) (netnox_ssh_write_u32_be (d_seq d) ++ plain) ++ inbox (env w') /\
        ctx w' = r_count j (r_next (ctx w))
    | Err _ => True
    | _ => False
    end) w.
Proof.
  intros plain d Hr Hb Hl Hv Hn. pw.
  eapply wp_mono; [by apply recv_exact_spec|]. intros o w4 (Hc4 & Hs4 & Ho4).
  pose proof (received_env _ _ _ Hr Hc4 Hs4) as Hr4.
  destruct o as [mac|rc| |]; cbn [ok_or orc]; [|done|unfold NETNOX_SSH_MAC_LEN in Ho4; lia|done].
  destruct Ho4 as (Hlm & _ & Hin4). pose proof (inbox_suffix_ok _ _ _ Hin4 (inbox_bytes_ok _)) as Hbm.
  eapply wp_mono; [by apply recv_verify_sound|]. intros o w5 [Hw5 Ho5].
  assert (Hr5 : received w0 w5).
  { destruct Hw5 as [-> |[j ->]]; [done|]. apply received_modify; [done|..].
    - eapply r_frame_trans; [apply r_frame_next|apply r_frame_count].
    - rewrite receiving_count, receiving_next. destruct Hr4 as (_ & _ & Hwf4). done. }
  split; [done|]. destruct o as [p|rc| |]; try done.
  destruct Ho5 as (Hmac & [j ->] & Hmax & padding & Hpk & Hok). exists padding, j.
  split_and!; [done| |done|exact Hpk|unfold d, plain; by rewrite <- Hmac|by rewrite <- Hc4].
  eapply packet_payload_bytes. unfold plain in Hb. by rewrite <- Hpk.
Qed.

(** The part after the first block [first], which the direction [d] decrypted. *)
Lemma recv_rest_sound d first max w :
  direction_wf d -> d_encrypted d = true -> zlen first = 16 -> bytes_ok first ->
  let plain0 := ctr_mode (aes_block (d_key d)) (d_counter d) first in
  let n := be_value (ztake 4 plain0) in
  5 <= n <= 35000 ->
  receiving (ctx w) = mkDirection true (d_key d) (ctr_add (d_counter d) 1) (d_mac_key d) (d_seq d) ->
  wp (recv_rest recv_exact same_mac plain0 n max) (fun o w' => received w w' /\
    match o with
    | Ok p => exists padding, packet_ok p padding /\ bytes_ok p /\ zlen p <= max /\
        16 <= zlen (packet p padding) /\
        first ++ inbox (env w) = wire d (packet p padding) ++ inbox (env w') /\
        receiving (ctx w') = advance d (packet p padding)
    | Err _ => True
    | Oob => n < 12
    | Diverge => False
    end) w.
Proof.
  intros (Hkey & Hctr & Hctrb) Henc Hl Hb plain0 n Hn Hd.
  assert (Hwf : direction_wf (receiving (ctx w)))
    by (rewrite Hd; split_and!; simpl; auto with noxssh).
  unfold recv_rest, NETNOX_SSH_AES_BLOCK_LEN, NETNOX_SSH_MAX_PACKET_LEN. pw.
  rewrite (u32_small (4 + n)) by ulia.
  eapply wp_mono; [apply recv_exact_spec, u32_range|]. intros o w2 (Hc2 & Hs2 & Ho2).
  pose proof (received_env _ _ _ (received_refl w Hwf) Hc2 Hs2) as Hr2.
  assert (Hshort : 4 + n < 16 -> u32 (4 + n - 16) = 2 ^ 32 + (4 + n - 16)).
  { intros. unfold u32. symmetry. apply (Z.mod_unique_pos _ _ (-1)); lia. }
  destruct o as [rest|rc| |]; cbn [ok_or orc]; [|done| |done].
  2:{ split; [done|]. destruct (Z.lt_ge_cases (4 + n) 16) as [Hlt|?]; [lia|].
      rewrite u32_small in Ho2 by ulia. lia. }
  destruct Ho2 as (Hl2 & Hroom & Hin2).
  destruct (Z.lt_ge_cases (4 + n) 16) as [Hlt|Hge]; [rewrite Hshort in Hl2 by done; lia|].
  rewrite (u32_small (4 + n - 16)) in Hl2 by ulia.
  pose proof (inbox_suffix_ok _ _ _ Hin2 (inbox_bytes_ok _)) as Hb2.
  pw. rewrite Hc2, Hd. cbn [d_key d_counter]. rewrite aes_ctr_law by auto with noxssh. pw_step. pw_step; [|done]. pw_step. pw_step.
  assert (Hall : zlen (first ++ rest) = 4 + n) by (rewrite zlen_app; lia).
  destruct (decrypt_chunks (d_key d) (d_counter d) first rest (u32 (4 + n + 16 - 1) / 16))
    as (Hdec & Hlen & Hcnt); [done|done|done|lia|by rewrite Hall|].
  assert (E1 : netnox_ssh_ctr_increment_blocks (d_counter d) 1 = ctr_add (d_counter d) 1)
    by (by apply ctr_increment_spec).
  rewrite E1 in Hdec, Hlen, Hcnt. rewrite Hcnt. fold plain0 in Hdec, Hlen, Hcnt |- *.
  set (plain1 := ctr_mode (aes_block (d_key d)) (ctr_add (d_counter d) 1) rest) in *.
  set (k := ctr_add (d_counter d) (Z.of_nat _)) in *. set (w3 := set ctx (set_r_counter k) w2).
  assert (Hd3 : receiving (ctx w3) = mkDirection true (d_key d) k (d_mac_key d) (d_seq d)).
  { unfold w3. simpl. by rewrite receiving_set, Hc2, Hd. }
  assert (Hwf3 : direction_wf (receiving (ctx w3)))
    by (rewrite Hd3; split_and!; simpl; unfold k; auto with noxssh).
  assert (Hr3 : received w w3) by (apply received_modify; [done|apply r_frame_set|done]).
  assert (Hbp : bytes_ok (plain0 ++ plain1)) by (unfold plain0, plain1; auto with noxssh).
  eapply wp_mono; [apply recv_mac_sound; [done|done|lia| |done]|].
  { unfold ztake. rewrite take_app_le by (unfold plain0; rewrite aes_ctr_length; lia). done. }
  intros o w5 [Hr5 Ho5]. split; [done|]. destruct o as [p|rc| |]; try done.
  destruct Ho5 as (padding & j & Hok & Hbp' & Hmax & Hpk & Hin5 & Hc5). exists padding. rewrite <- Hpk.
  unfold wire, advance, next_counter. rewrite Henc. split_and!; [done|done|done|lia| |].
  - rewrite Hin2. simpl in Hin5. rewrite Hin5, app_assoc, Hdec, <- app_assoc. by rewrite ?Hc2, Hd.
  - by rewrite Hc5, receiving_count, receiving_next, Hd3.
Qed.

(** The first block, decrypted. *)
Lemma recv_encrypted_sound max w :
  direction_wf (receiving (ctx w)) -> d_encrypted (receiving (ctx w)) = true ->
  wp (recv_packet_encrypted recv_exact same_mac max) (fun o w' => received w w' /\
    match o with
    | Ok p => took max w w' p
    | Err _ => True
    | Oob => short_first w
    | Diverge => False
    end) w.
Proof.
  intros Hcan Hkex. pose proof Hcan as (Hkey & Hctr & Hctrb). set (d := receiving (ctx w)) in *.
  unfold recv_packet_encrypted, NETNOX_SSH_AES_BLOCK_LEN. pw.
  eapply wp_mono; [by apply recv_exact_spec|]. intros o w1 (Hc & Hs & Ho).
  pose proof (received_env _ _ _ (received_refl w Hcan) Hc Hs) as Hr.
  destruct o as [first|rc| |]; cbn [ok_or orc]; [|done|unfold NETNOX_SSH_MAX_PACKET_LEN in Ho; lia|done].
  destruct Ho as (Hl & _ & Hin). pose proof (inbox_suffix_ok _ _ _ Hin (inbox_bytes_ok _)) as Hb.
  pw. rewrite Hc. fold d. rewrite aes_ctr_law by done. pw; [|done].
  assert (E1 : netnox_ssh_ctr_increment_blocks (d_counter d) 1 = ctr_add (d_counter d) 1)
    by (by apply ctr_increment_spec). rewrite E1.
  set (w1' := set ctx (set_r_counter _) w1).
  assert (Hd1 : receiving (ctx w1') = mkDirection true (d_key d) (ctr_add (d_counter d) 1) (d_mac_key d) (d_seq d)).
  { unfold w1'. simpl. rewrite receiving_set, Hc. cbn zeta. fold d. by rewrite Hkex. }
  assert (Hr1 : received w w1').
  { apply received_modify; [done|apply r_frame_set|]. unfold w1' in Hd1. simpl in Hd1. rewrite Hd1.
    split_and!; simpl; auto with noxssh. }
  rewrite read_u32_0 by (rewrite ?aes_ctr_length; auto with noxssh || lia). cbn [ok_or]. pw; [|done].
  set (n := be_value _) in *. unfold NETNOX_SSH_MIN_PADDING_LEN, NETNOX_SSH_MAX_PACKET_LEN in *.
  eapply wp_mono; [apply (recv_rest_sound d first max w1' Hcan Hkex Hl Hb); [lia|done]|].
  intros o w2 [(F1 & F2 & F3) Ho].
  assert (Hr2 : received w w2).
  { destruct Hr1 as (G1 & G2 & _). split; [by eapply r_frame_trans|]. split; [congruence|done]. }
  split; [done|]. destruct o as [p|rc| |]; try done.
  - destruct Ho as (padding & Hok & Hbp & Hmax & H16 & Hwire & Hadv). exists padding.
    rewrite Hin. by split_and!.
  - split; [done|]. fold d. rewrite Hin, (ztake_app_exact first) by done. cbn zeta. fold n.
    rewrite zlen_app. lia.
Qed.

Lemma recv_verify_complete plain0 plain1 p padding mac packet_len max c w :
  let d := receiving c in
  plain0 ++ plain1 = packet p padding -> packet_ok p padding -> zlen p <= max ->
  packet_len = 1 + zlen p + zlen padding ->
  mac = hmac_spec sha256 (d_mac_key d) (netnox_ssh_write_u32_be (d_seq d) ++ packet p padding) ->
  wp (recv_verify same_mac plain0 plain1 mac packet_len (4 + packet_len) max c)
    (fun o w' => o = Ok p /\ env w' = env w) w.
Proof.
  intros d Hpk Hok Hmax Hplen ->. unfold recv_verify. fold d. rewrite Hpk.
  destruct (unparse_packet p padding Hok) as (_ & Eb & Er). pw.
  pose proof (packet_length p padding) as Hlen.
  rewrite mem_read_in_bounds by lia. unfold zdrop. rewrite drop_0, ztake_all by lia. cbn [ok_or].
  pw. rewrite hmac_ok. cbn [orc ok_or].
  rewrite ztake_all by (rewrite hmac_spec_length; done).
  rewrite same_mac_spec by (apply hmac_spec_length || apply hmac_spec_bytes_ok).
  pw; [|by rewrite bool_decide_eq_true_2 in *].
  rewrite Eb. cbn [ok_or]. destruct Hok as [Hp Hl]. unfold NETNOX_SSH_MIN_PADDING_LEN.
  pw; [|lia..]. replace (packet_len - 1 - zlen padding) with (zlen p) by lia. by rewrite Er.
Qed.

(** The ciphertext of a packet in its first block and the rest, and what decrypting
    the two gives. *)
Lemma cipher_split d pkt :
  direction_wf d -> 16 <= zlen pkt < 2 ^ 30 ->
  let c := ctr_mode (aes_block (d_key d)) (d_counter d) pkt in
  let first := ztake 16 c in let rest := zdrop 16 c in
  c = first ++ rest /\ zlen first = 16 /\ zlen rest = zlen pkt - 16 /\
  ctr_mode (aes_block (d_key d)) (d_counter d) first ++
    ctr_mode (aes_block (d_key d)) (ctr_add (d_counter d) 1) rest = pkt.
Proof.
  intros (Hkey & Hctr & Hctrb) Hl c first rest.
  assert (Hlc : zlen c = zlen pkt) by (unfold c; by rewrite aes_ctr_length).
  assert (Hsplit : c = first ++ rest) by (symmetry; apply take_drop).
  assert (Hl1 : zlen first = 16) by (apply ztake_length; lia).
  split_and!; [done|done|unfold rest; rewrite zdrop_length; lia|].
  destruct (decrypt_chunks (d_key d) (d_counter d) first rest _ Hctr Hctrb Hl1
              ltac:(rewrite <- Hsplit; lia) eq_refl) as (Henc & _ & _).
  rewrite ctr_increment_spec in Henc by (done || lia). rewrite <- Hsplit in Henc.
  rewrite <- (ctr_mode_involutive (aes_block (d_key d)) (aes_block_length _) (d_counter d) pkt).
  fold c. rewrite Henc. by rewrite ctr_mode_involutive by apply aes_block_length.
Qed.

Lemma recv_rest_complete d plain0 rest p padding tail max w :
  let pkt := packet p padding in let n := 1 + zlen p + zlen padding in
  direction_wf d -> packet_ok p padding -> zlen p <= max -> 16 <= zlen pkt ->
  plain0 ++ ctr_mode (aes_block (d_key d)) (ctr_add (d_counter d) 1) rest = pkt ->
  zlen rest = zlen pkt - 16 ->
  receiving (ctx w) = mkDirection true (d_key d) (ctr_add (d_counter d) 1) (d_mac_key d) (d_seq d) ->
  ready (ctx w) ->
  inbox (env w) = rest ++ hmac_spec sha256 (d_mac_key d) (netnox_ssh_write_u32_be (d_seq d) ++ pkt) ++ tail ->
  wp (recv_rest recv_exact same_mac plain0 n max) (fun o w' => o = Ok p /\ inbox (env w') = tail) w.
Proof.
  intros pkt n (Hkey & Hctr & Hctrb) Hok Hmax H16 Hplain Hlr Hd Hready Hin.
  assert (Hlp : zlen pkt = 5 + zlen p + zlen padding) by apply packet_length.
  pose proof Hok as [Hp Hmaxl]. unfold NETNOX_SSH_MAX_PACKET_LEN in Hmaxl.
  unfold recv_rest, NETNOX_SSH_AES_BLOCK_LEN, NETNOX_SSH_MAX_PACKET_LEN. pw. unfold n.
  rewrite (u32_small (4 + _)), (u32_small (4 + _ - 16)) by ulia.
  replace (4 + (1 + zlen p + zlen padding) - 16) with (zlen rest) by lia.
  eapply wp_mono; [eapply (recv_prefix _ rest _ w Hready); [lia|ulia|exact Hin]|].
  intros o w2 (-> & Hc2 & _ & Hin2). cbn [ok_or orc]. pw. rewrite Hc2, Hd. cbn [d_key d_counter].
  rewrite aes_ctr_law by auto with noxssh. pw; [|done].
  set (mac := hmac_spec _ _ _) in *. set (w3 := set ctx _ w2).
  assert (Hlm : zlen mac = 32) by (unfold mac; by rewrite hmac_spec_length).
  unfold NETNOX_SSH_MAC_LEN. rewrite <- Hlm at 2.
  eapply wp_mono; [apply (recv_prefix _ mac tail w3)|].
  - unfold w3. simpl. rewrite Hc2. by apply ready_set.
  - lia.
  - ulia.
  - done.
  - intros o w4 (-> & Hc4 & _ & Hin4). cbn [ok_or orc].
    eapply wp_mono; [apply (recv_verify_complete _ _ p padding); [done|done|done|done|]|].
    + rewrite ?Hc2, Hd. done.
    + intros o w5 [-> He]. split; [done|]. by rewrite He.
Qed.

Lemma recv_encrypted_complete max p padding tail w :
  let d := receiving (ctx w) in
  direction_wf d -> d_encrypted d = true -> ready (ctx w) -> packet_ok p padding -> zlen p <= max ->
  16 <= zlen (packet p padding) -> inbox (env w) = wire d (packet p padding) ++ tail ->
  wp (recv_packet_encrypted recv_exact same_mac max) (fun o w' => o = Ok p /\ inbox (env w') = tail) w.
Proof.
  intros d Hwf Hkex Hready Hok Hmax H16 Hin. pose proof Hwf as (Hkey & Hctr & Hctrb).
  pose proof (packet_length p padding) as Hlp.
  pose proof Hok as [Hp Hmaxl]. unfold NETNOX_SSH_MAX_PACKET_LEN in Hmaxl.
  destruct (cipher_split d (packet p padding) Hwf ltac:(lia)) as (Hsplit & Hl1 & Hl2 & Hplain).
  unfold wire in Hin. rewrite Hkex, Hsplit, <- !app_assoc in Hin.
  set (first := ztake 16 _) in *. set (rest := zdrop 16 _) in *.
  set (plain0 := ctr_mode _ (d_counter d) first) in *.
  assert (Hb0 : bytes_ok plain0).
  { apply aes_ctr_bytes_ok. eapply (inbox_suffix_ok _ _ (inbox (env w))); [exact Hin|apply inbox_bytes_ok]. }
  assert (Hl0 : zlen plain0 = 16) by (unfold plain0; rewrite aes_ctr_length; lia).
  destruct (unparse_packet p padding Hok) as (Ev & _ & _). rewrite <- Hplain in Ev.
  unfold ztake in Ev. rewrite take_app_le in Ev by lia.
  unfold recv_packet_encrypted, NETNOX_SSH_AES_BLOCK_LEN. pw. rewrite <- Hl1 at 1.
  eapply wp_mono; [eapply (recv_prefix _ first _ w Hready); [unfold NETNOX_SSH_MAX_PACKET_LEN; lia|ulia|exact Hin]|].
  intros o w1 (-> & Hc1 & _ & Hin1). cbn [ok_or orc]. pw. rewrite Hc1. fold d.
  rewrite aes_ctr_law by done. pw; [|done]. fold plain0.
  rewrite read_u32_0 by (done || lia). cbn [ok_or]. unfold ztake. rewrite Ev.
  unfold NETNOX_SSH_MIN_PADDING_LEN, NETNOX_SSH_MAX_PACKET_LEN in *. pw; [|lia].
  eapply (recv_rest_complete d plain0 rest p padding); try done; simpl; rewrite Hc1.
  - rewrite receiving_set. cbn zeta. fold d. by rewrite Hkex, ctr_increment_spec.
  - by apply ready_set.
Qed.

Lemma recv_plain_complete max p padding tail w :
  ready (ctx w) -> packet_ok p padding -> zlen p <= max ->
  inbox (env w) = packet p padding ++ tail ->
  wp (recv_packet_plain recv_exact max) (fun o w' => o = Ok p /\ inbox (env w') = tail) w.
Proof.
  intros Hready Hok Hmax Hin. unfold recv_packet_plain. pw.
  destruct (unparse_packet p padding Hok) as (Ev & Eb & Er). pose proof Hok as [Hp Hl].
  unfold NETNOX_SSH_MAX_PACKET_LEN in *.
  set (h := netnox_ssh_write_u32_be (1 + zlen p + zlen padding)).
  assert (Hpk : packet p padding = h ++ ([zlen padding] ++ p ++ padding)) by done.
  set (body := [zlen padding] ++ p ++ padding) in *.
  assert (Hbody : zlen body = 1 + zlen p + zlen padding) by (unfold body; len).
  rewrite Hpk in *. rewrite <- app_assoc in Hin.
  change 4 with (zlen h) at 2.
  eapply wp_mono; [apply (recv_prefix 4 h (body ++ tail) w); done|].
  intros o w1 (-> & Hc & Hs & Hin1). cbn [ok_or orc]. pw.
  rewrite ztake_app_exact in Ev by done.
  rewrite read_u32_0, ztake_all, Ev by (apply write_u32_be_bytes_ok || done). cbn [ok_or].
  pw; [|unfold NETNOX_SSH_MIN_PADDING_LEN, NETNOX_SSH_MAX_PACKET_LEN in *; lia].
  rewrite <- Hbody. rewrite <- Hc in Hready.
  eapply wp_mono; [apply (recv_prefix _ body tail w1); try done; unfold NETNOX_SSH_MAX_PACKET_LEN; ulia|].
  intros o w2 (-> & Hc2 & Hs2 & Hin2). cbn [ok_or orc]. pw.
  change 4 with (zlen h + 0) in Eb. rewrite mem_byte_shift in Eb by lia. rewrite Eb. cbn [ok_or].
  change 5 with (zlen h + 1) in Er. rewrite mem_read_shift in Er by lia.
  unfold NETNOX_SSH_MIN_PADDING_LEN. pw; [|lia..].
  replace (zlen body - 1 - zlen padding) with (zlen p) by lia. rewrite Er. cbn [ok_or]. by pw.
Qed.

Lemma recv_short_overflows max w :
  direction_wf (receiving (ctx w)) -> ready (ctx w) -> short_first w ->
  16 + (4 + NETNOX_SSH_MAX_PACKET_LEN - 16) < zlen (inbox (env w)) ->
  wp (recv_packet_encrypted recv_exact same_mac max) (fun o _ => o = Oob) w.
Proof.
  intros (Hkey & Hctr & Hctrb) Hready [Hkex Hshort] Hlong.
  unfold NETNOX_SSH_MAX_PACKET_LEN in Hlong. cbn zeta in Hshort.
  set (d := receiving (ctx w)) in *. destruct Hshort as [H16 Hn].
  set (first := ztake 16 (inbox (env w))) in *. set (rest := zdrop 16 (inbox (env w))).
  assert (Hin : inbox (env w) = first ++ rest) by (symmetry; apply take_drop).
  assert (Hlf : zlen first = 16) by (apply ztake_length; lia).
  assert (Hlr : zlen (inbox (env w)) = 16 + zlen rest) by (rewrite Hin, zlen_app; lia).
  pose proof (inbox_suffix_ok _ _ _ Hin (inbox_bytes_ok _)) as Hb.
  unfold recv_packet_encrypted, recv_rest, NETNOX_SSH_AES_BLOCK_LEN. pw. rewrite <- Hlf at 1.
  eapply wp_mono; [apply (recv_prefix _ first rest w Hready); [unfold NETNOX_SSH_MAX_PACKET_LEN; lia|ulia|done]|].
  intros o w1 (-> & Hc1 & _ & Hin1). cbn [ok_or orc]. pw. rewrite Hc1. fold d.
  rewrite aes_ctr_law by done. pw; [|done].
  rewrite read_u32_0 by (auto with noxssh; rewrite aes_ctr_length; lia). cbn [ok_or].
  unfold NETNOX_SSH_MIN_PADDING_LEN, NETNOX_SSH_MAX_PACKET_LEN. pw; [|lia].
  rewrite (u32_small (4 + _)) by ulia.
  eapply wp_mono; [apply recv_exact_spec, u32_range|]. simpl. rewrite Hc1.
  intros o w2 (_ & _ & Ho). rewrite Hin1 in Ho.
  assert (Hwrap : forall n, 5 <= n < 12 -> u32 (4 + n - 16) = 2 ^ 32 + (4 + n - 16)).
  { intros n Hn'. unfold u32. symmetry. apply (Z.mod_unique_pos _ _ (-1)); lia. }
  rewrite Hwrap in Ho by done. destruct o as [r|rc| |]; cbn [ok_or orc]; try done; exfalso; [lia|].
  destruct Ho as [Ho _].
  enough (zlen rest < 0) by lia. destruct Ho as [? ?]; [by apply ready_set|lia].
Qed.

(** Whatever the outcome, unless the run left its buffers, the inbox did not grow. *)
Definition shrinking {A} (m : M (world C E) A) : Prop :=
  forall w, wp m (fun o w' => o <> Oob -> zlen (inbox (env w')) <= zlen (inbox (env w))) w.

Lemma shrinking_bind {A B} (m : M _ A) (k : A -> M _ B) :
  shrinking m -> (forall a, shrinking (k a)) -> shrinking (m ≫= k).
Proof.
  intros Hm Hk w. apply wp_bind. eapply wp_mono; [apply Hm|]. intros o w1 Ho.
  destruct o as [a|rc| |]; cbn [ok_or]; try by (intros; apply Ho).
  eapply wp_mono; [apply Hk|]. intros o w2 Ho2 Hne. specialize (Ho ltac:(done)). specialize (Ho2 Hne). lia.
Qed.
Lemma shrinking_try {A} (m : M _ A) rc : shrinking m -> shrinking (or_return m rc).
Proof. intros Hm w. pw. eapply wp_mono; [apply Hm|]. intros o w' Ho Hne. apply Ho. by destruct o. Qed.
Lemma shrinking_still {A} (m : M (world C E) A) : (forall w, env (m w).2 = env w) -> shrinking m.
Proof. intros Hm w. apply wp_intro. intros o w' Hr _. specialize (Hm w). rewrite Hr in Hm. simpl in Hm. by rewrite Hm. Qed.
Lemma shrinking_guard b rc {B} (k : unit -> M _ B) :
  (b = true -> shrinking (k tt)) -> shrinking (guard_m b rc ≫= k).
Proof. intros Hk w. pw; [by apply Hk|done]. Qed.
Lemma shrinking_recv room len : is_u32 len -> shrinking (recv_exact room len).
Proof.
  intros Hl w. eapply wp_mono; [by apply recv_exact_spec|]. intros o w' (_ & _ & Ho) Hne.
  destruct o; try done.
  - destruct Ho as (_ & _ & ->). rewrite length_app. lia.
  - destruct Ho as (_ & d & ->). rewrite length_app. lia.
Qed.

Ltac shrink :=
  repeat match goal with
  | |- shrinking (guard_m _ _ ≫= _) => apply shrinking_guard; intros ?
  | |- shrinking (_ ≫= _) => apply shrinking_bind; [|intros ?]
  | |- shrinking (or_return _ _) => apply shrinking_try
  | |- shrinking (recv_exact _ _) => apply shrinking_recv
  | |- shrinking (let '(_, _) := ?p in _) => destruct p
  | |- shrinking (if ?b then _ else _) => destruct b
  | |- shrinking _ => by apply shrinking_still
  end.

Lemma recv_packet_plain_shrinking max : shrinking (recv_packet_plain recv_exact max).
Proof.
  unfold recv_packet_plain, NETNOX_SSH_MIN_PADDING_LEN, NETNOX_SSH_MAX_PACKET_LEN.
  shrink; try apply u32_range; ulia.
Qed.
Lemma recv_packet_encrypted_shrinking max : shrinking (recv_packet_encrypted recv_exact same_mac max).
Proof.
  unfold recv_packet_encrypted, recv_rest, recv_verify,
    NETNOX_SSH_MIN_PADDING_LEN, NETNOX_SSH_MAX_PACKET_LEN, NETNOX_SSH_AES_BLOCK_LEN, NETNOX_SSH_MAC_LEN.
  shrink; try apply u32_range; ulia.
Qed.
End recv.
