(* ===== verification/Client.v ===== *)
(** The client context (netnox_ssh_client_t of common/noxssh_common.h), the client's
    I/O helpers, and its SSH binary packet layer: [netnox_ssh_send_packet] and
    [netnox_ssh_recv_packet] of common/noxssh_common.c. *)

From S2P Require Export Packet.

(** ** The context *)

Record netnox_ssh_client_t : Type := mkClient {
  send_cb_set : bool;
  recv_cb_set : bool;
  transport : ssh_transport_t;
  username : list Z;
  host : list Z;
  password : list Z;
  ed25519_private_key : list Z;
  ed25519_public_key : list Z;
  has_ed25519_key : bool;
  port : Z;
  server_host_key_blob : list Z;
  server_host_key_fingerprint : list Z;
  server_host_key_ready : bool;
  remote_exit_status_valid : bool;
  remote_exit_status : Z
}.

#[export] Instance client_eta : Eta netnox_ssh_client_t := fun r =>
  mkClient (send_cb_set r) (recv_cb_set r) (transport r) (username r) (host r) (password r)
    (ed25519_private_key r) (ed25519_public_key r) (has_ed25519_key r) (port r)
    (server_host_key_blob r) (server_host_key_fingerprint r) (server_host_key_ready r)
    (remote_exit_status_valid r) (remote_exit_status r).

#[export] Instance set_send_cb_set : Setter send_cb_set := ltac:(build_setter).
#[export] Instance set_recv_cb_set : Setter recv_cb_set := ltac:(build_setter).
#[export] Instance set_transport : Setter transport := ltac:(build_setter).
#[export] Instance set_username : Setter username := ltac:(build_setter).
#[export] Instance set_host : Setter host := ltac:(build_setter).
#[export] Instance set_password : Setter password := ltac:(build_setter).
#[export] Instance set_ed25519_private_key : Setter ed25519_private_key := ltac:(build_setter).
#[export] Instance set_ed25519_public_key : Setter ed25519_public_key := ltac:(build_setter).
#[export] Instance set_has_ed25519_key : Setter has_ed25519_key := ltac:(build_setter).
#[export] Instance set_port : Setter port := ltac:(build_setter).
#[export] Instance set_server_host_key_blob : Setter server_host_key_blob := ltac:(build_setter).
#[export] Instance set_server_host_key_fingerprint : Setter server_host_key_fingerprint := ltac:(build_setter).
#[export] Instance set_server_host_key_ready : Setter server_host_key_ready := ltac:(build_setter).
#[export] Instance set_remote_exit_status_valid : Setter remote_exit_status_valid := ltac:(build_setter).
#[export] Instance set_remote_exit_status : Setter remote_exit_status := ltac:(build_setter).

(** [memset(client, 0, sizeof( *client))] *)
Definition client_zero : netnox_ssh_client_t :=
  mkClient false false transport_zero (zeros 65) (zeros 256) (zeros 129) (zeros 32) (zeros 32)
    false 0 [] (zeros 32) false false 0.

(** The client sends with the c2s keys and receives with the s2c keys. *)
Definition client_to_server (t : ssh_transport_t) : direction :=
  mkDirection (key_exchange_complete t) (c2s_key t) (c2s_counter t) (c2s_mac_key t) (send_seq t).
Definition server_to_client (t : ssh_transport_t) : direction :=
  mkDirection (key_exchange_complete t) (s2c_key t) (s2c_counter t) (s2c_mac_key t) (recv_seq t).

#[export] Instance client_receiver : Receiver netnox_ssh_client_t := {|
  receiving c := server_to_client (transport c);
  set_r_counter k c := c <| transport := transport c <| s2c_counter := k |> |>;
  r_next c := c <| transport := transport c <| recv_seq := u32 (recv_seq (transport c) + 1) |> |>;
  r_count _ c := c
|}.

Section code.
Context {E : Type} `{Host E} `{NoxTLS}.

Abbreviation C := (M (world netnox_ssh_client_t E)).

(** Access to the context: [client->field], [client->transport fields]. *)
Definition client_ : C netnox_ssh_client_t := gets ctx.
Definition tr : C ssh_transport_t := gets (fun w => transport (ctx w)).
Definition set_client (f : netnox_ssh_client_t -> netnox_ssh_client_t) : C unit :=
  modify (set ctx f).
Definition set_tr (f : ssh_transport_t -> ssh_transport_t) : C unit :=
  set_client (set transport f).
(** Run a function of the transport fields on the context. *)
Definition on_tr {A} (m : M ssh_transport_t A) : C A := fun w =>
  let '(o, t) := m (transport (ctx w)) in (o, set ctx (set transport (fun _ => t)) w).

(** ** I/O helpers *)

Definition netnox_ssh_send_all (data : list Z) : C unit :=
  client ← client_;
  guard_m (send_cb_set client) NETNOX_RETURN_BAD_PARAM;;
  send_loop (mret tt) data.

Definition netnox_ssh_recv_exact (room len : Z) : C (list Z) :=
  client ← client_;
  guard_m (recv_cb_set client) NETNOX_RETURN_BAD_PARAM;;
  recv_loop (mret tt) room len.

(** [out] is client->server_ident, [out_len] its size. *)
Definition netnox_ssh_recv_line : C unit :=
  client ← client_;
  let out_len := zlen (server_ident (transport client)) in
  guard_m (negb (out_len =? 0) && recv_cb_set client) NETNOX_RETURN_BAD_PARAM;;
  recv_line_loop (mret tt) (fun used ch =>
    t ← tr;
    line ← lift (mem_write (server_ident t) used [ch]);
    set_tr (fun t => t <| server_ident := line |>)) out_len.

(** ** Padding bytes *)

Fixpoint rand_bytes (n : nat) : C (list Z) :=
  match n with
  | O => mret []
  | S n => r ← call c_rand; l ← rand_bytes n; mret (Z.land r 255 :: l)
  end.

Definition netnox_ssh_fill_random (len : Z) : C (list Z) :=
  if len =? 0 then mret []
  else
    seeded ← gets prng_seeded;
    (if (seeded : bool) then mret tt
     else call (fun e => (tt, c_srand_time e));;
          modify (fun w => w <| prng_seeded := true |>));;
    rand_bytes (Z.to_nat len).

(** ** Sending a packet *)

(** The transport writes of an encrypted packet: one write of pending NEWKEYS,
    ciphertext and MAC when they fit [combined\[128\]], separate ones otherwise. *)
Definition send_encrypted (enc mac_buf : list Z) : C unit :=
  t ← tr;
  let enc_mac_len := u32 (zlen enc + NETNOX_SSH_MAC_LEN) in
  let total := u32 (zlen (pending_newkeys t) + enc_mac_len) in
  if (total >? 0) && (total <=? 128) then
    set_tr (fun t => t <| pending_newkeys := [] |>);;
    try (netnox_ssh_send_all (pending_newkeys t ++ enc ++ mac_buf))
  else
    (if zlen (pending_newkeys t) >? 0 then
       try (netnox_ssh_send_all (pending_newkeys t));;
       set_tr (fun t => t <| pending_newkeys := [] |>)
     else mret tt);;
    if enc_mac_len <=? 128 then try (netnox_ssh_send_all (enc ++ mac_buf))
    else
      try (netnox_ssh_send_all enc);;
      try (netnox_ssh_send_all mac_buf).

(** The branch of [netnox_ssh_send_packet] after the key exchange. *)
Definition send_sealed (plain_len : Z) (plain : list Z) : C unit :=
  t ← tr;
  mac_buf ← try (lift (netnox_ssh_hmac_sha256 (c2s_mac_key t)
                         (netnox_ssh_write_u32_be (send_seq t) ++ plain)));
  let '(aes_ok, enc) := noxtls_aes_encrypt_ctr (c2s_key t) plain (c2s_counter t) in
  guard_m aes_ok NETNOX_RETURN_FAILED;;
  let n_blocks := u32 (plain_len + NETNOX_SSH_AES_BLOCK_LEN - 1) / NETNOX_SSH_AES_BLOCK_LEN in
  set_tr (fun t => t <| c2s_counter := netnox_ssh_ctr_increment_blocks (c2s_counter t) n_blocks |>);;
  send_encrypted enc mac_buf;;
  set_tr (fun t => t <| send_seq := u32 (send_seq t + 1) |>).

Definition netnox_ssh_send_packet (payload : list Z) : C unit :=
  let payload_len := zlen payload in
  guard_m (negb (payload_len =? 0)) NETNOX_RETURN_BAD_PARAM;;
  t ← tr;
  let block_size := if key_exchange_complete t then NETNOX_SSH_AES_BLOCK_LEN
                    else NETNOX_SSH_PACKET_BLOCK_SIZE in
  padding_len ← lift (pad_loop 16 payload_len NETNOX_SSH_MIN_PADDING_LEN block_size);
  let packet_len := u32 (1 + payload_len + padding_len) in
  let plain_len := u32 (4 + packet_len) in
  guard_m (packet_len <=? NETNOX_SSH_MAX_PACKET_LEN) NETNOX_RETURN_BAD_PARAM;;
  padding ← netnox_ssh_fill_random padding_len;
  let plain := netnox_ssh_write_u32_be packet_len ++ [u8 padding_len] ++ payload ++ padding in
  lift (if zlen plain <=? 4 + NETNOX_SSH_MAX_PACKET_LEN then Ok tt else Oob);;
  if key_exchange_complete t then send_sealed plain_len plain
  else
    netnox_ssh_send_all plain;;
    set_tr (fun t => t <| send_seq := u32 (send_seq t + 1) |>).

(** ** Receiving a packet *)

Definition netnox_ssh_recv_packet (payload_max : Z) : C (list Z) :=
  t ← tr;
  if key_exchange_complete t
  then recv_packet_encrypted netnox_ssh_recv_exact (fun mac mac_buf => bool_decide (mac = mac_buf)) payload_max
  else recv_packet_plain netnox_ssh_recv_exact payload_max.
End code.
