(* ===== verification/ClientPacket.v ===== *)
(** What the client's packet layer does: the bytes [netnox_ssh_send_packet] puts on
    the wire, the packets [netnox_ssh_recv_packet] accepts and what it makes of
    them, and the memory safety of both. *)

From S2P Require Export Client Sample.

(** ** Frames: what a call may change *)

(** Only the transport fields of the context change. *)
Definition only_transport (c c' : netnox_ssh_client_t) : Prop :=
  c' = c <| transport := transport c' |>.

(** Of the transport fields, only those of the sending direction change. *)
Definition send_frame (t t' : ssh_transport_t) : Prop :=
  t' = t <| c2s_counter := c2s_counter t' |> <| send_seq := send_seq t' |>
         <| pending_newkeys := pending_newkeys t' |>.

Definition recv_frame (t t' : ssh_transport_t) : Prop :=
  t' = t <| s2c_counter := s2c_counter t' |> <| recv_seq := recv_seq t' |>.

Lemma only_transport_refl c : only_transport c c.
Proof. by destruct c. Qed.
Lemma only_transport_set c t : only_transport c (c <| transport := t |>).
Proof. by destruct c. Qed.
Lemma only_transport_trans c1 c2 c3 :
  only_transport c1 c2 -> only_transport c2 c3 -> only_transport c1 c3.
Proof. unfold only_transport. intros H1 H2. rewrite H2, H1. by destruct c1. Qed.
Lemma send_frame_refl t : send_frame t t.
Proof. by destruct t. Qed.
Lemma send_frame_trans t1 t2 t3 : send_frame t1 t2 -> send_frame t2 t3 -> send_frame t1 t3.
Proof. unfold send_frame. intros H1 H2. rewrite H2, H1. by destruct t1. Qed.
Lemma recv_frame_refl t : recv_frame t t.
Proof. by destruct t. Qed.
Lemma recv_frame_trans t1 t2 t3 : recv_frame t1 t2 -> recv_frame t2 t3 -> recv_frame t1 t3.
Proof. unfold recv_frame. intros H1 H2. rewrite H2, H1. by destruct t1. Qed.
#[export] Hint Resolve only_transport_refl only_transport_set send_frame_refl recv_frame_refl : noxssh.

(** ** Symbolic execution of the client monad *)

Section wp_client.
Context {E : Type}.
Implicit Types w : world netnox_ssh_client_t E.

Lemma wp_client_ Q w : Q (Ok (ctx w)) w -> wp client_ Q w.
Proof. auto. Qed.
Lemma wp_tr Q w : Q (Ok (transport (ctx w))) w -> wp tr Q w.
Proof. auto. Qed.
Lemma wp_set_client f Q w : Q (Ok tt) (set ctx f w) -> wp (set_client f) Q w.
Proof. auto. Qed.
Lemma wp_set_tr f Q w :
  Q (Ok tt) (w <| ctx := ctx w <| transport := f (transport (ctx w)) |> |>) -> wp (set_tr f) Q w.
Proof. auto. Qed.
End wp_client.

Ltac cw_step :=
  lazymatch goal with
  | |- wp ?m _ _ =>
      lazymatch m with
      | mbind _ _ => apply wp_bind
      | tr => apply wp_tr
      | client_ => apply wp_client_
      | set_tr _ => apply wp_set_tr
      | set_client _ => apply wp_set_client
      | guard_m _ _ => apply wp_guard; intros ?
      | mret _ => apply wp_ret
      | lift _ => apply wp_lift
      | gets _ => apply wp_gets
      | modify _ => apply wp_modify
      | fail _ => apply wp_fail
      | or_return _ _ => apply wp_or_return
      | ignore _ => apply wp_ignore
      | return_code _ => apply wp_return_code
      end
  end; cbn [ok_or orc].
Ltac cw := repeat cw_step.

Section facts.
Context {E : Type} `{HostLaws E} {T : NoxTLS} {L : NoxTLSLaws T}.
Implicit Types w : world netnox_ssh_client_t E.

Lemma live_ret : live (C:=netnox_ssh_client_t) (mret tt) <-> ReliableHost E.
Proof. split; [by intros [? _]|]. intros HR. split; [done|]. intros w. by exists w. Qed.

Lemma send_all_spec data w : is_u32 (zlen data) ->
  wp (netnox_ssh_send_all data) (fun o w' =>
    ctx w' = ctx w /\ inbox (env w') = inbox (env w) /\
    exists k, sent (env w') = sent (env w) ++ ztake k data /\
    match o with
    | Ok _ => k = zlen data
    | Err _ => ReliableHost E -> send_cb_set (ctx w) = false
    | _ => False
    end) w.
Proof.
  intros Hd. unfold netnox_ssh_send_all. cw.
  - eapply wp_mono; [apply (send_loop_spec _ passive_ret data w Hd)|].
    intros o w' (Hc & _ & Hi & k & Hs & Ho). split_and!; [done..|]. exists k.
    split; [done|]. destruct o; try done. destruct Ho as [_ Ho]. by rewrite live_ret in Ho.
  - split_and!; [done..|]. exists 0. by rewrite app_nil_r.
Qed.

Lemma recv_exact_spec room len w : is_u32 len ->
  wp (netnox_ssh_recv_exact room len) (fun o w' =>
    ctx w' = ctx w /\ sent (env w') = sent (env w) /\
    match o with
    | Ok d => zlen d = len /\ zlen d <= Z.max 0 room /\ inbox (env w) = d ++ inbox (env w')
    | Err _ => (ReliableHost E -> recv_cb_set (ctx w) = true ->
                  zlen (inbox (env w)) < len /\ zlen (inbox (env w)) <= Z.max 0 room) /\
               exists d, inbox (env w) = d ++ inbox (env w')
    | Oob => room < len /\ room < zlen (inbox (env w))
    | Diverge => False
    end) w.
Proof.
  intros Hd. unfold netnox_ssh_recv_exact. cw.
  - eapply wp_mono; [apply (recv_loop_spec _ passive_ret room len w Hd)|].
    intros o w' (Hc & _ & Hs & Ho). split_and!; [done..|]. destruct o; try done.
    destruct Ho as (_ & Ho & ?). rewrite live_ret in Ho. auto.
  - split_and!; [done..|congruence|]. by exists [].
Qed.

Lemma rand_bytes_spec n w :
  wp (rand_bytes n) (fun o w' =>
    ctx w' = ctx w /\ sent (env w') = sent (env w) /\ inbox (env w') = inbox (env w) /\
    match o with Ok l => length l = n /\ bytes_ok l | _ => False end) w.
Proof.
  revert w. induction n as [|n IH]; intros w; cbn [rand_bytes].
  { by repeat split; constructor. }
  apply wp_bind, wp_call. intros r e Hr. cbn [ok_or]. apply wp_bind.
  eapply wp_mono; [apply IH|]. intros o w' (Hc & Hs & Hi & Ho).
  pose proof (rand_law (env w)) as [Rs Ri]. rewrite Hr in Rs, Ri. simpl in *.
  destruct o as [l| | |]; try done. cbn [ok_or]. apply wp_ret. destruct Ho as [Hl Hb].
  split_and!; [congruence..|simpl; lia|]. constructor; [|done].
  rewrite land_255. apply u8_range.
Qed.

Lemma fill_random_spec len w : 0 <= len ->
  wp (netnox_ssh_fill_random len) (fun o w' =>
    ctx w' = ctx w /\ sent (env w') = sent (env w) /\ inbox (env w') = inbox (env w) /\
    match o with Ok l => zlen l = len /\ bytes_ok l | _ => False end) w.
Proof.
  intros Hl. unfold netnox_ssh_fill_random. destruct (Z.eqb_spec len 0) as [->|].
  { apply wp_ret. by repeat split; constructor. }
  apply wp_bind, wp_gets. cbn [ok_or]. apply wp_bind.
  assert (Hseed : wp (if prng_seeded w then mret tt
      else (call (fun e => (tt, c_srand_time e)));; modify (fun w => w <| prng_seeded := true |>))
    (fun o w' => o = Ok tt /\ ctx w' = ctx w /\ sent (env w') = sent (env w) /\
                 inbox (env w') = inbox (env w)) w).
  { destruct (prng_seeded w); [by apply wp_ret|].
    apply wp_bind, wp_call. intros a e [= <- <-]. cbn [ok_or]. apply wp_modify.
    pose proof (srand_law (env w)) as [??]. done. }
  eapply wp_mono; [exact Hseed|]. intros o w1 (-> & Hc & Hs & Hi). cbn [ok_or].
  eapply wp_mono; [apply rand_bytes_spec|]. intros o w2 (Hc2 & Hs2 & Hi2 & Ho).
  split_and!; [congruence..|]. destruct o; try done. destruct Ho. split; [lia|done].
Qed.

(** ** Sending *)

Lemma set_pending_nil t : pending_newkeys t = [] -> t <| pending_newkeys := [] |> = t.
Proof. destruct t; simpl. by intros ->. Qed.

(** Two writes one after the other. *)
Lemma send_two_spec a b w : is_u32 (zlen a) -> is_u32 (zlen b) ->
  wp (try (netnox_ssh_send_all a);; try (netnox_ssh_send_all b)) (fun o w' =>
    ctx w' = ctx w /\ inbox (env w') = inbox (env w) /\
    match o with
    | Ok _ => sent (env w') = sent (env w) ++ a ++ b
    | Err _ => ReliableHost E -> send_cb_set (ctx w) = false
    | _ => False
    end) w.
Proof.
  intros Ha Hb. cw. eapply wp_mono; [by apply send_all_spec|].
  intros o w1 (Hc & Hi & k & Hs & Ho). destruct o as [[]|rc| |]; try done.
  subst k. rewrite ztake_all in Hs by lia. cbn [ok_or orc]. cw.
  eapply wp_mono; [by apply send_all_spec|].
  intros o w2 (Hc2 & Hi2 & k & Hs2 & Ho). split_and!; [congruence..|].
  destruct o as [[]|rc| |]; cbn [orc]; try done.
  - subst k. rewrite ztake_all in Hs2 by lia. by rewrite Hs2, Hs, app_assoc.
  - by rewrite <- Hc.
Qed.

(** A NEWKEYS packet that was held back goes out first. *)
Lemma send_pending_spec w : zlen (pending_newkeys (transport (ctx w))) <= 32 ->
  let t := transport (ctx w) in
  wp (if zlen (pending_newkeys t) >? 0 then
        try (netnox_ssh_send_all (pending_newkeys t));; set_tr (fun t => t <| pending_newkeys := [] |>)
      else mret tt) (fun o w' =>
    only_transport (ctx w) (ctx w') /\ inbox (env w') = inbox (env w) /\
    (transport (ctx w') = t \/ transport (ctx w') = t <| pending_newkeys := [] |>) /\
    match o with
    | Ok _ => sent (env w') = sent (env w) ++ pending_newkeys t /\
              transport (ctx w') = t <| pending_newkeys := [] |>
    | Err _ => ReliableHost E -> send_cb_set (ctx w) = false
    | _ => False
    end) w.
Proof.
  intros Hp t. rewrite Z.gtb_ltb. destruct (Z.ltb_spec 0 (zlen (pending_newkeys t))).
  - cw. eapply wp_mono; [apply send_all_spec; fold t in Hp; ulia|].
    intros o w1 (Hc & Hi & k & Hs & Ho). destruct o as [[]|rc| |]; cbn [orc ok_or]; try done.
    + cw. simpl. subst k. rewrite ztake_all in Hs by lia. rewrite Hc.
      split_and!; auto with noxssh.
    + rewrite Hc. split_and!; auto with noxssh.
  - cw. destruct (pending_newkeys t) eqn:Ep; [|simpl in *; lia].
    rewrite set_pending_nil, app_nil_r by done. split_and!; auto with noxssh.
Qed.

(** The packet and its MAC go out in one write or in two. *)
Lemma send_enc_mac_spec enc mac w : zlen enc < 2 ^ 30 -> zlen mac = 32 ->
  wp (if zlen enc + NETNOX_SSH_MAC_LEN <=? 128 then try (netnox_ssh_send_all (enc ++ mac))
      else try (netnox_ssh_send_all enc);; try (netnox_ssh_send_all mac)) (fun o w' =>
    ctx w' = ctx w /\ inbox (env w') = inbox (env w) /\
    match o with
    | Ok _ => sent (env w') = sent (env w) ++ enc ++ mac
    | Err _ => ReliableHost E -> send_cb_set (ctx w) = false
    | _ => False
    end) w.
Proof.
  intros He Hm. case_match; [|apply send_two_spec; ulia].
  cw. eapply wp_mono; [apply send_all_spec; len|].
  intros o w2 (Hc & Hi2 & k & Hs2 & Ho2). split_and!; [done..|].
  destruct o as [[]|rc| |]; cbn [orc]; try done. subst k. by rewrite ztake_all in Hs2 by lia.
Qed.

Lemma send_encrypted_spec enc mac w :
  zlen enc < 2 ^ 30 -> zlen mac = 32 -> zlen (pending_newkeys (transport (ctx w))) <= 32 ->
  wp (send_encrypted enc mac) (fun o w' =>
    only_transport (ctx w) (ctx w') /\ inbox (env w') = inbox (env w) /\
    (transport (ctx w') = transport (ctx w) \/
     transport (ctx w') = transport (ctx w) <| pending_newkeys := [] |>) /\
    match o with
    | Ok _ => sent (env w') = sent (env w) ++ pending_newkeys (transport (ctx w)) ++ enc ++ mac /\
              transport (ctx w') = transport (ctx w) <| pending_newkeys := [] |>
    | Err _ => ReliableHost E -> send_cb_set (ctx w) = false
    | _ => False
    end) w.
Proof.
  intros He Hm Hp. unfold send_encrypted. cw.
  rewrite !(u32_small (zlen enc + _)), u32_small by (unfold NETNOX_SSH_MAC_LEN; ulia).
  set (t := transport (ctx w)) in *. case_match.
  - cw. eapply wp_mono; [apply send_all_spec; len|]. simpl.
    intros o w1 (Hc & Hi & k & Hs & Ho). rewrite Hc. split_and!; [done..|by right|].
    destruct o as [[]|rc| |]; cbn [orc]; try done. subst k. rewrite ztake_all in Hs by lia.
    split; [done|done].
  - apply wp_bind. eapply wp_mono; [by apply send_pending_spec|]. fold t.
    intros o w1 (Hot & Hi & Ht & Ho). destruct o as [[]|rc| |]; cbn [ok_or]; try done.
    destruct Ho as [Hs Htr].
    assert (Hcb : send_cb_set (ctx w1) = send_cb_set (ctx w)) by (rewrite Hot; by destruct (ctx w)).
    eapply wp_mono; [by apply send_enc_mac_spec|]. intros o w2 (Hc & Hi2 & Ho2). rewrite Hc.
    split_and!; [done|congruence|done|]. destruct o; try done.
    + split; [|done]. by rewrite Ho2, Hs, <- app_assoc.
    + by rewrite Hcb in Ho2.
Qed.

(** What a send leaves behind: the receiving half and the session are untouched. *)
Definition sends (w w' : world netnox_ssh_client_t E) : Prop :=
  only_transport (ctx w) (ctx w') /\ send_frame (transport (ctx w)) (transport (ctx w')) /\
  inbox (env w') = inbox (env w) /\
  zlen (pending_newkeys (transport (ctx w'))) <= 32 /\
  direction_wf (client_to_server (transport (ctx w'))).

Definition can_send (w : world netnox_ssh_client_t E) : Prop :=
  direction_wf (client_to_server (transport (ctx w))) /\
  zlen (pending_newkeys (transport (ctx w))) <= 32.

(** What a successful send puts on the wire, and how it advances its direction. *)
Definition sent_packet (w w' : world netnox_ssh_client_t E) (pkt : list Z) : Prop :=
  let t := transport (ctx w) in
  sent (env w') = sent (env w) ++ (if key_exchange_complete t then pending_newkeys t else [])
                  ++ wire (client_to_server t) pkt /\
  client_to_server (transport (ctx w')) = advance (client_to_server t) pkt.

Lemma send_sealed_spec payload padding w :
  let pkt := packet payload padding in
  can_send w -> key_exchange_complete (transport (ctx w)) = true -> packet_ok payload padding ->
  wp (send_sealed (zlen pkt) pkt) (fun o w' => sends w w' /\
    match o with
    | Ok _ => sent_packet w w' pkt
    | Err _ => ReliableHost E -> send_cb_set (ctx w) = false
    | _ => False
    end) w.
Proof.
  intros pkt [(Hk & Hctr & Hctrb) Hpend] Ekex Hok. set (t := transport (ctx w)) in *. simpl in Hk, Hctr, Hctrb.
  assert (Hl : zlen pkt < 2 ^ 30) by (unfold pkt; rewrite packet_length; destruct Hok; unfold NETNOX_SSH_MAX_PACKET_LEN in *; lia).
  unfold send_sealed. cw. fold t. rewrite hmac_ok. cbn [orc ok_or]. cw.
  rewrite aes_ctr_law by done. cw; [|done].
  pose proof (blocks_of_le (length pkt)). rewrite ceil_blocks, ctr_increment_spec by (done || lia).
  eapply wp_mono; [apply send_encrypted_spec; simpl; rewrite ?aes_ctr_length; [done|by rewrite hmac_spec_length|done]|].
  intros o w2 (Hot & Hi2 & Ht2 & Ho2). simpl in Hot, Hi2, Ht2, Ho2.
  assert (Hw2 : sends w w2).
  { unfold sends. destruct Ht2 as [-> | ->]; simpl; split_and!; try done; try congruence; try lia;
      try (rewrite Hot; by destruct (ctx w)); try (by destruct t);
      split_and!; simpl; auto with noxssh. }
  destruct o as [[]|rc| |]; cbn [ok_or]; try done. destruct Ho2 as [Hs2 Htr]. cw. simpl. split.
  - destruct Hw2 as (F1 & F2 & F3 & F4 & F5). unfold sends. simpl. split_and!; try done; try congruence.
    + rewrite F1. by destruct (ctx w).
    + rewrite F2. by destruct (transport (ctx w)).
  - unfold sent_packet. fold t. rewrite Htr. unfold wire, advance, next_counter, client_to_server.
    split; simpl; fold t; rewrite !Ekex; [rewrite Hs2|]; reflexivity.
Qed.

Lemma send_clear_spec payload padding w :
  let pkt := packet payload padding in
  can_send w -> key_exchange_complete (transport (ctx w)) = false -> packet_ok payload padding ->
  wp (netnox_ssh_send_all pkt;; set_tr (fun t => t <| send_seq := u32 (send_seq t + 1) |>)) (fun o w' =>
    sends w w' /\
    match o with
    | Ok _ => sent_packet w w' pkt
    | Err _ => ReliableHost E -> send_cb_set (ctx w) = false
    | _ => False
    end) w.
Proof.
  intros pkt [Hwf Hpend] Ekex Hok. set (t := transport (ctx w)) in *.
  assert (Hl : is_u32 (zlen pkt)) by (unfold pkt; rewrite packet_length; destruct Hok; unfold NETNOX_SSH_MAX_PACKET_LEN in *; ulia).
  cw. eapply wp_mono; [by apply send_all_spec|]. intros o w2 (Hc2 & Hi2 & k & Hs2 & Ho2).
  assert (Hw2 : sends w w2) by (unfold sends; rewrite Hc2, Hi2; by split_and!; auto with noxssh).
  destruct o as [[]|rc| |]; cbn [ok_or]; try done.
  cw. subst k. rewrite ztake_all in Hs2 by lia. simpl. rewrite Hc2. fold t. split.
  - unfold sends. simpl. rewrite Hi2. fold t. by split_and!.
  - unfold sent_packet. simpl. fold t. unfold wire, advance, next_counter, client_to_server.
    split; simpl; rewrite Ekex; [by rewrite Hs2|done].
Qed.

Lemma send_packet_spec payload w :
  can_send w -> zlen payload < 2 ^ 30 ->
  wp (netnox_ssh_send_packet payload) (fun o w' =>
    sends w w' /\
    match o with
    | Ok _ => exists padding, packet_ok payload padding /\ bytes_ok padding /\
        zlen (packet payload padding) mod (if key_exchange_complete (transport (ctx w)) then 16 else 8) = 0 /\
        sent_packet w w' (packet payload padding)
    | Err _ => ReliableHost E -> send_cb_set (ctx w) = true -> payload = [] \/ 34979 < zlen payload
    | _ => False
    end) w.
Proof.
  intros Hcan Hlen. assert (Hrefl : sends w w) by (destruct Hcan; by split_and!; auto with noxssh).
  unfold netnox_ssh_send_packet. cw.
  2:{ split; [done|]. intros _ _. left. destruct payload; [done|]. simpl in *. lia. }
  set (t := transport (ctx w)) in *.
  set (block := if key_exchange_complete t then NETNOX_SSH_AES_BLOCK_LEN else _).
  assert (Hblock : block = 8 \/ block = 16) by (unfold block; case_match; auto).
  rewrite pad_loop_16 by (done || lia). cbn [ok_or].
  pose proof (padding_length_spec (zlen payload) block Hblock) as [Hp _]. cw.
  2:{ split; [done|]. intros _ _. right. rewrite u32_small in * by ulia. unfold NETNOX_SSH_MAX_PACKET_LEN in *. lia. }
  rewrite u32_small in * by ulia.
  eapply wp_mono; [apply fill_random_spec; lia|].
  intros o w1 (Hc & Hs & Hi & Ho). destruct o as [padding| | |]; try done. destruct Ho as [Hl Hb].
  destruct (framed payload padding block Hblock Hl) as (Hok & Hmod & Hpkt & Hpl & Hmax); [lia|].
  cbn [ok_or]. rewrite (u32_small (1 + _ + _)) by (unfold NETNOX_SSH_MAX_PACKET_LEN in *; ulia).
  rewrite Hpkt. cw. destruct (Z.leb_spec (zlen (packet payload padding)) (4 + NETNOX_SSH_MAX_PACKET_LEN)) as [_|?]; [|lia].
  cbn [ok_or]. unfold NETNOX_SSH_MAX_PACKET_LEN in Hmax. rewrite u32_small by ulia. rewrite <- Hpl.
  assert (Hcan1 : can_send w1) by (unfold can_send in *; by rewrite Hc).
  replace block with (if key_exchange_complete t then 16 else 8) in Hmod by (unfold block; by case_match).
  eapply wp_mono with (P := fun o w' => sends w1 w' /\ match o with
    | Ok _ => sent_packet w1 w' (packet payload padding)
    | Err _ => ReliableHost E -> send_cb_set (ctx w1) = false | _ => False end).
  - unfold t in *. rewrite <- Hc. destruct (key_exchange_complete (transport (ctx w1))) eqn:Ekex;
      [by apply send_sealed_spec|by apply send_clear_spec].
  - unfold sends, sent_packet. rewrite Hc, Hi, Hs. fold t. intros o w2 [Hw2 Ho2]. split; [done|].
    destruct o; try done; [by exists padding|]. intros HR Hcb. by rewrite Ho2 in Hcb by done.
Qed.

End facts.

(** *** Error codes *)

(** An error is never reported with the code of success. *)
Definition coded {S A} (m : M S A) : Prop := forall s, (m s).1 <> Err NETNOX_RETURN_SUCCESS.

Lemma coded_bind {S A B} (m : M S A) (k : A -> M S B) : coded m -> (forall a, coded (k a)) -> coded (m ≫= k).
Proof.
  intros Hm Hk s. specialize (Hm s). unfold mbind, M_bind. destruct (m s) as [[a|rc| |] s']; try done; [apply Hk|].
  simpl in *. congruence.
Qed.
Lemma coded_lift {S A} (o : outcome A) : o <> Err NETNOX_RETURN_SUCCESS -> coded (S:=S) (lift o).
Proof. by intros Ho s. Qed.
Lemma coded_guard {S} b rc : rc <> NETNOX_RETURN_SUCCESS -> coded (S:=S) (guard_m b rc).
Proof. intros Hrc s. destruct b; simpl; congruence. Qed.
Lemma coded_or_return {S A} (m : M S A) rc : rc <> NETNOX_RETURN_SUCCESS -> coded (or_return m rc).
Proof. intros Hrc s. unfold or_return. destruct (m s) as [[] ?]; simpl; congruence. Qed.
Lemma coded_call {C E A} (f : E -> A * E) : coded (call (C:=C) f).
Proof. intros w. unfold call. by destruct (f (env w)). Qed.
Lemma coded_loop {S A B} fuel (body : A -> M S (A + B)) a : (forall a, coded (body a)) -> coded (loop fuel body a).
Proof.
  intros Hb. assert (Hp : forall p a, coded (loop_pos p body a)).
  { induction p as [q IH|q IH|]; intros a'; simpl; [| |apply Hb];
      repeat (apply coded_bind; [auto|]; intros [?|?]); auto; by intros s. }
  apply coded_bind; [apply Hp|]. intros [?|?]; by intros s.
Qed.

Ltac coded_step :=
  cbv zeta;
  lazymatch goal with
  | |- coded (_ ≫= _) => apply coded_bind; [|intros ?]
  | |- coded (or_return _ _) => by apply coded_or_return
  | |- coded (guard_m _ _) => by apply coded_guard
  | |- coded (call _) => apply coded_call
  | |- coded (loop _ _ _) => apply coded_loop; intros ?
  | |- coded (match ?x with _ => _ end) => destruct x
  | |- coded _ => by intros ?
  end.

Lemma pad_loop_coded fuel n p b : pad_loop fuel n p b <> Err NETNOX_RETURN_SUCCESS.
Proof. revert p. induction fuel as [|fuel IH]; intros p; cbn [pad_loop]; case_match; done || apply IH. Qed.
Lemma rand_bytes_coded {E} `{Host E} n : coded (rand_bytes (E:=E) n).
Proof. induction n as [|n IH]; cbn [rand_bytes]; repeat (apply IH || coded_step). Qed.
Lemma send_packet_coded {E} `{Host E} `{NoxTLS} payload : coded (netnox_ssh_send_packet (E:=E) payload).
Proof.
  unfold netnox_ssh_send_packet, netnox_ssh_fill_random, send_sealed, send_encrypted, netnox_ssh_send_all, send_loop,
    tr, set_tr, client_, set_client.
  repeat first [apply rand_bytes_coded|apply coded_lift, pad_loop_coded|coded_step|apply coded_lift; by case_match].
Qed.

(** ** Receiving *)

Section recv.
Context {E : Type} `{HostLaws E} {T : NoxTLS} {L : NoxTLSLaws T}.
Implicit Types w : world netnox_ssh_client_t E.

(** What a receive leaves behind: the sending half and the session are untouched. *)
Definition recvs w w' : Prop :=
  only_transport (ctx w) (ctx w') /\ recv_frame (transport (ctx w)) (transport (ctx w')) /\
  sent (env w') = sent (env w) /\ direction_wf (server_to_client (transport (ctx w'))).

Definition can_recv w : Prop := direction_wf (server_to_client (transport (ctx w))).

(** [p] was taken from the front of the inbox as one well-formed, authenticated packet. *)
Definition accepted (max : Z) w w' (p : list Z) : Prop :=
  let d := server_to_client (transport (ctx w)) in
  exists padding, packet_ok p padding /\ bytes_ok p /\ zlen p <= max /\
    (d_encrypted d = true -> 16 <= zlen (packet p padding)) /\
    inbox (env w) = wire d (packet p padding) ++ inbox (env w') /\
    server_to_client (transport (ctx w')) = advance d (packet p padding).

(** The first block announces a packet shorter than a cipher block. *)
Definition short_packet w : Prop :=
  let t := transport (ctx w) in
  key_exchange_complete t = true /\
  let first := ctr_mode (aes_block (s2c_key t)) (s2c_counter t) (ztake 16 (inbox (env w))) in
  16 <= zlen (inbox (env w)) /\ 5 <= be_value (ztake 4 first) < 12.

Lemma recvs_refl w : can_recv w -> recvs w w.
Proof. intros. by split_and!; auto with noxssh. Qed.

Lemma recvs_of w w' : can_recv w -> ctx w' = ctx w -> sent (env w') = sent (env w) -> recvs w w'.
Proof. intros Hr Hc Hs. unfold recvs. rewrite Hc. by split_and!; auto with noxssh. Qed.

#[local] Instance client_receiver_laws : ReceiverLaws netnox_ssh_client_t.
Proof.
  refine {| r_frame := fun c c' => only_transport c c' /\ recv_frame (transport c) (transport c') |}.
  - auto with noxssh.
  - intros c1 c2 c3 [? ?] [? ?]. split; [by eapply only_transport_trans|by eapply recv_frame_trans].
  - intros k c. split; [apply only_transport_set|by destruct c as [? ? []]].
  - intros c. split; [apply only_transport_set|by destruct c as [? ? []]].
  - intros n c. split; auto with noxssh.
  - done.
  - done.
  - done.
Defined.

(** Nothing but a lack of bytes makes [netnox_ssh_recv_exact] fail. *)
Definition client_ready (c : netnox_ssh_client_t) : Prop := ReliableHost E /\ recv_cb_set c = true.

Lemma client_ready_set k c : client_ready c -> client_ready (set_r_counter k c).
Proof. done. Qed.

Lemma client_recv_exact room len w : is_u32 len ->
  wp (netnox_ssh_recv_exact room len) (fun o w' =>
    ctx w' = ctx w /\ sent (env w') = sent (env w) /\
    match o with
    | Ok d => zlen d = len /\ zlen d <= Z.max 0 room /\ inbox (env w) = d ++ inbox (env w')
    | Err _ => (client_ready (ctx w) ->
                  zlen (inbox (env w)) < len /\ zlen (inbox (env w)) <= Z.max 0 room) /\
               exists d, inbox (env w) = d ++ inbox (env w')
    | Oob => room < len /\ room < zlen (inbox (env w))
    | Diverge => False
    end) w.
Proof.
  intros Hl. eapply wp_mono; [by apply recv_exact_spec|]. intros o w' (? & ? & Ho).
  split_and!; [done..|]. destruct o; try done. destruct Ho as [Ho ?].
  split; [|done]. intros [? ?]. by apply Ho.
Qed.

Lemma client_same_mac (a b : list Z) : length a = 32%nat -> length b = 32%nat ->
  bytes_ok a -> bytes_ok b -> bool_decide (a = b) = bool_decide (a = b).
Proof. done. Qed.

Lemma recv_packet_sound max w : can_recv w ->
  wp (netnox_ssh_recv_packet max) (fun o w' => recvs w w' /\
    match o with
    | Ok p => accepted max w w' p
    | Err _ => True
    | Oob => short_packet w
    | Diverge => False
    end) w.
Proof.
  intros Hcan. unfold netnox_ssh_recv_packet. cw.
  destruct (key_exchange_complete _) eqn:Hkex; eapply wp_mono.
  - by apply (recv_encrypted_sound _ _ client_ready client_recv_exact client_same_mac).
  - intros o w' [([? ?] & ? & ?) Ho]. split; [by split_and!|]. by destruct o.
  - by apply (recv_plain_sound _ client_ready client_recv_exact).
  - intros o w' [([? ?] & ? & ?) Ho]. split; [by split_and!|]. by destruct o.
Qed.

Lemma recv_packet_complete max p padding rest w :
  let d := server_to_client (transport (ctx w)) in
  can_recv w -> ReliableHost E -> recv_cb_set (ctx w) = true ->
  packet_ok p padding -> zlen p <= max ->
  (d_encrypted d = true -> 16 <= zlen (packet p padding)) ->
  inbox (env w) = wire d (packet p padding) ++ rest ->
  wp (netnox_ssh_recv_packet max) (fun o w' => o = Ok p /\ inbox (env w') = rest) w.
Proof.
  intros d Hcan HR Hcb Hok Hmax H16 Hin. unfold netnox_ssh_recv_packet. cw.
  destruct (key_exchange_complete _) eqn:Hkex.
  - eapply (recv_encrypted_complete _ _ client_ready client_ready_set client_recv_exact client_same_mac);
      try done. by apply H16.
  - eapply (recv_plain_complete _ client_ready client_recv_exact); try done.
    unfold wire, d in Hin. simpl in Hin. by rewrite Hkex in Hin.
Qed.

Lemma recv_packet_overflows max w :
  can_recv w -> ReliableHost E -> recv_cb_set (ctx w) = true -> short_packet w ->
  16 + (4 + NETNOX_SSH_MAX_PACKET_LEN - 16) < zlen (inbox (env w)) ->
  wp (netnox_ssh_recv_packet max) (fun o _ => o = Oob) w.
Proof.
  intros Hcan HR Hcb Hshort Hlong. unfold netnox_ssh_recv_packet. cw. rewrite (proj1 Hshort).
  by apply (recv_short_overflows _ _ client_ready client_ready_set client_recv_exact).
Qed.

Lemma recv_packet_shrinking max : shrinking (netnox_ssh_recv_packet max).
Proof.
  intros w. unfold netnox_ssh_recv_packet. cw. case_match.
  - by apply (recv_packet_encrypted_shrinking _ _ client_ready client_recv_exact).
  - by apply (recv_packet_plain_shrinking _ client_ready client_recv_exact).
Qed.
End recv.

(** ** Properties *)

(** C12: [netnox_ssh_send_packet] never leaves its buffers and always returns. When it
    succeeds, exactly one RFC 4253 packet of its payload went out, after any pending
    NEWKEYS bytes: padded with 4 to 255 bytes to a multiple of the block size, in the
    clear before NEWKEYS and as AES-CTR ciphertext followed by the HMAC of sequence
    number and plaintext after it; the sending direction advanced by that packet
    (sequence number, counter) and nothing else of the context changed. Over a
    transport that does not fail every payload of 1 to 34979 bytes is sent. *)
Theorem send_packet_wire E (H : Host E) (HL : HostLaws E) (T : NoxTLS) (L : NoxTLSLaws T)
    payload (w w' : world netnox_ssh_client_t E) o :
  can_send w -> zlen payload < 2 ^ 30 -> netnox_ssh_send_packet payload w = (o, w') ->
  sends w w' /\ o <> Oob /\ o <> Diverge /\
  (o = Ok tt ->
     let t := transport (ctx w) in
     exists padding, packet_ok payload padding /\
       zlen (packet payload padding) mod (if key_exchange_complete t then 16 else 8) = 0 /\
       sent (env w') = sent (env w) ++ (if key_exchange_complete t then pending_newkeys t else [])
                       ++ wire (client_to_server t) (packet payload padding) /\
       client_to_server (transport (ctx w')) =
         advance (client_to_server t) (packet payload padding)) /\
  (ReliableHost E -> send_cb_set (ctx w) = true -> 0 < zlen payload <= 34979 -> o = Ok tt).
Proof.
  intros Hcan Hlen Hrun. pose proof (wp_run _ _ _ _ _ (send_packet_spec payload w Hcan Hlen) Hrun)
    as [Hs Ho]. split; [done|]. destruct o as [[]|rc| |]; try done; split_and!; try done.
  - intros _. destruct Ho as (padding & ? & _ & ?). by exists padding.
  - intros HR Hcb Hp. destruct (Ho HR Hcb) as [-> | ?]; simpl in *; lia.
Qed.

(** C11: whatever [netnox_ssh_recv_packet] returns was taken from the front of what the
    peer sent as one well-formed packet with that payload: after NEWKEYS only if the
    packet decrypts under the receiving key and counter and its MAC is the HMAC of
    the receive sequence number and the plaintext. The receiving direction advances
    by exactly that packet, nothing was sent, and nothing else of the context changed. *)
Theorem recv_packet_authentic E (H : Host E) (HL : HostLaws E) (T : NoxTLS) (L : NoxTLSLaws T)
    max (w w' : world netnox_ssh_client_t E) p :
  can_recv w -> netnox_ssh_recv_packet max w = (Ok p, w') -> recvs w w' /\ accepted max w w' p.
Proof. intros Hcan Hrun. by apply (wp_run _ _ _ _ _ (recv_packet_sound max w Hcan) Hrun). Qed.

(** C13: every well-formed packet the peer sends (of at least one cipher block when
    encrypted, as the RFC requires) whose payload fits the caller's buffer is
    received: [netnox_ssh_recv_packet] returns its payload and consumes its bytes. *)
Theorem recv_packet_accepts E (H : Host E) (HL : HostLaws E) (T : NoxTLS) (L : NoxTLSLaws T)
    max p padding rest (w : world netnox_ssh_client_t E) :
  let d := server_to_client (transport (ctx w)) in
  can_recv w -> ReliableHost E -> recv_cb_set (ctx w) = true ->
  packet_ok p padding -> zlen p <= max ->
  (d_encrypted d = true -> 16 <= zlen (packet p padding)) ->
  inbox (env w) = wire d (packet p padding) ++ rest ->
  exists w', netnox_ssh_recv_packet max w = (Ok p, w') /\ inbox (env w') = rest.
Proof.
  intros d Hcan HR Hcb Hok Hmax H16 Hin.
  pose proof (recv_packet_complete max p padding rest w Hcan HR Hcb Hok Hmax H16 Hin) as Hwp.
  unfold wp in Hwp. destruct (netnox_ssh_recv_packet max w) as [o w'].
  destruct Hwp as [-> Hr]. by exists w'.
Qed.

(** C34: [netnox_ssh_recv_packet] returns after finitely many callbacks and stays inside
    its buffers for every byte stream, except one: an encrypted packet whose
    length field is between 5 and 11. *)
Theorem recv_packet_in_bounds E (H : Host E) (HL : HostLaws E) (T : NoxTLS) (L : NoxTLSLaws T)
    max (w w' : world netnox_ssh_client_t E) o :
  can_recv w -> netnox_ssh_recv_packet max w = (o, w') ->
  o <> Diverge /\ (o = Oob -> short_packet w).
Proof.
  intros Hcan Hrun. pose proof (wp_run _ _ _ _ _ (recv_packet_sound max w Hcan) Hrun) as [_ Ho].
  by destruct o.
Qed.

(** C35: in that excepted case the length of the remaining read wraps around below zero
    and the read overruns the stack buffer, before any MAC is checked, as soon as
    the peer sends more bytes than the buffer holds. *)
Theorem recv_packet_short_overflow E (H : Host E) (HL : HostLaws E) (T : NoxTLS) (L : NoxTLSLaws T)
    max (w : world netnox_ssh_client_t E) :
  can_recv w -> ReliableHost E -> recv_cb_set (ctx w) = true -> short_packet w ->
  16 + (4 + NETNOX_SSH_MAX_PACKET_LEN - 16) < zlen (inbox (env w)) ->
  exists w', netnox_ssh_recv_packet max w = (Oob, w').
Proof.
  intros Hcan HR Hcb Hshort Hlong.
  pose proof (recv_packet_overflows max w Hcan HR Hcb Hshort Hlong) as Hwp. unfold wp in Hwp.
  destruct (netnox_ssh_recv_packet max w) as [o w']. simpl in Hwp. subst. by exists w'.
Qed.

(** ** Witnesses *)

Import SampleInstances.

Definition sample_client (kex : bool) : netnox_ssh_client_t :=
  client_zero <| send_cb_set := true |> <| recv_cb_set := true |>
    <| transport := sample_transport <| key_exchange_complete := kex |> <| recv_seq := 3 |> |>.

Definition sample_world (kex : bool) (bytes : list Z) : world netnox_ssh_client_t sample_env :=
  mkWorld (sample_client kex) (mkSample bytes [] 0) true.

Lemma sample_can_send kex bytes : can_send (sample_world kex bytes).
Proof.
  split; [|by vm_compute]. split; [reflexivity|]. split; [reflexivity|apply (bytes_ok_zeros 16)].
Qed.

Lemma sample_can_recv kex bytes : can_recv (sample_world kex bytes).
Proof. split; [reflexivity|]. split; [reflexivity|apply (bytes_ok_zeros 16)]. Qed.

(** An encrypted packet with payload [90; 1], as the peer of [sample_client] sends it. *)
Definition sample_padding : list Z := replicate 9 4.
Definition sample_wire : list Z :=
  wire (server_to_client (transport (sample_client true))) (packet [90; 1] sample_padding).

Lemma send_packet_wire_witness :
  (netnox_ssh_send_packet [5; 6; 7] (sample_world true [])).1 = Ok tt.
Proof.
  destruct (send_packet_wire sample_env sample_host sample_host_laws sample_noxtls sample_laws [5; 6; 7]
    (sample_world true []) _ _ (sample_can_send true []) ltac:(simpl; lia) (surjective_pairing _))
    as (_ & _ & _ & _ & Hok).
  apply Hok; [apply sample_reliable|reflexivity|simpl; lia].
Defined.

Lemma recv_packet_authentic_witness :
  recvs (sample_world true sample_wire) (netnox_ssh_recv_packet 100 (sample_world true sample_wire)).2 /\
  accepted 100 (sample_world true sample_wire)
    (netnox_ssh_recv_packet 100 (sample_world true sample_wire)).2 [90; 1].
Proof.
  apply (recv_packet_authentic sample_env sample_host sample_host_laws sample_noxtls sample_laws).
  - apply sample_can_recv.
  - vm_compute. reflexivity.
Defined.

Lemma recv_packet_accepts_witness :
  exists w', netnox_ssh_recv_packet 100 (sample_world true sample_wire) = (Ok [90; 1], w') /\
             inbox (env w') = [].
Proof.
  apply (recv_packet_accepts sample_env sample_host sample_host_laws sample_noxtls sample_laws
           100 [90; 1] sample_padding [] (sample_world true sample_wire)).
  - apply sample_can_recv.
  - apply sample_reliable.
  - reflexivity.
  - split; vm_compute; [split; [discriminate|reflexivity]|discriminate].
  - vm_compute. discriminate.
  - intros _. vm_compute. discriminate.
  - vm_compute. reflexivity.
Defined.

Lemma recv_packet_in_bounds_witness :
  (netnox_ssh_recv_packet 100 (sample_world false [0; 0; 0; 1; 9])).1 <> Diverge /\
  ((netnox_ssh_recv_packet 100 (sample_world false [0; 0; 0; 1; 9])).1 = Oob ->
   short_packet (sample_world false [0; 0; 0; 1; 9])).
Proof.
  apply (recv_packet_in_bounds sample_env sample_host sample_host_laws sample_noxtls sample_laws 100
    (sample_world false [0; 0; 0; 1; 9]) _ _ (sample_can_recv _ _) (surjective_pairing _)).
Defined.

(** The ciphertext of a block whose length field is 5, and enough bytes behind it. *)
Definition sample_short : list Z :=
  let t := transport (sample_client true) in
  ctr_mode (sample_block (s2c_key t)) (s2c_counter t) ([0; 0; 0; 5] ++ zeros 12).

Lemma recv_packet_short_overflow_witness :
  exists w', netnox_ssh_recv_packet 100 (sample_world true (sample_short ++ zeros 35000)) = (Oob, w').
Proof.
  apply (recv_packet_short_overflow sample_env sample_host sample_host_laws sample_noxtls sample_laws
           100 (sample_world true (sample_short ++ zeros 35000))).
  - apply sample_can_recv.
  - apply sample_reliable.
  - reflexivity.
  - split; [reflexivity|]. split; vm_compute; [discriminate|split; [discriminate|reflexivity]].
  - vm_compute. reflexivity.
Defined.
