(* ===== verification/ClientKex.v ===== *)
(** The client's key exchange (common/noxssh_common.c): verification of the host key
    signature, KEXINIT exchange, curve25519 key exchange, and the message loop
    [netnox_ssh_wait_for_message], which re-enters the key exchange when the server
    starts a new one. *)

From S2P Require Export Fields ClientPacket.

(** ** Constants *)

Definition NETNOX_SSH_MAX_HOST_KEY_BLOB_LEN : Z := 2048.
Definition alg_ed25519 : list Z := bs "ssh-ed25519".
Definition alg_ssh_rsa : list Z := bs "ssh-rsa".
Definition alg_rsa_sha2_256 : list Z := bs "rsa-sha2-256".
Definition NOXTLS_ED25519_PUBLIC_KEY_SIZE : Z := 32.
Definition NOXTLS_ED25519_SIGNATURE_SIZE : Z := 64.

(** ** Host key signatures *)

(** [while(n_trim < hk_n_len && hk_n\[n_trim\] == 0) n_trim++;] *)
Fixpoint trim_zeros (mem : list Z) (len : Z) : outcome view :=
  if 0 <? len then
    match mem with
    | [] => Oob
    | b :: mem' => if b =? 0 then trim_zeros mem' (len - 1) else Ok (mkView mem len)
    end
  else Ok (mkView mem len).

Definition rsa_size_of (n_len : Z) : outcome rsa_key_size_t :=
  if n_len <=? 128 then Ok RSA_1024_BIT
  else if n_len <=? 256 then Ok RSA_2048_BIT
  else if n_len <=? 384 then Ok RSA_3072_BIT
  else if n_len <=? 512 then Ok RSA_4096_BIT
  else Err NETNOX_RETURN_FAILED.

(** [memcpy(&dst\[size - len\], src, len)] for [len <= size]. *)
Definition right_aligned (dst : list Z) (size : Z) (src : list Z) : list Z :=
  ztake (size - zlen src) dst ++ src.

Section verify.
Context `{NoxTLS}.

Definition verify_ed25519 (host_key_blob : view) (hk_off : Z) (sig_data : view) (exchange_hash : list Z)
    : outcome unit :=
  '(hk_e, _) ← view_field host_key_blob hk_off;
  _ ← check ((v_len hk_e =? NOXTLS_ED25519_PUBLIC_KEY_SIZE) &&
             (v_len sig_data =? NOXTLS_ED25519_SIGNATURE_SIZE)) NETNOX_RETURN_FAILED;
  pk ← view_bytes hk_e;
  signature ← view_bytes sig_data;
  check (noxtls_ed25519_verify pk exchange_hash signature) NETNOX_RETURN_FAILED.

Definition verify_rsa (host_key_blob : view) (hk_off : Z) (sig_alg sig_data : view)
    (exchange_hash : list Z) : outcome unit :=
  '(hk_e, hk_off) ← view_field host_key_blob hk_off;
  '(hk_n, _) ← view_field host_key_blob hk_off;
  hk_n ← trim_zeros (v_mem hk_n) (v_len hk_n);
  hk_e ← trim_zeros (v_mem hk_e) (v_len hk_e);
  _ ← check (negb ((v_len hk_n =? 0) || (v_len hk_e =? 0))) NETNOX_RETURN_FAILED;
  rsa_size ← rsa_size_of (v_len hk_n);
  let rsa_hash := if v_len sig_alg =? zlen alg_rsa_sha2_256
                  then NOXTLS_HASH_SHA_256 else NOXTLS_HASH_SHA1 in
  let '(ok, rsa_key) := noxtls_rsa_key_init rsa_size in
  _ ← check ok NETNOX_RETURN_FAILED;
  let kb := key_bytes rsa_key in
  _ ← check (negb ((v_len hk_n >? kb) || (v_len hk_e >? kb))) NETNOX_RETURN_FAILED;
  n ← view_bytes hk_n;
  e ← view_bytes hk_e;
  let rsa_key := mkRsaKey kb (right_aligned (rsa_n rsa_key) kb n) (right_aligned (rsa_e rsa_key) kb e) in
  _ ← check (v_len sig_data <=? kb) NETNOX_RETURN_FAILED;
  _ ← check (kb <=? 512) NETNOX_RETURN_FAILED;
  signature ← view_bytes sig_data;
  check (noxtls_rsa_verify rsa_key exchange_hash (right_aligned (zeros 512) kb signature) rsa_hash)
    NETNOX_RETURN_FAILED.

Definition netnox_ssh_verify_server_host_key_signature (host_key_blob sig_blob : view)
    (exchange_hash : list Z) : outcome unit :=
  _ ← check (negb ((v_len host_key_blob =? 0) || (v_len sig_blob =? 0) || (zlen exchange_hash =? 0)))
        NETNOX_RETURN_BAD_PARAM;
  '(hk_alg, hk_off) ← view_field host_key_blob 0;
  '(sig_alg, sig_off) ← view_field sig_blob 0;
  '(sig_data, _) ← view_field sig_blob sig_off;
  hk_ed ← view_is hk_alg alg_ed25519;
  both_ed ← (if (hk_ed : bool) then view_is sig_alg alg_ed25519 else Ok false);
  if (both_ed : bool) then verify_ed25519 host_key_blob hk_off sig_data exchange_hash
  else
    hk_rsa ← view_is hk_alg alg_ssh_rsa;
    sig_sha2 ← (if (hk_rsa : bool) then view_is sig_alg alg_rsa_sha2_256 else Ok false);
    sig_rsa ← (if hk_rsa && negb sig_sha2 then view_is sig_alg alg_ssh_rsa else Ok false);
    if (sig_sha2 : bool) || sig_rsa then verify_rsa host_key_blob hk_off sig_alg sig_data exchange_hash
    else Err NETNOX_RETURN_FAILED.
End verify.

(** ** Key exchange *)

Section kex.
Context {E : Type} `{Host E} `{NoxTLS}.

Abbreviation C := (M (world netnox_ssh_client_t E)).

(** [netnox_ssh_wait_for_message(client, expect_a, expect_b, out, out_max, &out_len)] *)
Definition wait_t : Type := Z -> Z -> Z -> C (list Z).

Definition netnox_ssh_build_kexinit_payload (payload_max : Z) : C (list Z) :=
  guard_m (1 + NETNOX_SSH_KEXINIT_COOKIE_LEN <=? payload_max) NETNOX_RETURN_BAD_PARAM;;
  cookie ← netnox_ssh_fill_random NETNOX_SSH_KEXINIT_COOKIE_LEN;
  lift (build_kexinit_from_cookie client_offer cookie payload_max).

(** The host key blob, its fingerprint and the ready flag. *)
Definition record_host_key (hk : view) : C (list Z) :=
  blob ← lift (view_bytes hk);
  set_client (fun c => c <| server_host_key_blob := blob |>);;
  fp ← try (lift (netnox_ssh_sha256 blob));
  set_client (fun c => c <| server_host_key_fingerprint := fp |> <| server_host_key_ready := true |>);;
  mret blob.

(** From the KEX_ECDH_REPLY to the verified session id and shared secret. (Without
    the optional dump of the KEX inputs, NETNOX_SSH_DUMP_KEYS.) *)
Definition kex_process_reply (priv pub_c reply : list Z) : C unit :=
  '(hk, off) ← try (lift (read_view reply 1));
  '(pub_s, off) ← try (lift (read_view reply off));
  '(sig_h, _) ← try (lift (read_view reply off));
  guard_m (negb (v_len sig_h =? 0) && (v_len pub_s =? 32)) NETNOX_RETURN_FAILED;;
  guard_m (negb (v_len hk =? 0) && (v_len hk <=? NETNOX_SSH_MAX_HOST_KEY_BLOB_LEN))
    NETNOX_RETURN_FAILED;;
  blob ← record_host_key hk;
  pub_s ← lift (view_bytes pub_s);
  let '(ok, shared_raw) := noxtls_x25519_shared_secret priv pub_s in
  guard_m ok NETNOX_RETURN_FAILED;;
  t ← tr;
  h ← try (lift (netnox_ssh_compute_exchange_hash t blob pub_c pub_s shared_raw));
  set_tr (fun t => t <| session_id := h |>);;
  try (lift (netnox_ssh_verify_server_host_key_signature hk sig_h h));;
  set_tr (fun t => t <| session_id_len := 32 |> <| shared_secret_raw := shared_raw |>).

(** The end of the exchange: NEWKEYS both ways, then the new keys. *)
Definition kex_newkeys (wait : wait_t) : C unit :=
  try (netnox_ssh_send_packet [NETNOX_SSH_MSG_NEWKEYS]);;
  reply ← try (wait NETNOX_SSH_MSG_NEWKEYS 255 2048);
  guard_m (is_message reply NETNOX_SSH_MSG_NEWKEYS) NETNOX_RETURN_FAILED;;
  mode ← gets (fun w => c_getenv (bs "NETNOX_SSH_KEY_DERIV_MPINT") (env w));
  try (on_tr (netnox_ssh_derive_transport_keys mode));;
  set_tr (fun t => t <| key_exchange_complete := true |>).

Definition netnox_ssh_perform_curve25519_kex (wait : wait_t) : C unit :=
  t ← tr;
  guard_m (kexinit_exchanged t) NETNOX_RETURN_BAD_PARAM;;
  '(ok, (priv, pub_c)) ← call noxtls_x25519_generate_key;
  guard_m ok NETNOX_RETURN_FAILED;;
  p ← try (lift (netnox_ssh_payload_append_u8 [] 128 NETNOX_SSH_MSG_KEX_ECDH_INIT));
  p ← try (lift (netnox_ssh_payload_append_string p 128 pub_c));
  try (netnox_ssh_send_packet p);;
  reply ← try (wait NETNOX_SSH_MSG_KEX_ECDH_REPLY 255 2048);
  guard_m (is_message reply NETNOX_SSH_MSG_KEX_ECDH_REPLY) NETNOX_RETURN_FAILED;;
  kex_process_reply priv pub_c reply;;
  kex_newkeys wait.

Definition netnox_ssh_handle_server_kexinit (wait : wait_t) (server_kexinit : list Z) : C unit :=
  guard_m (is_message server_kexinit NETNOX_SSH_MSG_KEXINIT) NETNOX_RETURN_BAD_PARAM;;
  guard_m (zlen server_kexinit <=? NETNOX_SSH_MAX_KEXINIT_PAYLOAD_LEN) NETNOX_RETURN_FAILED;;
  try (lift (netnox_ssh_validate_server_kexinit server_kexinit));;
  set_tr (fun t => t <| kexinit_server_payload := server_kexinit |>);;
  tx ← try (netnox_ssh_build_kexinit_payload NETNOX_SSH_KEXINIT_PAYLOAD_MAX_LEN);
  guard_m (zlen tx <=? NETNOX_SSH_MAX_KEXINIT_PAYLOAD_LEN) NETNOX_RETURN_FAILED;;
  set_tr (fun t => t <| kexinit_client_payload := tx |>);;
  try (netnox_ssh_send_packet tx);;
  set_tr (fun t => t <| kexinit_exchanged := true |>);;
  netnox_ssh_perform_curve25519_kex wait.

(** The [for(i = 0; i < 32; i++)] loop; [handle] is the call of
    [netnox_ssh_handle_server_kexinit]. *)
Fixpoint wait_iter (n : nat) (handle : list Z -> C unit) (expect_a expect_b out_max : Z)
    : C (list Z) :=
  match n with
  | O => fail NETNOX_RETURN_FAILED
  | S n =>
      rx ← try (netnox_ssh_recv_packet NETNOX_SSH_MAX_PACKET_LEN);
      match rx with
      | [] => wait_iter n handle expect_a expect_b out_max
      | type :: _ =>
          if type =? NETNOX_SSH_MSG_KEXINIT then
            try (handle rx);;
            wait_iter n handle expect_a expect_b out_max
          else if (type =? expect_a) || (type =? expect_b) then
            guard_m (zlen rx <=? out_max) NETNOX_RETURN_FAILED;;
            mret rx
          else wait_iter n handle expect_a expect_b out_max
      end
  end.

(** The recursion wait_for_message, handle_server_kexinit, perform_curve25519_kex,
    wait_for_message has no bound in the code; [depth] bounds the nesting. *)
Fixpoint netnox_ssh_wait_for_message (depth : nat) (expect_a expect_b out_max : Z) : C (list Z) :=
  wait_iter 32
    (fun rx => match depth with
               | O => lift Diverge
               | S depth => netnox_ssh_handle_server_kexinit (netnox_ssh_wait_for_message depth) rx
               end)
    expect_a expect_b out_max.

Definition netnox_ssh_exchange_kexinit (wait : wait_t) : C unit :=
  t ← tr;
  guard_m (connected t) NETNOX_RETURN_BAD_PARAM;;
  tx ← try (netnox_ssh_build_kexinit_payload NETNOX_SSH_KEXINIT_PAYLOAD_MAX_LEN);
  guard_m (zlen tx <=? NETNOX_SSH_MAX_KEXINIT_PAYLOAD_LEN) NETNOX_RETURN_FAILED;;
  set_tr (fun t => t <| kexinit_client_payload := tx |>);;
  try (netnox_ssh_send_packet tx);;
  rx ← try (netnox_ssh_recv_packet NETNOX_SSH_MAX_PACKET_LEN);
  guard_m (is_message rx NETNOX_SSH_MSG_KEXINIT) NETNOX_RETURN_FAILED;;
  guard_m (zlen rx <=? NETNOX_SSH_MAX_KEXINIT_PAYLOAD_LEN) NETNOX_RETURN_FAILED;;
  set_tr (fun t => t <| kexinit_server_payload := rx |>);;
  try (lift (netnox_ssh_validate_server_kexinit rx));;
  set_tr (fun t => t <| kexinit_exchanged := true |>);;
  netnox_ssh_perform_curve25519_kex wait.
End kex.
