(* ===== verification/ClientKexSpec.v ===== *)
(** What the client's key exchange establishes: the signature check accepts only a
    signature of the exchange hash under the host key, and a completed exchange
    leaves a session id that the recorded host key signed, its fingerprint, and
    the derived keys ([Keys.kdf]); the exchange terminates and keeps the rest of the context. *)

From S2P Require Export ClientKex.

(** ** Specification *)

(** [h] carries a valid signature of the host key with public blob [blob]. *)
Definition host_signed `{NoxTLS} (blob h : list Z) : Prop :=
  (exists pk s rest,
     blob = str_field alg_ed25519 ++ str_field pk ++ rest /\
     length pk = 32%nat /\ length s = 64%nat /\ noxtls_ed25519_verify pk h s = true) \/
  (exists e n rest key s hash npre epre,
     blob = str_field alg_ssh_rsa ++ str_field e ++ str_field n ++ rest /\
     rsa_n key = npre ++ skip_zeros n /\ rsa_e key = epre ++ skip_zeros e /\
     key_bytes key <= 512 /\ noxtls_rsa_verify key h s hash = true).

(** The session id [sid] is the exchange hash of an exchange over the identification
    strings and KEXINIT payloads of [t] that produced [secret], and the host key
    signed it. *)
Definition verified_exchange `{NoxTLSLaws} (t : ssh_transport_t) (blob sid secret : list Z) : Prop :=
  host_signed blob sid /\
  exists priv pub_c pub_s,
    noxtls_x25519_shared_secret priv pub_s = (true, secret) /\
    sid = sha256 (transcript t blob pub_c pub_s secret).

(** The session the client believes in: the host key it recorded, with its
    fingerprint, signed the session id, which is the exchange hash of a transcript
    with that key and the Diffie-Hellman secret the keys are derived from. *)
Definition established `{NoxTLSLaws} (c : netnox_ssh_client_t) : Prop :=
  let t := transport c in
  server_host_key_ready c = true /\
  server_host_key_fingerprint c = sha256 (server_host_key_blob c) /\
  session_id_len t = 32 /\
  verified_exchange t (server_host_key_blob c) (session_id t) (shared_secret_raw t).

(** The six transport keys are the streams of the selectors A to F. *)
Definition keys_are (k : Z -> Z -> list Z) (t : ssh_transport_t) : Prop :=
  c2s_iv t = k 65 16 /\ s2c_iv t = k 66 16 /\ c2s_key t = k 67 16 /\ s2c_key t = k 68 16 /\
  c2s_mac_key t = k 69 32 /\ s2c_mac_key t = k 70 32.

(** An established session whose keys are the derived keys ([Keys.kdf]) of its session id and
    shared secret, and are in use. *)
Definition keyed `{NoxTLSLaws} (c : netnox_ssh_client_t) : Prop :=
  let t := transport c in
  established c /\ key_exchange_complete t = true /\
  exists mode, keys_are (kdf sha256 mode (shared_secret_raw t) (session_id t)) t.

(** Encryption is on only with keys of some exchange that a host key signed: also
    when a later exchange failed half way and replaced the session id. *)
Definition keys_ok `{NoxTLSLaws} (t : ssh_transport_t) : Prop :=
  key_exchange_complete t = true ->
  exists t0 blob sid secret mode,
    verified_exchange t0 blob sid secret /\ keys_are (kdf sha256 mode secret sid) t.

(** ** Facts: the signature check *)

Lemma mem_read_nonpos mem n : n <= 0 -> mem_read mem 0 n = Ok [].
Proof.
  intros H. rewrite mem_read_in_bounds by lia. unfold ztake.
  by replace (Z.to_nat n) with 0%nat by lia.
Qed.

Lemma trim_zeros_spec mem len v b : trim_zeros mem len = Ok v -> view_bytes v = Ok b ->
  exists full, mem_read mem 0 len = Ok full /\ b = skip_zeros full.
Proof.
  assert (Hnone : forall mem len, len <= 0 -> Ok (mkView mem len) = Ok v -> view_bytes v = Ok b ->
    exists full, mem_read mem 0 len = Ok full /\ b = skip_zeros full).
  { intros m l Hl [= <-] Hv. unfold view_bytes in Hv. simpl in Hv.
    rewrite mem_read_nonpos in Hv |- * by done. exists []. split; [done|]. by injection Hv. }
  revert len. induction mem as [|x mem IH]; intros len Ht Hv; cbn [trim_zeros] in Ht;
    destruct (Z.ltb_spec 0 len) as [Hlt|]; [done|by apply Hnone| |by apply Hnone].
  destruct (x =? 0) eqn:Ex.
  - destruct (IH (len - 1) Ht Hv) as (full & Hf & ->). exists (x :: full).
    simpl. rewrite Ex. split; [|done]. apply mem_read_ok in Hf as (-> & _ & Hle).
    rewrite mem_read_in_bounds by (simpl length; lia). f_equal. rewrite !zdrop_0.
    unfold ztake. by replace (Z.to_nat len) with (S (Z.to_nat (len - 1))) by lia.
  - injection Ht as <-. unfold view_bytes in Hv. simpl in Hv. exists b. split; [done|].
    apply mem_read_ok in Hv as (-> & _). rewrite zdrop_0. unfold ztake.
    replace (Z.to_nat len) with (S (Z.to_nat (len - 1))) by lia. simpl. by rewrite Ex.
Qed.

Lemma right_aligned_suffix dst size src : exists pre, right_aligned dst size src = pre ++ src.
Proof. by eexists. Qed.

Section verify.
Context {T : NoxTLS}.
Context (hk : view) (blob : list Z).
Hypothesis hk_bytes : view_bytes hk = Ok blob.
Hypothesis hk_ok : bytes_ok (v_mem hk).
Hypothesis hk_small : is_u32 (zlen (v_mem hk) + 4).

(** A chain of fields read from the blob is a prefix of the blob's bytes. *)
Lemma blob_prefix pre off : v_mem hk = pre ++ zdrop off (v_mem hk) -> off = zlen pre -> off <= v_len hk ->
  exists rest, blob = pre ++ rest.
Proof.
  intros Hm -> Hle. unfold view_bytes in hk_bytes. apply mem_read_ok in hk_bytes as (-> & _ & Hl).
  rewrite zdrop_0 in *. exists (ztake (v_len hk - zlen pre) (zdrop (zlen pre) (v_mem hk))).
  rewrite Hm at 1. unfold ztake. rewrite take_app_ge by lia. f_equal. f_equal. lia.
Qed.

Lemma view_field_inv off v off' s : 0 <= off <= zlen (v_mem hk) ->
  view_field hk off = Ok (v, off') -> view_bytes v = Ok s ->
  zdrop off (v_mem hk) = str_field s ++ zdrop off' (v_mem hk) /\ off' = off + 4 + zlen s /\
  off' <= zlen (v_mem hk) /\ off' <= v_len hk.
Proof.
  unfold view_field. intros Ho Hr Hs. inv_ok.
  destruct (read_view_inv _ _ _ _ _ s hk_ok hk_small Ho Hr Hs) as (?&?&?&?&_). done.
Qed.

Lemma verify_ed25519_sound off sig h :
  v_mem hk = str_field alg_ed25519 ++ zdrop off (v_mem hk) -> off = zlen (str_field alg_ed25519) ->
  off <= zlen (v_mem hk) ->
  verify_ed25519 hk off sig h = Ok tt -> host_signed blob h.
Proof.
  intros Hm Hoff Hle Hv. unfold verify_ed25519 in Hv. inv_ok. left.
  destruct (view_field_inv off v z a1) as (Hd & E & ? & ?); [rewrite Hoff; lia|done|done|].
  destruct (blob_prefix (str_field alg_ed25519 ++ str_field a1) z) as [rest Hb].
  - rewrite <- app_assoc, <- Hd. done.
  - rewrite zlen_app, (str_field_length a1). lia.
  - done.
  - exists a1, a2, rest. rewrite Hb, <- app_assoc.
    unfold view_bytes in *. apply mem_read_ok in Hok1 as (-> & _ & ?). apply mem_read_ok in Hok2 as (-> & _ & ?).
    unfold NOXTLS_ED25519_PUBLIC_KEY_SIZE, NOXTLS_ED25519_SIGNATURE_SIZE in *.
    split_and!; [done| | |done]; rewrite !zdrop_0; unfold ztake; rewrite length_take; lia.
Qed.

Lemma verify_rsa_sound off alg sig h :
  v_mem hk = str_field alg_ssh_rsa ++ zdrop off (v_mem hk) -> off = zlen (str_field alg_ssh_rsa) ->
  off <= zlen (v_mem hk) ->
  verify_rsa hk off alg sig h = Ok tt -> host_signed blob h.
Proof.
  intros Hm Hoff Hle Hv. unfold verify_rsa in Hv. inv_ok. right.
  destruct (trim_zeros_spec _ _ _ _ Hok1 Hok7) as (n & Hn & ->).
  destruct (trim_zeros_spec _ _ _ _ Hok2 Hok8) as (e & He & ->).
  destruct (view_field_inv off v z e) as (Hd & E & ? & ?); [rewrite Hoff; lia|done|done|].
  destruct (view_field_inv z v0 z0 n) as (Hd2 & E2 & ? & ?); [lia|done|done|].
  destruct (blob_prefix (str_field alg_ssh_rsa ++ str_field e ++ str_field n) z0) as [rest Hb].
  - by rewrite <- !app_assoc, <- Hd2, <- Hd.
  - rewrite !zlen_app, (str_field_length e), (str_field_length n). lia.
  - done.
  - set (key := mkRsaKey _ _ _) in Hv. set (s := right_aligned (zeros 512) _ _) in Hv.
    set (hash := if _ =? _ then _ else _) in Hv. exists e, n, rest, key, s, hash, (ztake (key_bytes r - zlen (skip_zeros n)) (rsa_n r)),
      (ztake (key_bytes r - zlen (skip_zeros e)) (rsa_e r)).
    rewrite Hb, <- !app_assoc. split; [reflexivity|]. split; [reflexivity|]. split; [reflexivity|].
    split; [simpl; lia|exact Hv].
Qed.

Lemma blob_alg v z alg : view_field hk 0 = Ok (v, z) -> view_is v alg = Ok true ->
  v_mem hk = str_field alg ++ zdrop z (v_mem hk) /\ z = zlen (str_field alg) /\
  z <= zlen (v_mem hk).
Proof.
  intros Hf Hi. apply view_is_bytes in Hi.
  destruct (view_field_inv 0 v z alg) as (Hd & E & ? & ?); [lia|done|done|].
  rewrite zdrop_0 in Hd. rewrite (str_field_length alg). split_and!; [done|lia|done].
Qed.

Lemma verify_sound sig h :
  netnox_ssh_verify_server_host_key_signature hk sig h = Ok tt -> host_signed blob h.
Proof.
  intros Hv. unfold netnox_ssh_verify_server_host_key_signature in Hv. inv_ok.
  assert (Hrsa : (hk_rsa ← view_is v alg_ssh_rsa;
      sig_sha2 ← (if (hk_rsa : bool) then view_is v0 alg_rsa_sha2_256 else Ok false);
      sig_rsa ← (if hk_rsa && negb sig_sha2 then view_is v0 alg_ssh_rsa else Ok false);
      if (sig_sha2 : bool) || sig_rsa then verify_rsa hk z v0 v1 h else Err NETNOX_RETURN_FAILED) = Ok tt ->
    host_signed blob h).
  { clear Hv. intros Hv. inv_ok. destruct a5; [|cbn in *; by simplify_eq/=].
    edestruct blob_alg as (?&?&?); [exact Hok0|exact Hok5|].
    destruct (a6 || a7); [by eapply verify_rsa_sound|done]. }
  destruct a4; [|by apply Hrsa].
  destruct a3; [|done]. edestruct blob_alg as (?&?&?); [exact Hok0|exact Hok3|].
  by eapply verify_ed25519_sound.
Qed.
End verify.

(** ** Well-formed contexts and what a key exchange may change *)

(** Keys and counters of the sizes the ciphers need, the array bounds, and [keys_ok]. *)
Definition transport_wf `{NoxTLSLaws} (t : ssh_transport_t) : Prop :=
  direction_wf (client_to_server t) /\ direction_wf (server_to_client t) /\
  zlen (pending_newkeys t) <= 32 /\
  zlen (client_ident t) <= 256 /\ zlen (server_ident t) <= 256 /\
  zlen (kexinit_client_payload t) <= 32768 /\ zlen (kexinit_server_payload t) <= 32768 /\
  keys_ok t.
Definition client_wf `{NoxTLSLaws} (c : netnox_ssh_client_t) : Prop := transport_wf (transport c).

(** The fields no part of the key exchange writes. *)
Definition app_part (c : netnox_ssh_client_t) :=
  (send_cb_set c, recv_cb_set c, username c, host c, password c, ed25519_private_key c,
   ed25519_public_key c, has_ed25519_key c, port c, remote_exit_status_valid c, remote_exit_status c).
Definition session_part (t : ssh_transport_t) :=
  (client_ident t, server_ident t, connected t, userauth_service_ready t,
   connection_service_ready t, authenticated t, channel_open t, local_channel_id t,
   remote_channel_id t, local_window_size t, remote_window_size t, remote_max_packet_size t).

Definition kex_frame (c c' : netnox_ssh_client_t) : Prop :=
  app_part c' = app_part c /\ session_part (transport c') = session_part (transport c) /\
  (kexinit_exchanged (transport c) = true -> kexinit_exchanged (transport c') = true) /\
  (key_exchange_complete (transport c) = true -> key_exchange_complete (transport c') = true).

Lemma kex_frame_refl c : kex_frame c c.
Proof. by repeat split. Qed.
Lemma kex_frame_trans c1 c2 c3 : kex_frame c1 c2 -> kex_frame c2 c3 -> kex_frame c1 c3.
Proof.
  intros (A1 & S1 & K1 & C1) (A2 & S2 & K2 & C2). unfold kex_frame.
  split_and!; [congruence|congruence|auto|auto].
Qed.
#[export] Hint Resolve kex_frame_refl : noxssh.
Definition kex_logic `{NoxTLSLaws} : logic netnox_ssh_client_t :=
  mkLogic client_wf kex_frame kex_frame_refl kex_frame_trans.

(** A predicate on contexts that sending and receiving packets preserves. *)
Definition stable (P : netnox_ssh_client_t -> Prop) : Prop :=
  forall c c', only_transport c c' ->
    (send_frame (transport c) (transport c') \/ recv_frame (transport c) (transport c')) -> P c -> P c'.

Lemma packet_frame `{NoxTLSLaws} c c' : client_wf c -> only_transport c c' ->
  (send_frame (transport c) (transport c') /\ direction_wf (client_to_server (transport c')) /\
   zlen (pending_newkeys (transport c')) <= 32 \/
   recv_frame (transport c) (transport c') /\ direction_wf (server_to_client (transport c'))) ->
  client_wf c' /\ kex_frame c c'.
Proof.
  intros (D1 & D2 & Hp & H1 & H2 & H3 & H4) Hot Hfr. unfold client_wf, transport_wf, kex_frame, app_part.
  unfold direction_wf, client_to_server, server_to_client in *. simpl in *.
  destruct Hfr as [(Hf & Hd & Hp') | (Hf & Hd)]; rewrite Hot; simpl; rewrite Hf; simpl;
    split_and!; try done; try tauto.
Qed.

Lemma stable_any : stable (fun _ => True).
Proof. done. Qed.

Section kex.
Context {E : Type} `{HostLaws E} {T : NoxTLS} {L : NoxTLSLaws T}.
Implicit Types w : world netnox_ssh_client_t E.
Implicit Types P : netnox_ssh_client_t -> Prop.

Lemma stable_established : stable established.
Proof.
  intros c c' Hot Hfr (H1 & H2 & H3 & H4 & H5). unfold established, transcript in *.
  rewrite Hot. simpl. by destruct Hfr as [Hf | Hf]; rewrite Hf.
Qed.

(** Triples for the steps of the key exchange. *)
Abbreviation kspec := (triple (E:=E) kex_logic).

Lemma kspec_tr n P {B} (k : ssh_transport_t -> M _ B) Q :
  (forall t, transport_wf t -> kspec n (fun c => P c /\ transport c = t) Q (k t)) ->
  kspec n P Q (tr ≫= k).
Proof. intros Hk w Hwf Hn HP. apply wp_bind, wp_gets. cbn [ok_or]. by apply Hk. Qed.

Lemma kspec_set n P (Q : unit -> _ -> Prop) f :
  (forall c, client_wf c -> P c -> client_wf (f c) /\ kex_frame c (f c) /\ Q tt (f c)) ->
  kspec n P Q (set_client f).
Proof. apply (triple_modify kex_logic). Qed.
Lemma kspec_set_then n P P' {B} f (k : unit -> M _ B) Q :
  (forall c, client_wf c -> P c -> client_wf (f c) /\ kex_frame c (f c) /\ P' (f c)) ->
  kspec n P' Q (k tt) -> kspec n P Q (set_client f ≫= k).
Proof.
  intros Hf Hk. by apply (triple_modify_then kex_logic n P P').
Qed.

Lemma kspec_send n P p : stable P -> zlen p < 2 ^ 30 ->
  kspec n P (fun _ => P) (netnox_ssh_send_packet p).
Proof.
  intros HP Hp w Hwf Hn HPw. pose proof Hwf as (D1 & D2 & Hpend & _).
  eapply wp_mono; [apply send_packet_spec; [by split|done]|].
  intros o w' [(F1 & F2 & F3 & F4 & F5) Ho].
  destruct (packet_frame (ctx w) (ctx w')) as [Hwf' Hfr]; [done|done|by left|].
  split; [done|]. split; [done|]. destruct o; try done; rewrite F3; [|lia]. split; [lia|].
  eapply HP; [exact F1|by left|done].
Qed.

Lemma wire_nonempty d p padding : 0 < zlen (wire d (packet p padding)).
Proof.
  pose proof (packet_length p padding). unfold wire. case_match; [|lia].
  rewrite zlen_app, aes_ctr_length. lia.
Qed.

Lemma kspec_recv n P max : stable P ->
  consumes kex_logic n P
    (fun p c => P c /\ bytes_ok p /\ zlen p <= max /\ zlen p <= 35000)
    (netnox_ssh_recv_packet (E:=E) max).
Proof.
  intros HP w Hwf Hn HPw. pose proof Hwf as (D1 & D2 & _).
  eapply wp_mono; [apply wp_and; [by apply recv_packet_sound|apply recv_packet_shrinking]|].
  intros o w' [[(F1 & F2 & F3 & F4) Ho] Hshrink].
  destruct (packet_frame (ctx w) (ctx w')) as [Hwf' Hfr]; [done|done|by right|].
  split; [split; [done|split; [done|]]|]; destruct o as [p| | |]; try done; [|by apply Hshrink|];
    destruct Ho as (padding & Hok & Hb & Hmax & _ & Hin & _);
    pose proof (wire_nonempty (server_to_client (transport (ctx w))) p padding);
    rewrite Hin, zlen_app; [|lia].
  split; [lia|]. split_and!; [by eapply HP; [exact F1|by right|]|done|done|].
  destruct Hok as [? Hl]. unfold NETNOX_SSH_MAX_PACKET_LEN in Hl. lia.
Qed.

(** ** The message loop *)

(** What [wait_for_message] hands out. *)
Definition message_of (expect_a expect_b max : Z) (p : list Z) : Prop :=
  bytes_ok p /\ zlen p <= max /\ zlen p <= 35000 /\
  exists type rest, p = type :: rest /\ (type = expect_a \/ type = expect_b).

Lemma wait_iter_spec n P k handle a b max : stable P ->
  (forall rx, bytes_ok rx -> zlen rx <= 35000 -> kspec (n - 1) P (fun _ => P) (handle rx)) ->
  kspec n P (fun p c => P c /\ message_of a b max p) (wait_iter k handle a b max).
Proof.
  intros HP Hh. induction k as [|k IH]; cbn [wait_iter]; [apply triple_fail|].
  assert (Hagain : kspec (n - 1) P (fun p c => P c /\ message_of a b max p)
    (wait_iter k handle a b max)) by (eapply triple_conseq; [exact IH|lia|done|done]).
  eapply triple_consumes_then; [by apply consumes_try, kspec_recv|]. intros rx.
  apply (triple_weaken _ _ (fun c => (bytes_ok rx /\ zlen rx <= 35000) /\ P c));
    [|intros c (? & ? & _ & ?); auto].
  apply triple_pre. intros [Hb Hl].
  destruct rx as [|type rest]; [done|].
  destruct (type =? NETNOX_SSH_MSG_KEXINIT).
  - eapply triple_bind; [by apply triple_try, Hh|]. by intros [].
  - destruct ((type =? a) || (type =? b)) eqn:Et; [|done].
    apply triple_guard_then. intros Hmax. apply triple_ret.
    intros c HPc. split; [done|]. split_and!; [done|lia|done|].
    exists type, rest. split; [done|]. lia.
Qed.

(** ** The reply *)

Lemma read_view_mem p off v off' : read_view p off = Ok (v, off') -> exists k, v_mem v = zdrop k p.
Proof.
  unfold read_view, netnox_ssh_payload_read_string_view. intros Hr. inv_ok.
  destruct (u32 _ >? _); [done|]. injection Hr as <- _. by eexists.
Qed.

Lemma trim_zeros_terminates mem len : terminates (trim_zeros mem len).
Proof.
  revert len. induction mem as [|b mem IH]; intros len; cbn [trim_zeros]; terminate.
Qed.
Lemma rsa_size_terminates n : terminates (rsa_size_of n).
Proof. unfold rsa_size_of. terminate. Qed.
#[local] Hint Resolve trim_zeros_terminates rsa_size_terminates : noxssh.

Lemma verify_terminates hk sig h : terminates (netnox_ssh_verify_server_host_key_signature hk sig h).
Proof.
  unfold netnox_ssh_verify_server_host_key_signature, verify_ed25519, verify_rsa, view_field. terminate.
Qed.

Lemma transport_fields_small t blob pub_c pub_s secret : transport_wf t ->
  zlen blob <= 2048 -> zlen pub_c = 32 -> zlen pub_s = 32 -> zlen secret = 32 ->
  fields_small t blob pub_c pub_s secret.
Proof.
  intros (_ & _ & _ & H1 & H2 & H3 & H4 & _) ????.
  pose proof (cstr_length (client_ident t)). pose proof (cstr_length (server_ident t)).
  repeat constructor; lia.
Qed.

Lemma record_host_key_spec n P hk : 
  kspec n P (fun blob c => view_bytes hk = Ok blob /\ server_host_key_blob c = blob /\
    server_host_key_fingerprint c = sha256 blob /\ server_host_key_ready c = true)
    (record_host_key hk).
Proof.
  unfold record_host_key. apply triple_lift_then; [auto with noxssh|]. intros blob Hb.
  eapply (kspec_set_then n P (fun c => server_host_key_blob c = blob)); [done|].
  apply triple_try_lift_then; [by rewrite netnox_ssh_sha256_ok|].
  intros fp Hfp. rewrite netnox_ssh_sha256_ok in Hfp. injection Hfp as <-.
  eapply (kspec_set_then n _ (fun c => server_host_key_blob c = blob /\
    server_host_key_fingerprint c = sha256 blob /\ server_host_key_ready c = true)).
  - by intros c Hwf Hc; split_and!.
  - apply (triple_lift _ _ _ (Ok blob)); [done|]. by intros a c [= <-] (?&?&?).
Qed.

Lemma process_reply_spec priv pub_c reply n P :
  bytes_ok reply -> zlen reply <= 35000 -> length pub_c = 32%nat ->
  kspec n P (fun _ => established) (kex_process_reply priv pub_c reply).
Proof.
  intros Hb Hl Hpub. unfold kex_process_reply.
  apply triple_try_lift_then; [apply payload_read_view_terminates|]. intros [hk off1] Hhk.
  apply triple_try_lift_then; [apply payload_read_view_terminates|]. intros [pub_s off2] Hpubs.
  apply triple_try_lift_then; [apply payload_read_view_terminates|]. intros [sig_h off3] _.
  apply triple_guard_then. intros Hg1. apply triple_guard_then. intros Hg2.
  eapply triple_bind; [by apply record_host_key_spec|]. intros blob.
  apply triple_pre. intros Hblob.
  apply triple_lift_then; [auto with noxssh|]. intros ps Hps.
  destruct (noxtls_x25519_shared_secret priv ps) as [ok shared_raw] eqn:Ex.
  apply triple_guard_then. intros ->.
  apply kspec_tr. intros t Ht.
  pose proof (x25519_shared_length _ _ _ Ex) as [Hsl _].
  assert (Hps_len : zlen ps = 32).
  { unfold view_bytes in Hps. apply mem_read_ok in Hps as (-> & ? & ?). rewrite zdrop_0.
    unfold ztake. rewrite length_take. lia. }
  assert (Hblob_len : zlen blob <= 2048).
  { unfold view_bytes in Hblob. apply mem_read_ok in Hblob as (-> & ? & ?). rewrite zdrop_0.
    unfold ztake, NETNOX_SSH_MAX_HOST_KEY_BLOB_LEN in *. rewrite length_take. lia. }
  rewrite exchange_hash_total by (apply transport_fields_small; [done|lia..]).
  apply triple_try_lift_then; [by case_match|]. intros h Hh. case_match; [|done].
  injection Hh as <-. set (h := sha256 (transcript _ _ _ _ _)).
  eapply (kspec_set_then n _ (fun c => transport c = t <| session_id := h |> /\
    server_host_key_blob c = blob /\ server_host_key_fingerprint c = sha256 blob /\
    server_host_key_ready c = true)).
  { intros c Hwf [(? & ? & ?) <-]. split; [exact Hwf|]. by split. }
  apply triple_try_lift_then; [apply verify_terminates|]. intros [] Hv.
  apply kspec_set. intros c Hwf (Htr & Hb1 & Hb2 & Hb3). split; [exact Hwf|]. split; [done|].
  destruct (read_view_mem _ _ _ _ Hhk) as [k Hk].
  assert (bytes_ok (v_mem hk) /\ zlen (v_mem hk) <= 35000) as [Hmem Hmem_len].
  { rewrite Hk. split; [auto with noxssh|]. unfold zdrop. rewrite length_drop. lia. }
  unfold established. cbn [transport server_host_key_ready server_host_key_fingerprint
    server_host_key_blob set set_transport].
  rewrite Hb1, Hb2, Hb3, Htr. split; [done|]. split; [done|]. split; [done|]. split.
  - simpl. apply (verify_sound hk blob Hblob Hmem ltac:(ulia) sig_h h Hv).
  - exists priv, pub_c, ps. by split.
Qed.

(** ** The exchange *)

Lemma generate_key_spec n P :
  kspec n P (fun '(ok, (priv, pub)) c => P c /\ (ok = true -> length pub = 32%nat /\ bytes_ok pub))
    (call noxtls_x25519_generate_key).
Proof.
  intros w Hwf Hn HP. apply wp_call. intros [ok [priv pub]] e Hg.
  destruct (x25519_generate_law _ _ _ _ _ Hg) as (_ & Hin & Hlen).
  split; [done|]. split; [apply kex_frame_refl|]. simpl. rewrite Hin. split; [done|]. split; [done|].
  intros Hok. by destruct (Hlen Hok) as (_ & ? & ?).
Qed.

Lemma random_spec n P len : 0 <= len ->
  kspec n P (fun l c => P c /\ zlen l = len) (netnox_ssh_fill_random len).
Proof.
  intros Hlen w Hwf Hn HP. eapply wp_mono; [by apply fill_random_spec|].
  intros o w' (Hc & _ & Hi & Ho). unfold ends. rewrite Hc, Hi.
  split; [done|]. split; [apply kex_frame_refl|]. destruct o; try done. by destruct Ho.
Qed.

Lemma build_kexinit_spec n P max : 1024 <= max < 2 ^ 31 ->
  kspec n P (fun p c => P c /\ zlen p <= 1024) (netnox_ssh_build_kexinit_payload max).
Proof.
  intros Hmax. unfold netnox_ssh_build_kexinit_payload. apply triple_guard_then. intros _.
  eapply triple_bind; [by apply (random_spec n P)|]. intros cookie.
  apply (triple_weaken _ n (fun c => zlen cookie = 16 /\ P c)); [|by intros c []].
  apply triple_pre. intros Hlen.
  assert (zlen (kexinit_payload client_offer cookie) <= 1024) by (apply offers_fit; [by left|lia]).
  rewrite build_kexinit_ok by ulia. apply triple_lift; [done|]. by intros p c [= <-].
Qed.

Lemma stable_keyed : stable keyed.
Proof.
  intros c c' Hot Hfr (H1 & H2 & env & H3). split; [by eapply stable_established|].
  rewrite Hot. simpl. destruct Hfr as [Hf | Hf]; rewrite Hf; split; try done; by exists env.
Qed.

(** What the exchange needs of [netnox_ssh_wait_for_message]. *)
Definition waits (n : Z) (wait : wait_t) : Prop :=
  forall P a b max, stable P -> (forall c, keyed c -> P c) ->
    kspec n P (fun p c => P c /\ message_of a b max p) (wait a b max).

Lemma established_kex_done c : established c -> kex_done (transport c).
Proof.
  intros (_ & _ & Hlen & _ & priv & pub_c & pub_s & Hx & Hsid).
  destruct (x25519_shared_length _ _ _ Hx). unfold kex_done. by rewrite Hsid, sha256_length.
Qed.

Lemma with_keys_wf mode t blob : transport_wf t ->
  verified_exchange t blob (session_id t) (shared_secret_raw t) -> transport_wf (with_keys mode t).
Proof.
  intros (_ & _ & H1 & H2 & H3 & H4 & H5 & _) Hv.
  assert (Hd : forall sel sel' n, direction_wf (mkDirection (key_exchange_complete t)
    (kdf sha256 mode (shared_secret_raw t) (session_id t) sel 16)
    (kdf sha256 mode (shared_secret_raw t) (session_id t) sel' 16)
    (kdf sha256 mode (shared_secret_raw t) (session_id t) (sel + 2) 32) n)).
  { intros. unfold direction_wf. simpl. rewrite !kdf_length by lia.
    split_and!; [done..|apply kdf_bytes_ok]. }
  split; [apply (Hd 67)|]. split; [apply (Hd 68)|]. do 5 (split; [done|]).
  intros _. by exists t, blob, (session_id t), (shared_secret_raw t), mode.
Qed.

Lemma derive_keys_spec n mode :
  kspec n established (fun _ c => keyed (set transport (fun t => t <| key_exchange_complete := true |>) c))
    (on_tr (netnox_ssh_derive_transport_keys mode)).
Proof.
  intros w Hwf Hn Hest. unfold wp, on_tr.
  rewrite derive_transport_keys_ok by by apply established_kex_done.
  split; [by eapply with_keys_wf, Hest|]. split; [done|]. split; [simpl; lia|].
  split; [exact Hest|]. split; [done|]. by exists mode.
Qed.

Lemma keyed_wf c : let c' := set transport (fun t => t <| key_exchange_complete := true |>) c in
  client_wf c -> keyed c' -> client_wf c'.
Proof.
  intros c' (H1 & H2 & H3 & H4 & H5 & H6 & H7 & _) (Hest & _ & mode & Hk).
  do 7 (split; [done|]). intros _.
  exists (transport c'), (server_host_key_blob c'), (session_id (transport c')),
    (shared_secret_raw (transport c')), mode. split; [apply Hest|exact Hk].
Qed.

Lemma perform_spec n P wait : waits n wait -> stable P -> (forall c, keyed c -> P c) ->
  kspec n P (fun _ => keyed) (netnox_ssh_perform_curve25519_kex wait).
Proof.
  intros Hw HP HPk. unfold netnox_ssh_perform_curve25519_kex, kex_newkeys.
  apply kspec_tr. intros t0 _. apply triple_guard_then. intros _.
  apply (triple_weaken _ n P); [|by intros c []].
  eapply triple_bind; [by apply generate_key_spec|]. intros [ok [priv pub_c]].
  apply triple_guard_then. intros ->.
  apply (triple_weaken _ n (fun c => (length pub_c = 32%nat /\ bytes_ok pub_c) /\ P c));
    [|intros c [? Hl]; auto].
  apply triple_pre. intros [Hpub _].
  apply triple_try_lift_then; [auto with noxssh|]. intros p1 _.
  apply triple_try_lift_then; [auto with noxssh|]. intros p2 Hp2%append_string_max.
  eapply triple_bind; [apply triple_try, kspec_send; [done|lia]|]. intros [].
  eapply triple_bind; [apply triple_try, Hw; done|]. intros reply.
  apply triple_guard_then. intros _.
  apply (triple_weaken _ n (fun c => message_of NETNOX_SSH_MSG_KEX_ECDH_REPLY 255 2048 reply /\ P c));
    [|by intros c []].
  apply triple_pre. intros (Hb & _ & Hl & _).
  eapply triple_bind; [by apply process_reply_spec|]. intros [].
  eapply triple_bind; [apply triple_try, kspec_send; [apply stable_established|simpl; lia]|]. intros [].
  eapply triple_bind; [apply triple_try, Hw; [apply stable_established|by intros c []]|]. intros newkeys.
  apply triple_guard_then. intros _. apply triple_gets_then. intros mode.
  apply (triple_weaken _ n established); [|by intros c []].
  eapply triple_bind; [apply triple_try, derive_keys_spec|]. intros [].
  apply kspec_set. intros c Hwf Hk. split; [by apply keyed_wf|]. by split.
Qed.

Lemma client_payload_wf c p : client_wf c -> zlen p <= 32768 ->
  client_wf (set transport (fun t => t <| kexinit_client_payload := p |>) c).
Proof. intros (? & ? & ? & ? & ? & _ & ? & ?) Hp. by do 6 (split; [done|]). Qed.
Lemma server_payload_wf c p : client_wf c -> zlen p <= 32768 ->
  client_wf (set transport (fun t => t <| kexinit_server_payload := p |>) c).
Proof. intros (? & ? & ? & ? & ? & ? & _ & ?) Hp. by do 6 (split; [done|]). Qed.

Lemma handle_spec n P wait rx : waits n wait -> stable P -> (forall c, keyed c -> P c) ->
  kspec n P (fun _ => keyed) (netnox_ssh_handle_server_kexinit wait rx).
Proof.
  intros Hw HP HPk. unfold netnox_ssh_handle_server_kexinit.
  unfold NETNOX_SSH_MAX_KEXINIT_PAYLOAD_LEN, NETNOX_SSH_KEXINIT_PAYLOAD_MAX_LEN.
  apply triple_guard_then. intros _. apply triple_guard_then. intros Hlen.
  apply triple_try_lift_then; [apply validate_server_terminates|]. intros [] _.
  eapply (kspec_set_then n P (fun _ => True)).
  { intros c Hwf _. split; [apply server_payload_wf; [done|lia]|done]. }
  eapply triple_bind; [apply triple_try, build_kexinit_spec; lia|]. intros tx.
  apply triple_guard_then. intros Htx.
  eapply (kspec_set_then n _ (fun _ => True)).
  { intros c Hwf _. split; [apply client_payload_wf; [done|lia]|done]. }
  eapply triple_bind; [apply triple_try, kspec_send; [apply stable_any|lia]|]. intros [].
  eapply (kspec_set_then n _ (fun _ => True)); [by intros c Hwf _; split; [exact Hwf|]|].
  by apply perform_spec.
Qed.

Lemma wait_spec depth : forall n, n <= Z.of_nat depth ->
  waits n (netnox_ssh_wait_for_message depth).
Proof.
  induction depth as [|depth IH]; intros n Hn P a b max HP HPk; cbn [netnox_ssh_wait_for_message];
    apply wait_iter_spec; try done; intros rx Hrx Hl.
  - intros w Hwf Hw. lia.
  - eapply (triple_conseq _ (n - 1) _ P); [apply handle_spec; [apply IH; lia|done..]|lia|done|auto].
Qed.

Lemma exchange_spec n wait P : waits n wait ->
  kspec n P (fun _ c => keyed c /\ kexinit_exchanged (transport c) = true)
    (netnox_ssh_exchange_kexinit wait).
Proof.
  intros Hw. unfold netnox_ssh_exchange_kexinit.
  unfold NETNOX_SSH_MAX_KEXINIT_PAYLOAD_LEN, NETNOX_SSH_KEXINIT_PAYLOAD_MAX_LEN.
  apply kspec_tr. intros t0 _. apply triple_guard_then. intros _.
  eapply triple_bind; [apply triple_try, build_kexinit_spec; lia|]. intros tx.
  apply triple_guard_then. intros Htx.
  eapply (kspec_set_then n _ (fun _ => True)).
  { intros c Hwf _. split; [apply client_payload_wf; [done|lia]|done]. }
  eapply triple_bind; [apply triple_try, kspec_send; [apply stable_any|lia]|]. intros [].
  eapply triple_bind; [apply triple_try, consumes_triple, kspec_recv; apply stable_any|]. intros rx.
  apply triple_guard_then. intros _. apply triple_guard_then. intros Hrx.
  eapply (kspec_set_then n _ (fun _ => True)).
  { intros c Hwf _. split; [apply server_payload_wf; [done|lia]|done]. }
  apply triple_try_lift_then; [apply validate_server_terminates|]. intros [] _.
  eapply (kspec_set_then n _ (fun c => True /\ kexinit_exchanged (transport c) = true));
    [by intros c Hwf _; split; [exact Hwf|]|].
  apply (triple_frame kex_logic); [by intros c c' (_ & _ & Hk & _)|by apply perform_spec].
Qed.
End kex.

(** ** Properties *)

(** [netnox_ssh_verify_server_host_key_signature] accepts only a signature that
    NoxTLS verifies under the key inside the host key blob: an ssh-ed25519 blob with
    a 32-byte key and a 64-byte signature, or an ssh-rsa blob whose modulus and
    exponent (leading zeros dropped) are the key the signature was checked with. *)
Theorem verify_signature_sound (T : NoxTLS) hk blob sig h :
  view_bytes hk = Ok blob -> bytes_ok (v_mem hk) -> is_u32 (zlen (v_mem hk) + 4) ->
  netnox_ssh_verify_server_host_key_signature hk sig h = Ok tt -> host_signed blob h.
Proof. intros Hb Hm Hs. by apply verify_sound. Qed.

(** C8: when [netnox_ssh_exchange_kexinit] succeeds, the server is the holder of the
    recorded host key: that key signed the session id, which is the exchange hash of
    both identification strings, both KEXINIT payloads, the key and the two curve25519
    keys of this exchange; the fingerprint is the SHA-256 of the key blob, the six
    transport keys are derived ([Keys.kdf]) from the Diffie-Hellman secret, and encryption
    is on. Nothing of the context outside the key exchange has changed. *)
Theorem exchange_kexinit_authenticates E (H : Host E) (HL : HostLaws E) (T : NoxTLS)
    (L : NoxTLSLaws T) depth (w w' : world netnox_ssh_client_t E) :
  client_wf (ctx w) -> zlen (inbox (env w)) <= Z.of_nat depth ->
  netnox_ssh_exchange_kexinit (netnox_ssh_wait_for_message depth) w = (Ok tt, w') ->
  keyed (ctx w') /\ client_wf (ctx w') /\ kex_frame (ctx w) (ctx w').
Proof.
  intros Hwf Hn Hrun.
  by destruct (triple_run _ _ _ _ _ _ _ _ (exchange_spec _ _ (fun _ => True) (wait_spec depth _ Hn))
    Hwf (Z.le_refl _) I Hrun) as (? & ? & _ & ? & _).
Qed.

(** [netnox_ssh_wait_for_message] hands out a message of one of the two expected
    types that fits the caller's buffer, and keeps a keyed session keyed, whatever
    else arrives and however many key exchanges the server starts in between. *)
Theorem wait_for_message_keeps_session E (H : Host E) (HL : HostLaws E) (T : NoxTLS)
    (L : NoxTLSLaws T) depth a b max p (w w' : world netnox_ssh_client_t E) :
  client_wf (ctx w) -> zlen (inbox (env w)) <= Z.of_nat depth -> keyed (ctx w) ->
  netnox_ssh_wait_for_message depth a b max w = (Ok p, w') ->
  message_of a b max p /\ keyed (ctx w') /\ client_wf (ctx w') /\ kex_frame (ctx w) (ctx w').
Proof.
  intros Hwf Hn Hk Hrun.
  pose proof (wp_run _ _ _ _ _ (wait_spec depth _ Hn keyed a b max stable_keyed
    (fun _ H => H) w Hwf ltac:(done) Hk) Hrun) as (? & ? & _ & ? & ?). by split_and!.
Qed.

(** The mutual recursion of message loop and key exchange ends: with nesting
    depth for every byte the server has sent, [netnox_ssh_wait_for_message] and
    [netnox_ssh_exchange_kexinit] return, on every outcome with a well-formed
    context and the non-key-exchange fields untouched. *)
Theorem kex_terminates E (H : Host E) (HL : HostLaws E) (T : NoxTLS) (L : NoxTLSLaws T)
    depth a b max (w : world netnox_ssh_client_t E) :
  client_wf (ctx w) -> zlen (inbox (env w)) <= Z.of_nat depth ->
  let r1 := netnox_ssh_exchange_kexinit (netnox_ssh_wait_for_message depth) w in
  let r2 := netnox_ssh_wait_for_message depth a b max w in
  (r1.1 <> Diverge /\ client_wf (ctx r1.2) /\ kex_frame (ctx w) (ctx r1.2)) /\
  (r2.1 <> Diverge /\ client_wf (ctx r2.2) /\ kex_frame (ctx w) (ctx r2.2)).
Proof.
  intros Hwf Hn r1 r2. split.
  - destruct r1 as [o w1] eqn:Er.
    pose proof (wp_run _ _ _ _ _ (exchange_spec _ _ (fun _ => True) (wait_spec depth _ Hn) w Hwf
      ltac:(done) I) Er) as (? & ? & Ho). split_and!; [by destruct o|done..].
  - destruct r2 as [o w2] eqn:Er.
    pose proof (wp_run _ _ _ _ _ (wait_spec depth _ Hn (fun _ => True) a b max stable_any
      ltac:(done) w Hwf ltac:(done) I) Er) as (? & ? & Ho). split_and!; [by destruct o|done..].
Qed.

(** ** Witnesses *)

Import SampleInstances.

(** A server of the sample primitives: its KEXINIT, the signed reply, NEWKEYS. *)
Definition sample_kex_world (bytes : list Z) : world netnox_ssh_client_t sample_env :=
  mkWorld (client_zero <| send_cb_set := true |> <| recv_cb_set := true |>
             <| transport := transport_zero <| connected := true |>
                  <| client_ident := bs "SSH-2.0-a" |> <| server_ident := bs "SSH-2.0-b" |> |>)
    (mkSample bytes [] 0) true.

Definition sample_host_key : list Z := be_bytes 32 77.
Definition sample_host_blob : list Z := str_field alg_ed25519 ++ str_field sample_host_key.
Definition sample_signature (h : list Z) : list Z :=
  str_field alg_ed25519 ++ str_field (sample_sig sample_host_key h).
Definition sample_server_kexinit : list Z := kexinit_payload server_offer (zeros 16).
Definition sample_client_kexinit : list Z :=
  match netnox_ssh_build_kexinit_payload 1024 (sample_kex_world []) with
  | (Ok tx, _) => tx
  | _ => []
  end.
Definition sample_pub_s : list Z := be_bytes 32 45.
Definition sample_exchange_hash : list Z :=
  sample_hash (transcript (transport (ctx (sample_kex_world []))
      <| kexinit_client_payload := sample_client_kexinit |>
      <| kexinit_server_payload := sample_server_kexinit |>)
    sample_host_blob (be_bytes 32 27) sample_pub_s (be_bytes 32 (3 * 45))).
Definition sample_reply : list Z :=
  NETNOX_SSH_MSG_KEX_ECDH_REPLY :: str_field sample_host_blob ++ str_field sample_pub_s ++
    str_field (sample_signature sample_exchange_hash).
Definition sample_server_bytes : list Z :=
  concat ((fun p => packet p (zeros 4)) <$>
    [sample_server_kexinit; sample_reply; [NETNOX_SSH_MSG_NEWKEYS]]).
Definition sample_kexed : world netnox_ssh_client_t sample_env :=
  snd (netnox_ssh_exchange_kexinit (netnox_ssh_wait_for_message 2000)
         (sample_kex_world sample_server_bytes)).

Lemma sample_kex_ok : (netnox_ssh_exchange_kexinit (netnox_ssh_wait_for_message 2000)
    (sample_kex_world sample_server_bytes)).1 = Ok tt.
Proof. vm_compute. reflexivity. Qed.

Lemma sample_kex_runs :
  netnox_ssh_exchange_kexinit (netnox_ssh_wait_for_message 2000)
    (sample_kex_world sample_server_bytes) = (Ok tt, sample_kexed).
Proof.
  rewrite (surjective_pairing (netnox_ssh_exchange_kexinit _ _)), sample_kex_ok. unfold sample_kexed.
  reflexivity.
Qed.

(** A world in which the server goes on with [payloads]. *)
Definition session_world (w : world netnox_ssh_client_t sample_env) (payloads : list (list Z))
    : world netnox_ssh_client_t sample_env :=
  let bytes := foldl (fun '(out, d) p =>
    (out ++ wire d (packet p (zeros 14)), advance d (packet p (zeros 14))))
    ([], server_to_client (transport (ctx w))) payloads in
  w <| env := mkSample bytes.1 [] 0 |>.

Lemma session_world_ctx w ps : ctx (session_world w ps) = ctx w.
Proof. done. Qed.

#[local] Opaque sample_kexed.

Lemma transport_zero_wf t : transport_wf (transport_zero <| client_ident := bs "SSH-2.0-a" |>
  <| server_ident := bs "SSH-2.0-b" |> <| connected := t |>).
Proof. unfold transport_wf, direction_wf. simpl. split_and!; done || lia || auto with noxssh. Qed.

Lemma sample_kex_wf bytes : client_wf (ctx (sample_kex_world bytes)).
Proof. apply (transport_zero_wf true). Qed.

Lemma sample_kexed_ok : keyed (ctx sample_kexed) /\ client_wf (ctx sample_kexed).
Proof.
  pose proof (wp_run _ _ _ _ _ (exchange_spec _ _ (fun _ => True) (wait_spec 2000 2000 ltac:(lia))
    (sample_kex_world sample_server_bytes) (sample_kex_wf _) ltac:(by vm_compute) I) sample_kex_runs)
    as (? & _ & _ & ? & _). by split.
Qed.

Lemma verify_signature_sound_witness :
  host_signed (H:=sample_noxtls) sample_host_blob (zeros 32).
Proof.
  apply (verify_signature_sound sample_noxtls
    (mkView (sample_host_blob ++ [1; 2]) (zlen sample_host_blob)) sample_host_blob
    (mkView (sample_signature (zeros 32)) (zlen (sample_signature (zeros 32)))));
    [done|apply (bool_decide_unpack _); by vm_compute|done|by vm_compute].
Defined.

Lemma exchange_kexinit_authenticates_witness :
  keyed (ctx sample_kexed) /\ client_wf (ctx sample_kexed) /\
  kex_frame (ctx (sample_kex_world sample_server_bytes)) (ctx sample_kexed).
Proof.
  apply (exchange_kexinit_authenticates sample_env sample_host sample_host_laws sample_noxtls
    sample_laws 2000 (sample_kex_world sample_server_bytes));
    [apply sample_kex_wf|by vm_compute|apply sample_kex_runs].
Defined.

(** A session in which the server sends an ignored message and then SERVICE_ACCEPT. *)
Lemma wait_for_message_keeps_session_witness :
  keyed (ctx sample_kexed) /\
  exists w', netnox_ssh_wait_for_message 2000 6 255 100 (session_world sample_kexed [[2; 0]; [6; 1]]) = (Ok [6; 1], w') /\
    message_of 6 255 100 [6; 1] /\ keyed (ctx w').
Proof.
  destruct (netnox_ssh_wait_for_message 2000 6 255 100 (session_world sample_kexed [[2; 0]; [6; 1]]))
    as [o w'] eqn:Er.
  assert (Ho : o = Ok [6; 1]).
  { change o with (o, w').1. rewrite <- Er. clear Er. vm_compute. reflexivity. }
  subst o. destruct sample_kexed_ok as [Hk Hwf]. split; [exact Hk|].
  rewrite <- (session_world_ctx sample_kexed [[2; 0]; [6; 1]]) in Hk, Hwf. exists w'. split; [reflexivity|].
  destruct (wait_for_message_keeps_session sample_env sample_host sample_host_laws sample_noxtls
    sample_laws 2000 6 255 100 [6; 1] (session_world sample_kexed [[2; 0]; [6; 1]]) w' Hwf
    ltac:(by vm_compute) Hk Er) as (? & ? & _). by split.
Defined.

Lemma kex_terminates_witness :
  (netnox_ssh_exchange_kexinit (netnox_ssh_wait_for_message 2000)
     (sample_kex_world sample_server_bytes)).1 <> Diverge.
Proof.
  apply (kex_terminates sample_env sample_host sample_host_laws sample_noxtls sample_laws 2000 6 255
    100 (sample_kex_world sample_server_bytes)); [apply sample_kex_wf|by vm_compute].
Defined.
