(* ===== verification/ClientSession.v ===== *)
(** The client API (common/noxssh_common.c): initialisation, connect, service
    negotiation, user authentication, the session channel, its data and its close. *)

From S2P Require Export ClientKex Fields.

(** ** Constants *)

Definition NETNOX_SSH_DEFAULT_PORT : Z := 22.
Definition NETNOX_SSH_DEFAULT_CLIENT_IDENT : list Z := bs "SSH-2.0-noxssh_0.1".
Definition NETNOX_SSH_HOST_KEY_FINGERPRINT_LEN : Z := 32.

Section session.
Context {E : Type} `{Host E} `{NoxTLS}.

(** The bound on nested key exchanges. *)
Context (depth : nat).

Abbreviation C := (M (world netnox_ssh_client_t E)).

Local Abbreviation wait := (netnox_ssh_wait_for_message depth).

(** ** Configuration (the client, string and buffer pointers are not NULL) *)

Definition netnox_ssh_client_init (port_arg : Z) : C unit :=
  set_client (fun _ => client_zero <| port := if port_arg =? 0 then NETNOX_SSH_DEFAULT_PORT else port_arg |>);;
  t ← tr;
  ident ← lift (netnox_ssh_copy_string (client_ident t) NETNOX_SSH_DEFAULT_CLIENT_IDENT);
  set_tr (fun t => t <| client_ident := ident |>).

Definition netnox_ssh_client_set_io_callbacks (send recv : bool) : C unit :=
  set_client (fun c => c <| send_cb_set := send |> <| recv_cb_set := recv |>).

Definition netnox_ssh_client_set_identification (ident : list Z) : C unit :=
  t ← tr;
  ident ← lift (netnox_ssh_copy_string (client_ident t) ident);
  set_tr (fun t => t <| client_ident := ident |>).

Definition netnox_ssh_client_set_target (user target : list Z) : C unit :=
  c ← client_;
  user ← lift (netnox_ssh_copy_string (username c) user);
  set_client (fun c => c <| username := user |>);;
  target ← lift (netnox_ssh_copy_string (host c) target);
  set_client (fun c => c <| host := target |>).

Definition netnox_ssh_client_set_password (pw : list Z) : C unit :=
  c ← client_;
  pw ← lift (netnox_ssh_copy_string (password c) pw);
  set_client (fun c => c <| password := pw |>).

Definition netnox_ssh_client_set_ed25519_private_key (private_key : list Z) : C unit :=
  set_client (fun c => c <| ed25519_private_key := private_key |>);;
  let '(ok, public_key) := noxtls_ed25519_public_key private_key in
  if ok then
    set_client (fun c => c <| ed25519_public_key := public_key |> <| has_ed25519_key := true |>)
  else
    set_client (fun c => c <| has_ed25519_key := false |>);;
    fail NETNOX_RETURN_FAILED.

(** ** Connecting *)

(** The loop over the server's lines before its identification. *)
Fixpoint banner_loop (n : nat) : C unit :=
  match n with
  | O => fail NETNOX_RETURN_FAILED
  | S n =>
      netnox_ssh_recv_line;;
      t ← tr;
      if netnox_ssh_is_ident_line (server_ident t) then
        set_tr (fun t => t <| connected := true |>);;
        netnox_ssh_exchange_kexinit wait
      else banner_loop n
  end.

Definition netnox_ssh_client_connect : C unit :=
  c ← client_;
  guard_m (send_cb_set c && recv_cb_set c) NETNOX_RETURN_BAD_PARAM;;
  guard_m (nonempty (client_ident (transport c))) NETNOX_RETURN_BAD_PARAM;;
  try (netnox_ssh_send_all (tx_ident (client_ident (transport c))));;
  banner_loop NETNOX_SSH_MAX_BANNER_LINES.

(** ** Services *)

Definition netnox_ssh_send_service_request (service : list Z) : C unit :=
  payload ← lift (append_fields [] 128 [FU8 NETNOX_SSH_MSG_SERVICE_REQUEST; FStr service]);
  netnox_ssh_send_packet payload.

(** The common part of the two negotiations: request, and check the accepted name. *)
Definition negotiate_service (service : list Z) : C unit :=
  try (netnox_ssh_send_service_request service);;
  payload ← try (wait NETNOX_SSH_MSG_SERVICE_ACCEPT 255 256);
  guard_m (is_message payload NETNOX_SSH_MSG_SERVICE_ACCEPT) NETNOX_RETURN_FAILED;;
  '(svc, _) ← try (lift (read_view payload 1));
  same ← lift (view_is svc service);
  guard_m same NETNOX_RETURN_FAILED.

Definition netnox_ssh_negotiate_userauth_service : C unit :=
  negotiate_service NETNOX_SSH_SERVICE_USERAUTH;;
  set_tr (fun t => t <| userauth_service_ready := true |>).

Definition netnox_ssh_negotiate_connection_service : C unit :=
  negotiate_service NETNOX_SSH_SERVICE_CONNECTION;;
  set_tr (fun t => t <| connection_service_ready := true |>).

(** ** User authentication *)

Definition password_request (user pw : list Z) : list field :=
  [FU8 NETNOX_SSH_MSG_USERAUTH_REQUEST; FStr user; FStr NETNOX_SSH_SERVICE_CONNECTION;
   FStr NETNOX_SSH_AUTH_METHOD_PASSWORD; FU8 0; FStr pw].

Definition netnox_ssh_send_userauth_password : C unit :=
  c ← client_;
  payload ← lift (append_fields [] 512 (password_request (cstr (username c)) (cstr (password c))));
  netnox_ssh_send_packet payload.

Definition publickey_request (user blob : list Z) : list field :=
  [FU8 NETNOX_SSH_MSG_USERAUTH_REQUEST; FStr user; FStr NETNOX_SSH_SERVICE_CONNECTION;
   FStr NETNOX_SSH_AUTH_METHOD_PUBLICKEY; FU8 1; FStr NETNOX_SSH_KEYALG_ED25519; FStr blob].

Definition netnox_ssh_send_userauth_publickey_ed25519 : C unit :=
  c ← client_;
  let t := transport c in
  guard_m (has_ed25519_key c && negb (session_id_len t =? 0)) NETNOX_RETURN_BAD_PARAM;;
  pubkey_blob ← lift (append_fields [] 256
                        [FStr NETNOX_SSH_KEYALG_ED25519; FStr (ed25519_public_key c)]);
  payload ← lift (append_fields [] 1024 (publickey_request (cstr (username c)) pubkey_blob));
  sid ← lift (mem_read (session_id t) 0 (session_id_len t));
  to_sign ← lift (append_fields [] 1400 [FStr sid]);
  guard_m (u32 (zlen to_sign + zlen payload) <=? 1400) NETNOX_RETURN_FAILED;;
  let '(ok, signature) := noxtls_ed25519_sign (ed25519_private_key c) (to_sign ++ payload) in
  guard_m ok NETNOX_RETURN_FAILED;;
  sig_blob ← lift (append_fields [] 256 [FStr NETNOX_SSH_KEYALG_ED25519; FStr signature]);
  payload ← lift (append_fields payload 1024 [FStr sig_blob]);
  netnox_ssh_send_packet payload.

Definition netnox_ssh_wait_userauth_result : C unit :=
  payload ← try (wait NETNOX_SSH_MSG_USERAUTH_SUCCESS NETNOX_SSH_MSG_USERAUTH_FAILURE 512);
  match payload with
  | [] => fail NETNOX_RETURN_FAILED
  | type :: _ =>
      if type =? NETNOX_SSH_MSG_USERAUTH_SUCCESS then
        set_tr (fun t => t <| authenticated := true |>)
      else if type =? NETNOX_SSH_MSG_USERAUTH_FAILURE then fail NETNOX_RETURN_AUTH_REJECTED
      else fail NETNOX_RETURN_FAILED
  end.

(** The password attempt; [attempted]: the public key was tried. *)
Definition authenticate_password (attempted : bool) : C unit :=
  c ← client_;
  if nonempty (password c) then
    try netnox_ssh_send_userauth_password;;
    auth_rc ← return_code netnox_ssh_wait_userauth_result;
    match auth_rc with
    | NETNOX_RETURN_SUCCESS => mret tt
    | NETNOX_RETURN_AUTH_REJECTED => fail NETNOX_RETURN_AUTH_REJECTED
    | _ => fail NETNOX_RETURN_FAILED
    end
  else if attempted then fail NETNOX_RETURN_AUTH_REJECTED
  else fail NETNOX_RETURN_BAD_PARAM.

Definition netnox_ssh_client_authenticate : C unit :=
  c ← client_;
  let t := transport c in
  guard_m (connected t && kexinit_exchanged t && key_exchange_complete t) NETNOX_RETURN_BAD_PARAM;;
  guard_m (nonempty (username c)) NETNOX_RETURN_BAD_PARAM;;
  (if userauth_service_ready t then mret tt else try netnox_ssh_negotiate_userauth_service);;
  c ← client_;
  if has_ed25519_key c then
    try netnox_ssh_send_userauth_publickey_ed25519;;
    auth_rc ← return_code netnox_ssh_wait_userauth_result;
    match auth_rc with
    | NETNOX_RETURN_SUCCESS => mret tt
    | NETNOX_RETURN_AUTH_REJECTED => authenticate_password true
    | _ => fail NETNOX_RETURN_FAILED
    end
  else authenticate_password false.

(** ** The session channel *)

Definition netnox_ssh_send_channel_open_session : C unit :=
  t ← tr;
  payload ← lift (append_fields [] 256
    [FU8 NETNOX_SSH_MSG_CHANNEL_OPEN; FStr NETNOX_SSH_CHANNEL_TYPE_SESSION;
     FU32 (local_channel_id t); FU32 (local_window_size t); FU32 NETNOX_SSH_CHANNEL_MAX_PACKET_SIZE]);
  netnox_ssh_send_packet payload.

Definition netnox_ssh_client_open_session : C unit :=
  t ← tr;
  guard_m (connected t && kexinit_exchanged t && key_exchange_complete t && authenticated t)
    NETNOX_RETURN_BAD_PARAM;;
  set_tr (fun t => t <| local_channel_id := 0 |> <| local_window_size := NETNOX_SSH_CHANNEL_WINDOW_SIZE |>);;
  (if connection_service_ready t then mret tt else try netnox_ssh_negotiate_connection_service);;
  try netnox_ssh_send_channel_open_session;;
  payload ← try (wait NETNOX_SSH_MSG_CHANNEL_OPEN_CONFIRMATION NETNOX_SSH_MSG_CHANNEL_OPEN_FAILURE 512);
  guard_m (is_message payload NETNOX_SSH_MSG_CHANNEL_OPEN_CONFIRMATION) NETNOX_RETURN_FAILED;;
  '(recipient_channel, offset) ← try (lift (read_u32 payload 1));
  '(sender_channel, offset) ← try (lift (read_u32 payload offset));
  '(initial_window, offset) ← try (lift (read_u32 payload offset));
  '(max_packet, _) ← try (lift (read_u32 payload offset));
  t ← tr;
  guard_m (recipient_channel =? local_channel_id t) NETNOX_RETURN_FAILED;;
  set_tr (fun t => t <| remote_channel_id := sender_channel |> <| remote_window_size := initial_window |>
                     <| remote_max_packet_size := max_packet |> <| channel_open := true |>).

(** The test that opens exec and request_shell_ex. *)
Definition channel_ready (t : ssh_transport_t) : bool :=
  connected t && kexinit_exchanged t && key_exchange_complete t && channel_open t.

(** Send a channel request and wait for CHANNEL_SUCCESS. *)
Definition channel_request (payload : list Z) : C unit :=
  try (netnox_ssh_send_packet payload);;
  rsp ← try (wait NETNOX_SSH_MSG_CHANNEL_SUCCESS NETNOX_SSH_MSG_CHANNEL_FAILURE 256);
  guard_m (is_message rsp NETNOX_SSH_MSG_CHANNEL_SUCCESS) NETNOX_RETURN_FAILED.

Definition netnox_ssh_client_exec (command : list Z) : C unit :=
  t ← tr;
  guard_m (channel_ready t) NETNOX_RETURN_BAD_PARAM;;
  guard_m (zlen command <=? NETNOX_SSH_MAX_COMMAND_LEN) NETNOX_RETURN_BAD_PARAM;;
  payload ← lift (append_fields [] 1024
    [FU8 NETNOX_SSH_MSG_CHANNEL_REQUEST; FU32 (remote_channel_id t);
     FStr NETNOX_SSH_CHANNEL_REQ_EXEC; FU8 1; FStr command]);
  channel_request payload.

Definition netnox_ssh_client_request_shell_ex (request_pty : bool) : C unit :=
  t ← tr;
  guard_m (channel_ready t) NETNOX_RETURN_BAD_PARAM;;
  (if request_pty then
     payload ← lift (append_fields [] 512
       [FU8 NETNOX_SSH_MSG_CHANNEL_REQUEST; FU32 (remote_channel_id t); FStr (bs "pty-req"); FU8 1;
        FStr (bs "xterm-256color"); FU32 80; FU32 24; FU32 0; FU32 0; FStr []]);
     channel_request payload
   else mret tt);;
  t ← tr;
  payload ← lift (append_fields [] 512
    [FU8 NETNOX_SSH_MSG_CHANNEL_REQUEST; FU32 (remote_channel_id t);
     FStr NETNOX_SSH_CHANNEL_REQ_SHELL; FU8 1]);
  channel_request payload.

Definition netnox_ssh_client_request_shell : C unit := netnox_ssh_client_request_shell_ex true.

(** ** Data *)

(** [netnox_ssh_client_send_data(client, data, len)] with [len = zlen data]. *)
Definition netnox_ssh_client_send_data (data : list Z) : C unit :=
  let len := zlen data in
  guard_m (negb (len =? 0) && (len <=? NETNOX_SSH_MAX_DATA_LEN)) NETNOX_RETURN_BAD_PARAM;;
  t ← tr;
  guard_m (connected t && channel_open t) NETNOX_RETURN_BAD_PARAM;;
  let chunk_len :=
    if negb (remote_max_packet_size t =? 0) && (len >? remote_max_packet_size t)
    then remote_max_packet_size t else len in
  let chunk_len := if chunk_len >? NETNOX_SSH_MAX_DATA_LEN then NETNOX_SSH_MAX_DATA_LEN else chunk_len in
  payload ← lift (append_fields [] (4 + 1 + 4 + 4 + NETNOX_SSH_MAX_DATA_LEN)
    [FU8 NETNOX_SSH_MSG_CHANNEL_DATA; FU32 (remote_channel_id t); FStr (ztake chunk_len data)]);
  netnox_ssh_send_packet payload.

Definition netnox_ssh_client_send_keepalive : C unit :=
  t ← tr;
  guard_m (connected t && key_exchange_complete t) NETNOX_RETURN_BAD_PARAM;;
  payload ← lift (append_fields [] 5 [FU8 NETNOX_SSH_MSG_IGNORE; FU32 0]);
  netnox_ssh_send_packet payload.

Definition netnox_ssh_client_rekey : C unit :=
  t ← tr;
  guard_m (connected t && key_exchange_complete t) NETNOX_RETURN_BAD_PARAM;;
  netnox_ssh_exchange_kexinit wait.

(** [memcpy(data, str_data, min( *len, str_len))] *)
Definition copy_data (len : Z) (str : view) : C (list Z) :=
  lift (mem_read (v_mem str) 0 (if len <? v_len str then len else v_len str)).

(** The recipient channel at the head of a channel message, checked. *)
Definition for_our_channel (payload : list Z) : C Z :=
  '(recipient_channel, offset) ← try (lift (read_u32 payload 1));
  t ← tr;
  guard_m (recipient_channel =? local_channel_id t) NETNOX_RETURN_FAILED;;
  mret offset.

(** The branch of SSH_MSG_CHANNEL_REQUEST: record an exit status. *)
Definition recv_request (payload : list Z) : C unit :=
  offset ← for_our_channel payload;
  '(req_type, offset) ← try (lift (read_view payload offset));
  guard_m (offset <? zlen payload) NETNOX_RETURN_FAILED;;
  let offset := u32 (offset + 1) in
  exit_request ← lift (view_is req_type (bs "exit-status"));
  if (exit_request : bool) then
    '(exit_status, _) ← try (lift (read_u32 payload offset));
    set_client (fun c => c <| remote_exit_status := exit_status |> <| remote_exit_status_valid := true |>)
  else mret tt.

(** One message in the [for(;;)] loop: [None] is [continue]. *)
Definition recv_data_handle (len : Z) (payload : list Z) : C (option (list Z)) :=
  match payload with
  | [] => mret None
  | type :: _ =>
      if type =? NETNOX_SSH_MSG_KEXINIT then
        try (netnox_ssh_handle_server_kexinit wait payload);; mret None
      else if type =? NETNOX_SSH_MSG_CHANNEL_DATA then
        offset ← for_our_channel payload;
        '(str, _) ← try (lift (read_view payload offset));
        data ← copy_data len str;
        mret (Some data)
      else if type =? NETNOX_SSH_MSG_CHANNEL_EXTENDED_DATA then
        offset ← for_our_channel payload;
        '(_, offset) ← try (lift (read_u32 payload offset));
        '(str, _) ← try (lift (read_view payload offset));
        data ← copy_data len str;
        mret (Some data)
      else if type =? NETNOX_SSH_MSG_CHANNEL_REQUEST then
        recv_request payload;; mret None
      else if type =? NETNOX_SSH_MSG_CHANNEL_EOF then mret (Some [])
      else if type =? NETNOX_SSH_MSG_CHANNEL_CLOSE then
        set_tr (fun t => t <| channel_open := false |>);; mret (Some [])
      else mret None
  end.

Definition recv_data_step (len : Z) : C (option (list Z)) :=
  payload ← try (netnox_ssh_recv_packet NETNOX_SSH_MAX_PACKET_LEN);
  recv_data_handle len payload.

Fixpoint recv_data_loop (fuel : nat) (len : Z) : C (list Z) :=
  match fuel with
  | O => lift Diverge
  | S fuel =>
      r ← recv_data_step len;
      match r with Some data => mret data | None => recv_data_loop fuel len end
  end.

(** [len] is the capacity in [*len]; the result is the bytes stored and the new [*len]. *)
Definition netnox_ssh_client_recv_data (len : Z) : C (list Z) :=
  guard_m (negb (len =? 0) && (len <=? NETNOX_SSH_MAX_DATA_LEN)) NETNOX_RETURN_BAD_PARAM;;
  t ← tr;
  guard_m (connected t && channel_open t) NETNOX_RETURN_BAD_PARAM;;
  recv_data_loop (S depth) len.

(** ** Queries and close *)

Definition netnox_ssh_client_get_server_ident (c : netnox_ssh_client_t) : option (list Z) :=
  if nonempty (server_ident (transport c)) then Some (cstr (server_ident (transport c))) else None.

(** [room] is [*inout_len]; the second component is its new value. *)
Definition netnox_ssh_client_get_server_host_key_fingerprint (c : netnox_ssh_client_t) (room : Z)
    : outcome (list Z) * Z :=
  if negb (server_host_key_ready c) then (Err NETNOX_RETURN_FAILED, room)
  else if room <? NETNOX_SSH_HOST_KEY_FINGERPRINT_LEN
  then (Err NETNOX_RETURN_BAD_PARAM, NETNOX_SSH_HOST_KEY_FINGERPRINT_LEN)
  else (Ok (server_host_key_fingerprint c), NETNOX_SSH_HOST_KEY_FINGERPRINT_LEN).

Definition netnox_ssh_client_get_remote_exit_status (c : netnox_ssh_client_t) : outcome Z :=
  _ ← check (remote_exit_status_valid c) NETNOX_RETURN_FAILED;
  Ok (remote_exit_status c).

Definition close_transport (t : ssh_transport_t) : ssh_transport_t :=
  t <| connected := false |> <| kexinit_exchanged := false |> <| key_exchange_complete := false |>
    <| pending_newkeys := [] |> <| userauth_service_ready := false |>
    <| connection_service_ready := false |> <| authenticated := false |> <| channel_open := false |>
    <| local_channel_id := 0 |> <| remote_channel_id := 0 |> <| local_window_size := 0 |>
    <| remote_window_size := 0 |> <| remote_max_packet_size := 0 |>
    <| server_ident := <[0%nat := 0]> (server_ident t) |>.

Definition netnox_ssh_client_close : C unit :=
  set_client (fun c =>
    c <| transport := close_transport (transport c) |> <| server_host_key_blob := [] |>
      <| server_host_key_ready := false |> <| ed25519_private_key := zeros 32 |>
      <| ed25519_public_key := zeros 32 |> <| has_ed25519_key := false |>
      <| remote_exit_status_valid := false |> <| remote_exit_status := 0 |>).
End session.
