(* ===== verification/ClientSessionSpec.v ===== *)
(** What the client API guarantees: the invariant of the context over every sequence
    of calls, the requests it sends, what connect, authentication and the channel
    establish, and the data it delivers. *)

From S2P Require Export ClientKexSpec ClientSession.

(** ** Specification: the API invariant *)

(** A char array of [n] bytes whose last byte is NUL: [strlen] stays inside it. *)
Definition c_array (n : nat) (s : list Z) : Prop := length s = n /\ s !! (n - 1)%nat = Some 0.

Definition arrays_ok (c : netnox_ssh_client_t) : Prop :=
  c_array 65 (username c) /\ c_array 256 (host c) /\ c_array 129 (password c) /\
  c_array 256 (client_ident (transport c)) /\ c_array 256 (server_ident (transport c)) /\
  length (ed25519_private_key c) = 32%nat /\ length (ed25519_public_key c) = 32%nat.

(** The order of the phases: key exchange, authentication, channel. *)
Definition kex_up (t : ssh_transport_t) : Prop :=
  connected t = true /\ kexinit_exchanged t = true /\ key_exchange_complete t = true.
Definition flags_ok (t : ssh_transport_t) : Prop :=
  (userauth_service_ready t = true -> kex_up t) /\
  (authenticated t = true -> kex_up t) /\
  (connection_service_ready t = true -> authenticated t = true) /\
  (channel_open t = true -> authenticated t = true).

Definition api_inv `{NoxTLSLaws} (c : netnox_ssh_client_t) : Prop :=
  client_wf c /\ arrays_ok c /\ flags_ok (transport c).

(** What the caller configured. *)
Definition config_part (c : netnox_ssh_client_t) :=
  (send_cb_set c, recv_cb_set c, username c, host c, password c, ed25519_private_key c,
   ed25519_public_key c, has_ed25519_key c, port c, client_ident (transport c)).
Definition same_config (c c' : netnox_ssh_client_t) : Prop := config_part c' = config_part c.

Lemma same_config_refl c : same_config c c.
Proof. done. Qed.
Lemma same_config_trans c1 c2 c3 : same_config c1 c2 -> same_config c2 c3 -> same_config c1 c3.
Proof. unfold same_config. congruence. Qed.
Definition session_logic `{NoxTLSLaws} : logic netnox_ssh_client_t :=
  mkLogic api_inv same_config same_config_refl same_config_trans.

(** ** Facts: C strings *)

Lemma cstr_c_array n s : (0 < n)%nat -> c_array n s -> (length (cstr s) < n)%nat.
Proof.
  intros Hn [Hl Hz]. revert n Hn Hl Hz. induction s as [|b s IH]; intros n Hn Hl Hz; [done|].
  simpl. destruct (Z.eqb_spec b 0); [simpl; lia|]. simpl in *. subst n. destruct s as [|b' s].
  - simpl in Hz. congruence.
  - simpl in *. specialize (IH (S (length s)) ltac:(lia) eq_refl).
    replace (S (length s) - 1)%nat with (length s) in IH by lia. specialize (IH Hz). lia.
Qed.

Lemma cstr_app_nul s post : cstr (s ++ 0 :: post) = cstr s.
Proof. induction s as [|b s IH]; [done|]. simpl. by rewrite IH. Qed.

Lemma c_array_zeros n : (0 < n)%nat -> c_array n (zeros n).
Proof.
  intros Hn. unfold c_array, zeros. rewrite length_replicate. split; [done|].
  apply lookup_replicate_2. lia.
Qed.

Lemma copy_string_spec n dst src : c_array n dst -> (0 < n)%nat ->
  netnox_ssh_copy_string dst src =
    (if zlen src >? Z.of_nat n - 1 then Err NETNOX_RETURN_BAD_PARAM
     else Ok (src ++ 0 :: zdrop (zlen src + 1) dst)) /\
  (zlen src <= Z.of_nat n - 1 -> c_array n (src ++ 0 :: zdrop (zlen src + 1) dst)).
Proof.
  intros [Hl Hz] Hn. unfold netnox_ssh_copy_string, mem_write. rewrite Hl. split.
  - destruct (Z.eqb_spec (Z.of_nat n) 0); [lia|]. simpl. case_match; [done|].
    rewrite length_app. simpl length. case_match; [|lia].
    change (ztake 0 dst) with (@nil Z). rewrite <- app_assoc. simpl. do 4 f_equal. lia.
  - intros Hs. unfold c_array, zdrop. rewrite length_app. simpl. rewrite length_drop.
    split; [lia|]. rewrite lookup_app_r by lia.
    destruct (decide (length src = n - 1)%nat) as [E|E].
    + by replace (n - 1 - length src)%nat with 0%nat by lia.
    + replace (n - 1 - length src)%nat with (S (n - 2 - length src)) by lia. simpl.
      rewrite lookup_drop. rewrite <- Hz. f_equal. lia.
Qed.

(** Replace the fields of one record by the equal fields of another. *)
Ltac rewrite_eqs :=
  repeat match goal with Hq : ?x = ?y |- context [?x] => rewrite Hq; clear Hq end.

(** ** Predicates that survive the session's own bookkeeping *)

Definition kex_part (c : netnox_ssh_client_t) :=
  let t := transport c in
  (server_host_key_ready c, server_host_key_fingerprint c, server_host_key_blob c,
   session_id_len t, session_id t, shared_secret_raw t,
   (client_ident t, server_ident t, kexinit_client_payload t, kexinit_server_payload t),
   (c2s_iv t, s2c_iv t, c2s_key t, s2c_key t, c2s_mac_key t, s2c_mac_key t),
   key_exchange_complete t).

(** A property of the key exchange that every completed exchange re-establishes:
    nothing at all, or [keyed]. *)
Definition session_pred `{NoxTLSLaws} (P : netnox_ssh_client_t -> Prop) : Prop :=
  (forall c c', kex_part c' = kex_part c -> P c -> P c') /\ (forall c, keyed c -> P c).

Section session.
Context {E : Type} `{HostLaws E} {T : NoxTLS} {L : NoxTLSLaws T}.
Context (depth : nat).
Implicit Types w : world netnox_ssh_client_t E.
Implicit Types P : netnox_ssh_client_t -> Prop.

Local Abbreviation sspec := (triple (E:=E) session_logic (Z.of_nat depth)).

Lemma session_pred_any : session_pred (fun _ => True).
Proof. done. Qed.
Lemma session_pred_keyed : session_pred keyed.
Proof.
  split; [|done]. intros c c' Hk. unfold kex_part in Hk. injection Hk; intros.
  unfold keyed, established, verified_exchange, transcript, keys_are. by rewrite_eqs.
Qed.
Lemma session_pred_stable P : session_pred P -> stable P.
Proof.
  intros [HP _] c c' Hot Hfr. apply HP. unfold kex_part. rewrite Hot. simpl.
  by destruct Hfr as [Hf | Hf]; rewrite Hf.
Qed.

(** Key exchange steps are steps of the session. *)
Lemma kex_frame_inv c c' : api_inv c -> client_wf c' -> kex_frame c c' -> api_inv c' /\ same_config c c'.
Proof.
  intros (_ & Ha & Hf) Hwf (Happ & Hses & Hk1 & Hk2). unfold app_part, session_part in *.
  injection Happ; intros. injection Hses; intros. split.
  - split; [done|]. split; [unfold arrays_ok; by rewrite_eqs|].
    unfold flags_ok, kex_up in *. rewrite_eqs. tauto.
  - unfold same_config, config_part. by rewrite_eqs.
Qed.

Lemma sspec_kex n P {A} (Q : A -> _ -> Prop) m :
  triple (E:=E) kex_logic n P Q m -> triple session_logic n P Q m.
Proof.
  intros Hm w Hi Hn HP. eapply wp_mono; [apply Hm; [apply Hi|done|done]|].
  intros o w' (Hwf & Hfr & Ho). destruct (kex_frame_inv _ _ Hi Hwf Hfr). by split.
Qed.

(** A phase of the session: facts [G] of the transport fields which a key exchange
    step keeps, such as [kex_up]. *)
Class kex_fact (G : ssh_transport_t -> Prop) : Prop :=
  kex_fact_frame : forall c c', kex_frame c c' -> G (transport c) -> G (transport c').
Definition phase P (G : ssh_transport_t -> Prop) (c : netnox_ssh_client_t) : Prop :=
  P c /\ G (transport c).

#[local] Instance kex_fact_up : kex_fact kex_up.
Proof.
  intros c c' (_ & Hses & Hk1 & Hk2) (? & ? & ?). unfold session_part in Hses. injection Hses; intros.
  unfold kex_up. split_and!; [congruence|auto|auto].
Qed.

(** The phase in which a channel is requested or in use. *)
Definition channel_phase (local : Z) (t : ssh_transport_t) : Prop :=
  kex_up t /\ authenticated t = true /\ local_channel_id t = local.
#[local] Instance kex_fact_channel local : kex_fact (channel_phase local).
Proof.
  intros c c' Hfr (Hup & ? & ?). split; [by eapply kex_fact_up|]. destruct Hfr as (_ & Hses & _).
  unfold session_part in Hses. injection Hses; intros. split; congruence.
Qed.

Lemma sspec_wait P G a b max : session_pred P -> kex_fact G ->
  sspec (phase P G) (fun p c => message_of a b max p /\ phase P G c)
    (netnox_ssh_wait_for_message depth a b max).
Proof.
  intros HP HG. apply sspec_kex.
  eapply (triple_conseq kex_logic); [apply (triple_frame kex_logic _ (fun c => G (transport c)) P);
    [apply HG|apply (wait_spec depth (Z.of_nat depth)); [lia|by apply session_pred_stable|apply HP]]
    |lia|done|]. unfold phase. tauto.
Qed.

Lemma sspec_send P G p : session_pred P -> kex_fact G -> zlen p < 2 ^ 30 ->
  sspec (phase P G) (fun _ => phase P G) (netnox_ssh_send_packet p).
Proof.
  intros HP HG Hp. apply sspec_kex.
  apply (triple_frame kex_logic _ (fun c => G (transport c))); [apply HG|].
  by apply kspec_send; [apply session_pred_stable|].
Qed.

(** Build a request and send it. *)
Lemma sspec_request P G max fs : session_pred P -> kex_fact G -> 0 <= max < 2 ^ 30 ->
  sspec (phase P G) (fun _ => phase P G)
    (payload ← lift (append_fields [] max fs); netnox_ssh_send_packet payload).
Proof.
  intros HP HG Hm. apply triple_lift_then; [auto with noxssh|].
  intros p Hp%append_fields_max; [|simpl; lia]. apply sspec_send; [done|done|lia].
Qed.

(** Changes of the session's own fields. *)
Definition session_set (f : ssh_transport_t -> ssh_transport_t) : Prop :=
  forall c, kex_part (set transport f c) = kex_part c /\
    (client_wf c -> client_wf (set transport f c)) /\ (arrays_ok c -> arrays_ok (set transport f c)).

Lemma sspec_set n P (Q : unit -> _ -> Prop) f : session_set f ->
  (forall c, api_inv c -> P c -> flags_ok (f (transport c)) /\ Q tt (set transport f c)) ->
  triple (E:=E) session_logic n P Q (set_tr f).
Proof.
  intros Hf HQ. apply (triple_modify session_logic). intros c Hi HP.
  destruct (Hf c) as (Hk & Hw & Ha). destruct (HQ c Hi HP). destruct Hi as (? & ? & _).
  split; [split; [auto|split; [auto|done]]|]. split; [|done].
  unfold kex_part in Hk. simpl in Hk. injection Hk; intros. simpl. unfold same_config, config_part. simpl. by rewrite_eqs.
Qed.

Ltac solve_session_set :=
  let c := fresh "c" in let Hc := fresh "Hc" in
  intros c; split; [done|split; intros Hc; exact Hc].

Lemma negotiate_service_spec P G s : session_pred P -> kex_fact G ->
  sspec (phase P G) (fun _ => phase P G) (negotiate_service depth s).
Proof.
  intros HP HG. unfold negotiate_service, netnox_ssh_send_service_request.
  eapply triple_bind; [apply triple_try, sspec_request; [done|done|lia]|]. intros [].
  eapply triple_bind; [apply triple_try, sspec_wait; done|]. intros p. apply triple_pre. intros _.
  apply triple_guard_then. intros _.
  apply triple_try_lift_then; [apply payload_read_view_terminates|]. intros [svc off] _.
  apply triple_lift_then; [auto with noxssh|]. intros same _. by apply triple_guard.
Qed.

Lemma phase_set P G G' f c : session_pred P -> session_set f -> G' (f (transport c)) ->
  phase P G c -> phase P G' (set transport f c).
Proof. intros [HP _] Hf Hup [Hc _]. split; [|done]. eapply HP; [apply Hf|done]. Qed.

Lemma negotiate_userauth_spec P : session_pred P ->
  sspec (phase P kex_up) (fun _ => phase P kex_up) (netnox_ssh_negotiate_userauth_service depth).
Proof.
  intros HP. eapply triple_bind; [apply negotiate_service_spec; [done|apply _]|]. intros [].
  apply sspec_set; [solve_session_set|]. intros c (_ & _ & F1 & F2 & F3 & F4) [Hc Hup].
  split; [by split_and!|]. by apply (phase_set P kex_up); [|solve_session_set| |].
Qed.

(** The outcome of an authentication request as [wait_userauth_result] returns it. *)
Definition auth_result P (rc : netnox_return_t) (c : netnox_ssh_client_t) : Prop :=
  (rc = NETNOX_RETURN_SUCCESS -> P c /\ authenticated (transport c) = true) /\
  (rc = NETNOX_RETURN_AUTH_REJECTED -> phase P kex_up c).

Lemma wait_result_spec P : session_pred P ->
  sspec (phase P kex_up) (auth_result P) (return_code (netnox_ssh_wait_userauth_result depth)).
Proof.
  intros HP. unfold netnox_ssh_wait_userauth_result.
  eapply triple_return_code_bind; [apply sspec_wait; [done|apply _]|by split|]. intros p. apply triple_pre. intros _.
  destruct p as [|type p]; [by apply (triple_ret _ _ _ NETNOX_RETURN_FAILED)|].
  destruct (type =? NETNOX_SSH_MSG_USERAUTH_SUCCESS).
  - apply triple_return_code_ok; [done|]. apply sspec_set; [solve_session_set|].
    intros c (_ & _ & F1 & F2 & F3 & F4) [Hc Hup].
    split; [by split_and!|]. split; [|done]. intros _. split; [|done]. by apply (proj1 HP c).
  - destruct (type =? NETNOX_SSH_MSG_USERAUTH_FAILURE);
      [apply (triple_ret _ _ _ NETNOX_RETURN_AUTH_REJECTED)|apply (triple_ret _ _ _ NETNOX_RETURN_FAILED)];
      by split.
Qed.

(** The part after an attempt: success, or rejection and the next method. *)
Lemma after_attempt P rc (next : M (world netnox_ssh_client_t E) unit) : session_pred P ->
  sspec (phase P kex_up) (fun _ c => P c /\ authenticated (transport c) = true) next ->
  sspec (auth_result P rc) (fun _ c => P c /\ authenticated (transport c) = true)
    match rc with
    | NETNOX_RETURN_SUCCESS => mret tt
    | NETNOX_RETURN_AUTH_REJECTED => next
    | _ => fail NETNOX_RETURN_FAILED
    end.
Proof.
  intros HP Hnext. destruct rc; try apply triple_fail.
  - apply triple_ret. intros c [Hs _]. by apply Hs.
  - eapply triple_weaken; [exact Hnext|]. intros c [_ Hr]. by apply Hr.
Qed.

Lemma send_password_spec P : session_pred P ->
  sspec (phase P kex_up) (fun _ => phase P kex_up) netnox_ssh_send_userauth_password.
Proof.
  intros HP. apply triple_gets_then. intros c. apply sspec_request; [done|apply _|lia].
Qed.

Lemma send_publickey_spec P : session_pred P ->
  sspec (phase P kex_up) (fun _ => phase P kex_up) netnox_ssh_send_userauth_publickey_ed25519.
Proof.
  intros HP. apply triple_gets_then. intros c. apply triple_guard_then. intros _.
  apply triple_lift_then; [auto with noxssh|]. intros blob _.
  apply triple_lift_then; [auto with noxssh|]. intros p1 Hp1%append_fields_max; [|simpl; lia].
  apply triple_lift_then; [apply mem_read_terminates|]. intros sid _.
  apply triple_lift_then; [auto with noxssh|]. intros to_sign _.
  apply triple_guard_then. intros _. destruct (noxtls_ed25519_sign _ _) as [ok signature].
  apply triple_guard_then. intros _.
  apply triple_lift_then; [auto with noxssh|]. intros sig_blob _.
  apply triple_lift_then; [auto with noxssh|]. intros p2 Hp2%append_fields_max; [|lia].
  apply sspec_send; [done|apply _|lia].
Qed.

Lemma password_attempt_spec P b : session_pred P ->
  sspec (phase P kex_up) (fun _ c => P c /\ authenticated (transport c) = true)
    (authenticate_password depth b).
Proof.
  intros HP. apply triple_gets_then. intros c. destruct (nonempty _).
  - eapply triple_bind; [by apply triple_try, send_password_spec|]. intros [].
    eapply triple_bind; [by apply wait_result_spec|]. intros rc.
    apply (after_attempt P rc (fail NETNOX_RETURN_AUTH_REJECTED)); [done|apply triple_fail].
  - destruct b; apply triple_fail.
Qed.

Lemma authenticate_spec P : session_pred P ->
  sspec P (fun _ c => P c /\ authenticated (transport c) = true)
    (netnox_ssh_client_authenticate depth).
Proof.
  intros HP. apply (triple_ctx_then session_logic _ _ id). intros c0 _ _.
  apply triple_guard_then. intros Hup. apply triple_guard_then. intros _.
  apply (triple_weaken _ _ (phase P kex_up)).
  2:{ intros c [Hc ->]. split; [done|]. unfold kex_up. simpl in *. lia. }
  eapply (triple_bind _ _ _ (fun _ => phase P kex_up)).
  { case_match; [by apply triple_ret|by apply triple_try, negotiate_userauth_spec]. }
  intros []. apply triple_gets_then. intros c. destruct (has_ed25519_key c).
  - eapply triple_bind; [by apply triple_try, send_publickey_spec|]. intros [].
    eapply triple_bind; [by apply wait_result_spec|]. intros rc.
    apply after_attempt; [done|by apply password_attempt_spec].
  - by apply password_attempt_spec.
Qed.

(** ** The channel *)

Lemma negotiate_connection_spec P local : session_pred P ->
  sspec (phase P (channel_phase local)) (fun _ => phase P (channel_phase local))
    (netnox_ssh_negotiate_connection_service depth).
Proof.
  intros HP. eapply triple_bind; [apply negotiate_service_spec; [done|apply _]|]. intros [].
  apply sspec_set; [solve_session_set|]. intros c (_ & _ & F1 & F2 & F3 & F4) [Hc Hup].
  split; [by destruct Hup as (? & ? & ?); split_and!|].
  by apply (phase_set P (channel_phase local)); [|solve_session_set| |].
Qed.

Lemma read_u32_terminates p off : terminates (read_u32 p off).
Proof. apply payload_read_u32_terminates. Qed.
#[local] Hint Resolve read_u32_terminates : noxssh.

(** The four numbers of a message that starts with a type byte. *)
Lemma read_u32_Ok p off v off' : bytes_ok p -> zlen p <= 35000 -> 0 <= off <= zlen p ->
  read_u32 p off = Ok (v, off') -> v = announced p off /\ off' = off + 4 /\ off' <= zlen p.
Proof.
  intros Hb Hl Ho Hr. rewrite read_u32_spec in Hr by (done || ulia). case_match; [done|].
  injection Hr as <- <-. split_and!; [done|done|lia].
Qed.

(** The channel is open with the numbers of the server's confirmation [p]. *)
Definition confirmed (t : ssh_transport_t) (p : list Z) : Prop :=
  bytes_ok p /\ is_message p NETNOX_SSH_MSG_CHANNEL_OPEN_CONFIRMATION = true /\ 17 <= zlen p /\
  announced p 1 = 0 /\ local_channel_id t = 0 /\ remote_channel_id t = announced p 5 /\
  remote_window_size t = announced p 9 /\ remote_max_packet_size t = announced p 13.

Lemma open_session_spec P : session_pred P ->
  sspec P (fun _ c => P c /\ channel_open (transport c) = true /\ exists p, confirmed (transport c) p)
    (netnox_ssh_client_open_session depth).
Proof.
  intros HP. apply (triple_ctx_then session_logic _ _ transport). intros c0 _ _.
  apply triple_guard_then. intros Hup. apply (triple_bind _ _ _ (fun _ => phase P (channel_phase 0))).
  { apply sspec_set; [solve_session_set|]. intros c (_ & _ & Hf) [Hc ->]. split; [exact Hf|].
    split; [by apply (proj1 HP c0)|]. unfold channel_phase, kex_up. simpl. split_and!; done || lia. }
  intros []. apply (triple_bind _ _ _ (fun _ => phase P (channel_phase 0))).
  { case_match; [by apply triple_ret|by apply triple_try, negotiate_connection_spec]. }
  intros []. eapply triple_bind.
  { apply triple_try, triple_gets_then. intros t. apply sspec_request; [done|apply _|lia]. }
  intros []. eapply triple_bind; [apply triple_try, sspec_wait; [done|apply _]|]. intros p.
  apply triple_pre. intros (Hb & _ & Hl & type & rest & Hp & _). apply triple_guard_then. intros Htype.
  assert (1 <= zlen p) by (subst p; simpl; lia).
  apply triple_try_lift_then; [auto with noxssh|]. intros [v1 o1] (-> & -> & ?)%read_u32_Ok; [|done|lia|lia].
  apply triple_try_lift_then; [auto with noxssh|]. intros [v2 o2] (-> & -> & ?)%read_u32_Ok; [|done|lia|lia].
  apply triple_try_lift_then; [auto with noxssh|]. intros [v3 o3] (-> & -> & ?)%read_u32_Ok; [|done|lia|lia].
  apply triple_try_lift_then; [auto with noxssh|]. intros [v4 o4] (-> & -> & ?)%read_u32_Ok; [|done|lia|lia].
  apply (triple_ctx_then session_logic _ _ transport). intros c1 _ (_ & _ & _ & Hloc1).
  apply triple_guard_then. intros Hrec. apply sspec_set; [solve_session_set|].
  intros c (_ & _ & F1 & F2 & F3 & F4) [(Hc & Hchan & Hauth & Hloc) ->].
  split; [by split_and!|]. split; [by apply (proj1 HP c1)|]. split; [done|].
  exists p. unfold confirmed. simpl. split_and!; done || lia.
Qed.

(** *** Requests on the channel *)

Lemma channel_request_spec P G p : session_pred P -> kex_fact G -> zlen p < 2 ^ 30 ->
  sspec (phase P G) (fun _ => phase P G) (channel_request depth p).
Proof.
  intros HP HG Hp. eapply triple_bind; [by apply triple_try, sspec_send|]. intros [].
  eapply triple_bind; [by apply triple_try, sspec_wait|]. intros rsp. apply triple_pre. intros _.
  by apply triple_guard.
Qed.

Definition no_fact (t : ssh_transport_t) : Prop := True.
#[local] Instance kex_fact_none : kex_fact no_fact.
Proof. done. Qed.
Lemma phase_none P c : P c -> phase P no_fact c.
Proof. done. Qed.

(** A run of guards, a message, and [channel_request] or a plain send. *)
Lemma request_then_spec P max fs : session_pred P -> 0 <= max < 2 ^ 30 ->
  sspec P (fun _ => P) (payload ← lift (append_fields [] max fs); channel_request depth payload).
Proof.
  intros HP Hm. apply triple_lift_then; [auto with noxssh|].
  intros p Hp%append_fields_max; [|simpl; lia].
  eapply triple_conseq; [apply (channel_request_spec P no_fact p); [done|apply _|lia]|lia| |].
  - apply phase_none.
  - by intros [] c [].
Qed.
Lemma send_then_spec P max fs : session_pred P -> 0 <= max < 2 ^ 30 ->
  sspec P (fun _ => P) (payload ← lift (append_fields [] max fs); netnox_ssh_send_packet payload).
Proof.
  intros HP Hm. eapply triple_conseq; [apply (sspec_request P no_fact); [done|apply _|done]|lia| |].
  - apply phase_none.
  - by intros [] c [].
Qed.

Lemma exec_spec P cmd : session_pred P -> sspec P (fun _ => P) (netnox_ssh_client_exec depth cmd).
Proof.
  intros HP. apply triple_gets_then. intros t. apply triple_guard_then. intros _.
  apply triple_guard_then. intros _. apply request_then_spec; [done|lia].
Qed.

Lemma shell_spec P pty : session_pred P ->
  sspec P (fun _ => P) (netnox_ssh_client_request_shell_ex depth pty).
Proof.
  intros HP. apply triple_gets_then. intros t. apply triple_guard_then. intros _.
  apply (triple_bind _ _ _ (fun _ => P)).
  { destruct pty; [apply request_then_spec; [done|lia]|by apply triple_ret]. }
  intros []. apply triple_gets_then. intros t'. apply request_then_spec; [done|lia].
Qed.

Lemma send_data_spec P data : session_pred P ->
  sspec P (fun _ => P) (netnox_ssh_client_send_data data).
Proof.
  intros HP. apply triple_guard_then. intros _. apply triple_gets_then. intros t.
  apply triple_guard_then. intros _. apply send_then_spec; [done|unfold NETNOX_SSH_MAX_DATA_LEN; lia].
Qed.

Lemma keepalive_spec P : session_pred P -> sspec P (fun _ => P) netnox_ssh_client_send_keepalive.
Proof.
  intros HP. apply triple_gets_then. intros t. apply triple_guard_then. intros _.
  apply send_then_spec; [done|lia].
Qed.

Lemma rekey_spec P : sspec P (fun _ => keyed) (netnox_ssh_client_rekey depth).
Proof.
  apply triple_gets_then. intros t. apply triple_guard_then. intros _.
  apply sspec_kex. eapply triple_conseq; [apply exchange_spec; by apply wait_spec|done|done|].
  by intros [] c [].
Qed.

(** *** Received data *)

Lemma recv_consumes n P max : session_pred P ->
  consumes session_logic n P (fun p c => bytes_ok p /\ zlen p <= max /\ P c)
    (netnox_ssh_recv_packet (E:=E) max).
Proof.
  intros HP w Hi Hn HPw. eapply wp_mono.
  { apply (kspec_recv n P max); [by apply session_pred_stable|apply Hi|done|done]. }
  intros o w' [(Hwf & Hfr & Ho) Hlt]. destruct (kex_frame_inv _ _ Hi Hwf Hfr).
  split; [|done]. split; [done|]. split; [done|]. destruct o; try done.
  destruct Ho as (? & ? & ? & ? & _). by split_and!.
Qed.

Lemma for_our_channel_spec n P p : session_pred P ->
  triple (E:=E) session_logic n P (fun _ => P) (for_our_channel p).
Proof.
  intros HP. apply triple_try_lift_then; [auto with noxssh|]. intros [? ?] _.
  apply triple_gets_then. intros t. apply triple_guard_then. intros _. by apply triple_ret.
Qed.

Lemma copy_data_spec n P len v :
  triple (E:=E) session_logic n P (fun _ => P) (d ← copy_data len v; mret (Some d)).
Proof.
  apply triple_lift_then; [auto with noxssh|]. intros d _. by apply triple_ret.
Qed.

Lemma recv_request_spec n P p : session_pred P ->
  triple (E:=E) session_logic n P (fun _ => P) (recv_request p).
Proof.
  intros HP. eapply triple_bind; [by apply for_our_channel_spec|]. intros off.
  apply triple_try_lift_then; [apply payload_read_view_terminates|]. intros [v off'] _.
  apply triple_guard_then. intros _. apply triple_lift_then; [auto with noxssh|]. intros b _.
  destruct b; [|by apply triple_ret].
  apply triple_try_lift_then; [auto with noxssh|]. intros [st ?] _.
  apply (triple_modify session_logic). intros c Hi Hc. split; [exact Hi|]. split; [done|].
  by apply (proj1 HP c).
Qed.

Lemma recv_data_step_spec n P len : n <= Z.of_nat depth -> session_pred P ->
  consumes session_logic n P (fun _ => P) (recv_data_step depth len).
Proof.
  intros Hn HP. eapply consumes_then; [by apply consumes_try, recv_consumes|]. intros p.
  apply (triple_weaken _ _ P); [|by intros c (_ & _ & ?)]. unfold recv_data_handle.
  destruct p as [|type p]; [by apply triple_ret|].
  case_match.
  { eapply (triple_bind _ _ _ (fun _ => P)); [|by intros []; apply triple_ret].
    eapply triple_conseq; [apply triple_try, sspec_kex, (handle_spec (n - 1) P);
      [apply wait_spec; lia|by apply session_pred_stable|apply HP]|lia|done|].
    intros [] c Hk. by apply HP. }
  case_match.
  { eapply triple_bind; [by apply for_our_channel_spec|]. intros off.
    apply triple_try_lift_then; [apply payload_read_view_terminates|]. intros [v ?] _.
    apply copy_data_spec. }
  case_match.
  { eapply triple_bind; [by apply for_our_channel_spec|]. intros off.
    apply triple_try_lift_then; [auto with noxssh|]. intros [? ?] _.
    apply triple_try_lift_then; [apply payload_read_view_terminates|]. intros [v ?] _.
    apply copy_data_spec. }
  case_match.
  { eapply triple_bind; [by apply recv_request_spec|]. intros []. by apply triple_ret. }
  case_match; [by apply triple_ret|]. case_match; [|by apply triple_ret].
  apply (triple_bind _ _ _ (fun _ => P)); [|intros []; by apply triple_ret].
  apply sspec_set; [solve_session_set|]. intros c (_ & _ & F1 & F2 & F3 & F4) Hc.
  split; [by split_and!|]. by apply (proj1 HP c).
Qed.

Lemma recv_data_loop_spec fuel n P len : n < Z.of_nat fuel -> n <= Z.of_nat depth -> session_pred P ->
  triple session_logic n P (fun _ => P) (recv_data_loop depth fuel len).
Proof.
  revert n. induction fuel as [|fuel IH]; intros n Hf Hn HP; cbn [recv_data_loop].
  - intros w Hi Hw. lia.
  - eapply triple_consumes_then; [by apply recv_data_step_spec|].
    intros [d|]; [by apply triple_ret|]. apply IH; [lia|lia|done].
Qed.

Lemma recv_data_spec P len : session_pred P ->
  sspec P (fun _ => P) (netnox_ssh_client_recv_data depth len).
Proof.
  intros HP. apply triple_guard_then. intros _. apply triple_gets_then. intros t.
  apply triple_guard_then. intros _. apply recv_data_loop_spec; [lia|lia|done].
Qed.

(** ** Connecting *)

Lemma sspec_send_all P d : is_u32 (zlen d) -> sspec P (fun _ => P) (netnox_ssh_send_all d).
Proof.
  intros Hd w Hi Hn HP. eapply wp_mono; [by apply send_all_spec|].
  intros o w' (Hc & Hin & k & _ & Ho). unfold ends. rewrite Hc, Hin.
  split; [done|]. split; [done|]. by destruct o.
Qed.

Lemma c_array_store n s i ch : c_array n s -> 0 <= i < Z.of_nat n - 1 ->
  exists s', mem_write s i [ch] = Ok s' /\ c_array n s'.
Proof.
  intros [Hl Hz] Hi. unfold mem_write. rewrite Hl. simpl length. case_match; [|lia].
  eexists. split; [done|]. unfold c_array, ztake, zdrop.
  rewrite !length_app, length_take, length_drop. simpl. split; [lia|].
  rewrite lookup_app_r by (rewrite length_take; lia). rewrite length_take.
  replace (n - 1 - _)%nat with (S (n - 2 - Z.to_nat i)) by lia. simpl.
  rewrite lookup_drop, <- Hz. f_equal. lia.
Qed.

Lemma set_server_ident_inv c s : api_inv c -> c_array 256 s ->
  api_inv (set transport (fun t => t <| server_ident := s |>) c).
Proof.
  intros ((? & ? & ? & ? & _ & ? & ? & ?) & (A1 & A2 & A3 & A4 & _ & A6) & Hf) Hs.
  split; [|split; [|exact Hf]].
  - unfold client_wf, transport_wf. simpl. split_and!; try done. destruct Hs. lia.
  - unfold arrays_ok. simpl. by do 5 (split; [done|]).
Qed.

Lemma recv_line_spec : Z.of_nat depth < 2 ^ 62 ->
  sspec (fun _ => True) (fun _ _ => True) netnox_ssh_recv_line.
Proof.
  intros Hd. apply (triple_ctx_then session_logic _ _ id). intros c0 (_ & (_ & _ & _ & _ & (Hl & _) & _) & _) _.
  apply triple_guard_then. intros _. simpl. rewrite Hl.
  apply (triple_weaken _ _ (fun _ => True)); [|done].
  apply (recv_line_triple session_logic _ (fun _ => True)); [lia|done|by apply triple_ret|].
  intros i ch Hi w Hinv Hw _. cw.
  destruct (c_array_store 256 (server_ident (transport (ctx w))) i ch) as (s & -> & Hs);
    [apply Hinv|lia|]. cw.
  split; [by apply set_server_ident_inv|]. split; [done|]. simpl. split; [lia|done].
Qed.

(** The server sent an identification line. *)
Definition identified (t : ssh_transport_t) : Prop :=
  connected t = true /\ kexinit_exchanged t = true /\ netnox_ssh_is_ident_line (server_ident t) = true.

Lemma banner_spec n : Z.of_nat depth < 2 ^ 62 ->
  sspec (fun _ => True) (fun _ c => keyed c /\ identified (transport c)) (banner_loop depth n).
Proof.
  intros Hd. induction n as [|n IH]; cbn [banner_loop]; [apply triple_fail|].
  eapply triple_bind; [by apply recv_line_spec|]. intros [].
  apply (triple_ctx_then session_logic _ _ transport). intros c0 _ _. case_match eqn:Eid.
  - eapply (triple_bind _ _ _ (fun _ c => connected (transport c) = true /\
      netnox_ssh_is_ident_line (server_ident (transport c)) = true)).
    + apply sspec_set; [solve_session_set|]. intros c (_ & _ & F1 & F2 & F3 & F4) [_ ->].
      unfold flags_ok, kex_up in *. split; [|done]. simpl. tauto.
    + intros []. apply sspec_kex.
      eapply triple_conseq; [apply (triple_frame kex_logic _ (fun c => connected (transport c) = true /\
        netnox_ssh_is_ident_line (server_ident (transport c)) = true)); [|apply (exchange_spec (Z.of_nat depth) _ (fun _ => True)), wait_spec; lia]|lia|..].
      * intros c c' (_ & Hses & _) Hc. unfold session_part in Hses. injection Hses; intros. by rewrite_eqs.
      * by intros c Hc.
      * intros [] c ((Hk & Hx) & Hc & Hid). by split; [|split].
  - eapply triple_weaken; [exact IH|done].
Qed.

Lemma connect_spec : Z.of_nat depth < 2 ^ 62 ->
  sspec (fun _ => True) (fun _ c => keyed c /\ identified (transport c)) (netnox_ssh_client_connect depth).
Proof.
  intros Hd. apply triple_gets_then. intros c. apply triple_guard_then. intros _.
  apply triple_guard_then. intros _.
  apply (triple_bind _ _ _ (fun _ _ => True)); [|intros []; by apply banner_spec].
  apply triple_try, sspec_send_all. unfold tx_ident, ztake. rewrite length_take. ulia.
Qed.

(** ** Every call of the API *)

Definition keep_inv : logic netnox_ssh_client_t :=
  mkLogic api_inv (fun _ _ => True) (fun _ => I) (fun _ _ _ _ _ => I).
Local Abbreviation aspec := (triple (E:=E) keep_inv (Z.of_nat depth) (fun _ => True) (fun _ _ => True)).

Lemma aspec_session {A} (Q : A -> _ -> Prop) m : sspec (fun _ => True) Q m -> aspec m.
Proof.
  intros Hm w Hi Hn HP. eapply wp_mono; [by apply Hm|]. intros o w' (? & _ & Ho).
  split; [done|]. split; [done|]. destruct o; try done. by destruct Ho.
Qed.

Lemma copy_then P (Q : unit -> _ -> Prop) n dst src (k : list Z -> M _ unit) : c_array n dst -> (0 < n)%nat ->
  (forall s, c_array n s -> triple (E:=E) keep_inv (Z.of_nat depth) P Q (k s)) ->
  triple keep_inv (Z.of_nat depth) P Q (s ← lift (netnox_ssh_copy_string dst src); k s).
Proof.
  intros Hd Hn Hk. destruct (copy_string_spec n dst src Hd Hn) as [Hcopy Hc]. rewrite Hcopy.
  apply triple_lift_then; [by case_match|]. intros s Hs. case_match; [done|].
  injection Hs as <-. apply Hk, Hc. lia.
Qed.

Lemma set_ident_inv c s : api_inv c -> c_array 256 s ->
  api_inv (set transport (fun t => t <| client_ident := s |>) c).
Proof.
  intros ((? & ? & ? & _ & ? & ? & ? & ?) & (A1 & A2 & A3 & _ & A5 & A6) & Hf) Hs.
  split; [|split; [|exact Hf]].
  - unfold client_wf, transport_wf. simpl. do 3 (split; [done|]). split; [destruct Hs; lia|done].
  - unfold arrays_ok. simpl. by do 5 (split; [done|]).
Qed.

Lemma set_identification_spec s : aspec (netnox_ssh_client_set_identification s).
Proof.
  apply (triple_ctx_then keep_inv _ _ transport). intros c0 (_ & (_ & _ & _ & Ha & _) & _) _.
  apply (copy_then _ _ 256); [done|lia|]. intros ident Hid.
  apply (triple_modify keep_inv). intros c Hi _. split; [by apply set_ident_inv|done].
Qed.

(** Setting a field outside the transport state. *)
Lemma set_field_spec f : (forall c, transport (f c) = transport c) ->
  (forall c, arrays_ok c -> arrays_ok (f c)) -> aspec (set_client f).
Proof.
  intros Ht Ha. apply (triple_modify keep_inv). intros c (? & ? & ?) _. split; [|done].
  change (api_inv (f c)). unfold api_inv, client_wf. rewrite Ht. split; [done|]. split; [auto|done].
Qed.

Lemma set_target_spec u t : aspec (netnox_ssh_client_set_target u t).
Proof.
  apply (triple_ctx_then keep_inv _ _ id). intros c0 (_ & (Hu & Hh & _) & _) _.
  apply (triple_weaken _ _ (fun _ => True)); [|done].
  apply (copy_then _ _ 65); [done|lia|]. intros user Huser.
  apply (triple_bind _ _ _ (fun _ _ => True)).
  { apply set_field_spec; [done|]. intros c (_ & ?). by split. }
  intros []. apply (copy_then _ _ 256); [done|lia|]. intros target Htarget.
  apply set_field_spec; [done|]. intros c (? & _ & ?). by do 2 (split; [done|]).
Qed.

Lemma set_password_spec pw : aspec (netnox_ssh_client_set_password pw).
Proof.
  apply (triple_ctx_then keep_inv _ _ id). intros c0 (_ & (_ & _ & Hp & _) & _) _.
  apply (triple_weaken _ _ (fun _ => True)); [|done].
  apply (copy_then _ _ 129); [done|lia|]. intros s Hs.
  apply set_field_spec; [done|]. intros c (? & ? & _ & ?). by do 3 (split; [done|]).
Qed.

Lemma set_key_spec sk : length sk = 32%nat -> aspec (netnox_ssh_client_set_ed25519_private_key sk).
Proof.
  intros Hsk. apply (triple_bind _ _ _ (fun _ _ => True)).
  { apply set_field_spec; [done|]. intros c (? & ? & ? & ? & ? & _ & ?). by do 6 (split; [done|]). }
  intros []. destruct (noxtls_ed25519_public_key sk) as [[] pk] eqn:Epk.
  - apply set_field_spec; [done|]. intros c (? & ? & ? & ? & ? & ? & _).
    destruct (ed25519_public_length _ _ Epk). by do 6 (split; [done|]).
  - apply (triple_bind _ _ _ (fun _ _ => True)); [by apply set_field_spec|intros []; apply triple_fail].
Qed.

Lemma set_io_spec a b : aspec (netnox_ssh_client_set_io_callbacks a b).
Proof. by apply set_field_spec. Qed.

Lemma close_spec : aspec netnox_ssh_client_close.
Proof.
  apply (triple_modify keep_inv). intros c ((? & ? & ? & ? & ? & ? & ? & ?) & (? & ? & ? & ? & (Hl & Hz) & ? & ?) & _) _.
  split; [|done]. split; [|split].
  - unfold client_wf, transport_wf, close_transport, keys_ok. simpl. rewrite length_insert.
    split_and!; done || lia.
  - unfold arrays_ok, close_transport. simpl. do 4 (split; [done|]). split; [|done].
    split; [by rewrite length_insert|]. by rewrite list_lookup_insert_ne.
  - by unfold flags_ok, close_transport.
Qed.

(** The calls of the API; a C string argument is its bytes. *)
Inductive api_call : Type :=
| CallSetIo (send recv : bool)
| CallSetIdentification (ident : list Z)
| CallSetTarget (user target : list Z)
| CallSetPassword (pw : list Z)
| CallSetKey (sk : list Z)
| CallConnect
| CallAuthenticate
| CallOpenSession
| CallExec (cmd : list Z)
| CallRequestShell (pty : bool)
| CallSendData (data : list Z)
| CallKeepalive
| CallRekey
| CallRecvData (len : Z)
| CallClose.

Definition run_call (call : api_call) : M (world netnox_ssh_client_t E) unit :=
  match call with
  | CallSetIo send recv => netnox_ssh_client_set_io_callbacks send recv
  | CallSetIdentification ident => netnox_ssh_client_set_identification ident
  | CallSetTarget user target => netnox_ssh_client_set_target user target
  | CallSetPassword pw => netnox_ssh_client_set_password pw
  | CallSetKey sk => netnox_ssh_client_set_ed25519_private_key sk
  | CallConnect => netnox_ssh_client_connect depth
  | CallAuthenticate => netnox_ssh_client_authenticate depth
  | CallOpenSession => netnox_ssh_client_open_session depth
  | CallExec cmd => netnox_ssh_client_exec depth cmd
  | CallRequestShell pty => netnox_ssh_client_request_shell_ex depth pty
  | CallSendData data => netnox_ssh_client_send_data data
  | CallKeepalive => netnox_ssh_client_send_keepalive
  | CallRekey => netnox_ssh_client_rekey depth
  | CallRecvData len => netnox_ssh_client_recv_data depth len;; mret tt
  | CallClose => netnox_ssh_client_close
  end.

(** The key is a uint8_t\[32\]. *)
Definition call_ok (call : api_call) : Prop :=
  match call with CallSetKey sk => length sk = 32%nat | _ => True end.

Lemma run_call_spec call : Z.of_nat depth < 2 ^ 62 -> call_ok call -> aspec (run_call call).
Proof.
  intros Hd Hok. pose proof session_pred_any as Hany. destruct call; cbn [run_call].
  - apply set_io_spec.
  - apply set_identification_spec.
  - apply set_target_spec.
  - apply set_password_spec.
  - by apply set_key_spec.
  - by eapply aspec_session, connect_spec.
  - by eapply aspec_session, authenticate_spec.
  - by eapply aspec_session, open_session_spec.
  - by eapply aspec_session, exec_spec.
  - by eapply aspec_session, shell_spec.
  - by eapply aspec_session, send_data_spec.
  - by eapply aspec_session, keepalive_spec.
  - by eapply aspec_session, rekey_spec.
  - eapply triple_bind; [by eapply aspec_session, recv_data_spec|]. intros d. by apply triple_ret.
  - apply close_spec.
Qed.
End session.

(** ** Reachable contexts *)

(** Contexts an application reaches: from [client_init], by any calls in any order
    with any result short of a fault, while the environment (what the peer sends)
    changes between the calls. *)
Inductive reachable `{HostLaws E, NoxTLS} : world netnox_ssh_client_t E -> Prop :=
| reach_init port w w' : netnox_ssh_client_init port w = (Ok tt, w') -> reachable w'
| reach_call depth call w o w' :
    reachable w -> call_ok call -> zlen (inbox (env w)) <= Z.of_nat depth < 2 ^ 62 ->
    run_call depth call w = (o, w') -> o <> Oob -> reachable w'
| reach_env w e : reachable w -> reachable (w <| env := e |>).

Section reachable.
Context {E : Type} `{HostLaws E} {T : NoxTLS} {L : NoxTLSLaws T}.
Implicit Types w : world netnox_ssh_client_t E.

Lemma init_spec port_arg w :
  exists w', netnox_ssh_client_init port_arg w = (Ok tt, w') /\ api_inv (ctx w') /\ env w' = env w /\
    transport (ctx w') = transport_zero <| client_ident :=
      NETNOX_SSH_DEFAULT_CLIENT_IDENT ++ 0 :: zeros 237 |>.
Proof.
  eexists. split; [reflexivity|]. split; [|done].
  pose proof (fun n => c_array_zeros (S n) ltac:(lia)) as Hz.
  split; [|split; [|done]].
  - unfold client_wf, transport_wf, direction_wf, keys_ok. simpl.
    split_and!; done || lia || apply (bytes_ok_zeros 16).
  - do 3 (split; [apply Hz|]). split; [done|]. split; [apply (Hz 255%nat)|done].
Qed.

Lemma reachable_inv w : reachable w -> api_inv (ctx w).
Proof.
  induction 1 as [port_arg w w' Hrun|depth call w o w' Hw IH Hok [Hn Hd] Hrun Ho|w e Hw IH].
  - destruct (init_spec port_arg w) as (w1 & Hrun1 & Hi & _). rewrite Hrun1 in Hrun. by injection Hrun as <-.
  - by destruct (triple_run _ _ _ _ _ _ _ _ (run_call_spec depth call Hd Hok) IH Hn I Hrun).
  - done.
Qed.
End reachable.

(** ** Properties *)

(** C9: in every context an application can reach, by any sequence of API calls with
    any outcome and whatever the server sends: the phases come in order (services and
    authentication only with encryption on, the connection service and an open
    channel only after authentication); encryption is on only with the keys of an
    exchange whose hash a host key signed; every char array of the context is
    NUL-terminated, and keys, counters and payloads have their sizes. *)
Theorem api_reachable_invariant E (H : Host E) (HL : HostLaws E) (T : NoxTLS) (L : NoxTLSLaws T)
    (w : world netnox_ssh_client_t E) :
  reachable w -> flags_ok (transport (ctx w)) /\ keys_ok (transport (ctx w)) /\
    arrays_ok (ctx w) /\ client_wf (ctx w).
Proof.
  intros Hw. destruct (reachable_inv w Hw) as (Hwf & ? & ?).
  split; [done|]. split; [apply Hwf|]. by split.
Qed.

(** C15: every API call returns: with nesting depth for every pending byte the fuel of
    the loops is never exhausted. *)
Theorem api_calls_terminate E (H : Host E) (HL : HostLaws E) (T : NoxTLS) (L : NoxTLSLaws T)
    depth call (w : world netnox_ssh_client_t E) :
  reachable w -> call_ok call -> zlen (inbox (env w)) <= Z.of_nat depth < 2 ^ 62 ->
  (run_call depth call w).1 <> Diverge.
Proof.
  intros Hw Hok [Hn Hd]. destruct (run_call depth call w) as [o w'] eqn:Hrun.
  destruct (triple_run _ _ _ _ _ _ _ _ (run_call_spec depth call Hd Hok) (reachable_inv w Hw) Hn I Hrun)
    as (_ & _ & Ho). by destruct o.
Qed.

(** C10: a successful [netnox_ssh_client_connect] has talked to an SSH server that holds
    the recorded host key: an identification line was received and the session is
    keyed by a verified key exchange over it. The configuration is unchanged. *)
Theorem connect_authenticates_server E (H : Host E) (HL : HostLaws E) (T : NoxTLS) (L : NoxTLSLaws T)
    depth (w w' : world netnox_ssh_client_t E) :
  reachable w -> zlen (inbox (env w)) <= Z.of_nat depth < 2 ^ 62 ->
  netnox_ssh_client_connect depth w = (Ok tt, w') ->
  keyed (ctx w') /\ identified (transport (ctx w')) /\ same_config (ctx w) (ctx w').
Proof.
  intros Hw [Hn Hd] Hrun.
  by destruct (triple_run _ _ _ _ _ _ _ _ (connect_spec depth Hd) (reachable_inv w Hw) Hn I Hrun)
    as (_ & ? & _ & ? & ?).
Qed.

(** When [netnox_ssh_client_authenticate] succeeds on a keyed session the server
    has accepted the user, and the session is still keyed by a verified key exchange,
    also when the server re-keyed in between. *)
Theorem authenticate_success E (H : Host E) (HL : HostLaws E) (T : NoxTLS) (L : NoxTLSLaws T)
    depth (w w' : world netnox_ssh_client_t E) :
  reachable w -> keyed (ctx w) -> zlen (inbox (env w)) <= Z.of_nat depth ->
  netnox_ssh_client_authenticate depth w = (Ok tt, w') ->
  authenticated (transport (ctx w')) = true /\ keyed (ctx w') /\ same_config (ctx w) (ctx w').
Proof.
  intros Hw Hk Hn Hrun.
  by destruct (triple_run _ _ _ _ _ _ _ _ (authenticate_spec depth keyed session_pred_keyed)
    (reachable_inv w Hw) Hn Hk Hrun) as (_ & ? & _ & ? & ?).
Qed.

(** C14: a call out of order does nothing: without a completed key exchange no
    authentication, without authentication no channel, without a channel no exec,
    shell or data: the call returns BAD_PARAM, sends nothing (no credentials leave
    the client) and leaves the context as it is. *)
Theorem calls_out_of_order E (H : Host E) (T : NoxTLS) depth (w : world netnox_ssh_client_t E) :
  let t := transport (ctx w) in
  (connected t && kexinit_exchanged t && key_exchange_complete t = false ->
     netnox_ssh_client_authenticate depth w = (Err NETNOX_RETURN_BAD_PARAM, w)) /\
  (connected t && kexinit_exchanged t && key_exchange_complete t && authenticated t = false ->
     netnox_ssh_client_open_session depth w = (Err NETNOX_RETURN_BAD_PARAM, w)) /\
  (channel_ready t = false -> forall cmd pty,
     netnox_ssh_client_exec depth cmd w = (Err NETNOX_RETURN_BAD_PARAM, w) /\
     netnox_ssh_client_request_shell_ex depth pty w = (Err NETNOX_RETURN_BAD_PARAM, w)) /\
  (connected t && channel_open t = false -> forall data len,
     netnox_ssh_client_send_data data w = (Err NETNOX_RETURN_BAD_PARAM, w) /\
     netnox_ssh_client_recv_data depth len w = (Err NETNOX_RETURN_BAD_PARAM, w)).
Proof.
  split_and!; intros Hf; unfold netnox_ssh_client_authenticate, netnox_ssh_client_open_session,
    netnox_ssh_client_exec, netnox_ssh_client_request_shell_ex, netnox_ssh_client_send_data,
    netnox_ssh_client_recv_data, client_, tr, gets, mbind, M_bind, guard_m, lift, check.
  - by rewrite Hf.
  - by rewrite Hf.
  - intros cmd pty. by rewrite Hf.
  - intros data len. rewrite Hf. split.
    + by destruct (negb _ && _).
    + by destruct (negb _ && _).
Qed.

(** When [netnox_ssh_client_open_session] succeeds the channel is open with the
    numbers of the server's CHANNEL_OPEN_CONFIRMATION, addressed to our channel 0:
    its channel number, window and maximum packet size; a keyed session stays keyed. *)
Theorem open_session_success E (H : Host E) (HL : HostLaws E) (T : NoxTLS) (L : NoxTLSLaws T)
    depth (w w' : world netnox_ssh_client_t E) :
  reachable w -> keyed (ctx w) -> zlen (inbox (env w)) <= Z.of_nat depth ->
  netnox_ssh_client_open_session depth w = (Ok tt, w') ->
  keyed (ctx w') /\ channel_open (transport (ctx w')) = true /\ exists p, confirmed (transport (ctx w')) p.
Proof.
  intros Hw Hk Hn Hrun.
  by destruct (triple_run _ _ _ _ _ _ _ _ (open_session_spec depth keyed session_pred_keyed)
    (reachable_inv w Hw) Hn Hk Hrun) as (_ & _ & _ & ? & ? & ?).
Qed.

(** The request as it is handed to the packet layer. *)
Lemma publickey_request_sent E (H : Host E) (HL : HostLaws E) (T : NoxTLS) (L : NoxTLSLaws T)
    (w : world netnox_ssh_client_t E) :
  reachable w -> keyed (ctx w) -> has_ed25519_key (ctx w) = true ->
  let c := ctx w in
  let blob := message [FStr NETNOX_SSH_KEYALG_ED25519; FStr (ed25519_public_key c)] in
  let request := publickey_request (cstr (username c)) blob in
  let signed := message (FStr (session_id (transport c)) :: request) in
  forall ok sig, noxtls_ed25519_sign (ed25519_private_key c) signed = (ok, sig) ->
  netnox_ssh_send_userauth_publickey_ed25519 w =
  if ok then netnox_ssh_send_packet (message (request ++
    [FStr (message [FStr NETNOX_SSH_KEYALG_ED25519; FStr sig])])) w
  else (Err NETNOX_RETURN_FAILED, w).
Proof.
  intros Hw Hk Hkey c blob request signed ok sig Hsig.
  destruct (reachable_inv w Hw) as (_ & (Hu & _ & _ & _ & _ & _ & Hpk) & _). fold c in Hu, Hpk.
  apply (cstr_c_array 65) in Hu; [|lia].
  destruct (established_kex_done c (proj1 Hk)) as (Hsid & Hslen & _).
  fold c in Hkey. unfold netnox_ssh_send_userauth_publickey_ed25519, client_. rewrite bind_gets. fold c.
  rewrite bind_guard, Hkey, Hslen. cbn [andb negb Z.eqb].
  assert (Hblob : zlen blob = 51).
  { unfold blob. message_len. rewrite Hpk. done. }
  assert (Hreq : zlen (message request) <= 250).
  { unfold request, publickey_request. message_len. lia. }
  rewrite append_fields_ok; [|lia|try unfold request, publickey_request; fields_small|unfold blob in Hblob; lia].
  rewrite bind_lift_ok. fold blob. fold request.
  rewrite append_fields_ok; [|lia|try unfold request, publickey_request; fields_small|lia]. rewrite bind_lift_ok.
  rewrite mem_read_in_bounds by lia. rewrite bind_lift_ok, zdrop_0, ztake_all by lia.
  rewrite append_fields_ok;
    [|lia|try unfold request, publickey_request; fields_small|message_len; lia].
  assert (Hto : zlen (message [FStr (session_id (transport c))]) = 36) by (message_len; lia).
  rewrite bind_lift_ok, bind_guard, u32_small by ulia. replace (_ <=? 1400) with true by lia.
  rewrite <- message_app. change ([FStr ?s] ++ request) with (FStr s :: request).
  fold signed. rewrite Hsig, bind_guard. destruct ok; [|done].
  destruct (ed25519_sign_length _ _ _ Hsig) as [Hsl _].
  rewrite append_fields_ok;
    [|lia|try unfold request, publickey_request; fields_small|message_len; lia].
  assert (Hsb : zlen (message [FStr NETNOX_SSH_KEYALG_ED25519; FStr sig]) = 83) by (message_len; lia).
  rewrite bind_lift_ok, append_fields_spec; [|lia|fields_small|lia].
  rewrite <- message_app. replace (_ <=? 1024) with true; [done|].
  rewrite message_app, length_app. pose proof (message_length [FStr (message [FStr NETNOX_SSH_KEYALG_ED25519; FStr sig])]) as Hl.
  cbn [foldr field_size] in Hl. lia.
Qed.

(** The public key request is the one of RFC 4252 section 7: it carries the user
    name, service and key, and a signature of the session id followed by that very
    request; it always fits its buffers. When NoxTLS cannot sign, nothing is sent. *)
Theorem publickey_request_rfc4252 E (H : Host E) (HL : HostLaws E) (T : NoxTLS) (L : NoxTLSLaws T)
    (w : world netnox_ssh_client_t E) :
  reachable w -> keyed (ctx w) -> has_ed25519_key (ctx w) = true ->
  let c := ctx w in
  let blob := message [FStr NETNOX_SSH_KEYALG_ED25519; FStr (ed25519_public_key c)] in
  let request := publickey_request (cstr (username c)) blob in
  let signed := message (FStr (session_id (transport c)) :: request) in
  forall ok sig, noxtls_ed25519_sign (ed25519_private_key c) signed = (ok, sig) ->
  netnox_ssh_send_userauth_publickey_ed25519 w =
  if ok then netnox_ssh_send_packet (message (request ++
    [FStr (message [FStr NETNOX_SSH_KEYALG_ED25519; FStr sig])])) w
  else (Err NETNOX_RETURN_FAILED, w).
Proof. apply publickey_request_sent. Qed.

(** The password request is the one of RFC 4252 section 8, with the configured
    user name and password, and always fits its buffer. *)
Theorem password_request_rfc4252 E (H : Host E) (HL : HostLaws E) (T : NoxTLS) (L : NoxTLSLaws T)
    (w : world netnox_ssh_client_t E) :
  reachable w ->
  netnox_ssh_send_userauth_password w =
  netnox_ssh_send_packet (message (password_request (cstr (username (ctx w))) (cstr (password (ctx w))))) w.
Proof.
  intros Hw. destruct (reachable_inv w Hw) as (_ & (Hu & _ & Hp & _) & _).
  apply (cstr_c_array 65) in Hu; [|lia]. apply (cstr_c_array 129) in Hp; [|lia].
  unfold netnox_ssh_send_userauth_password, client_. rewrite bind_gets, append_fields_ok;
    [done|lia|unfold password_request; fields_small|unfold password_request; message_len; lia].
Qed.

(** C36: [netnox_ssh_client_send_data] sends one CHANNEL_DATA message to the server's
    channel: all the data when it fits the server's maximum packet size, and
    otherwise only that many leading bytes, with the same result and effect as if the
    caller had passed no more. *)
Theorem send_data_one_message E (H : Host E) (T : NoxTLS) data (w : world netnox_ssh_client_t E) :
  let t := transport (ctx w) in
  connected t = true -> channel_open t = true -> 0 < zlen data <= NETNOX_SSH_MAX_DATA_LEN ->
  0 <= remote_max_packet_size t ->
  let chunk := if remote_max_packet_size t =? 0 then data else ztake (remote_max_packet_size t) data in
  netnox_ssh_client_send_data data w =
    netnox_ssh_send_packet
      (message [FU8 NETNOX_SSH_MSG_CHANNEL_DATA; FU32 (remote_channel_id t); FStr chunk]) w /\
  netnox_ssh_client_send_data data w = netnox_ssh_client_send_data chunk w.
Proof.
  intros t Hc Ho Hl Hm chunk. unfold NETNOX_SSH_MAX_DATA_LEN in *.
  assert (Hgen : forall d, 0 < zlen d <= 4096 -> netnox_ssh_client_send_data d w =
    netnox_ssh_send_packet (message [FU8 NETNOX_SSH_MSG_CHANNEL_DATA; FU32 (remote_channel_id t);
      FStr (if remote_max_packet_size t =? 0 then d else ztake (remote_max_packet_size t) d)]) w).
  { intros d Hd. unfold netnox_ssh_client_send_data, NETNOX_SSH_MAX_DATA_LEN, tr.
    rewrite bind_guard. replace (_ && _) with true by lia. rewrite bind_gets. fold t.
    rewrite bind_guard, Hc, Ho. cbn [andb].
    match goal with |- context [ztake ?n d] =>
      replace (ztake n d) with (if remote_max_packet_size t =? 0 then d else ztake (remote_max_packet_size t) d)
    end.
    2:{ unfold ztake. repeat case_match; try lia; try done; by rewrite !take_ge by lia. }
    rewrite append_fields_ok; [done|lia| |].
    - apply Forall_cons_2; [exact I|]. apply Forall_cons_2; [exact I|]. apply Forall_cons_2; [|by apply Forall_nil_2].
      simpl. unfold ztake. case_match; rewrite ?length_take; lia.
    - rewrite message_length. cbn [foldr field_size]. unfold ztake. case_match; rewrite ?length_take; lia. }
  rewrite (Hgen data Hl). split; [done|]. unfold chunk. clear chunk.
  destruct (Z.eqb_spec (remote_max_packet_size t) 0) as [E0|E0].
  - by rewrite Hgen.
  - rewrite Hgen by (unfold ztake; rewrite length_take; lia).
    do 6 f_equal. unfold ztake. by rewrite take_idemp.
Qed.

(** The parse of a CHANNEL_DATA message. *)
Lemma channel_data_fields id data :
  let p := message [FU8 NETNOX_SSH_MSG_CHANNEL_DATA; FU32 id; FStr data] in
  is_u32 id -> zlen p <= 35000 ->
  p = NETNOX_SSH_MSG_CHANNEL_DATA :: netnox_ssh_write_u32_be id ++ str_field data /\
  read_u32 p 1 = Ok (id, 5) /\ read_view p 5 = Ok (mkView data (zlen data), 9 + zlen data).
Proof.
  intros p Hid Hl. assert (Hp : p = NETNOX_SSH_MSG_CHANNEL_DATA :: netnox_ssh_write_u32_be id ++ str_field data).
  { unfold p, message. simpl. by rewrite app_nil_r. }
  assert (Hu : is_u32 (zlen p)) by ulia. split; [done|]. split.
  - by apply (read_u32_field p (zlen p) 1 [NETNOX_SSH_MSG_CHANNEL_DATA] id (str_field data)).
  - pose proof (read_view_field p (zlen p) 5 ([NETNOX_SSH_MSG_CHANNEL_DATA] ++ netnox_ssh_write_u32_be id) data [])
      as Hv. rewrite !app_nil_r in Hv. rewrite <- app_assoc in Hv.
    specialize (Hv Hp eq_refl eq_refl Hu). unfold read_view. rewrite Hv. f_equal.
Qed.

Lemma recv_data_handle_data {E} `{Host E, NoxTLS} depth len payload :
  is_message payload NETNOX_SSH_MSG_CHANNEL_DATA = true ->
  recv_data_handle (E:=E) depth len payload =
    (offset ← for_our_channel payload;
     '(str, _) ← or_return (lift (read_view payload offset)) NETNOX_RETURN_FAILED;
     data ← copy_data len str; mret (Some data)).
Proof. destruct payload as [|b l]; [done|]. intros ->%Z.eqb_eq. done. Qed.

Lemma channel_data_handled {E} `{Host E, NoxTLS} depth len data (w : world netnox_ssh_client_t E) :
  let id := local_channel_id (transport (ctx w)) in
  let p := message [FU8 NETNOX_SSH_MSG_CHANNEL_DATA; FU32 id; FStr data] in
  is_u32 id -> zlen p <= 35000 -> 0 <= len ->
  recv_data_handle depth len p w = (Ok (Some (ztake len data)), w).
Proof.
  intros id p Hid Hp Hlen. destruct (channel_data_fields id data Hid Hp) as (Hpc & Hr1 & Hr2).
  fold p in Hpc, Hr1, Hr2. rewrite recv_data_handle_data by (by rewrite Hpc).
  assert (Hchan : for_our_channel p w = (Ok 5, w)).
  { unfold for_our_channel, tr. rewrite Hr1, (bind_run _ _ w (id, 5) w) by done.
    rewrite bind_gets. fold id. by rewrite Z.eqb_refl. }
  rewrite (bind_run _ _ w 5 w Hchan), Hr2.
  rewrite (bind_run _ _ w (mkView data (zlen data), 9 + zlen data) w) by done. unfold copy_data. cbn [v_len v_mem].
  rewrite mem_read_in_bounds by (repeat case_match; lia). rewrite bind_lift_ok, zdrop_0.
  replace (ztake _ data) with (ztake len data); [done|].
  case_match; [done|]. rewrite !ztake_all by lia. done.
Qed.

(** C37: [netnox_ssh_client_recv_data] delivers the string of the next CHANNEL_DATA
    message for our channel: as much of it as fits the caller's buffer of [len]
    bytes. The whole message is consumed: what does not fit is gone. *)
Theorem recv_data_delivers E (H : Host E) (HL : HostLaws E) (T : NoxTLS) (L : NoxTLSLaws T)
    depth len data padding rest (w : world netnox_ssh_client_t E) :
  let t := transport (ctx w) in
  let p := message [FU8 NETNOX_SSH_MSG_CHANNEL_DATA; FU32 (local_channel_id t); FStr data] in
  reachable w -> ReliableHost E -> recv_cb_set (ctx w) = true ->
  connected t = true -> channel_open t = true -> is_u32 (local_channel_id t) ->
  0 < len <= NETNOX_SSH_MAX_DATA_LEN -> packet_ok p padding ->
  (key_exchange_complete t = true -> 16 <= zlen (packet p padding)) ->
  inbox (env w) = wire (server_to_client t) (packet p padding) ++ rest ->
  exists w', netnox_ssh_client_recv_data depth len w = (Ok (ztake len data), w') /\
    inbox (env w') = rest.
Proof.
  intros t p Hw HR Hcb Hc Ho Hid Hlen Hok H16 Hin.
  destruct (reachable_inv w Hw) as (Hwf & _ & _). pose proof Hwf as (_ & D2 & _).
  pose proof (recv_packet_complete NETNOX_SSH_MAX_PACKET_LEN p padding rest w D2 HR Hcb Hok) as Hrecv.
  assert (Hp : zlen p <= 35000) by (destruct Hok as [? Hl]; unfold NETNOX_SSH_MAX_PACKET_LEN in Hl; lia).
  specialize (Hrecv Hp H16 Hin).
  unfold wp in Hrecv. destruct (netnox_ssh_recv_packet NETNOX_SSH_MAX_PACKET_LEN w) as [o w1] eqn:Er.
  destruct Hrecv as [-> Hrest].
  pose proof (wp_run _ _ _ _ _ (recv_packet_sound NETNOX_SSH_MAX_PACKET_LEN w D2) Er) as [(_ & Hfr & _) _].
  assert (Hloc : local_channel_id (transport (ctx w1)) = local_channel_id t) by (by rewrite Hfr).
  exists w1. split; [|done]. unfold netnox_ssh_client_recv_data, tr.
  rewrite bind_guard. replace (_ && _) with true by lia. rewrite bind_gets. fold t.
  rewrite bind_guard, Hc, Ho. cbn [andb recv_data_loop].
  rewrite (bind_run _ _ w (Some (ztake len data)) w1); [done|]. unfold recv_data_step.
  rewrite (bind_run _ _ w p w1) by by apply try_run.
  pose proof (channel_data_handled depth len data w1) as Hh. rewrite Hloc in Hh.
  apply Hh; [done|done|lia].
Qed.
