(* ===== verification/ClientRun.v ===== *)
(** A run of the client API against a server of the sample primitives: configure,
    connect, authenticate, open a channel, receive data. It gives the witnesses of
    the API properties. *)

From S2P Require Export ClientSessionSpec.

Import SampleInstances.

Lemma reach_run {E} `{HostLaws E, NoxTLS} depth call (w : world netnox_ssh_client_t E) :
  reachable w -> call_ok call -> zlen (inbox (env w)) <= Z.of_nat depth < 2 ^ 62 ->
  is_ok (run_call depth call w).1 = true -> reachable (run_call depth call w).2.
Proof.
  intros Hw Hc Hn Hok. eapply (reach_call depth call w); [done|done|done|apply surjective_pairing|].
  by destruct (run_call depth call w) as [[]].
Qed.

Definition run_depth : nat := 3000.
Definition after (call : api_call) (w : world netnox_ssh_client_t sample_env) :=
  (run_call run_depth call w).2.

Definition run_initial : world netnox_ssh_client_t sample_env :=
  (netnox_ssh_client_init 0 (mkWorld client_zero (mkSample [] [] 0) true)).2.
Definition run_configured : world netnox_ssh_client_t sample_env :=
  after (CallSetKey (zeros 32)) (after (CallSetPassword (bs "secret"))
    (after (CallSetTarget (bs "user") (bs "host")) (after (CallSetIo true true) run_initial))).

(** The server's identification line and its side of the key exchange. *)
Definition run_client_kexinit : list Z :=
  match netnox_ssh_build_kexinit_payload 1024 run_configured with (Ok tx, _) => tx | _ => [] end.
Definition run_exchange_hash : list Z :=
  sample_hash (transcript (transport (ctx run_configured) <| server_ident := bs "SSH-2.0-b" |>
      <| kexinit_client_payload := run_client_kexinit |>
      <| kexinit_server_payload := sample_server_kexinit |>)
    sample_host_blob (be_bytes 32 27) sample_pub_s (be_bytes 32 (3 * 45))).
Definition run_reply : list Z :=
  NETNOX_SSH_MSG_KEX_ECDH_REPLY :: str_field sample_host_blob ++ str_field sample_pub_s ++
    str_field (sample_signature run_exchange_hash).
Definition run_server_hello : list Z :=
  bs "welcome" ++ [13; 10] ++ bs "SSH-2.0-b" ++ [13; 10] ++
  concat ((fun p => packet p (zeros 4)) <$>
    [sample_server_kexinit; run_reply; [NETNOX_SSH_MSG_NEWKEYS]]).
Definition run_connecting : world netnox_ssh_client_t sample_env :=
  run_configured <| env := mkSample run_server_hello [] 0 |>.
Definition run_connected := after CallConnect run_connecting.

Definition run_authenticating := session_world run_connected
  [message [FU8 6; FStr NETNOX_SSH_SERVICE_USERAUTH]; [NETNOX_SSH_MSG_USERAUTH_FAILURE];
   [2; 9]; [NETNOX_SSH_MSG_USERAUTH_SUCCESS]].
Definition run_authenticated := after CallAuthenticate run_authenticating.

Definition run_opening := session_world run_authenticated
  [message [FU8 6; FStr NETNOX_SSH_SERVICE_CONNECTION];
   message [FU8 91; FU32 0; FU32 7; FU32 1000; FU32 64]].
Definition run_open := after CallOpenSession run_opening.

Definition run_data := message [FU8 NETNOX_SSH_MSG_CHANNEL_DATA; FU32 0; FStr (bs "hello")].
Definition run_receiving := session_world run_open [run_data].

Lemma run_connected_eq : run_connected = after CallConnect run_connecting.
Proof. unfold run_connected. reflexivity. Qed.
Lemma run_authenticated_eq : run_authenticated = after CallAuthenticate run_authenticating.
Proof. unfold run_authenticated. reflexivity. Qed.
Lemma run_open_eq : run_open = after CallOpenSession run_opening.
Proof. unfold run_open. reflexivity. Qed.
Lemma run_authenticating_eq : exists ps, run_authenticating = session_world run_connected ps.
Proof. unfold run_authenticating. eexists. reflexivity. Qed.
Lemma run_opening_eq : exists ps, run_opening = session_world run_authenticated ps.
Proof. unfold run_opening. eexists. reflexivity. Qed.
Lemma run_receiving_eq : run_receiving = session_world run_open [run_data].
Proof. unfold run_receiving. reflexivity. Qed.
Lemma run_ctx_eqs : ctx run_authenticating = ctx run_connected /\ ctx run_opening = ctx run_authenticated /\
  ctx run_receiving = ctx run_open.
Proof. split_and!; apply session_world_ctx. Qed.

#[local] Opaque run_initial run_configured run_connecting run_connected run_authenticating
  run_authenticated run_opening run_open run_receiving.

(** ** The run is one the application reaches *)

Lemma pair_eq {A B} (p : A * B) a : p.1 = a -> p = (a, p.2).
Proof. destruct p. by intros <-. Qed.

(** One step: the call succeeds (by evaluation), so what follows it is reachable. *)
Lemma reach_after call w : reachable w -> call_ok call ->
  (zlen (inbox (env w)) <=? 3000) && is_ok (run_call run_depth call w).1 = true ->
  reachable (after call w).
Proof.
  intros Hw Hc Hb. apply andb_prop in Hb as [Hn Hok]. apply reach_run; [done|done| |done].
  unfold run_depth. lia.
Qed.

Lemma run_initial_reachable : reachable run_initial.
Proof.
  eapply (reach_init 0 (mkWorld client_zero (mkSample [] [] 0) true)), pair_eq. vm_compute. reflexivity.
Qed.

Lemma run_configured_reachable : reachable run_configured.
Proof.
  Transparent run_configured. unfold run_configured. Opaque run_configured.
  apply reach_after; [apply reach_after; [apply reach_after; [apply reach_after;
    [apply run_initial_reachable|done|]|done|]|done|]|done|]; vm_compute; reflexivity.
Qed.

Lemma run_connecting_reachable : reachable run_connecting.
Proof. Transparent run_connecting. apply reach_env, run_configured_reachable. Qed.


(** The result of a step of the run. *)
Lemma run_step call w : (run_call run_depth call w).1 = Ok tt ->
  run_call run_depth call w = (Ok tt, after call w).
Proof. apply pair_eq. Qed.

Lemma run_connect_ok : netnox_ssh_client_connect run_depth run_connecting = (Ok tt, run_connected).
Proof.
  pose proof (run_step CallConnect run_connecting) as Hs. cbn [run_call] in Hs. rewrite run_connected_eq. apply Hs.
  vm_compute. reflexivity.
Qed.
Lemma run_authenticate_ok :
  netnox_ssh_client_authenticate run_depth run_authenticating = (Ok tt, run_authenticated).
Proof.
  pose proof (run_step CallAuthenticate run_authenticating) as Hs. cbn [run_call] in Hs. rewrite run_authenticated_eq. apply Hs.
  vm_compute. reflexivity.
Qed.
Lemma run_open_ok : netnox_ssh_client_open_session run_depth run_opening = (Ok tt, run_open).
Proof.
  pose proof (run_step CallOpenSession run_opening) as Hs. cbn [run_call] in Hs. rewrite run_open_eq. apply Hs.
  vm_compute. reflexivity.
Qed.

Lemma inbox_small w : (zlen (inbox (env w)) <=? 3000) = true ->
  zlen (inbox (env (C:=netnox_ssh_client_t) (E:=sample_env) w)) <= Z.of_nat run_depth < 2 ^ 62.
Proof. unfold run_depth. lia. Qed.

Lemma run_connecting_inbox : zlen (inbox (env run_connecting)) <= Z.of_nat run_depth < 2 ^ 62.
Proof. apply inbox_small. vm_compute. reflexivity. Qed.
Lemma run_authenticating_inbox : zlen (inbox (env run_authenticating)) <= Z.of_nat run_depth < 2 ^ 62.
Proof. apply inbox_small. vm_compute. reflexivity. Qed.
Lemma run_opening_inbox : zlen (inbox (env run_opening)) <= Z.of_nat run_depth < 2 ^ 62.
Proof. apply inbox_small. vm_compute. reflexivity. Qed.

Lemma run_connected_reachable : reachable run_connected.
Proof.
  rewrite run_connected_eq. apply reach_after; [apply run_connecting_reachable|done|vm_compute; reflexivity].
Qed.
Lemma session_reachable w ps : reachable w -> reachable (session_world w ps).
Proof. apply reach_env. Qed.
Lemma run_authenticating_reachable : reachable run_authenticating.
Proof. destruct run_authenticating_eq as [ps ->]. apply session_reachable, run_connected_reachable. Qed.
Lemma run_authenticated_reachable : reachable run_authenticated.
Proof.
  rewrite run_authenticated_eq. apply reach_after; [apply run_authenticating_reachable|done|vm_compute; reflexivity].
Qed.
Lemma run_opening_reachable : reachable run_opening.
Proof. destruct run_opening_eq as [ps ->]. apply session_reachable, run_authenticated_reachable. Qed.
Lemma run_open_reachable : reachable run_open.
Proof.
  rewrite run_open_eq. apply reach_after; [apply run_opening_reachable|done|vm_compute; reflexivity].
Qed.
Lemma run_receiving_reachable : reachable run_receiving.
Proof. rewrite run_receiving_eq. apply session_reachable, run_open_reachable. Qed.

Lemma run_connected_keyed : keyed (ctx run_authenticating).
Proof.
  rewrite (proj1 run_ctx_eqs).
  by destruct (triple_run _ _ _ _ _ _ _ _ (connect_spec run_depth ltac:(done))
    (reachable_inv _ run_connecting_reachable) (proj1 run_connecting_inbox) I run_connect_ok) as (_ & _ & _ & ? & _).
Qed.
Lemma run_authenticated_keyed : keyed (ctx run_opening).
Proof.
  rewrite (proj1 (proj2 run_ctx_eqs)).
  by destruct (triple_run _ _ _ _ _ _ _ _ (authenticate_spec run_depth keyed session_pred_keyed)
    (reachable_inv _ run_authenticating_reachable) (proj1 run_authenticating_inbox) run_connected_keyed run_authenticate_ok)
    as (_ & _ & _ & ? & _).
Qed.

(** ** Witnesses *)

Lemma api_reachable_invariant_witness :
  let t := transport (ctx run_receiving) in flags_ok t /\ keys_ok t /\ arrays_ok (ctx run_receiving).
Proof.
  destruct (api_reachable_invariant sample_env sample_host sample_host_laws sample_noxtls sample_laws
    run_receiving run_receiving_reachable) as (H1 & H2 & H3 & _). exact (conj H1 (conj H2 H3)).
Defined.

Lemma api_calls_terminate_witness : (run_call run_depth CallConnect run_connecting).1 <> Diverge.
Proof.
  apply (api_calls_terminate sample_env sample_host sample_host_laws sample_noxtls sample_laws
    run_depth CallConnect run_connecting run_connecting_reachable I run_connecting_inbox).
Defined.

Lemma connect_authenticates_server_witness :
  keyed (ctx run_connected) /\ identified (transport (ctx run_connected)) /\
  same_config (ctx run_connecting) (ctx run_connected).
Proof.
  apply (connect_authenticates_server sample_env sample_host sample_host_laws sample_noxtls sample_laws
    run_depth run_connecting run_connected run_connecting_reachable run_connecting_inbox run_connect_ok).
Defined.

Lemma authenticate_success_witness :
  authenticated (transport (ctx run_authenticated)) = true /\ keyed (ctx run_authenticated).
Proof.
  destruct (authenticate_success sample_env sample_host sample_host_laws sample_noxtls sample_laws
    run_depth run_authenticating run_authenticated run_authenticating_reachable run_connected_keyed
    (proj1 run_authenticating_inbox) run_authenticate_ok) as (H1 & H2 & _). exact (conj H1 H2).
Defined.

Lemma calls_out_of_order_witness :
  netnox_ssh_client_authenticate run_depth run_initial = (Err NETNOX_RETURN_BAD_PARAM, run_initial) /\
  netnox_ssh_client_open_session run_depth run_initial = (Err NETNOX_RETURN_BAD_PARAM, run_initial).
Proof.
  destruct (calls_out_of_order sample_env sample_host sample_noxtls run_depth run_initial)
    as (H1 & H2 & _). split; [apply H1|apply H2]; vm_compute; reflexivity.
Defined.

Lemma open_session_success_witness :
  keyed (ctx run_open) /\ channel_open (transport (ctx run_open)) = true /\
  exists p, confirmed (transport (ctx run_open)) p.
Proof.
  apply (open_session_success sample_env sample_host sample_host_laws sample_noxtls sample_laws
    run_depth run_opening run_open run_opening_reachable run_authenticated_keyed
    (proj1 run_opening_inbox) run_open_ok).
Defined.

Lemma password_request_rfc4252_witness :
  netnox_ssh_send_userauth_password run_authenticating =
  netnox_ssh_send_packet (message (password_request (cstr (username (ctx run_authenticating)))
    (cstr (password (ctx run_authenticating))))) run_authenticating.
Proof.
  apply (password_request_rfc4252 sample_env sample_host sample_host_laws sample_noxtls sample_laws
    run_authenticating run_authenticating_reachable).
Defined.

Lemma publickey_request_rfc4252_witness :
  let c := ctx run_authenticating in
  let blob := message [FStr NETNOX_SSH_KEYALG_ED25519; FStr (ed25519_public_key c)] in
  let request := publickey_request (cstr (username c)) blob in
  let sig := sample_sig (ed25519_private_key c) (message (FStr (session_id (transport c)) :: request)) in
  netnox_ssh_send_userauth_publickey_ed25519 run_authenticating =
  netnox_ssh_send_packet (message (request ++ [FStr (message [FStr NETNOX_SSH_KEYALG_ED25519; FStr sig])]))
    run_authenticating.
Proof.
  cbv zeta.
  refine (publickey_request_rfc4252 sample_env sample_host sample_host_laws sample_noxtls sample_laws
    run_authenticating run_authenticating_reachable run_connected_keyed _ true _ eq_refl).
  vm_compute. reflexivity.
Defined.

Lemma send_data_one_message_witness :
  netnox_ssh_client_send_data (replicate 100 9) run_receiving =
  netnox_ssh_client_send_data (replicate 64 9) run_receiving.
Proof.
  assert (Hm : remote_max_packet_size (transport (ctx run_receiving)) = 64) by (vm_compute; reflexivity).
  assert (Hc : ztake 64 (replicate 100 9) = replicate 64 9) by (vm_compute; reflexivity).
  rewrite <- Hc. pose proof (send_data_one_message sample_env sample_host sample_noxtls (replicate 100 9)
    run_receiving ltac:(vm_compute; reflexivity) ltac:(vm_compute; reflexivity)
    ltac:(vm_compute; split; [reflexivity|discriminate]) ltac:(rewrite Hm; discriminate)) as Hs.
  cbv zeta in Hs. rewrite Hm in Hs. exact (proj2 Hs).
Defined.

Lemma run_data_inbox :
  inbox (env run_receiving) =
  wire (server_to_client (transport (ctx run_receiving))) (packet run_data (zeros 14)) ++ [].
Proof. vm_compute. reflexivity. Qed.

Lemma recv_data_delivers_witness :
  exists w', netnox_ssh_client_recv_data run_depth 3 run_receiving = (Ok (bs "hel"), w') /\
    inbox (env w') = [].
Proof.
  pose proof (recv_data_delivers sample_env sample_host sample_host_laws sample_noxtls sample_laws
    run_depth 3 (bs "hello") (zeros 14) [] run_receiving run_receiving_reachable sample_reliable) as Hd.
  assert (Hl : local_channel_id (transport (ctx run_receiving)) = 0) by (vm_compute; reflexivity).
  cbv zeta in Hd. rewrite Hl in Hd. fold run_data in Hd.
  assert (Hs : ztake 3 (bs "hello") = bs "hel") by reflexivity. rewrite Hs in Hd. apply Hd; clear Hd.
  - vm_compute; reflexivity.
  - vm_compute; reflexivity.
  - vm_compute; reflexivity.
  - split; [discriminate|reflexivity].
  - split; [reflexivity|discriminate].
  - split; [|discriminate]. repeat constructor; (discriminate || reflexivity).
  - intros _. vm_compute. discriminate.
  - exact run_data_inbox.
Defined.
