(* ===== verification/Server.v ===== *)
(** The server context (netnox_ssh_server_t of common/noxssh_server.h), the server's
    I/O helpers with their deadlines, and its packet layer: [srv_send_packet] and
    [srv_recv_packet] of common/noxssh_server.c. *)

From S2P Require Export Packet.

(** ** The context *)

(** [s_transport] holds the fields the server shares with the client's context. A
    callback pointer is modelled by whether it is set; io_user_data and
    publickey_allowed_user_data belong to the environment. *)
Record netnox_ssh_server_t : Type := mkServer {
  s_send_cb_set : bool;
  s_recv_cb_set : bool;
  transport_fd : Z;
  s_transport : ssh_transport_t;
  host_ed25519_sk : list Z;
  host_ed25519_pk : list Z;
  host_key_ready : bool;
  publickey_allowed_cb_set : bool;
  authenticated_user : list Z;
  auth_attempts : Z;
  session_started : bool;
  handshake_deadline_ms : Z;
  packet_deadline_ms : Z;
  send_deadline_ms : Z;
  want_pty : bool;
  term : list Z;
  pty_cols : Z;
  pty_rows : Z;
  pty_width : Z;
  pty_height : Z;
  encrypted_bytes_sent : Z;
  encrypted_bytes_recv : Z;
  rekey_threshold_bytes : Z
}.

#[export] Instance server_eta : Eta netnox_ssh_server_t := fun r =>
  mkServer (s_send_cb_set r) (s_recv_cb_set r) (transport_fd r) (s_transport r) (host_ed25519_sk r)
    (host_ed25519_pk r) (host_key_ready r) (publickey_allowed_cb_set r) (authenticated_user r)
    (auth_attempts r) (session_started r) (handshake_deadline_ms r) (packet_deadline_ms r)
    (send_deadline_ms r) (want_pty r) (term r) (pty_cols r) (pty_rows r) (pty_width r)
    (pty_height r) (encrypted_bytes_sent r) (encrypted_bytes_recv r) (rekey_threshold_bytes r).

#[export] Instance set_s_send_cb_set : Setter s_send_cb_set := ltac:(build_setter).
#[export] Instance set_s_recv_cb_set : Setter s_recv_cb_set := ltac:(build_setter).
#[export] Instance set_transport_fd : Setter transport_fd := ltac:(build_setter).
#[export] Instance set_s_transport : Setter s_transport := ltac:(build_setter).
#[export] Instance set_host_ed25519_sk : Setter host_ed25519_sk := ltac:(build_setter).
#[export] Instance set_host_ed25519_pk : Setter host_ed25519_pk := ltac:(build_setter).
#[export] Instance set_host_key_ready : Setter host_key_ready := ltac:(build_setter).
#[export] Instance set_publickey_allowed_cb_set : Setter publickey_allowed_cb_set := ltac:(build_setter).
#[export] Instance set_authenticated_user : Setter authenticated_user := ltac:(build_setter).
#[export] Instance set_auth_attempts : Setter auth_attempts := ltac:(build_setter).
#[export] Instance set_session_started : Setter session_started := ltac:(build_setter).
#[export] Instance set_handshake_deadline_ms : Setter handshake_deadline_ms := ltac:(build_setter).
#[export] Instance set_packet_deadline_ms : Setter packet_deadline_ms := ltac:(build_setter).
#[export] Instance set_send_deadline_ms : Setter send_deadline_ms := ltac:(build_setter).
#[export] Instance set_want_pty : Setter want_pty := ltac:(build_setter).
#[export] Instance set_term : Setter term := ltac:(build_setter).
#[export] Instance set_pty_cols : Setter pty_cols := ltac:(build_setter).
#[export] Instance set_pty_rows : Setter pty_rows := ltac:(build_setter).
#[export] Instance set_pty_width : Setter pty_width := ltac:(build_setter).
#[export] Instance set_pty_height : Setter pty_height := ltac:(build_setter).
#[export] Instance set_encrypted_bytes_sent : Setter encrypted_bytes_sent := ltac:(build_setter).
#[export] Instance set_encrypted_bytes_recv : Setter encrypted_bytes_recv := ltac:(build_setter).
#[export] Instance set_rekey_threshold_bytes : Setter rekey_threshold_bytes := ltac:(build_setter).

(** [memset(server, 0, sizeof( *server))] *)
Definition server_zero : netnox_ssh_server_t :=
  mkServer false false 0 transport_zero (zeros 32) (zeros 32) false false (zeros 65) 0 false
    0 0 0 false (zeros 65) 0 0 0 0 0 0 0.

(** The server sends with the s2c keys and receives with the c2s keys. *)
Definition srv_sending (t : ssh_transport_t) : direction :=
  mkDirection (key_exchange_complete t) (s2c_key t) (s2c_counter t) (s2c_mac_key t) (send_seq t).
Definition srv_receiving (t : ssh_transport_t) : direction :=
  mkDirection (key_exchange_complete t) (c2s_key t) (c2s_counter t) (c2s_mac_key t) (recv_seq t).

#[export] Instance server_receiver : Receiver netnox_ssh_server_t := {|
  receiving s := srv_receiving (s_transport s);
  set_r_counter k s := s <| s_transport := s_transport s <| c2s_counter := k |> |>;
  r_next s := s <| s_transport := s_transport s <| recv_seq := u32 (recv_seq (s_transport s) + 1) |> |>;
  r_count n s := s <| encrypted_bytes_recv := u64 (encrypted_bytes_recv s + n) |>
|}.

(** [diff |= a\[i\] ^ b\[i\]] over all [i], and [diff == 0] at the end. *)
Definition srv_equal_mac (a b : list Z) : bool :=
  foldl (fun diff '(x, y) => Z.lor diff (u8 (Z.lxor x y))) 0 (zip a b) =? 0.

Definition UINT64_MAX : Z := 2 ^ 64 - 1.

Section code.
Context {E : Type} `{Host E} `{NoxTLS}.

Abbreviation SM := (M (world netnox_ssh_server_t E)).

Definition server_ : SM netnox_ssh_server_t := gets ctx.
Definition str : SM ssh_transport_t := gets (fun w => s_transport (ctx w)).
Definition set_server (f : netnox_ssh_server_t -> netnox_ssh_server_t) : SM unit :=
  modify (set ctx f).
Definition set_str (f : ssh_transport_t -> ssh_transport_t) : SM unit :=
  set_server (set s_transport f).
Definition on_str {A} (m : M ssh_transport_t A) : SM A := fun w =>
  let '(o, t) := m (s_transport (ctx w)) in (o, set ctx (set s_transport (fun _ => t)) w).

(** ** I/O helpers *)

Definition srv_now_ms : SM Z := call c_clock_ms.

(** The test before each callback: the clock failed, or a deadline passed. *)
Definition srv_check_deadlines (s : netnox_ssh_server_t) (deadline : Z) : SM unit :=
  now ← srv_now_ms;
  guard_m (negb ((now =? UINT64_MAX) || (negb (deadline =? 0) && (now >? deadline)) ||
                 (negb (session_started s) && negb (handshake_deadline_ms s =? 0) &&
                  (now >? handshake_deadline_ms s)))) NETNOX_RETURN_FAILED.

Definition srv_send_all (data : list Z) : SM unit :=
  s ← server_;
  guard_m (s_send_cb_set s) NETNOX_RETURN_BAD_PARAM;;
  send_loop (srv_check_deadlines s (send_deadline_ms s)) data.

Definition srv_recv_exact (room len : Z) : SM (list Z) :=
  s ← server_;
  guard_m (s_recv_cb_set s) NETNOX_RETURN_BAD_PARAM;;
  recv_loop (srv_check_deadlines s (packet_deadline_ms s)) room len.

(** [while(pos < len) { n = getrandom(out + pos, len - pos, 0); .. }] *)
Definition srv_fill_random (len : Z) : SM (list Z) :=
  loop forever (fun out =>
    if zlen out <? len then
      '(n, eintr) ← call (c_getrandom (len - zlen out));
      match n with
      | Some ((_ :: _) as bytes) => mret (inl (out ++ bytes))
      | Some [] => fail NETNOX_RETURN_FAILED
      | None => if (eintr : bool) then mret (inl out) else fail NETNOX_RETURN_FAILED
      end
    else mret (inr out)) [].

(** ** Packets *)

(** The branch taken once the keys are in use: MAC, encrypt, write both. *)
Definition srv_send_encrypted (plain : list Z) (plain_len : Z) : SM unit :=
  let enc_mac_len := u32 (plain_len + NETNOX_SSH_MAC_LEN) in
  t ← str;
  mac_buf ← try (lift (netnox_ssh_hmac_sha256 (s2c_mac_key t)
                         (netnox_ssh_write_u32_be (send_seq t) ++ plain)));
  let '(aes_ok, enc) := noxtls_aes_encrypt_ctr (s2c_key t) plain (s2c_counter t) in
  guard_m aes_ok NETNOX_RETURN_FAILED;;
  let n_blocks := u32 (plain_len + NETNOX_SSH_AES_BLOCK_LEN - 1) / NETNOX_SSH_AES_BLOCK_LEN in
  set_str (fun t => t <| s2c_counter := netnox_ssh_ctr_increment_blocks (s2c_counter t) n_blocks |>);;
  try (srv_send_all enc);;
  try (srv_send_all mac_buf);;
  set_str (fun t => t <| send_seq := u32 (send_seq t + 1) |>);;
  set_server (fun s => s <| encrypted_bytes_sent := u64 (encrypted_bytes_sent s + enc_mac_len) |>).

Definition srv_send_packet (payload : list Z) : SM unit :=
  let payload_len := zlen payload in
  guard_m (negb (payload_len =? 0)) NETNOX_RETURN_BAD_PARAM;;
  now ← srv_now_ms;
  set_server (fun s => s <| send_deadline_ms := u64 (now + 10000) |>);;
  t ← str;
  let block_size := if key_exchange_complete t then NETNOX_SSH_AES_BLOCK_LEN
                    else NETNOX_SSH_PACKET_BLOCK_SIZE in
  padding_len ← lift (pad_loop 16 payload_len NETNOX_SSH_MIN_PADDING_LEN block_size);
  let packet_len := u32 (1 + payload_len + padding_len) in
  let plain_len := u32 (4 + packet_len) in
  guard_m (packet_len <=? NETNOX_SSH_MAX_PACKET_LEN) NETNOX_RETURN_BAD_PARAM;;
  padding ← try (srv_fill_random padding_len);
  let plain := netnox_ssh_write_u32_be packet_len ++ [u8 padding_len] ++ payload ++ padding in
  lift (if zlen plain <=? 4 + NETNOX_SSH_MAX_PACKET_LEN then Ok tt else Oob);;
  if key_exchange_complete t then
    srv_send_encrypted plain plain_len
  else
    (* the separate branch for NEWKEYS does the same *)
    srv_send_all plain;;
    set_str (fun t => t <| send_seq := u32 (send_seq t + 1) |>).

Definition srv_recv_packet (payload_max : Z) : SM (list Z) :=
  now ← srv_now_ms;
  set_server (fun s => s <| packet_deadline_ms := u64 (now + 10000) |>);;
  t ← str;
  if key_exchange_complete t then recv_packet_encrypted srv_recv_exact srv_equal_mac payload_max
  else recv_packet_plain srv_recv_exact payload_max.
End code.
