(* ===== verification/ServerPacket.v ===== *)
(** What the server's packet layer does: the bytes [srv_send_packet] puts on the wire,
    the packets [srv_recv_packet] accepts, its deadlines, and the constant-time
    comparison of MACs. *)

From S2P Require Export Server Sample.

(** ** Frames *)

Definition srv_send_frame (s s' : netnox_ssh_server_t) : Prop :=
  s' = s <| send_deadline_ms := send_deadline_ms s' |>
         <| encrypted_bytes_sent := encrypted_bytes_sent s' |>
         <| s_transport := s_transport s <| s2c_counter := s2c_counter (s_transport s') |>
              <| send_seq := send_seq (s_transport s') |> |>.

Definition srv_recv_frame (s s' : netnox_ssh_server_t) : Prop :=
  s' = s <| packet_deadline_ms := packet_deadline_ms s' |>
         <| encrypted_bytes_recv := encrypted_bytes_recv s' |>
         <| s_transport := s_transport s <| c2s_counter := c2s_counter (s_transport s') |>
              <| recv_seq := recv_seq (s_transport s') |> |>.

Ltac destruct_server s :=
  let t := fresh "t" in destruct s as [? ? ? t]; destruct t.

Lemma srv_send_frame_refl s : srv_send_frame s s.
Proof. by destruct_server s. Qed.
Lemma srv_send_frame_trans s1 s2 s3 : srv_send_frame s1 s2 -> srv_send_frame s2 s3 -> srv_send_frame s1 s3.
Proof. unfold srv_send_frame. intros H1 H2. rewrite H2, H1. by destruct_server s1. Qed.
Lemma srv_recv_frame_refl s : srv_recv_frame s s.
Proof. by destruct_server s. Qed.
Lemma srv_recv_frame_trans s1 s2 s3 : srv_recv_frame s1 s2 -> srv_recv_frame s2 s3 -> srv_recv_frame s1 s3.
Proof. unfold srv_recv_frame. intros H1 H2. rewrite H2, H1. by destruct_server s1. Qed.
#[export] Hint Resolve srv_send_frame_refl srv_recv_frame_refl : noxssh.

#[export] Instance server_receiver_laws : ReceiverLaws netnox_ssh_server_t.
Proof.
  refine {| r_frame := srv_recv_frame |}.
  - apply srv_recv_frame_refl.
  - apply srv_recv_frame_trans.
  - intros k s. by destruct_server s.
  - intros s. by destruct_server s.
  - intros n s. by destruct_server s.
  - done.
  - done.
  - done.
Defined.

(** ** Comparing MACs *)

Lemma lor_zero a b : 0 <= a -> 0 <= b -> (Z.lor a b = 0 <-> a = 0 /\ b = 0).
Proof. intros. by rewrite Z.lor_eq_0_iff. Qed.

Lemma equal_mac_fold a b d : bytes_ok a -> bytes_ok b -> length a = length b -> 0 <= d ->
  (foldl (fun diff '(x, y) => Z.lor diff (u8 (Z.lxor x y))) d (zip a b) = 0 <-> d = 0 /\ a = b).
Proof.
  intros Ha. revert b d. induction Ha as [|x a Hx Ha IH]; intros b d Hb Hl Hd.
  - destruct b; [|done]. simpl. tauto.
  - destruct b as [|y b]; [done|]. inversion Hb as [|? ? Hy Hb']; subst. simpl.
    assert (Hxy : is_byte (Z.lxor x y)).
    { pose proof (zip_with_lxor_bytes_ok [x] [y] ltac:(by constructor) ltac:(by constructor)) as Hz.
      by inversion Hz. }
    rewrite u8_small by done. rewrite IH; [|done|simpl in Hl; lia|apply Z.lor_nonneg; split; [done|apply Hxy]].
    rewrite lor_zero by (done || apply Hxy). rewrite Z.lxor_eq_0_iff. split; [|by intros [? [= -> ->]]].
    intros [[? ->] ->]. done.
Qed.

(** [srv_equal_mac] looks at every byte and decides equality. *)
Lemma srv_equal_mac_spec a b : length a = 32%nat -> length b = 32%nat ->
  bytes_ok a -> bytes_ok b -> srv_equal_mac a b = bool_decide (a = b).
Proof.
  intros Ha Hb Oa Ob. unfold srv_equal_mac. apply eq_true_iff_eq.
  rewrite Z.eqb_eq, bool_decide_eq_true, equal_mac_fold by (done || congruence). tauto.
Qed.

(** ** I/O *)

Lemma wp_srv_now {E} `{HostLaws E} Q (w : world netnox_ssh_server_t E) :
  (forall now e, sent e = sent (env w) -> inbox e = inbox (env w) -> Q (Ok now) (w <| env := e |>)) ->
  wp srv_now_ms Q w.
Proof.
  intros HQ. apply wp_call. intros now e Hc. pose proof (clock_law (env w)) as [Hs Hi].
  rewrite Hc in Hs, Hi. auto.
Qed.

Lemma wp_set_server {E} f Q (w : world netnox_ssh_server_t E) :
  Q (Ok tt) (w <| ctx := f (ctx w) |>) -> wp (set_server f) Q w.
Proof. auto. Qed.
Lemma wp_set_str {E} f Q (w : world netnox_ssh_server_t E) :
  Q (Ok tt) (w <| ctx := ctx w <| s_transport := f (s_transport (ctx w)) |> |>) -> wp (set_str f) Q w.
Proof. auto. Qed.

Ltac sw_step :=
  lazymatch goal with
  | |- wp srv_now_ms _ _ => apply wp_srv_now; intros ? ? ? ?
  | |- wp server_ _ _ => apply wp_gets
  | |- wp str _ _ => apply wp_gets
  | |- wp (set_str _) _ _ => apply wp_set_str
  | |- wp (set_server _) _ _ => apply wp_set_server
  | |- _ => pw_step
  end; cbn [ok_or orc].
Ltac sw := repeat sw_step.

Section facts.
Context {E : Type} `{HostLaws E} {T : NoxTLS} {L : NoxTLSLaws T}.
Implicit Types w : world netnox_ssh_server_t E.

(** The clock always answers, and with a time at which no deadline has passed. *)
Definition on_time (s : netnox_ssh_server_t) (deadline : Z) : Prop :=
  forall e, let now := (c_clock_ms e).1 in
    now <> UINT64_MAX /\ (deadline = 0 \/ now <= deadline) /\
    (session_started s = true \/ handshake_deadline_ms s = 0 \/ now <= handshake_deadline_ms s).

Lemma check_deadlines_passive s d : passive (C:=netnox_ssh_server_t) (srv_check_deadlines s d).
Proof.
  intros w. unfold srv_check_deadlines. sw; by repeat split.
Qed.

Lemma check_deadlines_live s d : ReliableHost E -> on_time s d ->
  live (C:=netnox_ssh_server_t) (srv_check_deadlines s d).
Proof.
  intros HR Ht. split; [done|]. intros w. unfold srv_check_deadlines, srv_now_ms, call.
  unfold mbind, M_bind. specialize (Ht (env w)). destruct (c_clock_ms (env w)) as [now e]. simpl in Ht.
  eexists. unfold guard_m, lift, check.
  replace (negb _) with true; [done|]. destruct Ht as (? & ? & ?). symmetry. apply negb_true_iff.
  destruct (session_started s); simpl; lia.
Qed.

Lemma srv_send_all_spec data w : is_u32 (zlen data) ->
  wp (srv_send_all data) (fun o w' =>
    ctx w' = ctx w /\ inbox (env w') = inbox (env w) /\
    exists k, sent (env w') = sent (env w) ++ ztake k data /\
    match o with
    | Ok _ => k = zlen data
    | Err _ => True
    | _ => False
    end) w.
Proof.
  intros Hd. unfold srv_send_all. sw.
  - eapply wp_mono; [apply (send_loop_spec _ (check_deadlines_passive _ _) data w Hd)|].
    intros o w' (Hc & _ & Hi & k & Hs & Ho). split_and!; [done..|]. exists k.
    split; [done|]. by destruct o.
  - split_and!; [done..|]. exists 0. by rewrite app_nil_r.
Qed.

(** Nothing but a lack of bytes makes [srv_recv_exact] fail. *)
Definition server_ready (s : netnox_ssh_server_t) : Prop :=
  ReliableHost E /\ s_recv_cb_set s = true /\ on_time s (packet_deadline_ms s).

Lemma srv_recv_exact_spec room len w : is_u32 len ->
  wp (srv_recv_exact room len) (fun o w' =>
    ctx w' = ctx w /\ sent (env w') = sent (env w) /\
    match o with
    | Ok d => zlen d = len /\ zlen d <= Z.max 0 room /\ inbox (env w) = d ++ inbox (env w')
    | Err _ => (server_ready (ctx w) ->
                  zlen (inbox (env w)) < len /\ zlen (inbox (env w)) <= Z.max 0 room) /\
               exists d, inbox (env w) = d ++ inbox (env w')
    | Oob => room < len /\ room < zlen (inbox (env w))
    | Diverge => False
    end) w.
Proof.
  intros Hd. unfold srv_recv_exact. sw.
  - eapply wp_mono; [apply (recv_loop_spec _ (check_deadlines_passive _ _) room len w Hd)|].
    intros o w' (Hc & _ & Hs & Ho). split_and!; [done..|]. destruct o; try done.
    destruct Ho as (_ & Ho & ?). split; [|done]. intros (HR & _ & Ht).
    by apply Ho, check_deadlines_live.
  - split_and!; [done..|by intros (_ & ? & _); congruence|]. by exists [].
Qed.

Lemma srv_fill_random_spec len w : 0 <= len ->
  wp (srv_fill_random len) (fun o w' =>
    ctx w' = ctx w /\ sent (env w') = sent (env w) /\ inbox (env w') = inbox (env w) /\
    match o with Ok l => zlen l = len /\ bytes_ok l | Err rc => rc = NETNOX_RETURN_FAILED | Oob => False | Diverge => True end) w.
Proof.
  intros Hl. unfold srv_fill_random.
  apply (wp_loop_partial _ (fun out w' => zlen out <= len /\ bytes_ok out /\
    ctx w' = ctx w /\ sent (env w') = sent (env w) /\ inbox (env w') = inbox (env w)));
    [by intros out w' (_ & _ & ? & ? & ?)| |by repeat split; simpl; try lia; constructor].
  intros out w1 (Ho & Hb & Hc & Hs & Hi). case_match; sw.
  - destruct (c_getrandom (len - zlen out) (env w1)) as [[r eintr] e] eqn:Er.
    apply wp_call. intros a e' E'. rewrite Er in E'. injection E' as <- <-. cbn [ok_or].
    destruct (getrandom_law _ _ _ _ _ Er ltac:(lia)) as (Hs' & Hi' & Hr).
    assert (Hf : sent e = sent (env w) /\ inbox e = inbox (env w)) by (split; congruence).
    destruct Hf as [Hfs Hfi]. destruct r as [[|b bytes]|].
    + sw. by split_and!.
    + destruct Hr as [Hl' Hb']. sw.
      split_and!; try done; [|by apply bytes_ok_app]. rewrite length_app, Nat2Z.inj_add. simpl in *. lia.
    + destruct eintr; sw; by split_and!.
  - split_and!; try done. lia.
Qed.

(** ** Sending *)

(** What a send leaves behind. *)
Definition srv_sends (w w' : world netnox_ssh_server_t E) : Prop :=
  srv_send_frame (ctx w) (ctx w') /\ inbox (env w') = inbox (env w) /\
  direction_wf (srv_sending (s_transport (ctx w'))).

(** The packet [pkt] went out and the sending direction moved past it. *)
Definition srv_sent (w w' : world netnox_ssh_server_t E) (pkt : list Z) : Prop :=
  let d := srv_sending (s_transport (ctx w)) in
  sent (env w') = sent (env w) ++ wire d pkt /\
  srv_sending (s_transport (ctx w')) = advance d pkt.

Lemma srv_sends_refl w : direction_wf (srv_sending (s_transport (ctx w))) -> srv_sends w w.
Proof. intros. by split_and!; auto with noxssh. Qed.

(** A write of the whole of [data], or a failure. *)
Lemma srv_send_all_ok data w : is_u32 (zlen data) ->
  wp (srv_send_all data) (fun o w' => ctx w' = ctx w /\ inbox (env w') = inbox (env w) /\
    match o with Ok _ => sent (env w') = sent (env w) ++ data | Err _ => True | _ => False end) w.
Proof.
  intros Hd. eapply wp_mono; [by apply srv_send_all_spec|]. intros o w' (? & ? & k & Hs & Ho).
  split_and!; [done..|]. destruct o; try done. subst k. by rewrite ztake_all in Hs by lia.
Qed.

Lemma srv_send_encrypted_spec payload padding w :
  let d := srv_sending (s_transport (ctx w)) in let pkt := packet payload padding in
  direction_wf d -> d_encrypted d = true -> packet_ok payload padding ->
  wp (srv_send_encrypted pkt (zlen pkt)) (fun o w' => srv_sends w w' /\
    match o with Ok _ => srv_sent w w' pkt | Err _ => True | _ => False end) w.
Proof.
  intros d pkt (Hk & Hctr & Hctrb) Henc Hok. set (t := s_transport (ctx w)) in *.
  assert (Hl : zlen pkt < 2 ^ 30).
  { unfold pkt. rewrite packet_length. destruct Hok as [? Hm]. unfold NETNOX_SSH_MAX_PACKET_LEN in Hm. lia. }
  unfold srv_send_encrypted. sw. fold t. rewrite hmac_ok. cbn [orc ok_or].
  simpl in Hk, Hctr, Hctrb. rewrite aes_ctr_law by done. sw; [|done].
  pose proof (blocks_of_le (length pkt)).
  rewrite ceil_blocks, ctr_increment_spec by (done || lia). set (w1 := w <| ctx := _ |>).
  assert (Hw1 : srv_sends w w1).
  { split; [unfold srv_send_frame, w1; simpl; by destruct_server (ctx w)|]. split; [done|].
    split_and!; simpl; auto with noxssh. }
  eapply wp_mono; [apply srv_send_all_ok; rewrite aes_ctr_length; ulia|].
  intros o w2 (Hc2 & Hi2 & Ho2).
  assert (Hw2 : srv_sends w w2) by (unfold srv_sends in *; rewrite Hc2, Hi2; done).
  destruct o as [[]|rc| |]; cbn [ok_or orc]; try done. sw.
  eapply wp_mono; [apply srv_send_all_ok; rewrite hmac_spec_length; ulia|].
  intros o w3 (Hc3 & Hi3 & Ho3). rewrite Hc2 in Hc3. rewrite Hi2 in Hi3.
  assert (Hw3 : srv_sends w w3) by (unfold srv_sends in *; rewrite Hc3, Hi3; done).
  destruct o as [[]|rc| |]; cbn [ok_or orc]; try done. sw. split.
  - destruct Hw3 as (F1 & F2 & F3). split; [|by split].
    eapply srv_send_frame_trans; [exact F1|]. unfold srv_send_frame. simpl. by destruct_server (ctx w3).
  - unfold srv_sent, wire, advance, next_counter. fold t. fold d. rewrite Henc. simpl.
    rewrite Hc3. unfold w1. simpl. split; [by rewrite Ho3, Ho2, <- app_assoc|].
    unfold srv_sending. simpl. by rewrite <- Henc.
Qed.

Lemma srv_send_packet_spec payload w :
  direction_wf (srv_sending (s_transport (ctx w))) -> zlen payload < 2 ^ 30 ->
  wp (srv_send_packet payload) (fun o w' => srv_sends w w' /\
    match o with
    | Ok _ => exists padding, packet_ok payload padding /\ bytes_ok padding /\
        zlen (packet payload padding) mod
          (if key_exchange_complete (s_transport (ctx w)) then 16 else 8) = 0 /\
        srv_sent w w' (packet payload padding)
    | Oob => False
    | _ => True
    end) w.
Proof.
  intros Hwf Hlen. unfold srv_send_packet. sw_step. sw_step.
  2:{ split; [by apply srv_sends_refl|done]. }
  cbn [ok_or]. sw_step. apply wp_srv_now. intros now e He1 He2. cbn [ok_or]. sw.
  set (w1 := w <| env := e |> <| ctx := _ |>). set (t := s_transport (ctx w1)).
  assert (Hw1 : srv_sends w w1).
  { split; [unfold srv_send_frame, w1; simpl; by destruct_server (ctx w)|]. by split. }
  assert (Ht : s_transport (ctx w) = t) by done. rewrite Ht in *.
  set (block := if key_exchange_complete t then NETNOX_SSH_AES_BLOCK_LEN else _).
  assert (Hblock : block = 8 \/ block = 16) by (unfold block; case_match; auto).
  rewrite pad_loop_16 by (done || lia). cbn [ok_or]. sw; [|done].
  pose proof (padding_length_spec (zlen payload) block Hblock) as [Hp _]. rewrite u32_small in * by ulia.
  eapply wp_mono; [apply srv_fill_random_spec; lia|]. intros o w2 (Hc & Hs & Hi & Ho).
  assert (Hw2 : srv_sends w w2) by (unfold srv_sends in *; rewrite Hc, Hi; done).
  destruct o as [padding| | |]; cbn [ok_or orc]; try done. destruct Ho as [Hl Hb].
  destruct (framed payload padding block Hblock Hl) as (Hok & Hmod & -> & Hpl & Hmax); [lia|].
  assert (Hblk : block = if key_exchange_complete t then 16 else 8) by (unfold block; by case_match).
  rewrite Hblk in Hmod. sw.
  destruct (Z.leb_spec (zlen (packet payload padding)) (4 + NETNOX_SSH_MAX_PACKET_LEN)) as [_|?]; [|lia].
  cbn [ok_or]. unfold NETNOX_SSH_MAX_PACKET_LEN in Hmax. rewrite u32_small by ulia. rewrite <- Hpl.
  assert (Hsent : forall w3, srv_sends w2 w3 /\ srv_sent w2 w3 (packet payload padding) ->
    srv_sends w w3 /\ srv_sent w w3 (packet payload padding)).
  { intros w3 [(F1 & F2 & F3) [S1 S2]]. destruct Hw2 as (G1 & G2 & G3). rewrite Hc in S1, S2.
    split; [|split; [rewrite S1, Hs; simpl; by rewrite He1|exact S2]]. split; [by eapply srv_send_frame_trans|].
    split; [congruence|done]. }
  case_match.
  - eapply wp_mono; [apply srv_send_encrypted_spec; rewrite ?Hc; done|]. intros o w3 [Hs3 Ho].
    destruct o; try done; (split; [|try done]).
    + by apply Hsent.
    + exists padding. split_and!; try done; by apply Hsent.
    + destruct Hs3 as (F1 & F2 & F3), Hw2 as (G1 & G2 & G3).
      split; [by eapply srv_send_frame_trans|]. split; [congruence|done].
  - sw. eapply wp_mono; [apply srv_send_all_ok; ulia|]. intros o w3 (Hc3 & Hi3 & Ho3).
    assert (Hw3 : srv_sends w w3) by (unfold srv_sends in *; rewrite Hc3, Hi3; done).
    destruct o as [[]|rc| |]; cbn [ok_or]; try done. sw. split.
    + destruct Hw3 as (F1 & F2 & F3). split; [|by split]. eapply srv_send_frame_trans; [exact F1|].
      unfold srv_send_frame. simpl. by destruct_server (ctx w3).
    + exists padding. split_and!; try done. unfold srv_sent, wire, advance, next_counter.
      change (d_encrypted (srv_sending (s_transport (ctx w)))) with (key_exchange_complete t).
      match goal with Hk : key_exchange_complete t = false |- _ => rewrite Hk end.
      split; simpl; [rewrite Ho3, Hs; simpl; by rewrite He1|]. rewrite Hc3, Hc. fold t.
      unfold srv_sending. simpl. by match goal with Hk : key_exchange_complete t = false |- _ => rewrite Hk end.
Qed.

(** ** Receiving *)

Lemma srv_recv_packet_start w (Q : outcome (list Z) -> world netnox_ssh_server_t E -> Prop) max :
  (forall now e, sent e = sent (env w) -> inbox e = inbox (env w) -> c_clock_ms (env w) = (now, e) ->
     let w1 := w <| env := e |> <| ctx := ctx w <| packet_deadline_ms := u64 (now + 10000) |> |> in
     wp (if key_exchange_complete (s_transport (ctx w))
         then recv_packet_encrypted srv_recv_exact srv_equal_mac max
         else recv_packet_plain srv_recv_exact max) Q w1) ->
  wp (srv_recv_packet max) Q w.
Proof.
  intros HQ. unfold srv_recv_packet. apply wp_bind, wp_call. intros now e Hc.
  pose proof (clock_law (env w)) as [Hs Hi]. rewrite Hc in Hs, Hi. cbn [ok_or]. sw.
  apply HQ; done.
Qed.

Lemma srv_recv_packet_sound max w : direction_wf (srv_receiving (s_transport (ctx w))) ->
  wp (srv_recv_packet max) (fun o w' => received w w' /\
    match o with
    | Ok p => took max w w' p
    | Err _ => True
    | Oob => short_first w
    | Diverge => False
    end) w.
Proof.
  intros Hwf. apply srv_recv_packet_start. intros now e He1 He2 _ w1.
  assert (Hf : srv_recv_frame (ctx w) (ctx w1)) by (unfold srv_recv_frame; simpl; by destruct_server (ctx w)).
  assert (Hre : forall w', received w1 w' -> received w w').
  { intros w' (F1 & F2 & F3). split; [by eapply srv_recv_frame_trans|]. split; [simpl in F2; congruence|done]. }
  destruct (key_exchange_complete _) eqn:Hkex; eapply wp_mono.
  - by apply (recv_encrypted_sound _ _ server_ready srv_recv_exact_spec srv_equal_mac_spec max w1).
  - intros o w' [Hr Ho]. split; [by apply Hre|]. destruct o; try done.
    + unfold took in *. simpl in Ho. by rewrite He2 in Ho.
    + unfold short_first in *. simpl in Ho. by rewrite He2 in Ho.
  - by apply (recv_plain_sound _ server_ready srv_recv_exact_spec max w1).
  - intros o w' [Hr Ho]. split; [by apply Hre|]. destruct o; try done.
    unfold took in *. simpl in Ho. by rewrite He2 in Ho.
Qed.

(** A clock under which a packet is read in time. *)
Definition prompt (s : netnox_ssh_server_t) : Prop :=
  exists t0, 0 <= t0 < 2 ^ 62 /\ forall e, let now := (c_clock_ms e).1 in
    t0 <= now <= t0 + 10000 /\
    (session_started s = true \/ handshake_deadline_ms s = 0 \/ now <= handshake_deadline_ms s).

Lemma server_ready_set k s : server_ready s -> server_ready (set_r_counter k s).
Proof. done. Qed.

Lemma prompt_ready s now e : prompt s -> ReliableHost E -> s_recv_cb_set s = true ->
  (c_clock_ms e).1 = now -> server_ready (s <| packet_deadline_ms := u64 (now + 10000) |>).
Proof.
  intros (t0 & Ht0 & Ht) HR Hcb Hnow. split; [done|]. split; [done|].
  destruct (Ht e) as [Hn _]. rewrite Hnow in Hn. intros e'. destruct (Ht e') as (? & ?). simpl.
  rewrite u64_small by lia. unfold UINT64_MAX. split_and!; [lia|lia|done].
Qed.

Lemma srv_recv_packet_complete max p padding tail w :
  let d := srv_receiving (s_transport (ctx w)) in
  direction_wf d -> ReliableHost E -> s_recv_cb_set (ctx w) = true -> prompt (ctx w) ->
  packet_ok p padding -> zlen p <= max ->
  (d_encrypted d = true -> 16 <= zlen (packet p padding)) ->
  inbox (env w) = wire d (packet p padding) ++ tail ->
  wp (srv_recv_packet max) (fun o w' => o = Ok p /\ inbox (env w') = tail) w.
Proof.
  intros d Hwf HR Hcb Hprompt Hok Hmax H16 Hin. apply srv_recv_packet_start.
  intros now e He1 He2 Hnow w1.
  assert (Hready : server_ready (ctx w1)) by (apply (prompt_ready _ _ (env w)); rewrite ?Hnow; done).
  rewrite <- He2 in Hin. destruct (key_exchange_complete _) eqn:Hkex.
  - eapply (recv_encrypted_complete _ _ server_ready server_ready_set srv_recv_exact_spec srv_equal_mac_spec);
      try done. by apply H16.
  - eapply (recv_plain_complete _ server_ready srv_recv_exact_spec); try done.
    unfold wire, d in Hin. simpl in Hin. by rewrite Hkex in Hin.
Qed.

Lemma srv_recv_packet_shrinking max : shrinking (srv_recv_packet max).
Proof.
  intros w. apply srv_recv_packet_start. intros now e _ He _ w1. rewrite <- He.
  case_match.
  - by apply (recv_packet_encrypted_shrinking _ _ server_ready srv_recv_exact_spec).
  - by apply (recv_packet_plain_shrinking _ server_ready srv_recv_exact_spec).
Qed.
End facts.
