(* ===== verification/ServerKex.v ===== *)
(** The server's handshake (common/noxssh_server.c): identification, KEXINIT exchange,
    curve25519 key exchange with the host key signature. *)

From S2P Require Export ServerPacket.

Definition NETNOX_SSH_DEFAULT_SERVER_IDENT : list Z := bs "SSH-2.0-noxsshd_0.1".

Section kex.
Context {E : Type} `{Host E} `{NoxTLS}.

Abbreviation SM := (M (world netnox_ssh_server_t E)).

(** [netnox_ssh_recv_line(s, line, sizeof(line))] into a local array: the line read.
    [line] is a state of its own while the characters come in. *)
Definition srv_recv_line (out_len : Z) (line : list Z) : SM (list Z) :=
  s ← server_;
  guard_m (negb (out_len =? 0) && s_recv_cb_set s) NETNOX_RETURN_BAD_PARAM;;
  used_line ← loop forever (fun '(used, line) =>
    if used <? out_len - 1 then
      now ← srv_now_ms;
      guard_m (negb (now >? handshake_deadline_ms s)) NETNOX_RETURN_FAILED;;
      c ← recv_char;
      match c with
      | None => fail NETNOX_RETURN_FAILED
      | Some ch =>
          if ch =? NETNOX_SSH_CHAR_LF then mret (inr (used, line))
          else if ch =? NETNOX_SSH_CHAR_CR then mret (inl (used, line))
          else line ← lift (mem_write line used [ch]); mret (inl (u16 (used + 1), line))
      end
    else mret (inr (used, line))) (0, line);
  let '(used, line) := used_line in
  if used =? out_len - 1 then
    loop forever (fun _ : unit =>
      c ← recv_char;
      match c with
      | None => fail NETNOX_RETURN_FAILED
      | Some ch => if ch =? NETNOX_SSH_CHAR_LF then mret (inr tt) else mret (inl tt)
      end) tt;;
    lift (mem_write line 0 [0])
  else lift (mem_write line used [0]).

(** ** KEXINIT *)

Definition srv_build_kexinit_payload (payload_max : Z) : SM (list Z) :=
  guard_m (1 + NETNOX_SSH_KEXINIT_COOKIE_LEN <=? payload_max) NETNOX_RETURN_BAD_PARAM;;
  cookie ← try (srv_fill_random NETNOX_SSH_KEXINIT_COOKIE_LEN);
  lift (build_kexinit_from_cookie server_offer cookie payload_max).

Definition srv_exchange_kexinit : SM unit :=
  t ← str;
  guard_m (connected t) NETNOX_RETURN_BAD_PARAM;;
  rx ← try (srv_recv_packet NETNOX_SSH_MAX_PACKET_LEN);
  guard_m (is_message rx NETNOX_SSH_MSG_KEXINIT) NETNOX_RETURN_FAILED;;
  guard_m (zlen rx <=? NETNOX_SSH_MAX_KEXINIT_PAYLOAD_LEN) NETNOX_RETURN_FAILED;;
  set_str (fun t => t <| kexinit_client_payload := rx |>);;
  try (lift (netnox_ssh_validate_client_kexinit rx));;
  tx ← try (srv_build_kexinit_payload NETNOX_SSH_KEXINIT_PAYLOAD_MAX_LEN);
  guard_m (zlen tx <=? NETNOX_SSH_MAX_KEXINIT_PAYLOAD_LEN) NETNOX_RETURN_FAILED;;
  set_str (fun t => t <| kexinit_server_payload := tx |>);;
  try (srv_send_packet tx);;
  set_str (fun t => t <| kexinit_exchanged := true |>).

(** ** Key exchange *)

Definition srv_build_host_key_blob (s : netnox_ssh_server_t) (out_max : Z) : outcome (list Z) :=
  append_fields [] out_max [FStr (bs "ssh-ed25519"); FStr (host_ed25519_pk s)].

(** The text of netnox_ssh_compute_exchange_hash, with the server's own copies of
    the appending functions. *)
Definition srv_compute_exchange_hash (s : netnox_ssh_server_t)
    (host_key_blob client_pub server_pub shared_secret_raw : list Z) : outcome (list Z) :=
  netnox_ssh_compute_exchange_hash (s_transport s) host_key_blob client_pub server_pub shared_secret_raw.

Definition srv_derive_key_block (env : option (list Z)) (s : ssh_transport_t) (selector out_len : Z)
    : outcome (list Z) := netnox_ssh_derive_key_block env s selector out_len.

(** The server does not reset the sequence numbers either. *)
Definition srv_derive_transport_keys (env : option (list Z)) : M ssh_transport_t unit :=
  netnox_ssh_derive_transport_keys env.

(** The fresh key pair: 32 random bytes, clamped. *)
Definition srv_ephemeral_key : SM (list Z * list Z) :=
  priv_s ← try (srv_fill_random 32);
  let priv_s := noxtls_x25519_clamp_scalar priv_s in
  let '(ok, pub_s) := noxtls_x25519_public_key priv_s in
  guard_m ok NETNOX_RETURN_FAILED;;
  mret (priv_s, pub_s).

(** The KEX_ECDH_REPLY for the client's public key; records the session id and the
    shared secret. *)
Definition srv_kex_reply (pub_c : list Z) : SM (list Z) :=
  '(priv_s, pub_s) ← srv_ephemeral_key;
  let '(ok, shared_raw) := noxtls_x25519_shared_secret priv_s pub_c in
  guard_m ok NETNOX_RETURN_FAILED;;
  s ← server_;
  host_blob ← try (lift (srv_build_host_key_blob s 256));
  h ← try (lift (srv_compute_exchange_hash s host_blob pub_c pub_s shared_raw));
  set_str (fun t => t <| session_id := h |> <| session_id_len := 32 |>
                      <| shared_secret_raw := shared_raw |>);;
  let '(ok, sig64) := noxtls_ed25519_sign (host_ed25519_sk s) h in
  guard_m ok NETNOX_RETURN_FAILED;;
  sig_wire ← lift (append_fields [] 128 [FStr (bs "ssh-ed25519"); FStr sig64]);
  lift (append_fields [] 2048
    [FU8 NETNOX_SSH_MSG_KEX_ECDH_REPLY; FStr host_blob; FStr pub_s; FStr sig_wire]).

(** NEWKEYS both ways, then the new keys. *)
Definition srv_kex_newkeys : SM unit :=
  try (srv_send_packet [NETNOX_SSH_MSG_NEWKEYS]);;
  rx ← try (srv_recv_packet 64);
  guard_m (is_message rx NETNOX_SSH_MSG_NEWKEYS) NETNOX_RETURN_FAILED;;
  mode ← gets (fun w => c_getenv (bs "NETNOX_SSH_KEY_DERIV_MPINT") (env w));
  try (on_str (srv_derive_transport_keys mode));;
  set_str (fun t => t <| key_exchange_complete := true |>).

Definition srv_perform_curve25519_kex : SM unit :=
  s ← server_;
  guard_m (kexinit_exchanged (s_transport s) && host_key_ready s) NETNOX_RETURN_BAD_PARAM;;
  init ← try (srv_recv_packet 2048);
  guard_m (is_message init NETNOX_SSH_MSG_KEX_ECDH_INIT) NETNOX_RETURN_FAILED;;
  '(pub_c, _) ← try (lift (read_view init 1));
  guard_m (v_len pub_c =? 32) NETNOX_RETURN_FAILED;;
  pub_c ← lift (view_bytes pub_c);
  reply ← srv_kex_reply pub_c;
  try (srv_send_packet reply);;
  srv_kex_newkeys.

(** ** Handshake *)

(** The loop over the client's lines before its identification; afterwards the
    code goes on whether one was found or not. *)
Fixpoint srv_ident_loop (n : nat) (line : list Z) : SM unit :=
  match n with
  | O => mret tt
  | S n =>
      line ← try (srv_recv_line 256 line);
      if netnox_ssh_is_ident_line line then
        t ← str;
        ident ← try (lift (netnox_ssh_copy_string (client_ident t) (cstr line)));
        set_str (fun t => t <| client_ident := ident |>)
      else srv_ident_loop n line
  end.

Definition srv_handshake_to_encrypted : SM unit :=
  s ← server_;
  guard_m (host_key_ready s) NETNOX_RETURN_BAD_PARAM;;
  srv_ident_loop NETNOX_SSH_MAX_BANNER_LINES (zeros 256);;
  t ← str;
  guard_m (nonempty (client_ident t)) NETNOX_RETURN_FAILED;;
  try (srv_send_all (tx_ident (server_ident t)));;
  set_str (fun t => t <| connected := true |>);;
  try srv_exchange_kexinit;;
  try srv_perform_curve25519_kex.
End kex.
