(* ===== verification/ServerAuth.v ===== *)
(** User authentication on the server (common/noxssh_server.c): the replies, and
    [srv_handle_userauth_request], which admits a user by an Ed25519 signature under a
    key the daemon's callback allows. *)

From S2P Require Export ServerKex.

Definition NETNOX_SSH_MSG_USERAUTH_PK_OK : Z := 60.

(** What the server calls besides the transport: the daemon's key check, and malloc. *)
Class AuthHost (E : Type) : Type := {
  (** [publickey_allowed_cb(user_data, username, key) != 0] *)
  publickey_allowed_cb : list Z -> list Z -> E -> bool * E;
  (** [malloc(n) != NULL] *)
  c_malloc : Z -> E -> bool * E
}.

Section auth.
Context {E : Type} `{Host E} `{AuthHost E} `{NoxTLS}.

Abbreviation SM := (M (world netnox_ssh_server_t E)).

(** ** Replies *)

Definition srv_send_service_accept (service : list Z) : SM unit :=
  payload ← lift (append_fields [] 256 [FU8 NETNOX_SSH_MSG_SERVICE_ACCEPT; FStr service]);
  srv_send_packet payload.

Definition srv_send_userauth_failure (partial : bool) : SM unit :=
  payload ← lift (append_fields [] 256
    [FU8 NETNOX_SSH_MSG_USERAUTH_FAILURE; FStr (bs "publickey"); FU8 (if partial then 1 else 0)]);
  srv_send_packet payload.

Definition srv_send_userauth_success : SM unit := srv_send_packet [NETNOX_SSH_MSG_USERAUTH_SUCCESS].

Definition srv_send_userauth_pk_ok (alg blob : view) : SM unit :=
  alg ← lift (view_bytes alg);
  blob ← lift (if v_len blob <=? 256 then view_bytes blob else Err NETNOX_RETURN_FAILED);
  p ← lift (append_fields [] 256 [FU8 NETNOX_SSH_MSG_USERAUTH_PK_OK; FStr alg; FStr blob]);
  srv_send_packet p.

(** ** Parsing a publickey request *)

Record key_offer : Type := mkOffer {
  o_signed : Z;
  o_alg : view;
  o_blob : view;
  o_key : list Z;
  o_off : Z
}.

(** [memchr(user, 0, user_len) != NULL] and the size test before it: the user name. *)
Definition srv_user_name (user : view) (room : Z) : outcome (list Z) :=
  _ ← check (negb (v_len user =? 0) && (v_len user <? room)) NETNOX_RETURN_FAILED;
  name ← view_bytes user;
  _ ← check (negb (bool_decide (0 ∈ name))) NETNOX_RETURN_FAILED;
  Ok name.

(** [algorithm, length\[32\] key] of a public key blob, or the tests that refuse it. *)
Definition srv_blob_key (blob : view) (part_len : Z) : outcome (list Z) :=
  '(blob_alg, blob_off) ← view_field blob 0;
  '(part, blob_off) ← view_field blob blob_off;
  _ ← check (blob_off =? v_len blob) NETNOX_RETURN_FAILED;
  same ← view_is blob_alg NETNOX_SSH_KEYALG_ED25519;
  _ ← check (same && (v_len part =? part_len)) NETNOX_RETURN_FAILED;
  view_bytes part.

(** From the has-signature byte to the key blob. *)
Definition srv_parse_offer (p : list Z) (off : Z) : outcome key_offer :=
  _ ← check (off <? zlen p) NETNOX_RETURN_FAILED;
  signed_flag ← mem_byte p off;
  _ ← check (signed_flag <=? 1) NETNOX_RETURN_FAILED;
  '(alg, off) ← read_view p (u32 (off + 1));
  '(key_blob, off) ← read_view p off;
  same ← view_is alg NETNOX_SSH_KEYALG_ED25519;
  _ ← check same NETNOX_RETURN_FAILED;
  key ← srv_blob_key key_blob 32;
  Ok (mkOffer signed_flag alg key_blob key off).

(** The signature at the end of the request. *)
Definition srv_parse_signature (p : list Z) (off : Z) : outcome (list Z) :=
  '(sig_blob, off) ← read_view p off;
  _ ← check (off =? zlen p) NETNOX_RETURN_FAILED;
  srv_blob_key sig_blob 64.

(** The bytes the signature must cover: the session id as a string, and the request
    up to the signature. *)
Definition srv_to_sign (t : ssh_transport_t) (p : list Z) (req_len : Z) : outcome (list Z) :=
  sid ← mem_read (session_id t) 0 (session_id_len t);
  req ← mem_read p 0 req_len;
  Ok (netnox_ssh_write_u32_be (session_id_len t) ++ sid ++ req).

(** ** Deciding *)

Definition srv_userauth_signed (p user : list Z) (offer : key_offer) : SM unit :=
  sig ← attempt (lift (srv_parse_signature p (o_off offer)));
  match sig with
  | None => srv_send_userauth_failure false
  | Some sig =>
      t ← str;
      room ← call (c_malloc (u32 (4 + session_id_len t + o_off offer)));
      guard_m room NETNOX_RETURN_FAILED;;
      to_sign ← lift (srv_to_sign t p (o_off offer));
      if noxtls_ed25519_verify (o_key offer) to_sign sig then
        s ← server_;
        name ← lift (mem_write (authenticated_user s) 0 (user ++ [0]));
        set_server (fun s => s <| authenticated_user := name |>
          <| s_transport := s_transport s <| authenticated := true |>
                              <| connection_service_ready := true |> |>);;
        srv_send_userauth_success
      else srv_send_userauth_failure false
  end.

Definition srv_userauth_publickey (p : list Z) (off : Z) (user : view) : SM unit :=
  s ← server_;
  r ← attempt (lift (
    name ← srv_user_name user 65;
    _ ← check (publickey_allowed_cb_set s) NETNOX_RETURN_FAILED;
    offer ← srv_parse_offer p off;
    Ok (name, offer)));
  match r with
  | None => srv_send_userauth_failure false
  | Some (name, offer) =>
      allowed ← call (publickey_allowed_cb name (o_key offer));
      if negb allowed then srv_send_userauth_failure false
      else if o_signed offer =? 0 then
        if o_off offer =? zlen p then srv_send_userauth_pk_ok (o_alg offer) (o_blob offer)
        else srv_send_userauth_failure false
      else srv_userauth_signed p name offer
  end.

Definition srv_handle_userauth_request (p : list Z) : SM unit :=
  guard_m ((2 <=? zlen p) && is_message p NETNOX_SSH_MSG_USERAUTH_REQUEST) NETNOX_RETURN_FAILED;;
  '(user, off) ← try (lift (read_view p 1));
  '(service, off) ← try (lift (read_view p off));
  '(method, off) ← try (lift (read_view p off));
  connection ← lift (view_is service NETNOX_SSH_SERVICE_CONNECTION);
  publickey ← (if (connection : bool) then lift (view_is method NETNOX_SSH_AUTH_METHOD_PUBLICKEY)
               else mret false);
  if (publickey : bool) then srv_userauth_publickey p off user
  else srv_send_userauth_failure false.
End auth.
