(* ===== verification/ServerChannel.v ===== *)
(** The server's session channel (common/noxssh_server.c): its messages, the window
    accounting, and [srv_run_session_unix], the loop that connects the channel to a
    child process. The POSIX calls are the operations of the class [PosixHost]. *)

From S2P Require Export ServerAuth Posix.

(** ** POSIX *)

(** The result of [waitpid]: pid and a status, zero, or an error. *)
Inductive wait_result : Type := WaitStatus (status : Z) | WaitRunning | WaitErr.

Record winsize : Type := mkWinsize { ws_col : Z; ws_row : Z; ws_xpixel : Z; ws_ypixel : Z }.

(** What the forked child is to run; [ch_cmd] is NULL for a login shell. *)
Record child : Type := mkChild {
  ch_user : list Z; ch_cmd : option (list Z); ch_pty : bool; ch_term : list Z
}.

(** Calls whose results the code ignores. *)
Inductive posix_effect : Type :=
| FxClose (fd : Z) | FxNonblock (fd : Z) | FxShutdownWr (fd : Z) | FxWinsize (fd : Z) (ws : winsize)
| FxKillTerm (pid : Z) | FxKillKill (pid : Z) | FxWait (pid : Z) | FxSleep.

(** The result bits of [poll] for one descriptor. *)
Record revents : Type := mkRevents { r_in : bool; r_hup : bool; r_err : bool }.
Definition no_events : revents := mkRevents false false false.

Inductive poll_result : Type :=
| PollReady (transport_ev child_ev : revents)
| PollTimeout
| PollErr (e : errno).

Class PosixHost (E : Type) : Type := {
  (** [forkpty(&child_fd, NULL, NULL, &ws)] in the parent: pid, child_fd *)
  c_forkpty : winsize -> child -> E -> (Z * Z) * E;
  (** [socketpair(AF_UNIX, SOCK_STREAM, 0, pair)] *)
  c_socketpair : E -> option (Z * Z) * E;
  (** [fork()] in the parent *)
  c_fork : child -> E -> Z * E;
  (** [poll] on the transport, and on the child when a descriptor is given *)
  c_poll : Z -> option Z -> Z -> E -> poll_result * E;
  (** [poll(&{child_fd, POLLOUT}, 1, timeout) > 0] *)
  c_poll_out : Z -> Z -> E -> bool * E;
  c_read : Z -> Z -> E -> read_result * E;
  (** [write], or [send(.., MSG_NOSIGNAL)] on a socket *)
  c_write : bool -> Z -> list Z -> E -> write_result * E;
  (** [waitpid(pid, &status, WNOHANG)] *)
  c_waitpid : Z -> E -> wait_result * E;
  c_effect : posix_effect -> E -> E
}.

Section channel.
Context {E : Type} `{Host E} `{AuthHost E} `{PosixHost E} `{NoxTLS}.

Abbreviation SM := (M (world netnox_ssh_server_t E)).

Definition effect (fx : posix_effect) : SM unit := call (fun e => (tt, c_effect fx e)).

(** ** Channel messages *)

Definition srv_send_global_request_failure : SM unit := srv_send_packet [NETNOX_SSH_MSG_REQUEST_FAILURE].

Definition srv_handle_global_request (payload : list Z) : SM unit :=
  let payload_len := zlen payload in
  guard_m ((6 <=? payload_len) && is_message payload NETNOX_SSH_MSG_GLOBAL_REQUEST) NETNOX_RETURN_BAD_PARAM;;
  '(request_len, off) ← try (lift (read_u32 payload 1));
  guard_m (negb (request_len =? 0) && (request_len <? u32 (payload_len - off))) NETNOX_RETURN_FAILED;;
  want_reply ← lift (mem_byte payload (u32 (off + request_len)));
  if negb (want_reply =? 0) then srv_send_global_request_failure else mret tt.

Definition srv_send_channel_open_confirmation (client_sender_channel : Z) : SM unit :=
  set_str (fun t => t <| local_channel_id := 0 |> <| remote_channel_id := client_sender_channel |>
                      <| local_window_size := NETNOX_SSH_CHANNEL_WINDOW_SIZE |>);;
  t ← str;
  payload ← lift (append_fields [] 128
    [FU8 NETNOX_SSH_MSG_CHANNEL_OPEN_CONFIRMATION; FU32 client_sender_channel;
     FU32 (local_channel_id t); FU32 (local_window_size t); FU32 NETNOX_SSH_CHANNEL_MAX_PACKET_SIZE]);
  srv_send_packet payload.

(** A message that holds only the recipient channel. *)
Definition send_channel_message (type room : Z) : SM unit :=
  t ← str;
  payload ← lift (append_fields [] room [FU8 type; FU32 (remote_channel_id t)]);
  srv_send_packet payload.

Definition srv_send_channel_failure : SM unit := send_channel_message NETNOX_SSH_MSG_CHANNEL_FAILURE 64.
Definition srv_send_channel_success : SM unit := send_channel_message NETNOX_SSH_MSG_CHANNEL_SUCCESS 64.
Definition srv_send_channel_eof : SM unit := send_channel_message NETNOX_SSH_MSG_CHANNEL_EOF 32.
Definition srv_send_channel_close : SM unit := send_channel_message NETNOX_SSH_MSG_CHANNEL_CLOSE 32.

Definition srv_send_channel_data_chunk (data : list Z) : SM unit :=
  guard_m (negb (zlen data =? 0)) NETNOX_RETURN_BAD_PARAM;;
  t ← str;
  let max_chunk :=
    if (remote_max_packet_size t >? 64) && (NETNOX_SSH_MAX_DATA_LEN >? remote_max_packet_size t - 64)
    then remote_max_packet_size t - 64 else NETNOX_SSH_MAX_DATA_LEN in
  let len := if zlen data >? max_chunk then max_chunk else zlen data in
  payload ← lift (append_fields [] (4 + 1 + 4 + 4 + NETNOX_SSH_MAX_DATA_LEN)
    [FU8 NETNOX_SSH_MSG_CHANNEL_DATA; FU32 (remote_channel_id t); FStr (ztake len data)]);
  guard_m (len <=? remote_window_size t) NETNOX_RETURN_FAILED;;
  set_str (fun t => t <| remote_window_size := remote_window_size t - len |>);;
  srv_send_packet payload.

(** EOF is a half-close; CLOSE is answered unless ours was sent. *)
Definition srv_handle_channel_end (payload : list Z) : SM unit :=
  t ← str;
  guard_m ((zlen payload =? 5) && (is_message payload NETNOX_SSH_MSG_CHANNEL_EOF ||
                                   is_message payload NETNOX_SSH_MSG_CHANNEL_CLOSE)) NETNOX_RETURN_BAD_PARAM;;
  '(recipient, _) ← or_return (lift (read_u32 payload 1)) NETNOX_RETURN_BAD_PARAM;
  guard_m (recipient =? local_channel_id t) NETNOX_RETURN_BAD_PARAM;;
  if is_message payload NETNOX_SSH_MSG_CHANNEL_CLOSE && channel_open t then
    try srv_send_channel_close;;
    set_str (fun t => t <| channel_open := false |>)
  else mret tt.

(** [deadline] is [*deadline]; the result is its new value. *)
Definition srv_begin_close_wait (deadline : Z) : SM Z :=
  if negb (deadline =? 0) then mret deadline
  else
    now ← srv_now_ms;
    guard_m (negb ((now =? UINT64_MAX) || (now >? UINT64_MAX - 10000))) NETNOX_RETURN_FAILED;;
    mret (now + 10000).

Definition srv_maybe_window_adjust : SM unit :=
  t ← str;
  if local_window_size t >? 65536 then mret tt
  else
    payload ← lift (append_fields [] 64
      [FU8 NETNOX_SSH_MSG_CHANNEL_WINDOW_ADJUST; FU32 (local_channel_id t); FU32 262144]);
    set_str (fun t => t <| local_window_size := u32 (local_window_size t + 262144) |>);;
    srv_send_packet payload.

(** 1: readable, 2: interrupted, 0: hangup or drain expired, -1: error. *)
Definition srv_wait_close_packet (deadline : Z) : SM Z :=
  now ← srv_now_ms;
  s ← server_;
  if (now =? UINT64_MAX) || (transport_fd s <? 0) then mret (-1)
  else if now >=? deadline then mret 0
  else
    r ← call (c_poll (transport_fd s) None (deadline - now));
    match r with
    | PollErr EINTR => mret 2
    | PollErr _ => mret (-1)
    | PollTimeout => mret 0
    | PollReady ev _ => mret (if r_in ev then 1 else if r_hup ev then 0 else -1)
    end.

Definition srv_send_exit_status (status : Z) : SM unit :=
  t ← str;
  p ← lift (append_fields [] 64
    [FU8 NETNOX_SSH_MSG_CHANNEL_REQUEST; FU32 (remote_channel_id t); FStr (bs "exit-status");
     FU8 0; FU32 status]);
  srv_send_packet p.

(** ** The child process *)

(** [srv_write_child(fd, data, len, pty) == 0] *)
Definition srv_write_child (fd : Z) (data : list Z) (pty : bool) : SM bool :=
  loop forever (fun pos =>
    if pos <? zlen data then
      r ← call (c_write pty fd (zdrop pos data));
      match r with
      | Wrote n => if n >? 0 then mret (inl (u32 (pos + n))) else mret (inr false)
      | WriteErr EINTR => mret (inl pos)
      | WriteErr EAGAIN =>
          writable ← call (c_poll_out fd 10000);
          if (writable : bool) then mret (inl pos) else mret (inr false)
      | WriteErr _ => mret (inr false)
      end
    else mret (inr true)) 0.

(** The variables of the loop in srv_run_session_unix. *)
Record session_t : Type := mkSession {
  x_status : Z; x_reaped : bool; x_eof : bool; x_ws : winsize; x_closed : bool
}.

(** [break] is [fail NETNOX_RETURN_FAILED] in the parts of the loop body. *)
Definition break {A} : SM A := fail NETNOX_RETURN_FAILED.

(** CHANNEL_DATA: the client's bytes, written to the child within our window. *)
Definition session_data (child_fd : Z) (payload : list Z) : SM unit :=
  s ← server_;
  let t := s_transport s in
  '(channel, off) ← try (lift (read_u32 payload 1));
  guard_m (channel =? local_channel_id t) NETNOX_RETURN_FAILED;;
  '(data, off) ← try (lift (read_view payload off));
  guard_m ((off =? zlen payload) && (v_len data <=? local_window_size t)) NETNOX_RETURN_FAILED;;
  bytes ← lift (view_bytes data);
  written ← srv_write_child child_fd bytes (want_pty s);
  guard_m written NETNOX_RETURN_FAILED;;
  set_str (fun t => t <| local_window_size := local_window_size t - v_len data |>);;
  try srv_maybe_window_adjust.

(** CHANNEL_WINDOW_ADJUST: the client's window grows, without overflow. *)
Definition session_window (payload : list Z) : SM unit :=
  t ← str;
  '(channel, off) ← try (lift (read_u32 payload 1));
  '(amount, _) ← try (lift (read_u32 payload off));
  guard_m ((channel =? local_channel_id t) && (amount <=? 2 ^ 32 - 1 - remote_window_size t))
    NETNOX_RETURN_FAILED;;
  set_str (fun t => t <| remote_window_size := remote_window_size t + amount |>).

(** The four numbers of a window-change request. *)
Definition read_winsize (payload : list Z) (off : Z) : outcome winsize :=
  '(cols, off) ← read_u32 payload off;
  '(rows, off) ← read_u32 payload off;
  '(width, off) ← read_u32 payload off;
  '(height, _) ← read_u32 payload off;
  Ok (mkWinsize (u16 cols) (u16 rows) (u16 width) (u16 height)).

(** CHANNEL_REQUEST with a terminal: window-change; the new terminal size. *)
Definition session_request (child_fd : Z) (payload : list Z) (ws : winsize) : SM winsize :=
  t ← str;
  '(channel, off) ← try (lift (read_u32 payload 1));
  '(req, off) ← try (lift (read_view payload off));
  guard_m ((channel =? local_channel_id t) && (off <? zlen payload)) NETNOX_RETURN_FAILED;;
  change ← lift (view_is req (bs "window-change"));
  size ← (if (change : bool) then attempt (lift (read_winsize payload (u32 (off + 1)))) else mret None);
  match size with
  | Some ws' => effect (FxWinsize child_fd ws');; mret ws'
  | None => mret ws
  end.

(** A message from the client while the session runs. *)
Definition session_message (child_fd : Z) (x : session_t) (payload : list Z) : SM session_t :=
  s ← server_;
  let msg type := is_message payload type in
  if msg NETNOX_SSH_MSG_GLOBAL_REQUEST then try (srv_handle_global_request payload);; mret x
  else if msg NETNOX_SSH_MSG_CHANNEL_DATA then session_data child_fd payload;; mret x
  else if msg NETNOX_SSH_MSG_CHANNEL_WINDOW_ADJUST then session_window payload;; mret x
  else if msg NETNOX_SSH_MSG_CHANNEL_EOF then
    try (srv_handle_channel_end payload);;
    (if want_pty s then srv_write_child child_fd [4] true;; mret tt
     else effect (FxShutdownWr child_fd));;
    mret x
  else if msg NETNOX_SSH_MSG_CHANNEL_CLOSE then
    try (srv_handle_channel_end payload);;
    mret (mkSession (x_status x) (x_reaped x) (x_eof x) (x_ws x) true)
  else if msg NETNOX_SSH_MSG_DISCONNECT then break
  else if msg NETNOX_SSH_MSG_CHANNEL_REQUEST && want_pty s then
    ws ← session_request child_fd payload (x_ws x);
    mret (mkSession (x_status x) (x_reaped x) (x_eof x) ws (x_closed x))
  else mret x.

(** How many bytes of the child's output one packet may carry. *)
Definition output_cap (t : ssh_transport_t) : Z :=
  let cap := if 4096 >? remote_window_size t then remote_window_size t else 4096 in
  if (remote_max_packet_size t >? 64) && (cap >? remote_max_packet_size t - 64)
  then remote_max_packet_size t - 64 else cap.

(** Output of the child: at most [cap] bytes go to the client. *)
Definition session_output (child_fd cap : Z) (x : session_t) : SM session_t :=
  r ← call (c_read child_fd cap);
  let eof := mkSession (x_status x) (x_reaped x) true (x_ws x) (x_closed x) in
  match r with
  | ReadBytes bytes => try (srv_send_channel_data_chunk bytes);; mret x
  | ReadEof | ReadErr EIO => mret eof
  | ReadErr EINTR | ReadErr EAGAIN => mret x
  | ReadErr OTHER_ERRNO => break
  end.

(** [WIFEXITED(status) ? WEXITSTATUS(status) : 128 + WTERMSIG(status)] *)
Definition exit_code (status : Z) : Z :=
  if Z.land status 127 =? 0 then Z.land (Z.shiftr status 8) 255 else 128 + Z.land status 127.

(** [if(!child_reaped && waitpid(pid,&status,WNOHANG) == pid) child_reaped = 1;] *)
Definition session_wait (pid : Z) (x : session_t) : SM session_t :=
  if x_reaped x then mret x
  else
    st ← call (c_waitpid pid);
    mret match st with
         | WaitStatus status => mkSession status true (x_eof x) (x_ws x) (x_closed x)
         | _ => x end.

(** When the child is done and its output is drained, the closing messages.
    [true]: the session is over. *)
Definition session_end (child_fd : Z) (x : session_t) : SM bool :=
  if x_eof x && x_reaped x then
    try (srv_send_exit_status (exit_code (x_status x)));;
    try srv_send_channel_eof;;
    try srv_send_channel_close;;
    set_str (fun t => t <| channel_open := false |>);;
    effect (FxClose child_fd);;
    mret true
  else mret false.

(** How a pass of the loop ends: again, [break], or [return SUCCESS]. *)
Inductive session_next : Type := Again (x : session_t) | Broke (x : session_t) | Finished.

Definition or_break {A} (x : session_t) (m : SM A) (k : A -> SM session_next) : SM session_next :=
  r ← attempt m;
  match r with Some a => k a | None => mret (Broke x) end.

(** The rekey limit of the connection is reached. *)
Definition rekey_due (s : netnox_ssh_server_t) : bool :=
  negb (rekey_threshold_bytes s =? 0) &&
  ((rekey_threshold_bytes s <=? encrypted_bytes_sent s) ||
   (rekey_threshold_bytes s <=? encrypted_bytes_recv s)).

(** The input half of a pass: a packet, if [poll] saw one. *)
Definition session_input (child_fd : Z) (ev : revents) (x : session_t) : SM session_t :=
  guard_m (negb (r_err ev || r_hup ev)) NETNOX_RETURN_FAILED;;
  if r_in ev then
    payload ← try (srv_recv_packet NETNOX_SSH_MAX_PACKET_LEN);
    guard_m (negb (zlen payload =? 0)) NETNOX_RETURN_FAILED;;
    session_message child_fd x payload
  else mret x.

Definition session_pass (pid child_fd : Z) (x : session_t) : SM session_next :=
  s ← server_;
  if rekey_due s then mret (Broke x)
  else
    let with_child := negb (x_eof x) && negb (remote_window_size (s_transport s) =? 0) in
    r ← call (c_poll (transport_fd s) (if with_child then Some child_fd else None)
                     (if x_eof x then 50 else 1800000));
    match r with
    | PollErr EINTR => mret (Again x)
    | PollErr _ => mret (Broke x)
    | _ =>
        let '(timeout, tev, cev) := match r with PollReady tev cev => (false, tev, cev)
                                               | _ => (true, no_events, no_events) end in
        if timeout && negb (x_eof x) then mret (Broke x)
        else
          or_break x (session_input child_fd tev x) (fun x =>
          if x_closed x then mret (Broke x)
          else
            t ← str;
            let cap := output_cap t in
            if with_child && (r_in cev || r_hup cev) && (cap =? 0) then mret (Again x)
            else
              or_break x (if with_child && (r_in cev || r_hup cev)
                          then session_output child_fd cap x else mret x) (fun x =>
              x ← session_wait pid x;
              or_break x (session_end child_fd x) (fun over =>
              mret (if (over : bool) then Finished else Again x))))
    end.

(** After [break]: the child is terminated if it was not waited for. *)
Definition session_kill (pid child_fd : Z) (x : session_t) : SM unit :=
  effect (FxClose child_fd);;
  if x_reaped x then mret tt
  else
    effect (FxKillTerm pid);;
    loop 21 (fun tries =>
      if tries <? 20 then
        st ← call (c_waitpid pid);
        match st with WaitRunning => effect FxSleep;; mret (inl (tries + 1)) | _ => mret (inr tt) end
      else mret (inr tt)) 0;;
    st ← call (c_waitpid pid);
    match st with WaitRunning => effect (FxKillKill pid);; effect (FxWait pid) | _ => mret tt end.

(** Start the child: pid and its descriptor. *)
Definition session_spawn (s : netnox_ssh_server_t) (cmd : option (list Z)) (ws : winsize)
    : SM (Z * Z) :=
  let ch := mkChild (cstr (authenticated_user s)) cmd (want_pty s) (cstr (term s)) in
  if want_pty s then
    '(pid, child_fd) ← call (c_forkpty ws ch);
    guard_m (0 <=? pid) NETNOX_RETURN_FAILED;;
    mret (pid, child_fd)
  else
    pair ← call c_socketpair;
    match pair with
    | None => fail NETNOX_RETURN_FAILED
    | Some (fd0, fd1) =>
        pid ← call (c_fork ch);
        (if pid <? 0 then effect (FxClose fd0);; effect (FxClose fd1);; fail NETNOX_RETURN_FAILED
         else mret tt);;
        effect (FxClose fd1);;
        mret (pid, fd0)
    end.

(** The parent's side; [cmd] is NULL for a shell. *)
Definition srv_run_session_unix (cmd : option (list Z)) : SM unit :=
  s ← server_;
  guard_m ((0 <=? transport_fd s) && nonempty (authenticated_user s)) NETNOX_RETURN_FAILED;;
  set_server (fun s => s <| session_started := true |>);;
  let ws := mkWinsize (u16 (pty_cols s)) (u16 (pty_rows s)) (u16 (pty_width s)) (u16 (pty_height s)) in
  '(pid, child_fd) ← session_spawn s cmd ws;
  effect (FxNonblock child_fd);;
  last ← loop forever (fun x =>
    next ← session_pass pid child_fd x;
    match next with
    | Again x => mret (inl x)
    | Broke x => mret (inr (Some x))
    | Finished => mret (inr None)
    end) (mkSession 0 false false ws false);
  match last with
  | None => mret tt
  | Some x =>
      session_kill pid child_fd x;;
      set_str (fun t => t <| channel_open := false |>);;
      guard_m (x_closed x) NETNOX_RETURN_FAILED
  end.
End channel.
