(* ===== verification/ServerServe.v ===== *)
(** The server API of common/noxssh_server.c: set-up of a context, its reset, and
    [netnox_ssh_server_serve_one], the handshake followed by the loop that answers
    the client's messages. *)

From S2P Require Export ServerChannel.

Definition NETNOX_SSH_CHANNEL_REQ_SUBSYSTEM : list Z := bs "subsystem".

Section serve.
Context {E : Type} `{Host E} `{AuthHost E} `{PosixHost E} `{NoxTLS}.

Abbreviation SM := (M (world netnox_ssh_server_t E)).

(** ** Configuration (the server, string and seed pointers are not NULL) *)

Definition netnox_ssh_server_init : SM unit :=
  set_server (fun _ => server_zero <| transport_fd := -1 |>
                         <| rekey_threshold_bytes := 256 * 1024 * 1024 |>);;
  t ← str;
  ident ← lift (netnox_ssh_copy_string (server_ident t) NETNOX_SSH_DEFAULT_SERVER_IDENT);
  set_str (fun t => t <| server_ident := ident |>).

Definition netnox_ssh_server_set_io_callbacks (send recv : bool) : SM unit :=
  set_server (fun s => s <| s_send_cb_set := send |> <| s_recv_cb_set := recv |>).

Definition netnox_ssh_server_set_identification (ident : list Z) : SM unit :=
  t ← str;
  ident ← lift (netnox_ssh_copy_string (server_ident t) ident);
  set_str (fun t => t <| server_ident := ident |>).

Definition netnox_ssh_server_set_host_ed25519_seed (secret_seed : list Z) : SM unit :=
  set_server (fun s => s <| host_ed25519_sk := secret_seed |>);;
  let '(ok, pk) := noxtls_ed25519_public_key secret_seed in
  guard_m ok NETNOX_RETURN_FAILED;;
  set_server (fun s => s <| host_ed25519_pk := pk |> <| host_key_ready := true |>).

Definition netnox_ssh_server_generate_host_ed25519_key : SM unit :=
  sk ← try (srv_fill_random 32);
  netnox_ssh_server_set_host_ed25519_seed sk.

Definition netnox_ssh_server_set_publickey_callback (callback : bool) : SM unit :=
  set_server (fun s => s <| publickey_allowed_cb_set := callback |>).

Definition netnox_ssh_server_reset : SM unit :=
  s ← server_;
  user ← lift (mem_write (authenticated_user s) 0 [0]);
  set_server (fun s => s <| authenticated_user := user |> <| auth_attempts := 0 |>
    <| session_started := false |> <| handshake_deadline_ms := 0 |> <| packet_deadline_ms := 0 |>
    <| send_deadline_ms := 0 |> <| encrypted_bytes_sent := 0 |> <| encrypted_bytes_recv := 0 |>);;
  set_str (fun t => t <| client_ident := zeros 256 |> <| connected := false |>
    <| kexinit_exchanged := false |> <| userauth_service_ready := false |>
    <| connection_service_ready := false |> <| authenticated := false |> <| channel_open := false |>
    <| key_exchange_complete := false |> <| send_seq := 0 |> <| recv_seq := 0 |> <| pending_newkeys := [] |>).

(** ** The cases of the message loop

    Each is the part of the [switch] up to [continue]; [return NETNOX_RETURN_FAILED]
    is the error. A case that may set the drain deadline results in its new value. *)

Definition srv_service_request (payload : list Z) : SM unit :=
  '(svc, _) ← try (lift (read_view payload 1));
  userauth ← lift (view_is svc NETNOX_SSH_SERVICE_USERAUTH);
  if (userauth : bool) then
    set_str (fun t => t <| userauth_service_ready := true |>);;
    try (srv_send_service_accept NETNOX_SSH_SERVICE_USERAUTH)
  else
    t ← str;
    connection ← (if authenticated t then lift (view_is svc NETNOX_SSH_SERVICE_CONNECTION)
                  else mret false);
    guard_m connection NETNOX_RETURN_FAILED;;
    set_str (fun t => t <| connection_service_ready := true |>);;
    try (srv_send_service_accept NETNOX_SSH_SERVICE_CONNECTION).

Definition srv_userauth_message (payload : list Z) : SM unit :=
  t ← str;
  guard_m (userauth_service_ready t) NETNOX_RETURN_FAILED;;
  guard_m (negb (authenticated t)) NETNOX_RETURN_FAILED;;
  set_server (fun s => s <| auth_attempts := u8 (auth_attempts s + 1) |>);;
  s ← server_;
  guard_m (negb (auth_attempts s >? 6)) NETNOX_RETURN_FAILED;;
  try (srv_handle_userauth_request payload).

Definition srv_channel_open (close_deadline : Z) (payload : list Z) : SM unit :=
  guard_m (close_deadline =? 0) NETNOX_RETURN_FAILED;;
  t ← str;
  guard_m (authenticated t && connection_service_ready t) NETNOX_RETURN_FAILED;;
  '(typ, off) ← try (lift (read_view payload 1));
  '(sender, off) ← try (lift (read_u32 payload off));
  '(client_init_win, off) ← try (lift (read_u32 payload off));
  '(client_max_pkt, _) ← try (lift (read_u32 payload off));
  session ← lift (view_is typ NETNOX_SSH_CHANNEL_TYPE_SESSION);
  guard_m session NETNOX_RETURN_FAILED;;
  guard_m (negb (channel_open t || (client_max_pkt <? 128))) NETNOX_RETURN_FAILED;;
  set_str (fun t => t <| remote_window_size := client_init_win |>
    <| remote_max_packet_size := if negb (client_max_pkt =? 0) then client_max_pkt
                                 else NETNOX_SSH_CHANNEL_MAX_PACKET_SIZE |>);;
  try (srv_send_channel_open_confirmation sender);;
  set_str (fun t => t <| channel_open := true |>).

(** *** Channel requests *)

(** [if(want_reply) (void)srv_send_channel_failure(s);] *)
Definition srv_refuse (want_reply : bool) : SM unit :=
  if want_reply then ignore srv_send_channel_failure else mret tt.

Definition srv_accept (want_reply : bool) : SM unit :=
  if want_reply then try srv_send_channel_success else mret tt.

(** [memchr(bytes, 0, len)] *)
Definition has_nul (bytes : list Z) : bool := bool_decide (0 ∈ bytes).

(** The terminal name and size of a pty-req, or the tests that refuse it. *)
Definition read_pty_req (payload : list Z) (off : Z) : outcome (list Z * (Z * Z * Z * Z)) :=
  '(term_view, off) ← read_view payload off;
  _ ← check (v_len term_view <? 65) NETNOX_RETURN_FAILED;
  name ← view_bytes term_view;
  _ ← check (negb (has_nul name)) NETNOX_RETURN_FAILED;
  '(cols, off) ← read_u32 payload off;
  '(rows, off) ← read_u32 payload off;
  '(width, off) ← read_u32 payload off;
  '(height, off) ← read_u32 payload off;
  '(_, off) ← read_view payload off;
  _ ← check (off =? zlen payload) NETNOX_RETURN_FAILED;
  Ok (name, (cols, rows, width, height)).

Definition srv_pty_request (payload : list Z) (off : Z) (want_reply : bool) : SM unit :=
  s ← server_;
  r ← (if want_pty s then mret None else attempt (lift (read_pty_req payload off)));
  match r with
  | None => srv_refuse want_reply
  | Some (name, (cols, rows, width, height)) =>
      name ← lift (mem_write (term s) 0 (name ++ [0]));
      set_server (fun s => s <| term := name |> <| pty_cols := cols |> <| pty_rows := rows |>
        <| pty_width := width |> <| pty_height := height |> <| want_pty := true |>);;
      srv_accept want_reply
  end.

(** The command of an exec request, or the tests that refuse it. *)
Definition read_command (payload : list Z) (off : Z) : outcome (list Z) :=
  '(cmd, off) ← read_view payload off;
  _ ← check (v_len cmd <=? NETNOX_SSH_MAX_COMMAND_LEN) NETNOX_RETURN_FAILED;
  bytes ← view_bytes cmd;
  _ ← check (negb (has_nul bytes) && (off =? zlen payload)) NETNOX_RETURN_FAILED;
  Ok bytes.

(** Accept, run the child to its end, and start the drain. *)
Definition srv_run_child (close_deadline : Z) (cmd : option (list Z)) (want_reply : bool) : SM Z :=
  srv_accept want_reply;;
  try (srv_run_session_unix cmd);;
  try (srv_begin_close_wait close_deadline).

Definition srv_exec_request (close_deadline : Z) (payload : list Z) (off : Z) (want_reply : bool) : SM Z :=
  cmd ← attempt (lift (read_command payload off));
  match cmd with
  | None => srv_refuse want_reply;; mret close_deadline
  | Some cmd => srv_run_child close_deadline (Some cmd) want_reply
  end.

Definition srv_shell_request (close_deadline : Z) (payload : list Z) (off : Z) (want_reply : bool) : SM Z :=
  if off =? zlen payload then srv_run_child close_deadline None want_reply
  else srv_refuse want_reply;; mret close_deadline.

(** Every subsystem is refused: sftp, the others, and one that cannot be read. *)
Definition srv_subsystem_request (payload : list Z) (off : Z) (want_reply : bool) : SM unit :=
  _ ← attempt (lift (read_view payload off));
  srv_refuse want_reply.

Definition srv_channel_request (close_deadline : Z) (payload : list Z) : SM Z :=
  t ← str;
  if negb (channel_open t) then mret close_deadline
  else
    '(chan, off) ← try (lift (read_u32 payload 1));
    if negb (chan =? local_channel_id t) then mret close_deadline
    else
      '(req, off) ← try (lift (read_view payload off));
      guard_m (off <? zlen payload) NETNOX_RETURN_FAILED;;
      flag ← lift (mem_byte payload off);
      let want_reply := negb (flag =? 0) in
      let off := u32 (off + 1) in
      pty ← lift (view_is req (bs "pty-req"));
      if (pty : bool) then srv_pty_request payload off want_reply;; mret close_deadline
      else
        exec ← lift (view_is req NETNOX_SSH_CHANNEL_REQ_EXEC);
        if (exec : bool) then srv_exec_request close_deadline payload off want_reply
        else
          shell ← lift (view_is req NETNOX_SSH_CHANNEL_REQ_SHELL);
          if (shell : bool) then srv_shell_request close_deadline payload off want_reply
          else
            subsystem ← lift (view_is req NETNOX_SSH_CHANNEL_REQ_SUBSYSTEM);
            (if (subsystem : bool) then srv_subsystem_request payload off want_reply
             else srv_refuse want_reply);;
            mret close_deadline.

(** CHANNEL_DATA outside a session: counted against the window and dropped. *)
Definition srv_channel_data (payload : list Z) : SM unit :=
  t ← str;
  '(recipient, off) ← try (lift (read_u32 payload 1));
  if negb (recipient =? local_channel_id t) then mret tt
  else
    '(dat, _) ← try (lift (read_view payload off));
    (if v_len dat <=? local_window_size t
     then set_str (fun t => t <| local_window_size := local_window_size t - v_len dat |>)
     else mret tt);;
    ignore srv_maybe_window_adjust.

Definition srv_channel_end (close_deadline : Z) (payload : list Z) : SM Z :=
  try (srv_handle_channel_end payload);;
  if is_message payload NETNOX_SSH_MSG_CHANNEL_CLOSE then try (srv_begin_close_wait close_deadline)
  else mret close_deadline.

(** ** The message loop *)

(** The [switch]: [inl d] is [continue] with the deadline [d], [inr tt] is
    [return NETNOX_RETURN_SUCCESS]. *)
Definition srv_dispatch (close_deadline : Z) (payload : list Z) : SM (Z + unit) :=
  let msg type := is_message payload type in
  let again := mret (inl close_deadline) in
  if msg NETNOX_SSH_MSG_DISCONNECT then mret (inr tt)
  else if msg NETNOX_SSH_MSG_IGNORE || msg NETNOX_SSH_MSG_EXT_INFO then again
  else if msg NETNOX_SSH_MSG_GLOBAL_REQUEST then try (srv_handle_global_request payload);; again
  else if msg NETNOX_SSH_MSG_SERVICE_REQUEST then srv_service_request payload;; again
  else if msg NETNOX_SSH_MSG_USERAUTH_REQUEST then srv_userauth_message payload;; again
  else if msg NETNOX_SSH_MSG_CHANNEL_OPEN then srv_channel_open close_deadline payload;; again
  else if msg NETNOX_SSH_MSG_CHANNEL_REQUEST then
    d ← srv_channel_request close_deadline payload; mret (inl d)
  else if msg NETNOX_SSH_MSG_CHANNEL_DATA then srv_channel_data payload;; again
  else if msg NETNOX_SSH_MSG_CHANNEL_EOF || msg NETNOX_SSH_MSG_CHANNEL_CLOSE then
    d ← srv_channel_end close_deadline payload; mret (inl d)
  else again.

(** A packet: [break], which is success too, when none can be received. *)
Definition srv_serve_packet (close_deadline : Z) : SM (Z + unit) :=
  rx ← attempt (srv_recv_packet NETNOX_SSH_MAX_PACKET_LEN);
  match rx with
  | None => mret (inr tt)
  | Some payload =>
      if zlen payload =? 0 then mret (inl close_deadline)
      else
        s ← server_;
        guard_m (negb (rekey_due s)) NETNOX_RETURN_FAILED;;
        srv_dispatch close_deadline payload
  end.

(** One pass; [close_deadline] is zero until the channel was closed. *)
Definition srv_serve_pass (close_deadline : Z) : SM (Z + unit) :=
  if negb (close_deadline =? 0) then
    ready ← srv_wait_close_packet close_deadline;
    if ready =? 2 then mret (inl close_deadline)
    else if ready <=? 0 then (if ready =? 0 then mret (inr tt) else fail NETNOX_RETURN_FAILED)
    else srv_serve_packet close_deadline
  else srv_serve_packet close_deadline.

Definition netnox_ssh_server_serve_one : SM unit :=
  s ← server_;
  guard_m (s_send_cb_set s && s_recv_cb_set s) NETNOX_RETURN_BAD_PARAM;;
  now ← srv_now_ms;
  set_server (fun s => s <| handshake_deadline_ms := u64 (now + 30000) |>);;
  try srv_handshake_to_encrypted;;
  loop forever srv_serve_pass 0.
End serve.
