(* ===== verification/ServerChild.v ===== *)
(** The child branch of [srv_run_session_unix] (common/noxssh_server.c): what the
    forked process does from [getpwnam] to [execl]. A run is the sequence of its
    system calls; each call succeeds or fails as the parameter [ok] says, which sees
    the calls made before. *)

From S2P Require Export Frame Posix ServerServe.

Inductive child_call : Type :=
| ChClose (fd : Z)
| ChSetsid
| ChDup2 (fd onto : Z)
| ChInitgroups (user : list Z) (gid : Z)
| ChSetgid (gid : Z)
| ChSetuid (uid : Z)
| ChChdir (dir : list Z)
| ChClearenv
| ChSetenv (var value : list Z)
| ChExecl (path : list Z) (argv : list (list Z))
| ChExit (code : Z).

(** The process at the fork: its pair of descriptors when there is no terminal, its
    effective ids, and the context it shares with the parent. *)
Record child_start : Type := mkStart {
  st_pair : Z * Z; st_euid : Z; st_egid : Z; st_transport_fd : Z;
  st_want_pty : bool; st_term : list Z
}.

Section child.
Context (ok : list child_call -> child_call -> bool).

Abbreviation CM := (M (list child_call)).

(** Make a call, and leave (for [_exit(127)]) when it fails. *)
Definition sys (c : child_call) : CM unit := fun tr =>
  (if ok tr c then Ok tt else Err NETNOX_RETURN_FAILED, tr ++ [c]).

(** A call whose result is ignored. *)
Definition sys_ (c : child_call) : CM unit := ignore (sys c).

Fixpoint sys_all (cs : list child_call) : CM unit :=
  match cs with [] => mret tt | c :: cs => sys c;; sys_all cs end.

(** Standard input, output and error become the socket. *)
Definition child_stdio (st : child_start) : CM unit :=
  if st_want_pty st then mret tt
  else
    let '(fd0, fd1) := st_pair st in
    sys_ (ChClose fd0);;
    sys_all [ChSetsid; ChDup2 fd1 0; ChDup2 fd1 1; ChDup2 fd1 2];;
    if fd1 >? 2 then sys_ (ChClose fd1) else mret tt.

(** Become the user: root drops its ids, anyone else must already have them. *)
Definition child_drop (st : child_start) (pw : passwd) : CM unit :=
  if st_euid st =? 0 then
    sys_all [ChInitgroups (pw_name pw) (pw_gid pw); ChSetgid (pw_gid pw); ChSetuid (pw_uid pw)]
  else guard_m (negb (negb (st_euid st =? pw_uid pw) || negb (st_egid st =? pw_gid pw))) NETNOX_RETURN_FAILED.

Definition child_environment (st : child_start) (pw : passwd) (dir shell : list Z) : list child_call :=
  [ChClearenv; ChSetenv (bs "HOME") dir; ChSetenv (bs "USER") (pw_name pw);
   ChSetenv (bs "LOGNAME") (pw_name pw); ChSetenv (bs "SHELL") shell;
   ChSetenv (bs "PATH") (bs "/usr/local/bin:/usr/bin:/bin")] ++
  (if st_want_pty st
   then [ChSetenv (bs "TERM") (if nonempty (st_term st) then cstr (st_term st) else bs "vt100")] else []).

(** [cmd] is NULL for a shell. *)
Definition child_argv (shell : list Z) (cmd : option (list Z)) : list (list Z) :=
  match cmd with Some cmd => [shell; bs "-c"; cmd] | None => [shell; bs "-i"] end.

(** [!pw || !pw->pw_dir || !pw->pw_shell || !pw->pw_shell\[0\]] is the refusal. *)
Definition child_account (pw : option passwd) : outcome (passwd * list Z * list Z) :=
  match pw with
  | Some pw =>
      match pw_dir pw, pw_shell pw with
      | Some dir, Some ((_ :: _) as shell) => Ok (pw, dir, shell)
      | _, _ => Err NETNOX_RETURN_FAILED
      end
  | None => Err NETNOX_RETURN_FAILED
  end.

Definition child_prepare (st : child_start) (pw : option passwd) (cmd : option (list Z)) : CM unit :=
  child_stdio st;;
  sys_ (ChClose (st_transport_fd st));;
  '(pw, dir, shell) ← lift (child_account pw);
  child_drop st pw;;
  sys (ChChdir dir);;
  sys_all (child_environment st pw dir shell);;
  sys (ChExecl shell (child_argv shell cmd)).

(** A successful [execl] replaces the process; whatever else happens, [execl]
    failing included, it ends with 127. *)
Definition child_main (st : child_start) (pw : option passwd) (cmd : option (list Z)) : CM unit :=
  r ← attempt (child_prepare st pw cmd);
  match r with Some _ => mret tt | None => sys_ (ChExit 127) end.
End child.

(** ** What runs, and as whom *)

Section spec.
Context (ok : list child_call -> child_call -> bool).

(** The calls [cs], made after [tr], all succeed. *)
Fixpoint all_ok (tr cs : list child_call) : Prop :=
  match cs with [] => True | c :: cs => ok tr c = true /\ all_ok (tr ++ [c]) cs end.

(** No [execl] of the trace succeeded. *)
Definition never_ran (tr : list child_call) : Prop :=
  forall pre path argv post, tr = pre ++ ChExecl path argv :: post -> ok pre (ChExecl path argv) = false.

(** [tr] is followed by calls that are not [execl]. *)
Definition quiet_step (tr tr' : list child_call) : Prop :=
  exists cs, tr' = tr ++ cs /\ Forall (fun c => forall path argv, c <> ChExecl path argv) cs.

#[export] Instance quiet_step_preorder : PreOrder quiet_step.
Proof.
  split.
  - intros tr. exists []. by rewrite app_nil_r.
  - intros tr1 tr2 tr3 (cs & -> & H1) (ds & -> & H2). exists (cs ++ ds).
    rewrite app_assoc. split; [done|by apply Forall_app].
Qed.

Lemma sys_quiet c : (forall path argv, c <> ChExecl path argv) -> moves quiet_step (sys ok c).
Proof. intros Hc tr. exists [c]. split; [done|]. by constructor. Qed.
Lemma sys__quiet c : (forall path argv, c <> ChExecl path argv) -> moves quiet_step (sys_ ok c).
Proof. intros Hc. apply moves_ignore. by apply sys_quiet. Qed.
Lemma sys_all_quiet cs : Forall (fun c => forall path argv, c <> ChExecl path argv) cs ->
  moves quiet_step (sys_all ok cs).
Proof.
  induction 1 as [|c cs Hc Hcs IH]; [by apply moves_ret; exact _|].
  cbn [sys_all]. apply moves_bind; [exact _|by apply sys_quiet|by intros []].
Qed.

Lemma sys_all_ok cs : forall tr u tr', sys_all ok cs tr = (Ok u, tr') -> tr' = tr ++ cs /\ all_ok tr cs.
Proof.
  induction cs as [|c cs IH]; intros tr u tr' Hrun; cbn [sys_all] in Hrun.
  - injection Hrun as _ <-. by rewrite app_nil_r.
  - unfold mbind, M_bind, sys in Hrun. simpl. destruct (ok tr c) eqn:Ec; [|done].
    destruct (IH _ _ _ Hrun) as [-> Hok]. rewrite <- app_assoc. done.
Qed.

Lemma never_ran_quiet tr tr' : never_ran tr -> quiet_step tr tr' -> never_ran tr'.
Proof.
  intros Hn (cs & -> & Hcs) pre path argv post Heq.
  destruct (app_eq_inv tr cs pre (ChExecl path argv :: post) Heq) as [(l & -> & Hl)|(l & -> & Hl)].
  - destruct l as [|c l]; simpl in Hl.
    + rewrite <- Hl in Hcs. inversion Hcs as [|? ? Hx]; subst. by destruct (Hx path argv).
    + injection Hl as <- Hl. by eapply Hn.
  - subst cs. apply Forall_app in Hcs as [_ Hcs]. inversion Hcs as [|? ? Hx]; subst. by destruct (Hx path argv).
Qed.

(** The calls by which the process becomes the user. *)
Definition dropped (st : child_start) (pw : passwd) (cs : list child_call) : Prop :=
  (st_euid st = 0 /\ cs = [ChInitgroups (pw_name pw) (pw_gid pw); ChSetgid (pw_gid pw); ChSetuid (pw_uid pw)]) \/
  (st_euid st <> 0 /\ st_euid st = pw_uid pw /\ st_egid st = pw_gid pw /\ cs = []).

(** The process runs [shell] as the user of [pw]: the last calls of the trace, all of
    them successful, drop the privileges, enter the home directory, replace the
    environment, and run the shell. *)
Definition runs_as (st : child_start) (acc : option passwd) (cmd : option (list Z)) (tr : list child_call) : Prop :=
  exists pw dir shell pre drop, acc = Some pw /\ pw_dir pw = Some dir /\ pw_shell pw = Some shell /\ shell <> [] /\
    dropped st pw drop /\
    let calls := drop ++ [ChChdir dir] ++ child_environment st pw dir shell ++ [ChExecl shell (child_argv shell cmd)] in
    tr = pre ++ calls /\ all_ok pre calls /\ never_ran pre.

Lemma all_ok_app tr cs ds : all_ok tr (cs ++ ds) <-> all_ok tr cs /\ all_ok (tr ++ cs) ds.
Proof.
  revert tr. induction cs as [|c cs IH]; intros tr; simpl; [by rewrite app_nil_r; tauto|].
  rewrite IH, <- app_assoc. simpl. tauto.
Qed.

Lemma child_drop_ok st pw tr u tr' : child_drop ok st pw tr = (Ok u, tr') ->
  exists cs, dropped st pw cs /\ tr' = tr ++ cs /\ all_ok tr cs.
Proof.
  unfold child_drop, dropped. destruct (Z.eqb_spec (st_euid st) 0) as [E|E]; intros Hrun.
  - apply sys_all_ok in Hrun as [-> Hok]. eexists. split; [by left|done].
  - unfold guard_m, lift, check in Hrun. case_match; [|done]. injection Hrun as _ <-.
    exists []. split; [right; split_and!; try lia; done|]. by rewrite app_nil_r.
Qed.

Lemma child_stdio_quiet st : moves quiet_step (child_stdio ok st).
Proof.
  unfold child_stdio. destruct (st_want_pty st); [by apply moves_ret; exact _|]. destruct (st_pair st) as [fd0 fd1].
  apply moves_bind; [exact _|by apply sys__quiet|intros _].
  apply moves_bind; [exact _|apply sys_all_quiet; repeat constructor; discriminate|intros _].
  destruct (fd1 >? 2); [by apply sys__quiet|apply moves_ret; exact _].
Qed.
Lemma child_drop_quiet st pw : moves quiet_step (child_drop ok st pw).
Proof.
  unfold child_drop. case_match; [|apply moves_guard; exact _].
  apply sys_all_quiet. repeat constructor; discriminate.
Qed.
Lemma child_environment_quiet st pw dir shell :
  Forall (fun c => forall path argv, c <> ChExecl path argv) (child_environment st pw dir shell).
Proof. unfold child_environment. destruct (st_want_pty st); repeat constructor; discriminate. Qed.

Lemma never_ran_failed tr path argv : never_ran tr -> ok tr (ChExecl path argv) = false ->
  never_ran (tr ++ [ChExecl path argv]).
Proof.
  intros Hn Hf pre path' argv' post Heq. destruct post as [|c l _] using rev_ind.
  - apply app_inj_tail in Heq as [<- [= <- <-]]. done.
  - rewrite app_comm_cons, app_assoc in Heq. apply app_inj_tail in Heq as [Heq _]. by eapply Hn.
Qed.

(** A run returns or fails; it is never outside an object and never out of fuel. *)
Definition plain {A} (m : M (list child_call) A) : Prop :=
  forall tr, match (m tr).1 with Ok _ | Err _ => True | _ => False end.

Lemma plain_bind {A B} (m : M (list child_call) A) (k : A -> M _ B) :
  plain m -> (forall a, plain (k a)) -> plain (m ≫= k).
Proof.
  intros Hm Hk tr. specialize (Hm tr). unfold mbind, M_bind. destruct (m tr) as [[a| | |] tr1]; try done. apply Hk.
Qed.
Lemma plain_sys c : plain (sys ok c).
Proof. intros tr. unfold sys. simpl. by destruct (ok tr c). Qed.
Lemma plain_sys_ c : plain (sys_ ok c).
Proof. intros tr. unfold sys_, ignore, sys. by destruct (ok tr c). Qed.
Lemma plain_sys_all cs : plain (sys_all ok cs).
Proof.
  induction cs as [|c cs IH]; [by intros tr|]. apply plain_bind; [apply plain_sys|by intros []].
Qed.

Lemma child_prepare_plain st acc cmd : plain (child_prepare ok st acc cmd).
Proof.
  unfold child_prepare, child_stdio, child_drop. repeat first
    [ apply plain_bind; [|intros ?] | apply plain_sys | apply plain_sys_ | apply plain_sys_all
    | match goal with |- plain (match ?x with _ => _ end) => destruct x end ].
  all: intros tr; try done.
  - destruct acc as [p|]; [|done]. simpl. destruct (pw_dir p); [|done]. by destruct (pw_shell p) as [[]|].
  - unfold guard_m, lift, check. by destruct (negb _).
Qed.

(** A step without [execl]: it succeeded and the run goes on, or the run ended. *)
Lemma bind_quiet {A B} (m : M (list child_call) A) (k : A -> M _ B) tr o tr' :
  moves quiet_step m -> never_ran tr -> (m ≫= k) tr = (o, tr') ->
  (exists a tr1, m tr = (Ok a, tr1) /\ never_ran tr1 /\ k a tr1 = (o, tr')) \/
  (is_ok o = false /\ never_ran tr').
Proof.
  intros Hm Hn. pose proof (never_ran_quiet _ _ Hn (Hm tr)) as Hn'. unfold mbind, M_bind.
  destruct (m tr) as [[a| | |] tr1]; simpl in Hn'; intros Hrun;
    [left; eauto|right; injection Hrun as <- <-; by split..].
Qed.

Lemma child_account_inv acc pw dir shell : child_account acc = Ok (pw, dir, shell) ->
  acc = Some pw /\ pw_dir pw = Some dir /\ pw_shell pw = Some shell /\ shell <> [].
Proof.
  unfold child_account. intros H. destruct acc as [p|]; [|done]. repeat case_match; by simplify_eq.
Qed.

Lemma child_prepare_spec st acc cmd tr o tr' : never_ran tr -> child_prepare ok st acc cmd tr = (o, tr') ->
  if is_ok o then runs_as st acc cmd tr' else never_ran tr'.
Proof.
  intros Hn Hrun. unfold child_prepare in Hrun.
  apply bind_quiet in Hrun as [(u1 & tr1 & _ & Hn1 & Hrun)|[-> ?]]; [|done|apply child_stdio_quiet|done].
  apply bind_quiet in Hrun as [(u2 & tr2 & _ & Hn2 & Hrun)|[-> ?]]; [|done|by apply sys__quiet|done].
  apply bind_quiet in Hrun as [([[pw dir] shell] & tr3 & H3 & Hn3 & Hrun)|[-> ?]];
    [|done|apply moves_lift; exact _|done].
  injection H3 as Hacc <-. apply child_account_inv in Hacc as (-> & Hd & Hs & Hne).
  apply bind_quiet in Hrun as [(u4 & tr4 & H4 & Hn4 & Hrun)|[-> ?]]; [|done|apply child_drop_quiet|done].
  destruct (child_drop_ok _ _ _ _ _ H4) as (cs & Hcs & -> & Hok4).
  apply bind_quiet in Hrun as [(u5 & tr5 & H5 & Hn5 & Hrun)|[-> ?]]; [|done|by apply sys_quiet|done].
  unfold sys in H5. destruct (ok (tr2 ++ cs) (ChChdir dir)) eqn:E5; [|done]. injection H5 as _ <-.
  apply bind_quiet in Hrun as [(u6 & tr6 & H6 & Hn6 & Hrun)|[-> ?]];
    [|done|apply sys_all_quiet, child_environment_quiet|done].
  apply sys_all_ok in H6 as [-> Hok6]. unfold sys in Hrun.
  destruct (ok _ (ChExecl shell _)) eqn:E7; injection Hrun as <- <-; cbn [is_ok].
  - exists pw, dir, shell, tr2, cs. do 5 (split; [done|]). remember (child_environment st pw dir shell) as env.
    cbv zeta. rewrite <- !app_assoc in *. split; [done|]. split; [|done].
    apply all_ok_app. split; [done|]. split; [done|]. cbn [app]. apply all_ok_app.
    rewrite <- !app_assoc. by split; [|split].
  - by apply never_ran_failed.
Qed.
End spec.

(** ** Properties *)

(** C7: the child of a session runs nothing but the shell of the account that
    [getpwnam] found, and only after every call that makes it that user succeeded:
    started as root it calls initgroups, setgid and setuid for the account, in this
    order; otherwise its ids were the account's; then it is in the home directory with
    the fresh environment. In every other case it ends with status 127. *)
Theorem child_drops_privileges ok st acc cmd o tr :
  child_main ok st acc cmd [] = (o, tr) ->
  runs_as ok st acc cmd tr \/
  exists pre, tr = pre ++ [ChExit 127] /\ never_ran ok pre.
Proof.
  unfold child_main, mbind, M_bind, attempt. intros Hrun.
  destruct (child_prepare ok st acc cmd []) as [r tr1] eqn:Er.
  pose proof Er as Er'. apply child_prepare_spec in Er; [|by intros [] path argv post].
  pose proof (child_prepare_plain ok st acc cmd []) as Ht. rewrite Er' in Ht.
  destruct r as [u|rc| |]; try done; [left; by injection Hrun as _ <-|right].
  exists tr1. split; [|done]. unfold sys_, ignore, sys in Hrun. destruct (ok tr1 (ChExit 127)); by injection Hrun.
Qed.


(** A daemon started as root, and an account. *)
Definition sample_start : child_start := mkStart (7, 8) 0 0 3 false (zeros 65).
Definition sample_account : passwd := mkPasswd (bs "user") 1000 1000 (Some (bs "/home/user")) (Some (bs "/bin/sh")).

Lemma child_drops_privileges_witness :
  runs_as (fun _ _ => true) sample_start (Some sample_account) (Some (bs "id"))
    (child_main (fun _ _ => true) sample_start (Some sample_account) (Some (bs "id")) []).2.
Proof.
  destruct (child_drops_privileges (fun _ _ => true) sample_start (Some sample_account) (Some (bs "id"))
    _ _ (surjective_pairing _)) as [Hr|(pre & Heq & _)]; [exact Hr|].
  exfalso. apply (f_equal (fun l => last l)) in Heq. rewrite last_snoc in Heq. vm_compute in Heq. discriminate Heq.
Defined.
