(* ===== verification/ServerFrame.v ===== *)
(** What the operations of the server leave alone: the user and the session id, the
    authentication and the children that were started. [core_frame] is the frame of
    everything but the handshake, the authentication and the start of a child. *)

From S2P Require Export Frame ServerServe.

(** ** The record of the environment *)

(** [log] records what happened so far: the children started, and the pairs of user
    and key that the daemon's callback allowed. Only [forkpty] and [fork] add to the
    first, when they succeed, and only the callback to the second, when it says yes. *)
Class Spawning (E : Type) `{Host E} `{AuthHost E} `{PosixHost E} : Type := {
  log : E -> list child * list (list Z * list Z);
  log_send data e : log (send_cb data e).2 = log e;
  log_recv len e : log (recv_cb len e).2 = log e;
  log_clock e : log (c_clock_ms e).2 = log e;
  log_getrandom len e : log (c_getrandom len e).2 = log e;
  log_allowed user key e : log (publickey_allowed_cb user key e).2 =
    ((log e).1, (log e).2 ++ (if (publickey_allowed_cb user key e).1 then [(user, key)] else []));
  log_malloc n e : log (c_malloc n e).2 = log e;
  log_forkpty ws ch e : log (c_forkpty ws ch e).2 =
    ((log e).1 ++ (if 0 <=? (c_forkpty ws ch e).1.1 then [ch] else []), (log e).2);
  log_socketpair e : log (c_socketpair e).2 = log e;
  log_fork ch e : log (c_fork ch e).2 =
    ((log e).1 ++ (if 0 <=? (c_fork ch e).1 then [ch] else []), (log e).2);
  log_poll fd child t e : log (c_poll fd child t e).2 = log e;
  log_poll_out fd t e : log (c_poll_out fd t e).2 = log e;
  log_read fd n e : log (c_read fd n e).2 = log e;
  log_write pty fd data e : log (c_write pty fd data e).2 = log e;
  log_waitpid pid e : log (c_waitpid pid e).2 = log e;
  log_effect fx e : log (c_effect fx e) = log e
}.

Definition spawned `{Spawning E} (e : E) : list child := (log e).1.
Definition allowed `{Spawning E} (e : E) : list (list Z * list Z) := (log e).2.

(** ** The frame *)

(** Keys and counters have the sizes the ciphers need, in both directions. *)
Definition dirs_wf (s : netnox_ssh_server_t) : Prop :=
  direction_wf (srv_sending (s_transport s)) /\ direction_wf (srv_receiving (s_transport s)).

(** What a key exchange fixes. *)
Definition srv_kex_part (s : netnox_ssh_server_t) :=
  let t := s_transport s in
  (host_ed25519_sk s, host_ed25519_pk s, client_ident t, server_ident t, kexinit_client_payload t,
   kexinit_server_payload t, session_id t, session_id_len t, shared_secret_raw t,
   key_exchange_complete t).

(** The part of a context the frame keeps. *)
Definition core (s : netnox_ssh_server_t) :=
  (authenticated_user s, host_key_ready s, transport_fd s, authenticated (s_transport s), srv_kex_part s).

Section frame.
Context {E : Type} `{Spawning E} `{!HostLaws E} {T : NoxTLS} {L : NoxTLSLaws T}.
Implicit Types w : world netnox_ssh_server_t E.

(** Besides, a channel may be closed but not opened, and the callback may be asked. *)
Definition core_part w w' : Prop :=
  core (ctx w') = core (ctx w) /\ spawned (env w') = spawned (env w) /\
  (channel_open (s_transport (ctx w')) = true -> channel_open (s_transport (ctx w)) = true) /\
  allowed (env w) ⊆ allowed (env w').

Definition core_frame w w' : Prop := core_part w w' /\ (dirs_wf (ctx w) -> dirs_wf (ctx w')).

#[export] Instance core_part_preorder : PreOrder core_part.
Proof.
  split; [by intros w|]. intros w1 w2 w3 (A1 & A2 & A3 & A4) (B1 & B2 & B3 & B4).
  split; [congruence|]. split; [congruence|]. split; [auto|set_solver].
Qed.
#[export] Instance core_frame_preorder : PreOrder core_frame.
Proof.
  split; [by intros w|]. intros w1 w2 w3 [A1 A2] [B1 B2]. split; [|auto].
  by transitivity w2.
Qed.

Lemma core_frame_part w w' : core_frame w w' -> core_part w w'.
Proof. by intros []. Qed.

(** *** Steps *)

Lemma core_set_server f : (forall s, core (f s) = core s /\ s_transport (f s) = s_transport s) ->
  moves core_frame (set_server (E:=E) f).
Proof.
  intros Hf. apply moves_modify. intros w. destruct (Hf (ctx w)) as [Hc Ht].
  split; [by split_and!; simpl; rewrite ?Ht|]. unfold dirs_wf. simpl. by rewrite Ht.
Qed.

Lemma core_set_str f :
  (forall t, let t' := f t in
     authenticated t' = authenticated t /\
     (forall s, srv_kex_part (s <| s_transport := t' |>) = srv_kex_part (s <| s_transport := t |>)) /\
     (channel_open t' = true -> channel_open t = true) /\
     s2c_key t' = s2c_key t /\ s2c_counter t' = s2c_counter t /\
     c2s_key t' = c2s_key t /\ c2s_counter t' = c2s_counter t) ->
  moves core_frame (set_str (E:=E) f).
Proof.
  intros Hf. apply moves_modify. intros w. destruct (Hf (s_transport (ctx w))) as (Ha&Hk&?&S1&S2&R1&R2).
  split; [split_and!; [|done..]|].
  { unfold core. simpl. rewrite Ha. f_equal. etransitivity; [apply (Hk (ctx w))|]. by destruct_server (ctx w). }
  unfold dirs_wf, direction_wf. simpl. by rewrite S1, S2, R1, R2.
Qed.

Lemma core_part_env w e : spawned e = spawned (env w) -> allowed (env w) ⊆ allowed e ->
  core_part w (w <| env := e |>).
Proof. intros Hs Ha. by split_and!. Qed.
Lemma core_env w e : spawned e = spawned (env w) -> allowed (env w) ⊆ allowed e ->
  core_frame w (w <| env := e |>).
Proof. intros Hs Ha. split; [by apply core_part_env|done]. Qed.

Lemma spawned_log (e e' : E) : log e' = log e -> spawned e' = spawned e.
Proof. unfold spawned. by intros ->. Qed.
Lemma allowed_log (e e' : E) : log e' = log e -> allowed e ⊆ allowed e'.
Proof. unfold allowed. by intros ->. Qed.

Lemma core_call {A} (f : E -> A * E) : (forall e, log (f e).2 = log e) ->
  moves core_frame (call (C:=netnox_ssh_server_t) f).
Proof.
  intros Hf. apply moves_call; [exact _|]. intros w.
  apply core_env; [apply spawned_log, Hf|apply allowed_log, Hf].
Qed.

Lemma core_part_call {A} (f : E -> A * E) : (forall e, log (f e).2 = log e) ->
  moves core_part (call (C:=netnox_ssh_server_t) f).
Proof.
  intros Hf. apply moves_call; [exact _|]. intros w.
  apply core_part_env; [apply spawned_log, Hf|apply allowed_log, Hf].
Qed.

Lemma core_effect fx : moves core_frame (effect fx).
Proof. apply core_call. intros. apply log_effect. Qed.
End frame.

#[export] Hint Resolve core_effect : moves.
Create Rewrite HintDb log.
#[export] Hint Rewrite @log_send @log_recv @log_clock @log_getrandom
  @log_malloc @log_socketpair @log_poll @log_poll_out @log_read @log_write
  @log_waitpid @log_effect : log.

Ltac fx_done := intros; simpl; autorewrite with log; try reflexivity.
(** [mv] with the steps above. *)
Ltac fmv_step :=
  lazymatch goal with
  | |- moves core_frame (call _) => apply core_call; solve [fx_done]
  | |- moves core_part (call _) => apply core_part_call; solve [fx_done]
  | |- moves core_frame (set_server _) => apply core_set_server; intros ?; split; reflexivity
  | |- moves core_frame (set_str _) => apply core_set_str; intros ?; split_and!; done
  | |- moves core_frame server_ => apply moves_gets; exact _
  | |- moves core_frame str => apply moves_gets; exact _
  | |- moves core_part server_ => apply moves_gets; exact _
  | |- moves core_part str => apply moves_gets; exact _
  | |- moves core_part (set_server _) => apply moves_modify; intros ?; by split_and!
  | |- moves core_part (set_str _) => apply moves_modify; intros ?; by split_and!
  | |- moves core_part (modify _) => apply moves_modify; intros ?; by split_and!
  | |- _ => mv_step
  end.
Ltac fmv := repeat first [solve [eauto 2 with moves nocore]|fmv_step].

Section io.
Context {E : Type} `{Spawning E} `{!HostLaws E} {T : NoxTLS} {L : NoxTLSLaws T}.
Implicit Types w : world netnox_ssh_server_t E.

Lemma core_now : moves core_frame (srv_now_ms (E:=E)).
Proof. unfold srv_now_ms. fmv. Qed.
#[local] Hint Resolve core_now : moves.

Lemma core_check_deadlines s d : moves core_frame (srv_check_deadlines (E:=E) s d).
Proof. unfold srv_check_deadlines. fmv. Qed.
#[local] Hint Resolve core_check_deadlines : moves.

Lemma core_send_all data : moves core_frame (srv_send_all (E:=E) data).
Proof. unfold srv_send_all, send_loop. fmv. Qed.
Lemma core_recv_exact room n : moves core_frame (srv_recv_exact (E:=E) room n).
Proof. unfold srv_recv_exact, recv_loop. fmv. Qed.
Lemma core_recv_char : moves core_frame (recv_char (C:=netnox_ssh_server_t) (E:=E)).
Proof. unfold recv_char. fmv. Qed.
Lemma core_fill_random n : moves core_frame (srv_fill_random (E:=E) n).
Proof. unfold srv_fill_random. fmv. Qed.
#[local] Hint Resolve core_send_all core_recv_exact core_recv_char core_fill_random : moves.

Lemma part_of {A} (m : M (world netnox_ssh_server_t E) A) : moves core_frame m -> moves core_part m.
Proof. apply moves_sub, core_frame_part. Qed.

Lemma core_of {A} (m : M (world netnox_ssh_server_t E) A) :
  moves core_part m -> moves (keeping (fun w => dirs_wf (ctx w))) m -> moves core_frame m.
Proof. intros HA HB w. split; [apply HA|apply HB]. Qed.

Lemma core_send_encrypted plain n : moves core_frame (srv_send_encrypted (E:=E) plain n).
Proof.
  apply core_of.
  - unfold srv_send_encrypted. fmv; by apply part_of, core_send_all.
  - intros w Hd. enough (Hw : wp (srv_send_encrypted plain n) (fun _ w' => dirs_wf (ctx w')) w).
    { unfold wp in Hw. by destruct (srv_send_encrypted plain n w). }
    assert (Hall : forall d w1, dirs_wf (ctx w1) -> wp (srv_send_all d) (fun _ w' => dirs_wf (ctx w')) w1).
    { intros d w1 Hw1. pose proof (core_send_all d w1) as [_ Hx]. unfold wp.
      destruct (srv_send_all d w1). by apply Hx. }
    destruct Hd as [(Hk & Hc & Hcb) Hr]. unfold srv_send_encrypted. sw. rewrite hmac_ok. cbn [orc ok_or].
    simpl in Hk, Hc, Hcb. rewrite aes_ctr_law by done. sw; [|done].
    eapply wp_mono; [apply Hall|].
    { split; [|exact Hr]. rewrite ctr_increment_spec; [|done|done|].
      - split; [exact Hk|]. split; [apply ctr_add_length|apply ctr_add_bytes_ok].
      - pose proof (u32_range (n + NETNOX_SSH_AES_BLOCK_LEN - 1)). unfold is_u32, NETNOX_SSH_AES_BLOCK_LEN in *.
        split; [apply Z.div_pos; lia|]. apply Z.div_lt_upper_bound; lia. }
    intros o w1 Hw1. destruct o; cbn [ok_or orc]; try done. sw.
    eapply wp_mono; [by apply Hall|]. intros o w2 Hw2. by destruct o.
Qed.

#[local] Hint Resolve core_send_encrypted : moves.

Lemma core_send_packet p : moves core_frame (srv_send_packet (E:=E) p).
Proof. unfold srv_send_packet. fmv. Qed.

Lemma core_recv_packet max : moves core_frame (srv_recv_packet (E:=E) max).
Proof.
  apply core_of.
  - pose proof core_recv_exact as Hr. assert (Hr' : forall a b, moves core_part (srv_recv_exact (E:=E) a b)).
    { intros. apply part_of, Hr. }
    pose proof (part_of _ core_now) as Hn.
    unfold srv_recv_packet, recv_packet_encrypted, recv_packet_plain, recv_rest, recv_verify. fmv.
  - intros w [Hs Hr]. pose proof (srv_recv_packet_sound max w Hr) as Hw. unfold wp in Hw.
    destruct (srv_recv_packet max w) as [o w']. destruct Hw as [(Hf & _ & Hd) _].
    split; [|exact Hd]. simpl. unfold r_frame in Hf. simpl in Hf. rewrite Hf. exact Hs.
Qed.
End io.
#[export] Hint Resolve core_now core_check_deadlines core_send_all core_recv_exact core_recv_char
  core_fill_random core_send_encrypted core_send_packet core_recv_packet : moves.

(** ** The messages and the session *)

Section messages.
Context {E : Type} `{Spawning E} `{!HostLaws E} {T : NoxTLS} {L : NoxTLSLaws T}.

Abbreviation SM := (M (world netnox_ssh_server_t E)).

Lemma core_service_accept s : moves core_frame (srv_send_service_accept (E:=E) s).
Proof. unfold srv_send_service_accept. fmv. Qed.
Lemma core_userauth_failure b : moves core_frame (srv_send_userauth_failure (E:=E) b).
Proof. unfold srv_send_userauth_failure. fmv. Qed.
Lemma core_userauth_success : moves core_frame (srv_send_userauth_success (E:=E)).
Proof. unfold srv_send_userauth_success. fmv. Qed.
Lemma core_pk_ok alg blob : moves core_frame (srv_send_userauth_pk_ok (E:=E) alg blob).
Proof. unfold srv_send_userauth_pk_ok. fmv. Qed.
Lemma core_global_request p : moves core_frame (srv_handle_global_request (E:=E) p).
Proof. unfold srv_handle_global_request, srv_send_global_request_failure. fmv. Qed.
Lemma core_open_confirmation n : moves core_frame (srv_send_channel_open_confirmation (E:=E) n).
Proof. unfold srv_send_channel_open_confirmation. fmv. Qed.
Lemma core_channel_message n room : moves core_frame (send_channel_message (E:=E) n room).
Proof. unfold send_channel_message. fmv. Qed.
#[local] Hint Resolve core_channel_message core_service_accept : moves.
Lemma core_channel_end p : moves core_frame (srv_handle_channel_end (E:=E) p).
Proof. unfold srv_handle_channel_end, srv_send_channel_close. fmv. Qed.
Lemma core_close_wait d : moves core_frame (srv_begin_close_wait (E:=E) d).
Proof. unfold srv_begin_close_wait. fmv. Qed.
Lemma core_window_adjust : moves core_frame (srv_maybe_window_adjust (E:=E)).
Proof. unfold srv_maybe_window_adjust. fmv. Qed.
Lemma core_wait_close d : moves core_frame (srv_wait_close_packet (E:=E) d).
Proof. unfold srv_wait_close_packet. fmv. Qed.
Lemma core_refuse b : moves core_frame (srv_refuse (E:=E) b).
Proof. unfold srv_refuse, srv_send_channel_failure. fmv. Qed.
Lemma core_accept b : moves core_frame (srv_accept (E:=E) b).
Proof. unfold srv_accept, srv_send_channel_success. fmv. Qed.
Lemma core_exit_status n : moves core_frame (srv_send_exit_status (E:=E) n).
Proof. unfold srv_send_exit_status. fmv. Qed.
Lemma core_data_chunk d : moves core_frame (srv_send_channel_data_chunk (E:=E) d).
Proof. unfold srv_send_channel_data_chunk. fmv. Qed.
Lemma core_write_child fd d pty : moves core_frame (srv_write_child (E:=E) fd d pty).
Proof. unfold srv_write_child. fmv. Qed.
#[local] Hint Resolve core_global_request core_channel_end core_window_adjust core_write_child
  core_exit_status core_data_chunk core_refuse core_accept : moves.

Lemma core_session_message fd x p : moves core_frame (session_message (E:=E) fd x p).
Proof. unfold session_message, session_data, session_window, session_request, break. fmv. Qed.
#[local] Hint Resolve core_session_message : moves.
Lemma core_session_input fd ev x : moves core_frame (session_input (E:=E) fd ev x).
Proof. unfold session_input. fmv. Qed.
Lemma core_session_output fd cap x : moves core_frame (session_output (E:=E) fd cap x).
Proof. unfold session_output, break. fmv. Qed.
Lemma core_session_wait pid x : moves core_frame (session_wait (E:=E) pid x).
Proof. unfold session_wait. fmv. Qed.
Lemma core_session_end fd x : moves core_frame (session_end (E:=E) fd x).
Proof. unfold session_end, srv_send_channel_eof, srv_send_channel_close. fmv. Qed.
#[local] Hint Resolve core_close_wait core_session_input core_session_output core_session_wait core_session_end : moves.
Lemma core_session_pass pid fd x : moves core_frame (session_pass (E:=E) pid fd x).
Proof. unfold session_pass, or_break. fmv. Qed.
Lemma core_session_kill pid fd x : moves core_frame (session_kill (E:=E) pid fd x).
Proof. unfold session_kill. fmv. Qed.

Lemma core_pty_request p off b : moves core_frame (srv_pty_request (E:=E) p off b).
Proof. unfold srv_pty_request. fmv. Qed.
Lemma core_subsystem p off b : moves core_frame (srv_subsystem_request (E:=E) p off b).
Proof. unfold srv_subsystem_request. fmv. Qed.
Lemma core_channel_data p : moves core_frame (srv_channel_data (E:=E) p).
Proof. unfold srv_channel_data. fmv. Qed.
Lemma core_end_message d p : moves core_frame (srv_channel_end (E:=E) d p).
Proof. unfold srv_channel_end. fmv. Qed.
Lemma core_service_request p : moves core_frame (srv_service_request (E:=E) p).
Proof. unfold srv_service_request. fmv. Qed.
End messages.
#[export] Hint Resolve core_userauth_failure core_userauth_success core_pk_ok core_global_request
  core_open_confirmation core_channel_end core_close_wait core_wait_close core_refuse core_accept
  core_session_pass core_session_kill core_pty_request core_subsystem core_channel_data
  core_end_message core_service_request : moves.
