(* ===== verification/Logged.v ===== *)
(** An environment with a record: [logged E] is [E] beside the children the server
    started and the keys the daemon's callback allowed. Every call is the call of [E];
    [forkpty], [fork] and the callback also write down what they did. It satisfies the
    laws of [Spawning] by construction. *)

From S2P Require Export ServerFrame.

Definition record_t : Type := list child * list (list Z * list Z).
Definition logged (E : Type) : Type := E * record_t.

Definition with_child (ch : child) (started : bool) (r : record_t) : record_t :=
  (r.1 ++ (if started then [ch] else []), r.2).
Definition with_key (user key : list Z) (yes : bool) (r : record_t) : record_t :=
  (r.1, r.2 ++ (if yes then [(user, key)] else [])).

Section logged.
Context {E : Type} `{Host E} `{AuthHost E} `{PosixHost E}.

(** A call of [E], and what it adds to the record. *)
Definition logging {A} (note : A -> record_t -> record_t) (f : E -> A * E) (e : logged E) : A * logged E :=
  let '(a, e1) := f e.1 in (a, (e1, note a e.2)).
Definition plain {A} (f : E -> A * E) : logged E -> A * logged E := logging (fun _ r => r) f.

#[export] Instance logged_host : Host (logged E) := {|
  send_cb data := plain (send_cb data);
  recv_cb len := plain (recv_cb len);
  c_rand := plain c_rand;
  c_srand_time e := (c_srand_time e.1, e.2);
  c_getenv name e := c_getenv name e.1;
  noxtls_x25519_generate_key := plain noxtls_x25519_generate_key;
  c_clock_ms := plain c_clock_ms;
  c_getrandom len := plain (c_getrandom len)
|}.

#[export] Instance logged_auth : AuthHost (logged E) := {|
  publickey_allowed_cb user key := logging (with_key user key) (publickey_allowed_cb user key);
  c_malloc n := plain (c_malloc n)
|}.

#[export] Instance logged_posix : PosixHost (logged E) := {|
  c_forkpty ws ch := logging (fun r => with_child ch (0 <=? r.1)) (c_forkpty ws ch);
  c_socketpair := plain c_socketpair;
  c_fork ch := logging (fun pid => with_child ch (0 <=? pid)) (c_fork ch);
  c_poll fd child t := plain (c_poll fd child t);
  c_poll_out fd t := plain (c_poll_out fd t);
  c_read fd n := plain (c_read fd n);
  c_write pty fd data := plain (c_write pty fd data);
  c_waitpid pid := plain (c_waitpid pid);
  c_effect fx e := (c_effect fx e.1, e.2)
|}.

Lemma logging_eq {A} note (f : E -> A * E) e a e' : logging note f e = (a, e') -> f e.1 = (a, e'.1).
Proof. unfold logging. destruct (f e.1). by intros [= <- <-]. Qed.
Lemma plain_env {A} (f : E -> A * E) e : (plain f e).2.1 = (f e.1).2.
Proof. unfold plain, logging. by destruct (f e.1). Qed.
Lemma plain_log {A} (f : E -> A * E) e : (plain f e).2.2 = e.2.
Proof. unfold plain, logging. by destruct (f e.1). Qed.

#[export] Instance logged_laws `{!HostLaws E} : HostLaws (logged E).
Proof.
  refine {| sent := fun e => sent e.1; inbox := fun e => inbox e.1 |}.
  - intros data e n e' Hs%logging_eq. by apply send_law.
  - intros len e n bytes e' Hs%logging_eq Hl. by apply (recv_law len).
  - intros e. apply inbox_bytes_ok.
  - intros e. change (c_rand e) with (plain c_rand e). rewrite !plain_env. apply rand_law.
  - intros e. apply srand_law.
  - intros e b priv pub e' Hs%logging_eq. by apply x25519_generate_law.
  - intros e. change (c_clock_ms e) with (plain c_clock_ms e). rewrite !plain_env. apply clock_law.
  - intros len e r b e' Hs%logging_eq Hl. by apply (getrandom_law len e.1 r b).
Defined.

#[export] Instance logged_spawning : Spawning (logged E).
Proof.
  refine {| log := fun e : logged E => e.2 |}; intros; try done; try apply plain_log;
    cbn [c_forkpty c_fork publickey_allowed_cb logged_posix logged_auth]; unfold logging;
    match goal with |- context [match ?x with pair _ _ => _ end] => by destruct x as [] end.
Defined.

(** Only what the callback of [E] allows is allowed. *)
Lemma logged_allowed user key (e : logged E) :
  (publickey_allowed_cb user key e).1 = (publickey_allowed_cb user key e.1).1.
Proof. cbn [publickey_allowed_cb logged_auth]. unfold logging. by destruct (publickey_allowed_cb user key e.1). Qed.
End logged.
