(* ===== verification/ServerAuthSpec.v ===== *)
(** The server's public key authentication: a user is admitted exactly on the
    request of RFC 4252 section 7 with a valid signature under an allowed key. *)

From S2P Require Export ServerAuth ClientSessionSpec.

(** ** Specification *)

(** [string "ssh-ed25519", string data]: a public key blob, or a signature blob. *)
Definition key_blob (data : list Z) : list Z := message [FStr NETNOX_SSH_KEYALG_ED25519; FStr data].

(** The request for [user] with [key], and what its signature covers. *)
Definition userauth_request (user key : list Z) : list field := publickey_request user (key_blob key).
Definition signed_request (sid user key : list Z) : list Z :=
  message (FStr sid :: userauth_request user key).
Definition signed_message (user key sig : list Z) : list Z :=
  message (userauth_request user key ++ [FStr (key_blob sig)]).

Definition user_name_ok (user : list Z) : Prop := 0 < zlen user < 65 /\ 0 ∉ user.

Lemma message_one s : message [FStr s] = str_field s.
Proof. unfold message. simpl. by rewrite app_nil_r. Qed.
Lemma key_blob_fields data : key_blob data = str_field NETNOX_SSH_KEYALG_ED25519 ++ str_field data.
Proof. unfold key_blob. by rewrite message_cons, message_one. Qed.
Lemma key_blob_length data : zlen (key_blob data) = 19 + zlen data.
Proof. unfold key_blob. message_len. lia. Qed.

(** ** Reading a request *)

Section parse.
Implicit Types p : list Z.

Lemma read_view_str p off v off' s : bytes_ok p -> zlen p <= 35000 -> 0 <= off <= zlen p ->
  read_view p off = Ok (v, off') -> view_bytes v = Ok s ->
  zdrop off p = str_field s ++ zdrop off' p /\ 0 <= off' <= zlen p /\ v_len v = zlen s /\
  v_mem v = zdrop (off + 4) p.
Proof.
  intros Hb Hl Ho Hr Hs.
  destruct (read_view_inv p _ off v off' s Hb ltac:(ulia) Ho Hr Hs) as (? & ? & ? & ? & ? & ?).
  split_and!; [done|lia|lia|done|done].
Qed.

Lemma blob_key_inv blob n key : 0 <= n -> bytes_ok (v_mem blob) -> zlen (v_mem blob) <= 35000 ->
  srv_blob_key blob n = Ok key -> view_bytes blob = Ok (key_blob key) /\ zlen key = n.
Proof.
  intros Hn Hb Hl Hk. unfold srv_blob_key in Hk. inv_ok.
  subst. destruct a2; [|done]. apply view_is_bytes in Hok2 as Halg. rename v into alg, v0 into part.
  assert (Hs : is_u32 (zlen (v_mem blob) + 4)) by ulia.
  destruct (view_field_inv blob Hb Hs 0 alg z _ ltac:(lia) Hok Halg) as (D1 & E1 & ? & ?).
  destruct (view_field_inv blob Hb Hs z part z0 key ltac:(lia) Hok0 Hk) as (D2 & E2 & ? & ?).
  assert (Hlen : zlen key = v_len part).
  { unfold view_bytes in Hk. apply mem_read_ok in Hk as (-> & _ & ?). rewrite zdrop_0.
    apply ztake_length. lia. }
  split; [|lia]. unfold view_bytes. replace (v_len blob) with z0 by lia.
  rewrite mem_read_in_bounds, zdrop_0 by lia. f_equal. rewrite zdrop_0 in D1.
  rewrite D1, D2, app_assoc, <- key_blob_fields. apply ztake_app_exact.
  rewrite key_blob_length. change (zlen NETNOX_SSH_KEYALG_ED25519) with 11 in *. lia.
Qed.

(** A parsed offer is the text of the request from its flag byte on. *)
Lemma parse_offer_inv p off offer : bytes_ok p -> zlen p <= 35000 -> 0 <= off <= zlen p ->
  srv_parse_offer p off = Ok offer ->
  zdrop off p = message [FU8 (o_signed offer); FStr NETNOX_SSH_KEYALG_ED25519; FStr (key_blob (o_key offer))]
                  ++ zdrop (o_off offer) p /\
  (o_signed offer = 0 \/ o_signed offer = 1) /\ zlen (o_key offer) = 32 /\ 0 <= o_off offer <= zlen p.
Proof.
  intros Hb Hl Ho Hp. unfold srv_parse_offer in Hp. inv_ok.
  rename v into alg, v0 into blob, a0 into flag. cbn [o_signed o_key o_off].
  unfold mem_byte in Hok0. replace (0 <=? off) with true in Hok0 by lia.
  destruct (p !! Z.to_nat off) as [x|] eqn:Ex; [|done]. injection Hok0 as ->.
  assert (Hd : zdrop off p = flag :: zdrop (off + 1) p).
  { unfold zdrop. rewrite (drop_S p flag (Z.to_nat off) Ex). f_equal. f_equal. lia. }
  assert (is_byte flag) by (eapply Forall_lookup_1; [exact Hb|exact Ex]).
  rewrite u32_small in * by ulia.
  apply view_is_bytes in Hok4 as Halg.
  destruct (read_view_str p (off + 1) alg z _ Hb Hl ltac:(lia) Hok2 Halg) as (D1 & ? & _ & _).
  destruct (read_view_mem _ _ _ _ Hok3) as [k Hk].
  destruct (blob_key_inv blob 32 a6) as [Hblob Hlen]; [lia|rewrite Hk; auto with noxssh|..|done|].
  { rewrite Hk. unfold zdrop. rewrite length_drop. lia. }
  destruct (read_view_str p z blob z0 _ Hb Hl ltac:(lia) Hok3 Hblob) as (D2 & ? & _ & _).
  split_and!; try ulia; try done.
  rewrite Hd, D1, D2, !message_cons. cbn [field_bytes]. change (message []) with (@nil Z).
  by rewrite app_nil_r, <- !app_assoc.
Qed.
End parse.

(** ** What the parts of the request say about its bytes *)

Section request.
Context (p : list Z) (p_ok : bytes_ok p) (p_small : zlen p <= 35000).

Lemma user_name_inv user name : srv_user_name user 65 = Ok name ->
  view_bytes user = Ok name /\ (v_len user = zlen name -> user_name_ok name).
Proof.
  intros Hu. unfold srv_user_name in Hu. inv_ok. split; [done|]. intros Hl.
  apply andb_prop in Hok as [? ?]. apply negb_true_iff, bool_decide_eq_false in Hok1.
  split; [lia|done].
Qed.

Lemma signature_inv off sig : 0 <= off <= zlen p -> srv_parse_signature p off = Ok sig ->
  zdrop off p = str_field (key_blob sig) /\ zlen sig = 64.
Proof.
  intros Ho Hs. unfold srv_parse_signature in Hs. inv_ok.
  destruct (read_view_mem _ _ _ _ Hok) as [k Hk].
  destruct (blob_key_inv v 64 sig) as [Hblob Hlen]; [lia|rewrite Hk; auto with noxssh|..|done|].
  { rewrite Hk. unfold zdrop. rewrite length_drop. lia. }
  destruct (read_view_str p off v z _ p_ok p_small Ho Hok Hblob) as (D & ? & _ & _).
  split; [|done]. rewrite D. replace z with (zlen p) by lia.
  unfold zdrop. by rewrite drop_ge, app_nil_r by lia.
Qed.

(** The request up to the signature. *)
Definition offer_fields (flag : Z) (user key : list Z) : list field :=
  [FU8 NETNOX_SSH_MSG_USERAUTH_REQUEST; FStr user; FStr NETNOX_SSH_SERVICE_CONNECTION;
   FStr NETNOX_SSH_AUTH_METHOD_PUBLICKEY; FU8 flag; FStr NETNOX_SSH_KEYALG_ED25519; FStr (key_blob key)].

Lemma offer_fields_signed user key : offer_fields 1 user key = userauth_request user key.
Proof. done. Qed.

Lemma request_inv user off1 service off2 method off3 name offer :
  is_message p NETNOX_SSH_MSG_USERAUTH_REQUEST = true ->
  read_view p 1 = Ok (user, off1) -> read_view p off1 = Ok (service, off2) ->
  read_view p off2 = Ok (method, off3) ->
  view_is service NETNOX_SSH_SERVICE_CONNECTION = Ok true ->
  view_is method NETNOX_SSH_AUTH_METHOD_PUBLICKEY = Ok true ->
  srv_user_name user 65 = Ok name -> srv_parse_offer p off3 = Ok offer ->
  user_name_ok name /\ zlen (o_key offer) = 32 /\ 0 <= o_off offer <= zlen p /\
  (o_signed offer = 0 \/ o_signed offer = 1) /\
  ztake (o_off offer) p = message (offer_fields (o_signed offer) name (o_key offer)).
Proof.
  intros Hm R1 R2 R3 I1 I2 Hn Ho. apply view_is_bytes in I1, I2.
  destruct (user_name_inv _ _ Hn) as [Hu Hname].
  assert (Hp : exists rest, p = NETNOX_SSH_MSG_USERAUTH_REQUEST :: rest).
  { unfold is_message in Hm. destruct p as [|b rest]; [done|]. apply Z.eqb_eq in Hm as ->. by exists rest. }
  destruct Hp as [rest Hp]. assert (1 <= zlen p) by (rewrite Hp; simpl; lia).
  destruct (read_view_str p 1 user off1 name p_ok p_small ltac:(lia) R1 Hu) as (D1 & ? & ? & _).
  destruct (read_view_str p off1 service off2 _ p_ok p_small ltac:(lia) R2 I1) as (D2 & ? & _ & _).
  destruct (read_view_str p off2 method off3 _ p_ok p_small ltac:(lia) R3 I2) as (D3 & ? & _ & _).
  destruct (parse_offer_inv p off3 offer p_ok p_small ltac:(lia) Ho) as (D4 & Hs & Hk & ?).
  split; [auto|]. split; [done|]. split; [lia|]. split; [done|].
  assert (Hall : p = message (offer_fields (o_signed offer) name (o_key offer)) ++ zdrop (o_off offer) p).
  { assert (Hr : zdrop 1 p = rest) by (rewrite Hp; reflexivity). rewrite Hp at 1. rewrite <- Hr, D1, D2, D3, D4.
    unfold offer_fields. rewrite !message_cons. cbn [field_bytes].
    change (message []) with (@nil Z). by rewrite !app_nil_r, <- !app_assoc. }
  rewrite Hall at 1. apply ztake_app_exact. apply (f_equal length) in Hall.
  rewrite length_app in Hall. pose proof (zdrop_length p (o_off offer) ltac:(lia)). lia.
Qed.
End request.

(** A whole request with its signature. *)
Lemma signed_message_inv p off user key sig :
  ztake off p = message (offer_fields 1 user key) -> zdrop off p = str_field (key_blob sig) ->
  p = signed_message user key sig.
Proof.
  intros Ht Hd. unfold signed_message. rewrite message_app, message_one, <- offer_fields_signed, <- Ht, <- Hd.
  unfold ztake, zdrop. by rewrite take_drop.
Qed.

Lemma to_sign_ok t p off user key : length (session_id t) = 32%nat -> session_id_len t = 32 ->
  0 <= off <= zlen p -> ztake off p = message (offer_fields 1 user key) ->
  srv_to_sign t p off = Ok (signed_request (session_id t) user key).
Proof.
  intros Hl Hl' Ho Ht. unfold srv_to_sign. rewrite Hl'.
  rewrite mem_read_in_bounds by lia. cbn [mbind outcome_bind].
  rewrite mem_read_in_bounds by lia. cbn [mbind outcome_bind]. rewrite !zdrop_0, Ht, ztake_all by lia.
  unfold signed_request. change (message (FStr ?s :: ?fs)) with (str_field s ++ message fs).
  unfold str_field. rewrite Hl. by rewrite <- app_assoc.
Qed.

(** ** Reading a request that was built *)

Lemma view_of_field s post : view_bytes (mkView (s ++ post) (zlen s)) = Ok s.
Proof. unfold view_bytes. by rewrite (mem_read_app [] s post) by done. Qed.

Lemma view_is_field s post s' : view_is (mkView (s ++ post) (zlen s)) s' = Ok (bool_decide (s = s')).
Proof.
  rewrite view_is_valid; [|unfold view_valid; simpl; rewrite length_app; lia].
  simpl. by rewrite ztake_app_exact.
Qed.

Lemma read_view_next p pre s post : p = pre ++ str_field s ++ post -> zlen p <= 35000 ->
  read_view p (zlen pre) = Ok (mkView (s ++ post) (zlen s), zlen (pre ++ str_field s)).
Proof.
  intros Hp Hl. unfold read_view. rewrite (read_view_field p _ _ pre s post) by (done || ulia).
  f_equal. f_equal. rewrite zlen_app, str_field_length. lia.
Qed.

(** The same when the reader is told a shorter length than the memory has. *)
Lemma read_view_within p n pre s post : p = pre ++ str_field s ++ post ->
  zlen pre + 4 + zlen s <= n < 2 ^ 31 ->
  netnox_ssh_payload_read_string_view p n (zlen pre) = Ok (mkView (s ++ post) (zlen s), zlen pre + 4 + zlen s).
Proof.
  intros Hp Hn. unfold netnox_ssh_payload_read_string_view, netnox_ssh_payload_read_u32.
  rewrite (u32_small (zlen pre + 4)) by ulia. rewrite Z.gtb_ltb. case_match; [lia|].
  unfold str_field in Hp. rewrite <- app_assoc in Hp. rewrite Hp at 1. rewrite mem_read_app by done. simpl.
  pose proof (read_write_u32_be (zlen s) ltac:(ulia)) as E. unfold netnox_ssh_write_u32_be in E.
  rewrite E. cbn [orc mbind outcome_bind]. rewrite u32_small by ulia. rewrite Z.gtb_ltb. case_match; [lia|].
  rewrite Hp, app_assoc, zdrop_app_exact; [done|]. rewrite zlen_app, write_u32_be_length. lia.
Qed.

(** The two fields of a key or signature blob. *)
Lemma blob_alg_built data post : zlen data <= 1000 ->
  view_field (mkView (key_blob data ++ post) (zlen (key_blob data))) 0 =
  Ok (mkView (NETNOX_SSH_KEYALG_ED25519 ++ str_field data ++ post) (zlen NETNOX_SSH_KEYALG_ED25519), 15).
Proof.
  intros Hl. pose proof (key_blob_length data) as Hkl. unfold view_field. cbn [v_mem v_len].
  assert (Ha : zlen NETNOX_SSH_KEYALG_ED25519 = 11) by done.
  assert (Hk : key_blob data ++ post = [] ++ str_field NETNOX_SSH_KEYALG_ED25519 ++ (str_field data ++ post))
    by (rewrite key_blob_fields; by rewrite <- app_assoc).
  by rewrite (read_view_within _ _ [] _ (str_field data ++ post) Hk) by (change (zlen []) with 0; lia).
Qed.
Lemma blob_data_built data post : zlen data <= 1000 ->
  view_field (mkView (key_blob data ++ post) (zlen (key_blob data))) 15 =
  Ok (mkView (data ++ post) (zlen data), zlen (key_blob data)).
Proof.
  intros Hl. pose proof (key_blob_length data) as Hkl. unfold view_field. cbn [v_mem v_len].
  assert (Hk : key_blob data ++ post = str_field NETNOX_SSH_KEYALG_ED25519 ++ str_field data ++ post)
    by (rewrite key_blob_fields; by rewrite <- app_assoc).
  assert (Ha : zlen (str_field NETNOX_SSH_KEYALG_ED25519) = 15) by (rewrite str_field_length; done).
  pose proof (read_view_within _ (zlen (key_blob data)) _ data post Hk) as Hr. rewrite Ha in Hr.
  rewrite Hr by lia. cbn [orc]. do 2 f_equal. lia.
Qed.

(** A key or signature blob of the expected length is read back. *)
Lemma blob_key_built data post : zlen data <= 1000 ->
  srv_blob_key (mkView (key_blob data ++ post) (zlen (key_blob data))) (zlen data) = Ok data.
Proof.
  intros Hl. unfold srv_blob_key. rewrite blob_alg_built by done. cbn [mbind outcome_bind].
  rewrite blob_data_built by done. cbn [mbind outcome_bind v_len]. rewrite Z.eqb_refl.
  cbn [check mbind outcome_bind]. rewrite view_is_field, bool_decide_true, Z.eqb_refl by done. apply view_of_field.
Qed.

Lemma mem_byte_app pre b post : mem_byte (pre ++ b :: post) (zlen pre) = Ok b.
Proof.
  unfold mem_byte. replace (0 <=? zlen pre) with true by lia. rewrite Nat2Z.id.
  by rewrite lookup_app_r, Nat.sub_diag by lia.
Qed.

Lemma parse_signature_built sig pre : zlen sig = 64 -> zlen pre <= 1000 ->
  srv_parse_signature (pre ++ str_field (key_blob sig)) (zlen pre) = Ok sig.
Proof.
  intros Hs Hp. pose proof (key_blob_length sig) as Hl. unfold srv_parse_signature.
  assert (E : pre ++ str_field (key_blob sig) = pre ++ str_field (key_blob sig) ++ []) by by rewrite app_nil_r.
  rewrite (read_view_next _ pre (key_blob sig) [] E) by (rewrite zlen_app, str_field_length; lia).
  cbn [mbind outcome_bind]. rewrite Z.eqb_refl. cbn [check mbind outcome_bind].
  pose proof (blob_key_built sig [] ltac:(lia)) as Hb. rewrite Hs in Hb. exact Hb.
Qed.

Section built.
Context (user key : list Z) (Hu : user_name_ok user) (Hk : zlen key = 32).

Lemma request_length flag : zlen (message (offer_fields flag user key)) = 107 + zlen user.
Proof. unfold offer_fields. message_len. rewrite key_blob_length. lia. Qed.

(** The offer in a built request. *)
Lemma parse_offer_built flag post : flag = 0 \/ flag = 1 -> zlen post <= 1000 ->
  let p := message (offer_fields flag user key) ++ post in
  exists alg blob, srv_parse_offer p (zlen (message (take 4 (offer_fields flag user key)))) =
    Ok (mkOffer flag alg blob key (zlen (message (offer_fields flag user key)))) /\
    view_bytes alg = Ok NETNOX_SSH_KEYALG_ED25519 /\ view_bytes blob = Ok (key_blob key) /\
    v_len blob = zlen (key_blob key).
Proof.
  intros Hf Hp p. set (pre := message (take 4 (offer_fields flag user key))).
  set (alg := NETNOX_SSH_KEYALG_ED25519). pose proof (request_length flag) as Hl.
  assert (Hlp : zlen p <= 35000) by (unfold p; rewrite zlen_app; destruct Hu; lia).
  assert (Hm : message (offer_fields flag user key) = pre ++ flag :: str_field alg ++ str_field (key_blob key)).
  { change (offer_fields flag user key) with (take 4 (offer_fields flag user key) ++
      [FU8 flag; FStr alg; FStr (key_blob key)]). rewrite message_app. fold pre.
    rewrite !message_cons. cbn [field_bytes]. change (message []) with (@nil Z). by rewrite app_nil_r. }
  assert (E : p = pre ++ flag :: str_field alg ++ str_field (key_blob key) ++ post).
  { unfold p. rewrite Hm, <- app_assoc. cbn [app]. by rewrite <- app_assoc. }
  assert (Hlb : zlen (key_blob key) = 51) by (rewrite key_blob_length; lia).
  assert (Hpre : zlen pre + 1 <= zlen p) by (rewrite E, zlen_app; simpl length; lia).
  assert (Hmb : mem_byte p (zlen pre) = Ok flag) by (rewrite E; apply mem_byte_app).
  clearbody p pre. unfold srv_parse_offer.
  replace (zlen pre <? zlen p) with true by lia. cbn [check mbind outcome_bind]. rewrite Hmb.
  cbn [check mbind outcome_bind]. replace (flag <=? 1) with true by lia. cbn [check mbind outcome_bind].
  rewrite u32_small by ulia. replace (zlen pre + 1) with (zlen (pre ++ [flag])) by (rewrite zlen_app; simpl; lia).
  assert (E1 : p = (pre ++ [flag]) ++ str_field alg ++ str_field (key_blob key) ++ post)
    by (rewrite <- app_assoc; exact E).
  rewrite (read_view_next p _ _ _ E1 Hlp). cbn [mbind outcome_bind].
  assert (E2 : p = ((pre ++ [flag]) ++ str_field alg) ++ str_field (key_blob key) ++ post)
    by (rewrite <- app_assoc; exact E1).
  rewrite (read_view_next p _ _ _ E2 Hlp). cbn [mbind outcome_bind].
  rewrite view_is_field, bool_decide_true by done. cbn [check mbind outcome_bind].
  rewrite <- Hk, blob_key_built by lia. cbn [mbind outcome_bind].
  eexists _, _. split; [do 2 f_equal|split; [apply view_of_field|split; [apply view_of_field|done]]].
  rewrite Hm, <- !app_assoc. done.
Qed.

Context (sig : list Z) (Hs : zlen sig = 64).

Lemma signed_message_split : signed_message user key sig =
  message (offer_fields 1 user key) ++ str_field (key_blob sig).
Proof. unfold signed_message. by rewrite message_app, message_one. Qed.

Lemma signed_message_length : zlen (signed_message user key sig) = 194 + zlen user.
Proof.
  rewrite signed_message_split, zlen_app, request_length, str_field_length. pose proof (key_blob_length sig). lia.
Qed.

(** The five parts of the whole message in turn. *)
Lemma read_request : let p := signed_message user key sig in
  exists off v1 v2 v3 z1 z2, read_view p 1 = Ok (v1, z1) /\ read_view p z1 = Ok (v2, z2) /\
    read_view p z2 = Ok (v3, off) /\ off = zlen (message (take 4 (offer_fields 1 user key))) /\
    srv_user_name v1 65 = Ok user /\
    view_is v2 NETNOX_SSH_SERVICE_CONNECTION = Ok true /\
    view_is v3 NETNOX_SSH_AUTH_METHOD_PUBLICKEY = Ok true.
Proof.
  intros p. assert (Hlp : zlen p <= 35000).
  { unfold p. rewrite signed_message_length. destruct Hu. lia. }
  set (post := message (drop 4 (offer_fields 1 user key)) ++ str_field (key_blob sig)).
  set (conn := NETNOX_SSH_SERVICE_CONNECTION). set (pk := NETNOX_SSH_AUTH_METHOD_PUBLICKEY).
  assert (E1 : p = [NETNOX_SSH_MSG_USERAUTH_REQUEST] ++ str_field user ++ str_field conn ++ str_field pk ++ post).
  { unfold p. rewrite signed_message_split.
    change (offer_fields 1 user key) with ([FU8 NETNOX_SSH_MSG_USERAUTH_REQUEST; FStr user; FStr conn; FStr pk]
      ++ drop 4 (offer_fields 1 user key)) at 1.
    rewrite message_app, <- app_assoc. fold post. rewrite !message_cons. cbn [field_bytes].
    change (message []) with (@nil Z). by rewrite app_nil_r, <- !app_assoc. }
  assert (E2 : p = ([NETNOX_SSH_MSG_USERAUTH_REQUEST] ++ str_field user) ++ str_field conn ++ str_field pk ++ post)
    by (rewrite <- app_assoc; exact E1).
  assert (E3 : p = (([NETNOX_SSH_MSG_USERAUTH_REQUEST] ++ str_field user) ++ str_field conn) ++ str_field pk ++ post)
    by (rewrite <- app_assoc; exact E2).
  eexists _, _, _, _, _, _.
  split; [exact (read_view_next p _ _ _ E1 Hlp)|]. split; [exact (read_view_next p _ _ _ E2 Hlp)|].
  split; [exact (read_view_next p _ _ _ E3 Hlp)|]. split.
  - unfold offer_fields. cbn [take]. rewrite !message_cons. cbn [field_bytes]. change (message []) with (@nil Z).
    rewrite app_nil_r. by rewrite <- !app_assoc.
  - split; [|by rewrite !view_is_field, !bool_decide_true]. unfold srv_user_name. cbn [v_len].
    destruct Hu as [Hl Hn]. replace (_ && _) with true by lia. cbn [check mbind outcome_bind].
    rewrite view_of_field. cbn [mbind outcome_bind]. by rewrite bool_decide_false.
Qed.
End built.
