(* ===== verification/ServerSafety.v ===== *)
(** The server runs a child only for a user it has admitted: one whose key the daemon's
    callback allowed and who signed, with that key, a public key request over this
    connection's session id. *)

From S2P Require Export ServerFrame ServerAuthSpec.

Section safety.
Context {E : Type} `{Spawning E} `{!HostLaws E} {T : NoxTLS} {L : NoxTLSLaws T}.
Implicit Types w : world netnox_ssh_server_t E.

(** ** Who is admitted *)

(** The record of [e] has the callback's answer. *)
Definition admitted (e : E) (sid user : list Z) : Prop :=
  exists key sig, (user, key) ∈ allowed e /\ (exists e0, (publickey_allowed_cb user key e0).1 = true) /\
    zlen key = 32 /\
    noxtls_ed25519_verify key (signed_request sid user key) sig = true.

(** The children [new] were started for admitted users. *)
Definition admits_all (e : E) (sid : list Z) (new : list child) : Prop :=
  Forall (fun ch => admitted e sid (ch_user ch)) new.

Lemma admitted_grows e e' sid user : allowed e ⊆ allowed e' -> admitted e sid user -> admitted e' sid user.
Proof. intros He (key & sig & Hk & ?). exists key, sig. split; [by apply He|done]. Qed.
Lemma admits_all_grows e e' sid new : allowed e ⊆ allowed e' -> admits_all e sid new -> admits_all e' sid new.
Proof. intros He Ha. eapply Forall_impl; [exact Ha|]. intros ch. by apply admitted_grows. Qed.

(** Nobody is logged in yet. *)
Definition fresh (base : list child) w : Prop :=
  let s := ctx w in
  dirs_wf s /\ cstr (authenticated_user s) = [] /\ authenticated (s_transport s) = false /\
  channel_open (s_transport s) = false /\ spawned (env w) = base.

(** The context at the end of the handshake. *)
Context (s0 : netnox_ssh_server_t).

(** What the key exchange fixed is in place, and every right was earned. *)
Definition guarded (base : list child) w : Prop :=
  let s := ctx w in let t := s_transport s in
  dirs_wf s /\ length (session_id t) = 32%nat /\ session_id_len t = 32 /\
  (authenticated t = true -> nonempty (authenticated_user s) = true) /\
  (nonempty (authenticated_user s) = true -> admitted (env w) (session_id t) (cstr (authenticated_user s))) /\
  (channel_open t = true -> authenticated t = true) /\
  srv_kex_part s = srv_kex_part s0 /\
  exists new, spawned (env w) = base ++ new /\ admits_all (env w) (session_id t) new.

Lemma fresh_guarded base w : fresh base w -> length (session_id (s_transport (ctx w))) = 32%nat ->
  session_id_len (s_transport (ctx w)) = 32 -> srv_kex_part (ctx w) = srv_kex_part s0 ->
  guarded base w.
Proof.
  intros (Hd & Hu & Ha & Ho & Hs) Hl Hl' Hk. unfold guarded, nonempty. rewrite Hu, Ha, Ho.
  split_and!; try done. exists []. rewrite app_nil_r. split; [done|constructor].
Qed.

Lemma core_guarded base w w' : core_frame w w' -> keeping (guarded base) w w'.
Proof.
  intros [(Hc & Hs & Ho & Hw) Hd] (G1 & G2 & G3 & G4 & G5 & G6 & GK & new & G7 & G8). unfold guarded.
  assert (HK : srv_kex_part (ctx w') = srv_kex_part s0) by (rewrite <- GK; exact (f_equal snd Hc)).
  unfold core in Hc. injection Hc as -> _ _ -> _ _ _ _ _ _ -> -> _ _. rewrite Hs.
  split_and!; eauto using admitted_grows, admits_all_grows.
Qed.
Lemma core_fresh base w w' : core_frame w w' -> keeping (fresh base) w w'.
Proof.
  intros [(Hc & Hs & Ho & _) Hd] (G1 & G2 & G3 & G4 & G5). unfold fresh.
  unfold core in Hc. injection Hc as -> _ _ -> _ _ _ _ _ _ _ _ _ _. rewrite Hs. split_and!; auto.
  destruct (channel_open (s_transport (ctx w'))); [|done]. by rewrite <- G4, Ho.
Qed.

(** What is in the frame keeps both. *)
Lemma moves_guarded base {A} (m : M _ A) : moves core_frame m -> moves (keeping (guarded base)) m.
Proof. apply moves_sub. intros. by apply core_guarded. Qed.
Lemma moves_fresh base {A} (m : M _ A) : moves core_frame m -> moves (keeping (fresh base)) m.
Proof. apply moves_sub. intros. by apply core_fresh. Qed.

Ltac gmv := repeat first
  [ solve [apply moves_guarded; fmv]
  | solve [eauto 2 with moves nocore]
  | fmv_step ].

(** ** Starting a child *)

Lemma guarded_spawn base w e : guarded base w -> allowed (env w) ⊆ allowed e ->
  (spawned e = spawned (env w) \/
   nonempty (authenticated_user (ctx w)) = true /\ exists ch, ch_user ch = cstr (authenticated_user (ctx w)) /\
     spawned e = spawned (env w) ++ [ch]) -> guarded base (w <| env := e |>).
Proof.
  intros (G1 & G2 & G3 & G4 & G5 & G6 & GK & new & G7 & G8) Ha Hs. unfold guarded. simpl.
  pose proof (admits_all_grows _ _ _ _ Ha G8) as G8'.
  split_and!; eauto using admitted_grows. destruct Hs as [-> | (Hu & ch & Hch & ->)]; [by exists new|].
  exists (new ++ [ch]). rewrite G7, app_assoc. split; [done|].
  apply Forall_app. split; [done|]. constructor; [|constructor]. rewrite Hch. eauto using admitted_grows.
Qed.

(** What [fork] and [forkpty] add to the record. *)
Lemma log_started (e e' : E) pid ch : log e' = ((log e).1 ++ (if 0 <=? pid then [ch] else []), (log e).2) ->
  allowed e ⊆ allowed e' /\ (spawned e' = spawned e \/ spawned e' = spawned e ++ [ch]).
Proof.
  unfold allowed, spawned. intros ->. split; [done|]. simpl. destruct (0 <=? pid); [by right|left; apply app_nil_r].
Qed.

Lemma guarded_session_spawn base s cmd ws w : guarded base w ->
  authenticated_user s = authenticated_user (ctx w) -> nonempty (authenticated_user (ctx w)) = true ->
  wp (session_spawn s cmd ws) (fun _ w' => guarded base w') w.
Proof.
  intros HG Hs Hu. unfold session_spawn. set (ch := mkChild _ _ _ _).
  assert (Hch : ch_user ch = cstr (authenticated_user (ctx w))) by (simpl; by rewrite Hs).
  destruct (want_pty s).
  - sw. apply wp_call. intros [pid fd] e Hf. pose proof (log_forkpty ws ch (env w)) as Hsp.
    rewrite Hf in Hsp. apply log_started in Hsp as [Ha Hsp].
    assert (HG' : guarded base (w <| env := e |>)).
    { apply guarded_spawn; [done|done|]. destruct Hsp; [by left|right; eauto]. }
    cbn [ok_or]. sw; exact HG'.
  - apply wp_bind, wp_call. intros pair e1 H1'.
    pose proof (log_socketpair (env w)) as Hsp. rewrite H1' in Hsp.
    assert (HG1 : guarded base (w <| env := e1 |>)).
    { apply guarded_spawn; [done|by apply allowed_log|left; by apply spawned_log]. }
    cbn [ok_or]. destruct pair as [[fd0 fd1]|]; [|by sw]. apply wp_bind, wp_call. intros pid e2 H2'.
    simpl in H2'. pose proof (log_fork ch e1) as Hsp2. rewrite H2' in Hsp2. apply log_started in Hsp2 as [Ha2 Hsp2].
    assert (HG2 : guarded base (w <| env := e2 |>)).
    { change (w <| env := e2 |>) with ((w <| env := e1 |>) <| env := e2 |>).
      apply guarded_spawn; [exact HG1|done|]. destruct Hsp2; [by left|right; eauto]. }
    cbn [ok_or]. revert HG2. apply keeping_wp. gmv.
Qed.

Lemma guarded_run_session base cmd : moves (keeping (guarded base)) (srv_run_session_unix (E:=E) cmd).
Proof.
  apply keeping_wp. intros w HG. unfold srv_run_session_unix. sw; [|done].
  match goal with Hg : _ && _ = true |- _ => apply andb_prop in Hg as [_ Hu] end.
  apply (wp_keeping_then (guarded base) _ (fun r => let '(pid, child_fd) := r in _)).
  - eapply guarded_session_spawn; [exact HG|done|done].
  - intros [pid fd]. gmv.
Qed.

(** ** Authentication *)

(** What a valid signature does to the context. *)
Definition log_in (name : list Z) w : world netnox_ssh_server_t E :=
  w <| ctx := ctx w <| authenticated_user := name |>
       <| s_transport := s_transport (ctx w) <| authenticated := true |>
                           <| connection_service_ready := true |> |> |>.

Lemma admitted_name mem user name : user_name_ok user -> mem_write mem 0 (user ++ [0]) = Ok name ->
  cstr name = user /\ nonempty name = true.
Proof.
  intros [Hl Hn] Hm. unfold mem_write in Hm. case_match; [|done]. injection Hm as <-.
  assert (Hc : forall post, cstr ((user ++ [0]) ++ post) = user).
  { intros post. rewrite <- app_assoc. simpl. rewrite cstr_app_nul. by apply cstr_no_nul. }
  split; [apply Hc|]. unfold nonempty. rewrite Hc. destruct user; [simpl in Hl; lia|done].
Qed.

Lemma guarded_admit base w user name : guarded base w -> user_name_ok user ->
  admitted (env w) (session_id (s_transport (ctx w))) user ->
  mem_write (authenticated_user (ctx w)) 0 (user ++ [0]) = Ok name -> guarded base (log_in name w).
Proof.
  intros (G1 & G2 & G3 & G4 & G5 & G6 & GK & G7) Hu Had Hm.
  destruct (admitted_name _ _ _ Hu Hm) as [Hc Hne]. unfold guarded, log_in. simpl.
  rewrite Hc. by split_and!.
Qed.

(** The request [p] is a valid signed request, checked in [w]. *)
Definition valid_request w (p user key sig : list Z) : Prop :=
  p = signed_message user key sig /\ user_name_ok user /\ zlen key = 32 /\ zlen sig = 64 /\
  publickey_allowed_cb_set (ctx w) = true /\ (publickey_allowed_cb user key (env w)).1 = true /\
  noxtls_ed25519_verify key (signed_request (session_id (s_transport (ctx w))) user key) sig = true.

(** Either nothing changes, or a valid request admits its user. *)
Definition decided w (p : list Z) w' : Prop :=
  core_frame w w' \/
  exists user key sig name w1, valid_request w p user key sig /\
    ctx w1 = ctx w /\ spawned (env w1) = spawned (env w) /\
    allowed (env w) ⊆ allowed (env w1) /\ (user, key) ∈ allowed (env w1) /\
    mem_write (authenticated_user (ctx w)) 0 (user ++ [0]) = Ok name /\
    core_frame (log_in name w1) w'.

Lemma wp_core {A} (m : M _ A) (Q : _ -> Prop) w0 w : moves core_frame m -> core_frame w0 w ->
  (forall w', core_frame w0 w' -> Q w') -> wp m (fun _ w' => Q w') w.
Proof.
  intros Hm Hw HQ. apply (proj1 (moves_wp _ _)) with (s := w) in Hm. eapply wp_mono; [exact Hm|].
  intros o w' Hw'. apply HQ. by transitivity w.
Qed.

(** The record of a question to the callback. *)
Lemma log_asked user key (e e' : E) b : publickey_allowed_cb user key e = (b, e') ->
  spawned e' = spawned e /\ allowed e ⊆ allowed e' /\ (b = true -> (user, key) ∈ allowed e').
Proof.
  intros He. pose proof (log_allowed user key e) as Hl. rewrite He in Hl. simpl in Hl.
  unfold spawned, allowed. rewrite Hl. simpl. split; [done|]. split; [set_solver|]. intros ->. set_solver.
Qed.

Lemma userauth_signed_decided p user offer w e :
  bytes_ok p -> zlen p <= 35000 -> 
  length (session_id (s_transport (ctx w))) = 32%nat -> session_id_len (s_transport (ctx w)) = 32 ->
  publickey_allowed_cb_set (ctx w) = true -> publickey_allowed_cb user (o_key offer) (env w) = (true, e) ->
  user_name_ok user -> zlen (o_key offer) = 32 -> 0 <= o_off offer <= zlen p ->
  ztake (o_off offer) p = message (offer_fields 1 user (o_key offer)) ->
  wp (srv_userauth_signed p user offer) (fun _ w' => decided w p w') (w <| env := e |>).
Proof.
  intros Hb Hl Hs Hs' Hcb He Hu Hk Ho Ht.
  destruct (log_asked _ _ _ _ _ He) as (Hsp & Hal & Hin). specialize (Hin eq_refl).
  unfold srv_userauth_signed. sw. apply wp_attempt, wp_lift.
  destruct (srv_parse_signature p (o_off offer)) as [sig|rc| |] eqn:Esig; cbn [ok_or];
    [|apply wp_core with (w0 := w); [eauto with moves|by apply core_env|by left]|by left; apply core_env..].
  destruct (signature_inv p Hb Hl _ _ Ho Esig) as [Hd Hsl]. sw.
  apply wp_call. intros room e' Em. cbn [ok_or]. simpl in Em.
  pose proof (log_malloc (u32 (4 + session_id_len (s_transport (ctx w)) + o_off offer)) e) as Hlog.
  rewrite Em in Hlog. simpl in Hlog. apply spawned_log in Hlog as Hsp'. apply allowed_log in Hlog as Hal'.
  change (set env ?f (set env ?g w)) with (w <| env := e' |>).
  assert (Hc : core_frame w (w <| env := e' |>)) by (apply core_env; [congruence|set_solver]).
  sw; [|by left]. simpl. rewrite (to_sign_ok _ _ _ user (o_key offer)) by done. cbn [ok_or].
  destruct (noxtls_ed25519_verify _ _ _) eqn:Ev;
    [|apply wp_core with (w0 := w); [eauto with moves|done|by left]].
  sw. simpl. destruct (mem_write (authenticated_user (ctx w)) 0 (user ++ [0])) as [name| | |] eqn:En;
    cbn [ok_or]; [|by left..]. sw.
  apply wp_core with (w0 := log_in name (w <| env := e' |>)); [eauto with moves|by apply reflexivity|].
  intros w' Hw'. right. exists user, (o_key offer), sig, name, (w <| env := e' |>).
  split; [|split_and!; try done; simpl; [congruence|set_solver|by apply Hal']].
  split; [by apply (signed_message_inv p (o_off offer))|]. split; [done|]. split; [done|]. split; [done|].
  split; [done|]. by rewrite He.
Qed.

Lemma userauth_publickey_decided p off user w name : 
  bytes_ok p -> zlen p <= 35000 -> 
  length (session_id (s_transport (ctx w))) = 32%nat -> session_id_len (s_transport (ctx w)) = 32 ->
  (forall offer, srv_user_name user 65 = Ok name -> srv_parse_offer p off = Ok offer ->
     user_name_ok name /\ zlen (o_key offer) = 32 /\ 0 <= o_off offer <= zlen p /\
     (o_signed offer = 0 \/ o_signed offer = 1) /\
     ztake (o_off offer) p = message (offer_fields (o_signed offer) name (o_key offer))) ->
  (forall n, srv_user_name user 65 = Ok n -> n = name) ->
  wp (srv_userauth_publickey p off user) (fun _ w' => decided w p w') w.
Proof.
  intros Hb Hl Hs Hs' Hinv Hname. unfold srv_userauth_publickey. sw. apply wp_attempt, wp_lift.
  set (o := mbind _ _). destruct o as [[n offer]|rc| |] eqn:Eo; cbn [ok_or];
    [|apply wp_core with (w0 := w); [eauto with moves|done|by left]|by left..].
  unfold o in Eo. inv_ok. rewrite (Hname n) in * by done. clear Hname.
  destruct (Hinv offer) as (Hu & Hk & Ho & Hflag & Ht); [done..|].
  sw. apply wp_call. intros allowed e Ha. cbn [ok_or].
  destruct (log_asked _ _ _ _ _ Ha) as (Hsp & Hal & _).
  assert (Hc : core_frame w (w <| env := e |>)) by by apply core_env.
  destruct allowed; cbn [negb]; [|apply wp_core with (w0 := w); [eauto with moves|done|by left]].
  destruct Hflag as [E0|E1]; [rewrite E0|rewrite E1]; cbn [Z.eqb].
  - destruct (o_off offer =? zlen p); (apply wp_core with (w0 := w); [eauto with moves|done|by left]).
  - rewrite E1 in Ht. eapply userauth_signed_decided; try done.
Qed.

Lemma userauth_request_decided p w : bytes_ok p -> zlen p <= 35000 ->
  length (session_id (s_transport (ctx w))) = 32%nat -> session_id_len (s_transport (ctx w)) = 32 ->
  wp (srv_handle_userauth_request p) (fun _ w' => decided w p w') w.
Proof.
  intros Hb Hl Hs Hs'. unfold srv_handle_userauth_request. sw; [|by left].
  match goal with Hg : _ && _ = true |- _ => apply andb_prop in Hg as [_ Hm] end.
  destruct (read_view p 1) as [[user off1]| | |] eqn:R1; cbn [ok_or orc]; [|by left..]. sw.
  destruct (read_view p off1) as [[service off2]| | |] eqn:R2; cbn [ok_or orc]; [|by left..]. sw.
  destruct (read_view p off2) as [[method off3]| | |] eqn:R3; cbn [ok_or orc]; [|by left..]. sw.
  destruct (view_is service _) as [[]| | |] eqn:I1; cbn [ok_or]; [| |by left..].
  2:{ sw. apply wp_core with (w0 := w); [eauto with moves|done|by left]. }
  sw. destruct (view_is method _) as [[]| | |] eqn:I2; cbn [ok_or]; [| |by left..].
  2:{ apply wp_core with (w0 := w); [eauto with moves|done|by left]. }
  destruct (srv_user_name user 65) as [name|rc| |] eqn:En.
  - apply (userauth_publickey_decided p off3 user w name); try done; [|by rewrite En; intros ? [= ->]].
    intros offer _ Ho. by eapply request_inv.
  - apply (userauth_publickey_decided p off3 user w []); try done; rewrite En; done.
  - apply (userauth_publickey_decided p off3 user w []); try done; rewrite En; done.
  - apply (userauth_publickey_decided p off3 user w []); try done; rewrite En; done.
Qed.

Lemma decided_guarded base w p w' : guarded base w -> decided w p w' -> guarded base w'.
Proof.
  intros HG [Hc|(user & key & sig & name & w1 & Hv & Hc1 & Hs1 & Hal & Hin & Hm & Hc)]; [by eapply core_guarded|].
  eapply core_guarded; [exact Hc|]. destruct Hv as (_ & Hu & Hk & _ & _ & Ha & Hver).
  rewrite <- Hc1 in Hm. eapply guarded_admit; [|exact Hu| |exact Hm].
  - replace w1 with (w <| env := env w1 |> <| prng_seeded := prng_seeded w1 |>) by (destruct w1; simpl in *; by subst).
    change (guarded base (w <| env := env w1 |>)). apply guarded_spawn; [done|done|by left].
  - rewrite Hc1. exists key, sig. split_and!; try done. by exists (env w).
Qed.

(** ** The message loop *)

(** [guarded] and logged in: here a channel may be opened. *)
Definition logged_in (base : list child) w : Prop :=
  guarded base w /\ authenticated (s_transport (ctx w)) = true.

Lemma moves_logged_in base {A} (m : M _ A) : moves core_frame m -> moves (keeping (logged_in base)) m.
Proof.
  apply moves_sub. intros w w' Hc [HG Ha]. split; [by eapply core_guarded|].
  destruct Hc as [(Hcore & _) _]. unfold core in Hcore. by injection Hcore as _ _ _ -> _ _ _ _ _ _ _ _ _ _.
Qed.

Lemma logged_in_open base : moves (keeping (logged_in base))
  (set_str (E:=E) (fun t => t <| channel_open := true |>)).
Proof.
  apply moves_modify. intros w [(G1 & G2 & G3 & G4 & G5 & G6 & GK & G7) Ha]. split; [|done].
  unfold guarded. simpl. by split_and!.
Qed.
#[local] Hint Resolve logged_in_open : moves.

Lemma guarded_channel_open base d p : moves (keeping (guarded base)) (srv_channel_open (E:=E) d p).
Proof.
  apply keeping_wp. intros w HG. unfold srv_channel_open. sw_step. sw_step; [|done].
  cbn [ok_or]. sw_step. sw_step. cbn [ok_or]. sw_step. sw_step; [|done]. cbn [ok_or].
  match goal with Hg : authenticated _ && _ = true |- _ => apply andb_prop in Hg as [Ha _] end.
  apply (wp_mono _ (fun _ w' => logged_in base w')); [|by intros o w' []].
  assert (HL : logged_in base w) by done. revert HL. apply keeping_wp.
  repeat first [solve [apply moves_logged_in; fmv]|solve [eauto 2 with moves nocore]|fmv_step].
Qed.

Lemma guarded_channel_request base d p : moves (keeping (guarded base)) (srv_channel_request (E:=E) d p).
Proof.
  pose proof (guarded_run_session base). unfold srv_channel_request, srv_exec_request, srv_shell_request, srv_run_child. gmv;
    try apply guarded_run_session.
Qed.

Lemma guarded_userauth base p : bytes_ok p -> zlen p <= 35000 ->
  moves (keeping (guarded base)) (srv_userauth_message (E:=E) p).
Proof.
  intros Hb Hl. unfold srv_userauth_message. gmv.
  apply keeping_wp. intros w HG. eapply wp_mono.
  - apply userauth_request_decided; [done|done|apply HG|apply HG].
  - intros o w'. by apply decided_guarded.
Qed.

Lemma guarded_dispatch base d p : bytes_ok p -> zlen p <= 35000 ->
  moves (keeping (guarded base)) (srv_dispatch (E:=E) d p).
Proof.
  intros Hb Hl. unfold srv_dispatch. gmv;
    auto using guarded_channel_open, guarded_channel_request, guarded_userauth.
Qed.

Lemma guarded_serve_packet base d : moves (keeping (guarded base)) (srv_serve_packet (E:=E) d).
Proof.
  apply keeping_wp. intros w HG. unfold srv_serve_packet. apply wp_bind, wp_attempt.
  pose proof (srv_recv_packet_sound NETNOX_SSH_MAX_PACKET_LEN w ltac:(apply HG)) as Hr.
  pose proof (core_guarded base _ _ (core_recv_packet NETNOX_SSH_MAX_PACKET_LEN w) HG) as HG'.
  unfold wp in Hr |- *. destruct (srv_recv_packet _ w) as [o w']. simpl in HG'. destruct Hr as [_ Ho].
  destruct o as [p|rc| |]; cbn [ok_or]; try done.
  destruct Ho as (padding & _ & Hb & Hl & _). unfold NETNOX_SSH_MAX_PACKET_LEN in Hl.
  change (wp (if zlen p =? 0 then mret (inl d) else
    s ← server_; guard_m (negb (rekey_due s)) NETNOX_RETURN_FAILED;; srv_dispatch d p)
    (fun _ w' => guarded base w') w'). revert HG'. apply keeping_wp.
  gmv. by apply guarded_dispatch.
Qed.

Lemma guarded_serve_pass base d : moves (keeping (guarded base)) (srv_serve_pass (E:=E) d).
Proof. unfold srv_serve_pass. gmv; apply guarded_serve_packet. Qed.
End safety.
