(* ===== verification/ServerKexSpec.v ===== *)
(** What the server's handshake establishes: it signs, with its host key, the exchange
    hash of the transcript it saw, takes that hash as the session id, and derives its
    keys from it ([Keys.kdf]); nobody is logged in by it. *)

From S2P Require Export ServerSafety.

(** ** Specification *)

(** The session id is the hash of an exchange over the identification strings and the
    KEXINIT payloads, in which the server drew a key pair; the host key signed it. *)
Definition server_established `{NoxTLSLaws} (s : netnox_ssh_server_t) : Prop :=
  let t := s_transport s in
  session_id_len t = 32 /\
  exists priv_s pub_s pub_c sig,
    noxtls_x25519_public_key priv_s = (true, pub_s) /\
    noxtls_x25519_shared_secret priv_s pub_c = (true, shared_secret_raw t) /\
    session_id t = sha256 (transcript t (key_blob (host_ed25519_pk s)) pub_c pub_s (shared_secret_raw t)) /\
    noxtls_ed25519_sign (host_ed25519_sk s) (session_id t) = (true, sig).

Definition server_keyed `{NoxTLSLaws} (s : netnox_ssh_server_t) : Prop :=
  let t := s_transport s in
  server_established s /\ key_exchange_complete t = true /\
  exists mode, keys_are (kdf sha256 mode (shared_secret_raw t) (session_id t)) t.

(** The reply of RFC 5656 section 4: host key, server's public key, signature. *)
Definition ecdh_reply (pk pub_s sig : list Z) : list Z :=
  message [FU8 NETNOX_SSH_MSG_KEX_ECDH_REPLY; FStr (key_blob pk); FStr pub_s; FStr (key_blob sig)].

(** The sizes of the arrays the exchange hash is computed from. *)
Definition hash_inputs_ok (s : netnox_ssh_server_t) : Prop :=
  let t := s_transport s in
  zlen (client_ident t) <= 256 /\ zlen (server_ident t) <= 256 /\
  zlen (kexinit_client_payload t) <= 32768 /\ zlen (kexinit_server_payload t) <= 32768 /\
  length (host_ed25519_pk s) = 32%nat.

Lemma server_established_kex_done `{NoxTLSLaws} s : server_established s -> kex_done (s_transport s).
Proof.
  intros (Hl & priv_s & pub_s & pub_c & sig & _ & Hx & Hsid & _).
  destruct (x25519_shared_length _ _ _ Hx). unfold kex_done. by rewrite Hsid, sha256_length.
Qed.

Section kex.
Context {E : Type} `{Spawning E} `{!HostLaws E} {T : NoxTLS} {L : NoxTLSLaws T}.
Implicit Types w : world netnox_ssh_server_t E.

Lemma wp_frame {A} (m : M (world netnox_ssh_server_t E) A) (Q : outcome A -> _ -> Prop) w : 
  moves core_frame m -> (forall o w', core_frame w w' -> Q o w') -> wp m Q w.
Proof. intros Hm HQ. specialize (Hm w). unfold wp. destruct (m w). by apply HQ. Qed.

(** Nobody is logged in, and the arrays have their sizes. *)
Definition greeting (base : list child) w : Prop := fresh base w /\ hash_inputs_ok (ctx w).

Lemma core_kex_part w w' : core_frame w w' -> srv_kex_part (ctx w') = srv_kex_part (ctx w).
Proof. intros [(Hc & _ & _) _]. exact (f_equal snd Hc). Qed.

Lemma core_greeting base w w' : core_frame w w' -> greeting base w -> greeting base w'.
Proof.
  intros Hc [HF Hi]. split; [by eapply core_fresh|]. apply core_kex_part in Hc. unfold srv_kex_part in Hc.
  unfold hash_inputs_ok. by injection Hc as _ -> -> -> -> -> _ _ _ _.
Qed.
Lemma core_established w w' : core_frame w w' -> server_established (ctx w) -> server_established (ctx w').
Proof.
  intros Hc. apply core_kex_part in Hc. unfold srv_kex_part in Hc. unfold server_established, transcript.
  by injection Hc as -> -> -> -> -> -> -> -> -> _.
Qed.
Lemma moves_greeting base {A} (m : M (world netnox_ssh_server_t E) A) :
  moves core_frame m -> moves (keeping (greeting base)) m.
Proof. apply moves_sub. intros w w' Hc HG. by eapply core_greeting. Qed.

Lemma srv_hash_total s pub_c pub_s secret : hash_inputs_ok s -> length pub_c = 32%nat ->
  length pub_s = 32%nat -> length secret = 32%nat ->
  let hashed := transcript (s_transport s) (key_blob (host_ed25519_pk s)) pub_c pub_s secret in
  srv_compute_exchange_hash s (key_blob (host_ed25519_pk s)) pub_c pub_s secret =
  if zlen hashed <=? 4096 then Ok (sha256 hashed) else Err NETNOX_RETURN_FAILED.
Proof.
  intros (H1' & H2' & H3 & H4 & H5) ??? hashed. unfold srv_compute_exchange_hash.
  apply exchange_hash_total.
  pose proof (cstr_length (client_ident (s_transport s))).
  pose proof (cstr_length (server_ident (s_transport s))). pose proof (key_blob_length (host_ed25519_pk s)).
  repeat (apply Forall_cons_2; [lia|]). apply Forall_nil_2.
Qed.

Lemma host_blob_ok s : length (host_ed25519_pk s) = 32%nat ->
  srv_build_host_key_blob s 256 = Ok (key_blob (host_ed25519_pk s)).
Proof.
  intros Hl. unfold srv_build_host_key_blob, key_blob.
  rewrite append_fields_ok; [done|lia|fields_small|message_len; lia].
Qed.

(** ** The reply *)

(** The context with the exchange's results. *)
Definition exchanged (secret h : list Z) (s : netnox_ssh_server_t) : netnox_ssh_server_t :=
  s <| s_transport := s_transport s <| session_id := h |> <| session_id_len := 32 |>
                                    <| shared_secret_raw := secret |> |>.

Lemma greeting_exchanged base w secret h : greeting base w ->
  greeting base (w <| ctx := exchanged secret h (ctx w) |>).
Proof. by intros. Qed.

(** With the frame at hand. *)
Lemma wp_framed {A} (m : M (world netnox_ssh_server_t E) A) Q w :
  moves core_frame m -> wp m Q w -> wp m (fun o w' => Q o w' /\ core_frame w w') w.
Proof. intros Hm Hw. specialize (Hm w). unfold wp in *. by destruct (m w). Qed.

(** The reply carries the host key, a fresh public key and the host key's signature of
    the exchange hash, which becomes the session id; nothing else happens. *)
Lemma kex_reply_spec base pub_c w : greeting base w -> length pub_c = 32%nat ->
  wp (srv_kex_reply pub_c) (fun o w' => greeting base w' /\
    match o with
    | Ok reply => server_established (ctx w') /\
        exists priv_s pub_s secret sig,
          let s := ctx w in
          let hashed := transcript (s_transport s) (key_blob (host_ed25519_pk s)) pub_c pub_s secret in
          let h := sha256 hashed in
          zlen hashed <= 4096 /\ noxtls_x25519_public_key priv_s = (true, pub_s) /\
          noxtls_x25519_shared_secret priv_s pub_c = (true, secret) /\
          noxtls_ed25519_sign (host_ed25519_sk s) h = (true, sig) /\
          reply = ecdh_reply (host_ed25519_pk s) pub_s sig /\
          ctx w' = exchanged secret h s /\ sent (env w') = sent (env w) /\ inbox (env w') = inbox (env w)
    | Oob => False
    | _ => True
    end) w.
Proof.
  intros HG Hpc. unfold srv_kex_reply, srv_ephemeral_key. sw.
  eapply wp_mono; [apply wp_framed; [apply core_fill_random|apply srv_fill_random_spec; lia]|].
  intros o w1 [(Hc & Hs & Hi & Ho) Hf]. pose proof (core_greeting base _ _ Hf HG) as HG1.
  destruct o as [seed|rc| |]; cbn [ok_or orc]; try done.
  destruct (noxtls_x25519_public_key (noxtls_x25519_clamp_scalar seed)) as [ok pub_s] eqn:Ep. sw; [|done].
  match goal with Hok : ok = true |- _ => rewrite Hok in Ep; clear Hok end.
  destruct (x25519_public_length _ _ Ep) as [Hps _].
  destruct (noxtls_x25519_shared_secret _ pub_c) as [ok' secret] eqn:Ex. sw; [|done].
  match goal with Hok : ok' = true |- _ => rewrite Hok in Ex; clear Hok end.
  destruct (x25519_shared_length _ _ _ Ex) as [Hsl _]. destruct HG1 as [HF1 Hin].
  rewrite host_blob_ok by apply Hin. cbn [ok_or orc]. sw.
  rewrite srv_hash_total by done.
  destruct (Z.leb_spec (zlen (transcript (s_transport (ctx w1)) (key_blob (host_ed25519_pk (ctx w1)))
    pub_c pub_s secret)) 4096) as [Hfit|?]; cbn [ok_or orc]; [|done]. sw.
  set (h := sha256 _). destruct (noxtls_ed25519_sign _ h) as [ok'' sig] eqn:Esig.
  sw; [|by split]. match goal with Hok : ok'' = true |- _ => rewrite Hok in Esig; clear Hok end.
  destruct (ed25519_sign_length _ _ _ Esig) as [Hsg _].
  rewrite append_fields_ok; [|lia|fields_small|message_len; lia]. cbn [ok_or].
  assert (Hpk : length (host_ed25519_pk (ctx w1)) = 32%nat) by apply Hin.
  assert (Hkb : zlen (key_blob (host_ed25519_pk (ctx w1))) = 51) by (rewrite key_blob_length; lia).
  assert (Hkb' : zlen (message [FStr (bs "ssh-ed25519"); FStr sig]) = 83).
  { change (message _) with (key_blob sig). rewrite key_blob_length. lia. }
  sw. rewrite append_fields_ok; [|lia|fields_small|message_len; lia].
  pose proof (greeting_exchanged base w1 secret h (conj HF1 Hin)) as HG1.
  unfold h in *. rewrite Hc in *. split; [exact HG1|]. split.
  - split; [done|]. by exists (noxtls_x25519_clamp_scalar seed), pub_s, pub_c, sig.
  - by exists (noxtls_x25519_clamp_scalar seed), pub_s, secret, sig.
Qed.

(** ** The keys *)

Lemma with_keys_dirs mode s t :
  dirs_wf (s <| s_transport := with_keys mode t <| key_exchange_complete := true |> |>).
Proof.
  unfold dirs_wf. split; unfold direction_wf, with_keys; simpl; rewrite !kdf_length by lia;
    (split; [done|split; [done|apply kdf_bytes_ok]]).
Qed.

(** The keys of the exchange replace the old ones. *)
Lemma derive_keys_established base mode w : greeting base w -> server_established (ctx w) ->
  wp (try (on_str (srv_derive_transport_keys mode));;
      set_str (fun t => t <| key_exchange_complete := true |>))
    (fun o w' => o = Ok tt /\ greeting base w' /\ server_keyed (ctx w')) w.
Proof.
  intros [(Hd & HF) Hi] He. pose proof (server_established_kex_done _ He) as Hk.
  apply wp_bind, wp_or_return. unfold wp, on_str, srv_derive_transport_keys.
  rewrite derive_transport_keys_ok by done. cbn [orc ok_or].
  split; [done|]. split; [|split; [exact He|split; [done|by exists mode]]].
  split; [|exact Hi]. split; [|exact HF]. apply with_keys_dirs.
Qed.

Lemma kex_newkeys_spec base w : greeting base w -> server_established (ctx w) ->
  wp srv_kex_newkeys (fun o w' => greeting base w' /\ (is_ok o = true -> server_keyed (ctx w'))) w.
Proof.
  intros HG He. unfold srv_kex_newkeys. sw. apply wp_frame; [apply core_send_packet|].
  intros o w1 Hf. pose proof (core_greeting base _ _ Hf HG) as HG1.
  pose proof (core_established _ _ Hf He) as He1. destruct o as [[]|rc| |]; cbn [ok_or orc]; try done.
  sw. apply wp_frame; [apply core_recv_packet|].
  intros o w2 Hf2. pose proof (core_greeting base _ _ Hf2 HG1) as HG2.
  pose proof (core_established _ _ Hf2 He1) as He2. destruct o as [rx|rc| |]; cbn [ok_or orc]; try done.
  sw_step. sw_step; [|done]. cbn [ok_or]. sw_step. apply wp_gets. cbn [ok_or].
  eapply wp_mono; [by apply derive_keys_established|]. by intros o w3 (-> & ? & ?).
Qed.

Lemma srv_perform_spec base w : greeting base w ->
  wp srv_perform_curve25519_kex (fun o w' =>
    greeting base w' /\ (is_ok o = true -> server_keyed (ctx w'))) w.
Proof.
  intros HG. unfold srv_perform_curve25519_kex. sw; [|done]. apply wp_frame; [apply core_recv_packet|].
  intros o w1 Hf. pose proof (core_greeting base _ _ Hf HG) as HG1.
  destruct o as [init|rc| |]; cbn [ok_or orc]; try done. sw; [|done].
  destruct (read_view init 1) as [[pub_v off]| | |]; cbn [ok_or orc]; try done. sw; [|done].
  destruct (view_bytes pub_v) as [pub_c| | |] eqn:Ev; cbn [ok_or]; try done. sw.
  match goal with Hl : (v_len pub_v =? 32) = true |- _ => apply Z.eqb_eq in Hl; rename Hl into Hlen end.
  assert (Hpc : length pub_c = 32%nat).
  { unfold view_bytes in Ev. apply mem_read_ok in Ev as (-> & _ & ?). rewrite zdrop_0, Hlen in *.
    unfold ztake. rewrite length_take. lia. }
  eapply wp_mono; [by apply (kex_reply_spec base)|]. intros o w2 [HG2 Ho].
  destruct o as [reply|rc| |]; cbn [ok_or]; try done. destruct Ho as [He2 _]. sw.
  apply wp_frame; [apply core_send_packet|]. intros o w3 Hf3.
  pose proof (core_greeting base _ _ Hf3 HG2) as HG3. pose proof (core_established _ _ Hf3 He2) as He3.
  destruct o as [[]|rc| |]; cbn [ok_or orc]; try done. by apply kex_newkeys_spec.
Qed.

(** ** KEXINIT and the identification *)

(** Setting an array the exchange hash reads, within its size. *)
Lemma greeting_set base f w : greeting base w ->
  let t := s_transport (ctx w) in
  authenticated (f t) = authenticated t -> channel_open (f t) = channel_open t ->
  srv_sending (f t) = srv_sending t -> srv_receiving (f t) = srv_receiving t ->
  hash_inputs_ok (ctx w <| s_transport := f t |>) ->
  greeting base (w <| ctx := ctx w <| s_transport := f t |> |>).
Proof.
  intros [(Hd & Hu & Ha & Ho & Hs) Hi] t E1 E2 E3 E4 Hi'. split; [|exact Hi'].
  unfold fresh, dirs_wf. simpl. fold t. rewrite E1, E2, E3, E4. by (split; [exact Hd|]).
Qed.

Lemma srv_exchange_spec base w : greeting base w ->
  wp srv_exchange_kexinit (fun o w' => greeting base w') w.
Proof.
  intros HG. unfold srv_exchange_kexinit. sw; [|done]. apply wp_frame; [apply core_recv_packet|].
  intros o w1 Hf. pose proof (core_greeting base _ _ Hf HG) as HG1. clear Hf.
  destruct o as [rx|rc| |]; cbn [ok_or orc]; try done. sw; [|done..].
  match goal with Hl : (zlen rx <=? _) = true |- _ =>
    apply Z.leb_le in Hl; unfold NETNOX_SSH_MAX_KEXINIT_PAYLOAD_LEN in Hl; rename Hl into Hrx end.
  set (w2 := w1 <| ctx := _ |>).
  assert (HG2 : greeting base w2).
  { apply (greeting_set base (fun t => t <| kexinit_client_payload := rx |>)); try done.
    destruct HG1 as [_ (?&?&?&?&?)]. unfold hash_inputs_ok. simpl. by split_and!. }
  destruct (netnox_ssh_validate_client_kexinit rx) as [[]| | |]; cbn [ok_or orc]; try done. sw.
  apply wp_frame. { unfold srv_build_kexinit_payload. fmv. }
  intros o w3 Hf. pose proof (core_greeting base _ _ Hf HG2) as HG3. clear Hf.
  destruct o as [tx|rc| |]; cbn [ok_or orc]; try done. sw; [|done..].
  match goal with Hl : (zlen tx <=? _) = true |- _ =>
    apply Z.leb_le in Hl; unfold NETNOX_SSH_MAX_KEXINIT_PAYLOAD_LEN in Hl; rename Hl into Htx end.
  set (w4 := w3 <| ctx := _ |>).
  assert (HG4 : greeting base w4).
  { apply (greeting_set base (fun t => t <| kexinit_server_payload := tx |>)); try done.
    destruct HG3 as [_ (?&?&?&?&?)]. unfold hash_inputs_ok. simpl. by split_and!. }
  apply wp_frame; [apply core_send_packet|]. intros o w5 Hf.
  pose proof (core_greeting base _ _ Hf HG4) as HG5.
  by destruct o as [[]|rc| |].
Qed.

Lemma copy_string_length dst src r : netnox_ssh_copy_string dst src = Ok r -> zlen r = zlen dst.
Proof.
  unfold netnox_ssh_copy_string, mem_write. case_match; [done|]. case_match; [|done]. intros [= <-].
  len.
Qed.

Lemma core_recv_line n line : moves core_frame (srv_recv_line (E:=E) n line).
Proof. unfold srv_recv_line. fmv. Qed.

Lemma ident_loop_spec base n : forall line w, greeting base w ->
  wp (srv_ident_loop n line) (fun o w' => greeting base w') w.
Proof.
  induction n as [|n IH]; intros line w HG; cbn [srv_ident_loop]; [done|]. sw.
  apply wp_frame; [apply core_recv_line|]. intros o w1 Hf.
  pose proof (core_greeting base _ _ Hf HG) as HG1. destruct o as [line'|rc| |]; cbn [ok_or orc]; try done.
  case_match; [|by apply IH]. sw.
  destruct (netnox_ssh_copy_string _ _) as [ident| | |] eqn:Ec; cbn [ok_or orc]; try done. sw.
  apply copy_string_length in Ec.
  apply (greeting_set base (fun t => t <| client_ident := ident |>)); try done.
  destruct HG1 as [_ (?&?&?&?&?)]. unfold hash_inputs_ok. simpl. split_and!; try done. lia.
Qed.

Lemma handshake_spec base w : greeting base w ->
  wp srv_handshake_to_encrypted (fun o w' =>
    greeting base w' /\ (is_ok o = true -> server_keyed (ctx w'))) w.
Proof.
  intros HG. unfold srv_handshake_to_encrypted. sw; [|done].
  eapply wp_mono; [by apply ident_loop_spec|]. intros o w1 HG1.
  destruct o as [[]|rc| |]; cbn [ok_or]; try done. sw; [|done].
  apply wp_frame; [apply core_send_all|]. intros o w2 Hf. pose proof (core_greeting base _ _ Hf HG1) as HG2.
  destruct o as [[]|rc| |]; cbn [ok_or orc]; try done. sw. set (w3 := w2 <| ctx := _ |>).
  assert (HG3 : greeting base w3) by exact HG2.
  eapply wp_mono; [by apply srv_exchange_spec|]. intros o w4 HG4.
  destruct o as [[]|rc| |]; cbn [ok_or orc]; try done. sw.
  eapply wp_mono; [by apply srv_perform_spec|]. intros o w5 [HG5 Ho]. by destruct o.
Qed.

(** ** Serving a connection *)

End kex.
