(* ===== verification/ServerSpec.v ===== *)
(** The server as a whole: what serving a connection promises, from the context that
    [netnox_ssh_server_init] or [netnox_ssh_server_reset] leaves. *)

From S2P Require Export ServerKexSpec.

(** ** A context ready for a connection *)

(** Nobody is logged in, no channel is open, and the arrays have their sizes. *)
Definition connection_start (s : netnox_ssh_server_t) : Prop :=
  let t := s_transport s in
  dirs_wf s /\ cstr (authenticated_user s) = [] /\ authenticated t = false /\
  channel_open t = false /\ hash_inputs_ok s.

Section serve.
Context {E : Type} `{Spawning E} `{!HostLaws E} {T : NoxTLS} {L : NoxTLSLaws T}.
Implicit Types w : world netnox_ssh_server_t E.

(** What happened on the connection: the children [new] were started, each for a user
    admitted on the session id that the host key signed. *)
Definition authorised (base : list child) w : Prop :=
  let s := ctx w in let t := s_transport s in
  exists new, spawned (env w) = base ++ new /\ admits_all (env w) (session_id t) new /\
    (new = [] \/ server_established s) /\
    (authenticated t = true -> server_established s /\ admitted (env w) (session_id t) (cstr (authenticated_user s))).

Lemma fresh_authorised base w : fresh base w -> authorised base w.
Proof.
  intros (_ & _ & Ha & _ & Hs). exists []. rewrite app_nil_r. split_and!; [done|constructor|by left|].
  by rewrite Ha.
Qed.

Lemma established_part s s' : srv_kex_part s' = srv_kex_part s -> server_established s -> server_established s'.
Proof.
  unfold srv_kex_part, server_established, transcript. intros [= -> -> -> -> -> -> -> -> -> _]. done.
Qed.

Lemma guarded_authorised s0 base w : server_established s0 -> guarded s0 base w -> authorised base w.
Proof.
  intros He (G1 & G2 & G3 & G4 & G5 & G6 & GK & new & G7 & G8). exists new.
  apply (established_part _ _ GK) in He. split_and!; [done..|by right|]. auto.
Qed.

Lemma serve_one_spec w : connection_start (ctx w) ->
  wp netnox_ssh_server_serve_one (fun _ w' => authorised (spawned (env w)) w') w.
Proof.
  intros (Hd & Hu & Ha & Ho & Hi). set (base := spawned (env w)).
  assert (HF : fresh base w) by by split_and!.
  unfold netnox_ssh_server_serve_one. do 3 sw_step. sw_step; [|by apply fresh_authorised]. sw_step.
  apply wp_frame; [apply core_now|]. intros o w1 Hf.
  pose proof (core_greeting base _ _ Hf (conj HF Hi)) as HG1. destruct o as [now|rc| |]; cbn [ok_or];
    try by apply fresh_authorised, HG1. sw. set (w2 := w1 <| ctx := _ |>).
  assert (HG2 : greeting base w2) by exact HG1.
  eapply wp_mono; [by apply handshake_spec|]. intros o w3 [[HF3 _] Hk].
  destruct o as [[]|rc| |]; cbn [ok_or orc]; try by apply fresh_authorised.
  destruct (Hk eq_refl) as [He _]. pose proof (server_established_kex_done _ He) as (Hl & Hl' & _).
  pose proof (fresh_guarded (ctx w3) base w3 HF3 Hl Hl' eq_refl) as HG.
  eapply wp_mono.
  - revert HG. apply keeping_wp. apply moves_loop; [exact _|]. intros d. apply guarded_serve_pass.
  - intros o w'. by apply guarded_authorised.
Qed.
End serve.

(** ** Properties *)

(** C1: serving a connection never runs a program for a user it has not admitted: for
    every child started, and for whoever is logged in at the end, the daemon's
    callback was asked about a key and allowed it, and that key signed a public key
    request for this user over the session id; the session id is the exchange hash
    signed by the host key. This holds whatever the peer sends and however the call
    ends. *)
Theorem serve_one_authorised E (H : Host E) (A : AuthHost E) (P : PosixHost E)
    (HL : HostLaws E) (Sp : Spawning E) (T : NoxTLS) (L : NoxTLSLaws T)
    (w : world netnox_ssh_server_t E) o w' :
  connection_start (ctx w) -> netnox_ssh_server_serve_one w = (o, w') ->
  let s' := ctx w' in let t' := s_transport s' in
  exists new, spawned (env w') = spawned (env w) ++ new /\
    Forall (fun ch => admitted (env w') (session_id t') (ch_user ch)) new /\
    (new = [] \/ server_established s') /\
    (authenticated t' = true ->
       server_established s' /\ admitted (env w') (session_id t') (cstr (authenticated_user s'))).
Proof. intros Hw Hrun. exact (wp_run _ _ _ _ _ (serve_one_spec w Hw) Hrun). Qed.
