(* ===== verification/ServerLogin.v ===== *)
(** Logging in: the server admits exactly the valid signed requests, and the request
    that the client sends is one. *)

From S2P Require Export ServerSpec.

Lemma cstr_has_no_nul l : 0 ∉ cstr l.
Proof.
  induction l as [|b l IH]; simpl; [set_solver|]. destruct (Z.eqb_spec b 0); set_solver.
Qed.

Section login.
Context {E : Type} `{Spawning E} `{!HostLaws E} {T : NoxTLS} {L : NoxTLSLaws T}.
Implicit Types w : world netnox_ssh_server_t E.

(** There is memory for the signed data. *)
Definition malloc_works : Prop := forall n (e : E), (c_malloc n e).1 = true.

(** A valid request is answered with SUCCESS once its user is recorded. *)
Lemma valid_request_run p user key sig w : valid_request w p user key sig -> malloc_works ->
  length (session_id (s_transport (ctx w))) = 32%nat -> session_id_len (s_transport (ctx w)) = 32 ->
  length (authenticated_user (ctx w)) = 65%nat ->
  exists name e, mem_write (authenticated_user (ctx w)) 0 (user ++ [0]) = Ok name /\
    srv_handle_userauth_request p w = srv_send_userauth_success (log_in name (w <| env := e |>)).
Proof.
  intros (-> & Hu & Hk & Hs & Hcb & Ha & Hv) Hm Hsid Hsidl Hua.
  destruct (read_request user key Hu Hk sig Hs) as (off & v1 & v2 & v3 & z1 & z2 & R1 & R2 & R3 & Hoff & Hn & I1 & I2).
  set (p := signed_message user key sig) in *.
  assert (Hp : p = message (offer_fields 1 user key) ++ str_field (key_blob sig)) by apply signed_message_split.
  assert (Hpl : zlen p = 194 + zlen user) by by apply signed_message_length.
  destruct (parse_offer_built user key Hu Hk 1 (str_field (key_blob sig)) ltac:(by right)) as (alg & blob & Ho & _).
  { rewrite str_field_length. pose proof (key_blob_length sig). lia. }
  rewrite <- Hp, <- Hoff in Ho. pose proof (request_length user key Hk 1) as Hrl.
  assert (Hsp : srv_parse_signature p (zlen (message (offer_fields 1 user key))) = Ok sig).
  { rewrite Hp. apply parse_signature_built; [done|]. destruct Hu. lia. }
  assert (Hts : srv_to_sign (s_transport (ctx w)) p (zlen (message (offer_fields 1 user key))) =
    Ok (signed_request (session_id (s_transport (ctx w))) user key)).
  { apply to_sign_ok; [done|done|rewrite Hp, zlen_app; lia|]. rewrite Hp. by apply ztake_app_exact. }
  destruct (publickey_allowed_cb user key (env w)) as [allowed e1] eqn:Ea. simpl in Ha. subst allowed.
  set (n := u32 (4 + session_id_len (s_transport (ctx w)) + zlen (message (offer_fields 1 user key)))).
  destruct (c_malloc n e1) as [room e2] eqn:Em. pose proof (Hm n e1) as Hroom. rewrite Em in Hroom. simpl in Hroom. subst room.
  assert (Hname : exists name, mem_write (authenticated_user (ctx w)) 0 (user ++ [0]) = Ok name).
  { unfold mem_write. destruct Hu as [Hul _]. rewrite Hua, zlen_app. simpl length. case_match; [by eexists|lia]. }
  destruct Hname as [name Hname]. exists name, e2. split; [done|].
  unfold srv_handle_userauth_request. rewrite bind_guard.
  assert (Hmsg : is_message p NETNOX_SSH_MSG_USERAUTH_REQUEST = true) by by rewrite Hp.
  rewrite Hmsg. replace (2 <=? zlen p) with true by (destruct Hu; lia). cbn [andb].
  rewrite R1, bind_try_ok. cbv beta iota. rewrite R2, bind_try_ok. cbv beta iota.
  rewrite R3, bind_try_ok. cbv beta iota. rewrite I1, bind_lift_ok. cbv beta iota.
  rewrite I2, bind_lift_ok. cbv beta iota.
  unfold srv_userauth_publickey, server_. rewrite bind_gets.
  match goal with |- context [lift ?x] => replace x with
    (Ok (user, mkOffer 1 alg blob key (zlen (message (offer_fields 1 user key)))))
    by (rewrite Hn, Hcb; cbn [check mbind outcome_bind]; by rewrite Ho) end.
  rewrite bind_attempt_ok. cbv beta iota. cbn [o_key o_signed].
  rewrite (bind_run _ _ w true (w <| env := e1 |>)) by (unfold call; by rewrite Ea).
  cbn [negb Z.eqb]. unfold srv_userauth_signed. cbn [o_off o_key]. rewrite Hsp, bind_attempt_ok. cbv beta iota.
  unfold str. rewrite bind_gets. cbn [ctx set_env set].
  fold n. rewrite (bind_run _ _ _ true (w <| env := e2 |>))
    by (unfold call; cbn [env set_env set]; by rewrite Em).
  rewrite bind_guard, Hts, bind_lift_ok, Hv. unfold server_. rewrite bind_gets. cbn [ctx set_env set].
  rewrite Hname, bind_lift_ok. reflexivity.
Qed.

Context (malloc_ok : malloc_works).

Lemma valid_request_admits p user key sig w o w' : valid_request w p user key sig ->
  length (session_id (s_transport (ctx w))) = 32%nat -> session_id_len (s_transport (ctx w)) = 32 ->
  length (authenticated_user (ctx w)) = 65%nat ->
  srv_handle_userauth_request p w = (o, w') ->
  authenticated (s_transport (ctx w')) = true /\ cstr (authenticated_user (ctx w')) = user.
Proof.
  intros Hv Hsid Hsidl Hua Hrun. destruct (valid_request_run p user key sig w Hv malloc_ok Hsid Hsidl Hua)
    as (name & e & Hname & Hr). rewrite Hr in Hrun.
  pose proof (core_userauth_success (log_in name (w <| env := e |>))) as [(Hc & _) _].
  rewrite Hrun in Hc. unfold core in Hc. simpl in Hc. injection Hc as -> _ _ -> _ _ _ _ _ _ _ _ _ _.
  split; [done|]. destruct Hv as (_ & Hu & _). by apply (admitted_name _ _ _ Hu Hname).
Qed.

(** Handling a request in [w] ends in [w']: the user is logged in exactly if the
    request was valid, and then under the name it gave. *)
Lemma userauth_iff p w o w' : bytes_ok p -> zlen p <= 35000 ->
  length (session_id (s_transport (ctx w))) = 32%nat -> session_id_len (s_transport (ctx w)) = 32 ->
  length (authenticated_user (ctx w)) = 65%nat -> authenticated (s_transport (ctx w)) = false ->
  srv_handle_userauth_request p w = (o, w') ->
  (authenticated (s_transport (ctx w')) = true <-> exists user key sig, valid_request w p user key sig) /\
  (forall user key sig, valid_request w p user key sig -> cstr (authenticated_user (ctx w')) = user).
Proof.
  intros Hb Hl Hsid Hsidl Hua Hna Hrun.
  pose proof (fun user key sig Hv => valid_request_admits p user key sig w o w' Hv Hsid Hsidl Hua Hrun) as Hadm.
  split; [|intros; by apply (Hadm user key sig)]. split; [|intros (user & key & sig & Hv); by apply (Hadm user key sig)].
  intros Ha. pose proof (wp_run _ _ _ _ _ (userauth_request_decided p w Hb Hl Hsid Hsidl) Hrun) as Hd.
  destruct Hd as [[(Hc & _) _]|(user & key & sig & name & w1 & Hv & _)]; [|by exists user, key, sig].
  unfold core in Hc. injection Hc as _ _ _ Hc _ _ _ _ _ _ _ _ _ _. congruence.
Qed.
End login.

(** ** Properties *)

(** C5: the server logs a user in exactly on a valid request: the text of RFC 4252
    section 7 for a user name of 1 to 64 bytes without NUL, an Ed25519 key the
    daemon's callback allows for that user, and that key's signature of the session id
    and the request; the user is recorded under that name. Nothing else logs anyone in. *)
Theorem userauth_iff_valid_request E (H : Host E) (A : AuthHost E) (P : PosixHost E)
    (HL : HostLaws E) (Sp : Spawning E) (T : NoxTLS) (L : NoxTLSLaws T)
    p (w : world netnox_ssh_server_t E) o w' :
  (forall n (e : E), (c_malloc n e).1 = true) -> bytes_ok p -> zlen p <= 35000 ->
  length (session_id (s_transport (ctx w))) = 32%nat -> session_id_len (s_transport (ctx w)) = 32 ->
  length (authenticated_user (ctx w)) = 65%nat -> authenticated (s_transport (ctx w)) = false ->
  srv_handle_userauth_request p w = (o, w') ->
  (authenticated (s_transport (ctx w')) = true <-> exists user key sig, valid_request w p user key sig) /\
  (forall user key sig, valid_request w p user key sig -> cstr (authenticated_user (ctx w')) = user).
Proof. intros Hm. by apply userauth_iff. Qed.

(** C6: the two sides agree on public key login: the request that a client of this
    library sends, with its key pair, over a session whose id the server shares, logs
    its user in at the server, when the callback allows the key and NoxTLS verifies
    what it signs. *)
Theorem client_login_accepted Ec Es (Hc : Host Ec) (HLc : HostLaws Ec) (H : Host Es) (A : AuthHost Es)
    (P : PosixHost Es) (HL : HostLaws Es) (Sp : Spawning Es) (T : NoxTLS) (L : NoxTLSLaws T)
    (wc : world netnox_ssh_client_t Ec) (ws : world netnox_ssh_server_t Es) sig o ws' :
  (forall n (e : Es), (c_malloc n e).1 = true) ->
  (forall sk pk m s, noxtls_ed25519_public_key sk = (true, pk) -> noxtls_ed25519_sign sk m = (true, s) ->
     noxtls_ed25519_verify pk m s = true) ->
  let c := ctx wc in let t := s_transport (ctx ws) in
  let user := cstr (username c) in let pk := ed25519_public_key c in
  reachable wc -> keyed c -> has_ed25519_key c = true -> user <> [] ->
  noxtls_ed25519_public_key (ed25519_private_key c) = (true, pk) ->
  noxtls_ed25519_sign (ed25519_private_key c) (signed_request (session_id (transport c)) user pk) = (true, sig) ->
  session_id t = session_id (transport c) -> session_id_len t = 32 -> authenticated t = false ->
  length (authenticated_user (ctx ws)) = 65%nat ->
  publickey_allowed_cb_set (ctx ws) = true -> (publickey_allowed_cb user pk (env ws)).1 = true ->
  let p := signed_message user pk sig in
  srv_handle_userauth_request p ws = (o, ws') ->
  netnox_ssh_send_userauth_publickey_ed25519 wc = netnox_ssh_send_packet p wc /\
  authenticated (s_transport (ctx ws')) = true /\ cstr (authenticated_user (ctx ws')) = user.
Proof.
  intros Hm Hver c t user pk Hw Hk Hkey Hne Hpk Hsig Hsid Hsl Hna Hua Hcb Hal p Hrun. split.
  - exact (publickey_request_sent Ec Hc HLc T L wc Hw Hk Hkey true sig Hsig).
  - destruct (reachable_inv wc Hw) as (_ & (Hu & _) & _). fold c in Hu.
    assert (Hv : valid_request ws p user pk sig).
    { split; [done|]. split; [split|].
      - apply (cstr_c_array 65) in Hu; [|lia]. fold user in Hu. destruct user; [done|]. simpl in *. lia.
      - apply cstr_has_no_nul.
      - destruct (ed25519_public_length _ _ Hpk). destruct (ed25519_sign_length _ _ _ Hsig).
        split_and!; [lia|lia|done|done|]. fold t. rewrite Hsid. by apply (Hver (ed25519_private_key c)). }
    assert (Hsid32 : length (session_id t) = 32%nat).
    { rewrite Hsid. by destruct (established_kex_done c (proj1 Hk)). }
    by apply (valid_request_admits Hm p user pk sig ws o ws').
Qed.
