(* ===== verification/SampleServer.v ===== *)
(** A concrete environment for the server: the byte stream of [sample_env] with a
    child process that produces no output and exits at once, and a run of
    [netnox_ssh_server_serve_one] on it in which a client logs in and runs a command. *)

From S2P Require Export ServerLogin ClientRun Logged.

Import SampleInstances.

(** Every key is allowed, and there is memory. *)
#[local] Instance sample_auth_host : AuthHost sample_env := {|
  publickey_allowed_cb user key e := (true, e);
  c_malloc _ e := (true, e)
|}.

#[local] Instance sample_posix_host : PosixHost sample_env := {|
  c_forkpty _ ch e := ((100, 7), e);
  c_socketpair e := (Some (7, 8), e);
  c_fork ch e := (100, e);
  c_poll _ child _ e :=
    (match se_in e, child with
     | [], None => PollTimeout
     | inp, _ => PollReady (mkRevents (negb (bool_decide (inp = []))) false false) (mkRevents true false false)
     end, e);
  c_poll_out _ _ e := (true, e);
  c_read _ _ e := (ReadEof, e);
  c_write _ _ data e := (Wrote (zlen data), e);
  c_waitpid _ e := (WaitStatus 0, e);
  c_effect _ e := e
|}.

(** The stream, and the record: the children started, the keys allowed. *)
Definition srv_env : Type := logged sample_env.
#[local] Instance srv_host : Host srv_env := logged_host.
#[local] Instance srv_host_laws : HostLaws srv_env := logged_laws.
#[local] Instance srv_auth_host : AuthHost srv_env := logged_auth.
#[local] Instance srv_posix_host : PosixHost srv_env := logged_posix.
#[local] Instance srv_spawning : Spawning srv_env := logged_spawning.

(** ** The run *)

Definition srv_world (bytes : list Z) (s : netnox_ssh_server_t) : world netnox_ssh_server_t srv_env :=
  mkWorld s (mkSample bytes [] 0, ([], [])) true.

Definition srv_configured : netnox_ssh_server_t :=
  ctx ((netnox_ssh_server_init;;
        netnox_ssh_server_set_io_callbacks true true;;
        netnox_ssh_server_set_host_ed25519_seed (be_bytes 32 77);;
        netnox_ssh_server_set_publickey_callback true;;
        set_server (fun s => s <| transport_fd := 3 |>)) (srv_world [] server_zero)).2.

(** The client's side of the handshake. *)
Definition client_hello : list Z :=
  bs "SSH-2.0-c" ++ [13; 10] ++
  concat ((fun p => packet p (zeros 4)) <$>
    [kexinit_payload client_offer (zeros 16);
     message [FU8 NETNOX_SSH_MSG_KEX_ECDH_INIT; FStr (be_bytes 32 27)]; [NETNOX_SSH_MSG_NEWKEYS]]).

Definition srv_handshaken : world netnox_ssh_server_t srv_env :=
  (srv_handshake_to_encrypted
     (srv_world client_hello (srv_configured <| handshake_deadline_ms := 31000 |>))).2.

(** The messages of a client that logs in as "user" and runs "id". *)
Definition client_key : list Z := be_bytes 32 99.
Definition srv_session_id : list Z := session_id (s_transport (ctx srv_handshaken)).
Definition client_messages : list (list Z) :=
  [message [FU8 NETNOX_SSH_MSG_SERVICE_REQUEST; FStr NETNOX_SSH_SERVICE_USERAUTH];
   signed_message (bs "user") client_key
     (sample_sig client_key (signed_request srv_session_id (bs "user") client_key));
   message [FU8 NETNOX_SSH_MSG_CHANNEL_OPEN; FStr NETNOX_SSH_CHANNEL_TYPE_SESSION; FU32 0; FU32 65536; FU32 32768];
   message [FU8 NETNOX_SSH_MSG_CHANNEL_REQUEST; FU32 0; FStr NETNOX_SSH_CHANNEL_REQ_EXEC; FU8 1; FStr (bs "id")]].

(** Their bytes on the wire after the handshake. *)
Definition client_bytes (d : direction) (payloads : list (list Z)) : list Z :=
  (foldl (fun '(out, d) p =>
    (out ++ wire d (packet p (zeros 14)), advance d (packet p (zeros 14)))) ([], d) payloads).1.

Definition srv_start : world netnox_ssh_server_t srv_env :=
  srv_world (client_hello ++ client_bytes (srv_receiving (s_transport (ctx srv_handshaken))) client_messages)
    srv_configured.
Definition srv_end : world netnox_ssh_server_t srv_env := (netnox_ssh_server_serve_one srv_start).2.
Definition run_child : child := mkChild (bs "user") (Some (bs "id")) false [].

Lemma srv_configured_start : connection_start srv_configured.
Proof.
  assert (Hb : bool_decide (bytes_ok (s2c_counter (s_transport srv_configured)) /\
    bytes_ok (c2s_counter (s_transport srv_configured))) = true) by (vm_compute; reflexivity).
  apply bool_decide_eq_true in Hb as [Hb1 Hb2]. unfold connection_start, dirs_wf, direction_wf, hash_inputs_ok.
  split_and!; try assumption; vm_compute; (reflexivity || discriminate).
Qed.

Lemma srv_run_ends : (netnox_ssh_server_serve_one srv_start).1 = Ok tt /\
  spawned (env srv_end) = [run_child].
Proof. split; vm_compute; reflexivity. Qed.

Lemma srv_run : netnox_ssh_server_serve_one srv_start = (Ok tt, srv_end).
Proof.
  rewrite (surjective_pairing (netnox_ssh_server_serve_one srv_start)), (proj1 srv_run_ends).
  unfold srv_end. reflexivity.
Qed.

Lemma srv_start_facts : spawned (env srv_start) = [] /\ ctx srv_start = srv_configured.
Proof. split; reflexivity. Qed.

(** After the handshake, a request: nobody is logged in before it. *)
Definition login_sig : list Z := sample_sig client_key (signed_request srv_session_id (bs "user") client_key).
Definition login_request : list Z := signed_message (bs "user") client_key login_sig.
Lemma login_facts :
  bool_decide (bytes_ok login_request) && (zlen login_request <=? 35000) = true /\
  length (session_id (s_transport (ctx srv_handshaken))) = 32%nat /\
  session_id_len (s_transport (ctx srv_handshaken)) = 32 /\
  length (authenticated_user (ctx srv_handshaken)) = 65%nat /\
  authenticated (s_transport (ctx srv_handshaken)) = false /\
  publickey_allowed_cb_set (ctx srv_handshaken) = true /\
  noxtls_ed25519_verify client_key (signed_request srv_session_id (bs "user") client_key) login_sig = true.
Proof. split_and!; vm_compute; reflexivity. Qed.
Lemma login_valid : valid_request srv_handshaken login_request (bs "user") client_key login_sig.
Proof.
  destruct login_facts as (_ & _ & _ & _ & _ & Hcb & Hv).
  split; [reflexivity|]. split; [split; [vm_compute; split; reflexivity|apply (bool_decide_unpack (0 ∉ bs "user")); vm_compute; exact I]|].
  split; [reflexivity|]. split; [vm_compute; reflexivity|]. split; [exact Hcb|]. split; [reflexivity|exact Hv].
Qed.

#[local] Opaque srv_start srv_end srv_configured srv_handshaken login_request.

Lemma userauth_iff_valid_request_witness :
  authenticated (s_transport (ctx (srv_handle_userauth_request login_request srv_handshaken).2)) = true.
Proof.
  destruct login_facts as (Hb & H1 & H2 & H3 & H4 & _).
  apply andb_prop in Hb as [Hb%bool_decide_eq_true Hl%Z.leb_le].
  destruct (srv_handle_userauth_request login_request srv_handshaken) as [o w'] eqn:E.
  destruct (userauth_iff_valid_request srv_env srv_host srv_auth_host srv_posix_host srv_host_laws srv_spawning
    sample_noxtls sample_laws login_request srv_handshaken o w' (fun n e => eq_refl) Hb Hl H1 H2 H3 H4 E)
    as [[_ Hback] _]. apply Hback. eexists _, _, _. exact login_valid.
Defined.

(** The client of [run_authenticating] and a server that shares its session id. *)
Definition login_server : world netnox_ssh_server_t srv_env :=
  srv_world [] (srv_configured <| s_transport := s_transport srv_configured
    <| session_id := session_id (transport (ctx run_authenticating)) |> <| session_id_len := 32 |> |>).

Lemma sample_sign_verify sk pk m s : noxtls_ed25519_public_key sk = (true, pk) ->
  noxtls_ed25519_sign sk m = (true, s) -> noxtls_ed25519_verify pk m s = true.
Proof.
  intros [= <-] [= <-]. apply bool_decide_eq_true. unfold sample_sig. f_equal.
  pose proof (be_bytes_value (be_bytes 32 (be_value sk)) (be_bytes_ok _ _)) as Hv.
  rewrite be_bytes_length in Hv. by rewrite Hv.
Qed.

#[local] Opaque run_authenticating.

Lemma login_server_id :
  session_id (s_transport (ctx login_server)) = session_id (transport (ctx run_authenticating)) /\
  session_id_len (s_transport (ctx login_server)) = 32.
Proof.
  unfold login_server, srv_world. cbn [ctx]. generalize srv_configured, (session_id (transport (ctx run_authenticating))).
  intros s sid. split; reflexivity.
Qed.
Lemma login_server_facts : authenticated (s_transport (ctx login_server)) = false /\
  length (authenticated_user (ctx login_server)) = 65%nat /\
  publickey_allowed_cb_set (ctx login_server) = true.
Proof. split_and!; vm_compute; reflexivity. Qed.
Lemma login_client_facts : let c := ctx run_authenticating in
  cstr (username c) = bs "user" /\ has_ed25519_key c = true /\
  noxtls_ed25519_public_key (ed25519_private_key c) = (true, ed25519_public_key c).
Proof. cbv zeta. split_and!; vm_compute; reflexivity. Qed.

#[local] Opaque login_server.

Lemma client_login_accepted_witness : exists p,
  netnox_ssh_send_userauth_publickey_ed25519 run_authenticating = netnox_ssh_send_packet p run_authenticating /\
  authenticated (s_transport (ctx (srv_handle_userauth_request p login_server).2)) = true /\
  cstr (authenticated_user (ctx (srv_handle_userauth_request p login_server).2)) = bs "user".
Proof.
  destruct login_client_facts as (Hu & Hf1 & Hf2). destruct login_server_id as [S1 S1'].
  destruct login_server_facts as (S2 & S3 & S4).
  set (sig := sample_sig (ed25519_private_key (ctx run_authenticating))
    (signed_request (session_id (transport (ctx run_authenticating))) (cstr (username (ctx run_authenticating)))
      (ed25519_public_key (ctx run_authenticating)))).
  pose proof (client_login_accepted sample_env srv_env sample_host sample_host_laws srv_host srv_auth_host
    srv_posix_host srv_host_laws srv_spawning sample_noxtls sample_laws run_authenticating login_server sig _ _
    (fun n e => eq_refl) sample_sign_verify run_authenticating_reachable run_connected_keyed Hf1
    ltac:(rewrite Hu; discriminate) Hf2 eq_refl S1 S1' S2 S3 S4 eq_refl (surjective_pairing _)) as (R1 & R2 & R3).
  rewrite Hu in R3. eexists. split; [exact R1|]. split; [exact R2|exact R3].
Defined.

#[local] Opaque srv_start srv_end srv_configured.

Lemma serve_one_authorised_witness : exists w',
  netnox_ssh_server_serve_one srv_start = (Ok tt, w') /\ spawned (env w') = [run_child] /\
  admitted (env w') (session_id (s_transport (ctx w'))) (bs "user").
Proof.
  exists srv_end.
  split; [exact srv_run|]. split; [apply srv_run_ends|].
  destruct (serve_one_authorised srv_env srv_host srv_auth_host srv_posix_host srv_host_laws srv_spawning
    sample_noxtls sample_laws srv_start (Ok tt) srv_end) as (new & Hnew & Hall & _).
  { rewrite (proj2 srv_start_facts). exact srv_configured_start. }
  { exact srv_run. }
  rewrite (proj2 srv_run_ends), (proj1 srv_start_facts) in Hnew. simpl in Hnew. subst new.
  by inversion Hall.
Defined.

(** The sample server host, for the files that run a server. *)
Module SampleServerInstances.
#[export] Existing Instance sample_auth_host.
#[export] Existing Instance sample_posix_host.
#[export] Existing Instance srv_host.
#[export] Existing Instance srv_host_laws.
#[export] Existing Instance srv_auth_host.
#[export] Existing Instance srv_posix_host.
#[export] Existing Instance srv_spawning.
End SampleServerInstances.
