(* ===== verification/Link.v ===== *)
(** The two ends of a connection: the client and the server of this library complete
    the key exchange with each other, arrive at the same keys, and each reads what the
    other sends. *)

From S2P Require Export SampleServer.

(** ** The signature check on the server's reply *)

Section verify.
Context {T : NoxTLS}.

(** The Ed25519 branch accepts the blobs the server builds. *)
Lemma verify_built pk sig h post post' : zlen pk = 32 -> zlen sig = 64 -> zlen h = 32 ->
  noxtls_ed25519_verify pk h sig = true ->
  netnox_ssh_verify_server_host_key_signature (mkView (key_blob pk ++ post) (zlen (key_blob pk)))
    (mkView (key_blob sig ++ post') (zlen (key_blob sig))) h = Ok tt.
Proof.
  intros Hp Hs Hh Hv. unfold netnox_ssh_verify_server_host_key_signature. cbn [v_len].
  pose proof (key_blob_length pk). pose proof (key_blob_length sig).
  replace (negb _) with true by lia. cbn [check mbind outcome_bind].
  rewrite (blob_alg_built pk) by lia. cbn [mbind outcome_bind].
  rewrite (blob_alg_built sig) by lia. cbn [mbind outcome_bind].
  rewrite (blob_data_built sig) by lia. cbn [mbind outcome_bind].
  change alg_ed25519 with NETNOX_SSH_KEYALG_ED25519.
  rewrite (view_is_field _ _ NETNOX_SSH_KEYALG_ED25519), bool_decide_true by done. cbn [mbind outcome_bind].
  rewrite (view_is_field _ _ NETNOX_SSH_KEYALG_ED25519), bool_decide_true by done. cbn [mbind outcome_bind]. unfold verify_ed25519.
  rewrite (blob_data_built pk) by lia. cbn [mbind outcome_bind v_len].
  replace (_ && _) with true by (unfold NOXTLS_ED25519_PUBLIC_KEY_SIZE, NOXTLS_ED25519_SIGNATURE_SIZE; lia).
  cbn [check mbind outcome_bind]. rewrite !view_of_field. cbn [mbind outcome_bind].
  by rewrite Hv.
Qed.
End verify.

(** ** Agreement *)

(** Both ends hold the same identification strings and KEXINIT payloads. *)
Definition same_hello (tc ts : ssh_transport_t) : Prop :=
  cstr (client_ident tc) = cstr (client_ident ts) /\ cstr (server_ident tc) = cstr (server_ident ts) /\
  kexinit_client_payload tc = kexinit_client_payload ts /\
  kexinit_server_payload tc = kexinit_server_payload ts.

Lemma same_transcript tc ts blob pub_c pub_s secret : same_hello tc ts ->
  transcript tc blob pub_c pub_s secret = transcript ts blob pub_c pub_s secret.
Proof. unfold transcript. by intros (-> & -> & -> & ->). Qed.

(** What each end sends is what the other expects to receive. *)
Definition directions_agree (tc ts : ssh_transport_t) : Prop :=
  let same d d' := d_key d = d_key d' /\ d_counter d = d_counter d' /\ d_mac_key d = d_mac_key d' in
  same (client_to_server tc) (srv_receiving ts) /\ same (srv_sending ts) (server_to_client tc).

Section agree.
Context {Ec : Type} `{HostLaws Ec} {T : NoxTLS} {L : NoxTLSLaws T}.
Implicit Types w : world netnox_ssh_client_t Ec.

Lemma ecdh_reply_fields pk pub_s sig : let p := ecdh_reply pk pub_s sig in
  zlen pk = 32 -> zlen pub_s = 32 -> zlen sig = 64 ->
  exists post1 post2 z1 z2 z3,
    read_view p 1 = Ok (mkView (key_blob pk ++ post1) (zlen (key_blob pk)), z1) /\
    read_view p z1 = Ok (mkView (pub_s ++ post2) (zlen pub_s), z2) /\
    read_view p z2 = Ok (mkView (key_blob sig ++ []) (zlen (key_blob sig)), z3).
Proof.
  intros p Hp Hq Hs. pose proof (key_blob_length pk) as Hkp. pose proof (key_blob_length sig) as Hks.
  assert (E1 : p = [NETNOX_SSH_MSG_KEX_ECDH_REPLY] ++ str_field (key_blob pk) ++
                   str_field pub_s ++ str_field (key_blob sig) ++ []).
  { unfold p, ecdh_reply. rewrite !message_cons. done. }
  assert (Hl : zlen p <= 35000) by (rewrite E1, !zlen_app, !str_field_length; cbn [length]; lia).
  assert (E2 : p = ([NETNOX_SSH_MSG_KEX_ECDH_REPLY] ++ str_field (key_blob pk)) ++
                   str_field pub_s ++ str_field (key_blob sig) ++ []) by (rewrite <- app_assoc; exact E1).
  assert (E3 : p = (([NETNOX_SSH_MSG_KEX_ECDH_REPLY] ++ str_field (key_blob pk)) ++ str_field pub_s) ++
                   str_field (key_blob sig) ++ []) by (rewrite <- app_assoc; exact E2).
  eexists _, _, _, _, _. split; [exact (read_view_next p _ _ _ E1 Hl)|].
  split; [exact (read_view_next p _ _ _ E2 Hl)|exact (read_view_next p _ _ _ E3 Hl)].
Qed.

(** The client accepts the reply of a server with the same transcript and ends with the
    same session id and secret. *)
Lemma client_accepts_reply priv_c pub_c pk pub_s sig secret w :
  zlen pk = 32 -> zlen pub_s = 32 -> zlen sig = 64 -> zlen pub_c = 32 -> client_wf (ctx w) ->
  noxtls_x25519_shared_secret priv_c pub_s = (true, secret) ->
  let h := sha256 (transcript (transport (ctx w)) (key_blob pk) pub_c pub_s secret) in
  zlen (transcript (transport (ctx w)) (key_blob pk) pub_c pub_s secret) <= 4096 ->
  noxtls_ed25519_verify pk h sig = true ->
  exists w', kex_process_reply priv_c pub_c (ecdh_reply pk pub_s sig) w = (Ok tt, w') /\
    transport (ctx w') = transport (ctx w) <| session_id := h |> <| session_id_len := 32 |>
                                           <| shared_secret_raw := secret |> /\
    server_host_key_blob (ctx w') = key_blob pk /\ env w' = env w.
Proof.
  intros Hp Hq Hs Hc Hwf Hx h Hfit Hv.
  destruct (ecdh_reply_fields pk pub_s sig Hp Hq Hs) as (post1 & post2 & z1 & z2 & z3 & R1 & R2 & R3).
  pose proof (key_blob_length pk) as Hkp. pose proof (key_blob_length sig) as Hks.
  destruct (x25519_shared_length _ _ _ Hx) as [Hsl _].
  unfold kex_process_reply. rewrite R1, bind_try_ok. cbv beta iota. rewrite R2, bind_try_ok. cbv beta iota.
  rewrite R3, bind_try_ok. cbv beta iota. cbn [v_len]. rewrite bind_guard.
  replace (_ && _) with true by lia. rewrite bind_guard.
  replace (_ && _) with true by (unfold NETNOX_SSH_MAX_HOST_KEY_BLOB_LEN; lia).
  set (w1 := w <| ctx := ctx w <| server_host_key_blob := key_blob pk |>
                 <| server_host_key_fingerprint := sha256 (key_blob pk) |> <| server_host_key_ready := true |> |>).
  rewrite (bind_run _ _ w (key_blob pk) w1).
  2:{ unfold record_host_key. rewrite view_of_field, bind_lift_ok. unfold set_client. rewrite bind_modify.
      rewrite netnox_ssh_sha256_ok, bind_try_ok, bind_modify. done. }
  rewrite view_of_field, bind_lift_ok, Hx, bind_guard. unfold tr. rewrite bind_gets.
  change (transport (ctx w1)) with (transport (ctx w)).
  rewrite exchange_hash_total by (apply transport_fields_small; [exact Hwf|lia..]).
  replace (_ <=? 4096) with true by lia. rewrite bind_try_ok. fold h. unfold set_tr, set_client. rewrite bind_modify.
  rewrite verify_built by (done || (unfold h; rewrite sha256_length; done)). rewrite bind_try_ok.
  eexists. split; [reflexivity|]. done.
Qed.
End agree.

(** ** Properties *)

(** C3: the two ends agree: the client accepts the KEX_ECDH_REPLY that the server
    answers to its public key, when both saw the same identification strings and
    KEXINIT payloads, X25519 is symmetric and Ed25519 signatures verify. Then both hold
    the same session id and the server's host key blob, and the keys they derive make
    each direction of one end the matching direction of the other. *)
Theorem kex_agreement Ec Es (Hc : Host Ec) (HLc : HostLaws Ec) (H : Host Es) (A : AuthHost Es)
    (P : PosixHost Es) (HL : HostLaws Es) (Sp : Spawning Es) (T : NoxTLS) (L : NoxTLSLaws T)
    (wc : world netnox_ssh_client_t Ec) (ws ws' : world netnox_ssh_server_t Es) priv_c pub_c reply :
  (forall priv_s pub_s secret, noxtls_x25519_public_key priv_s = (true, pub_s) ->
     noxtls_x25519_shared_secret priv_s pub_c = (true, secret) ->
     noxtls_x25519_shared_secret priv_c pub_s = (true, secret)) ->
  (forall m s, noxtls_ed25519_sign (host_ed25519_sk (ctx ws)) m = (true, s) ->
     noxtls_ed25519_verify (host_ed25519_pk (ctx ws)) m s = true) ->
  client_wf (ctx wc) -> connection_start (ctx ws) ->
  same_hello (transport (ctx wc)) (s_transport (ctx ws)) -> zlen pub_c = 32 ->
  srv_kex_reply pub_c ws = (Ok reply, ws') ->
  exists wc', kex_process_reply priv_c pub_c reply wc = (Ok tt, wc') /\
    session_id (transport (ctx wc')) = session_id (s_transport (ctx ws')) /\
    server_host_key_blob (ctx wc') = key_blob (host_ed25519_pk (ctx ws)) /\
    forall mode, exists tc ts,
      netnox_ssh_derive_transport_keys mode (transport (ctx wc')) = (Ok tt, tc) /\
      srv_derive_transport_keys mode (s_transport (ctx ws')) = (Ok tt, ts) /\
      directions_agree tc ts.
Proof.
  intros Hdh Hver Hwf (Hd & Hu & Ha & Ho & Hi) Hhello Hpc Hrun.
  assert (HG : greeting (spawned (env ws)) ws) by by split.
  pose proof (wp_run _ _ _ _ _ (kex_reply_spec (spawned (env ws)) pub_c ws HG ltac:(lia)) Hrun)
    as (_ & _ & priv_s & pub_s & secret & sig & Hfit & Hpub & Hx & Hsig & -> & Hctx & _ & _).
  destruct Hi as (_ & _ & _ & _ & Hpk).
  destruct (x25519_public_length _ _ Hpub) as [Hps _]. destruct (ed25519_sign_length _ _ _ Hsig) as [Hsl _].
  destruct (x25519_shared_length _ _ _ Hx) as [Hsecl _].
  destruct (client_accepts_reply priv_c pub_c (host_ed25519_pk (ctx ws)) pub_s sig secret wc)
    as (wc' & Hacc & Htr & Hblob & _); try lia; try done.
  - by apply (Hdh priv_s).
  - by rewrite (same_transcript _ (s_transport (ctx ws))).
  - rewrite (same_transcript _ (s_transport (ctx ws))) by done. by apply Hver.
  - rewrite (same_transcript _ (s_transport (ctx ws))) in Htr by done.
    exists wc'. split; [done|]. rewrite Htr, Hctx. split; [done|]. split; [done|]. intros mode.
    assert (Hk : kex_done (s_transport (exchanged secret (sha256 (transcript (s_transport (ctx ws))
      (key_blob (host_ed25519_pk (ctx ws))) pub_c pub_s secret)) (ctx ws)))).
    { unfold kex_done. simpl. by rewrite sha256_length. }
    eexists _, _. split; [apply derive_transport_keys_ok; exact Hk|].
    split; [apply derive_transport_keys_ok; exact Hk|]. by repeat split.
Qed.

(** ** Witnesses *)

Lemma be_bytes_mod k v : be_value (be_bytes k v) = v mod 256 ^ Z.of_nat k.
Proof.
  unfold be_bytes. rewrite <- le_value_rev. revert v. induction k as [|k IH]; intros v; simpl.
  - by rewrite Z.mod_1_r.
  - rewrite IH. rewrite Nat2Z.inj_succ, Z.pow_succ_r by lia.
    rewrite (Z.rem_mul_r v 256 (256 ^ Z.of_nat k)) by lia. lia.
Qed.
Lemma be_bytes_congr k v v' : v mod 256 ^ Z.of_nat k = v' mod 256 ^ Z.of_nat k -> be_bytes k v = be_bytes k v'.
Proof.
  intros Hv. rewrite <- !be_bytes_mod in Hv.
  rewrite <- (be_bytes_value (be_bytes k v)), <- (be_bytes_value (be_bytes k v')) by apply be_bytes_ok.
  by rewrite !be_bytes_length, Hv.
Qed.

Import SampleInstances.
Import SampleServerInstances.

Lemma sample_dh priv_s pub_s secret : noxtls_x25519_public_key priv_s = (true, pub_s) ->
  noxtls_x25519_shared_secret priv_s (be_bytes 32 27) = (true, secret) ->
  noxtls_x25519_shared_secret (be_bytes 32 3) pub_s = (true, secret).
Proof.
  intros [= <-] [= <-]. simpl. f_equal. apply be_bytes_congr. rewrite !be_bytes_mod.
  change (27 mod 256 ^ Z.of_nat 32) with 27. change (3 mod 256 ^ Z.of_nat 32) with 3.
  rewrite Z.mul_mod_idemp_r by lia. f_equal. lia.
Qed.

Definition link_client : world netnox_ssh_client_t sample_env :=
  mkWorld (client_zero <| transport := transport_zero <| server_ident := server_ident (s_transport srv_configured) |> |>)
    (mkSample [] [] 0) true.

Lemma link_facts :
  bool_decide (cstr [] = cstr (client_ident (s_transport srv_configured))) &&
  bool_decide (kexinit_client_payload (s_transport srv_configured) = []) &&
  bool_decide (kexinit_server_payload (s_transport srv_configured) = []) &&
  bool_decide (be_bytes 32 (be_value (host_ed25519_sk srv_configured)) = host_ed25519_pk srv_configured) &&
  (zlen (server_ident (s_transport srv_configured)) <=? 256) &&
  is_ok (srv_kex_reply (be_bytes 32 27) (srv_world [] srv_configured)).1 = true.
Proof. vm_compute. reflexivity. Qed.

Lemma link_client_wf : zlen (server_ident (s_transport srv_configured)) <= 256 -> client_wf (ctx link_client).
Proof.
  intros Hl. unfold client_wf, transport_wf, direction_wf, link_client. cbn [ctx transport set set_transport].
  revert Hl. generalize (server_ident (s_transport srv_configured)). intros id Hl. simpl.
  split_and!; done || lia || auto with noxssh.
Qed.

Lemma kex_agreement_witness : exists reply ws' wc',
  srv_kex_reply (be_bytes 32 27) (srv_world [] srv_configured) = (Ok reply, ws') /\
  kex_process_reply (be_bytes 32 3) (be_bytes 32 27) reply link_client = (Ok tt, wc') /\
  session_id (transport (ctx wc')) = session_id (s_transport (ctx ws')).
Proof.
  pose proof link_facts as Hf.
  apply andb_prop in Hf as [Hf Hok]. apply andb_prop in Hf as [Hf Hl%Z.leb_le].
  apply andb_prop in Hf as [Hf Hk%bool_decide_eq_true]. apply andb_prop in Hf as [Hf H3%bool_decide_eq_true].
  apply andb_prop in Hf as [H1%bool_decide_eq_true H2%bool_decide_eq_true].
  pose proof srv_configured_start as Hstart. pose proof (link_client_wf Hl) as Hwf.
  destruct (srv_kex_reply (be_bytes 32 27) (srv_world [] srv_configured)) as [[reply| | |] ws'] eqn:E;
    try discriminate Hok.
  destruct (kex_agreement sample_env srv_env sample_host sample_host_laws srv_host srv_auth_host srv_posix_host
    srv_host_laws srv_spawning sample_noxtls sample_laws link_client (srv_world [] srv_configured) ws'
    (be_bytes 32 3) (be_bytes 32 27) reply sample_dh) as (wc' & R1 & R2 & _).
  - intros m s Hs. apply (sample_sign_verify (host_ed25519_sk srv_configured)); [|exact Hs].
    simpl. f_equal.
  - exact Hwf.
  - exact Hstart.
  - split; [exact H1|]. split; [reflexivity|]. by split.
  - reflexivity.
  - exact E.
  - exists reply, ws', wc'. split; [reflexivity|]. split; [exact R1|exact R2].
Defined.
