(* ===== verification/Base64.v ===== *)
(** The text form of an Ed25519 host or user key: the base64 decoder of
    server/auth_posix.c, which reads the 68 characters of an authorized_keys entry, and
    the encoder of server/main.c, which prints the host key. *)

From S2P Require Export Crypto.

(** ** Decoding: auth_posix.c *)

Definition b64val (c : Z) : Z :=
  if (65 <=? c) && (c <=? 90) then c - 65
  else if (97 <=? c) && (c <=? 122) then c - 97 + 26
  else if (48 <=? c) && (c <=? 57) then c - 48 + 52
  else if c =? 43 then 62
  else if c =? 47 then 63
  else -1.

(** The bytes of one group of four characters. *)
Definition decode_group (a b c d : Z) : list Z :=
  let x := Z.lor (Z.lor (Z.lor (Z.shiftl a 18) (Z.shiftl b 12)) (Z.shiftl c 6)) d in
  [u8 (Z.shiftr x 16); u8 (Z.shiftr x 8); u8 x].

(** The loop [for(i = 0; i < len; i += 4u)]. *)
Fixpoint decode_groups (src : list Z) : option (list Z) :=
  match src with
  | [] => Some []
  | s0 :: s1 :: s2 :: s3 :: src =>
      let a := b64val s0 in let b := b64val s1 in let c := b64val s2 in let d := b64val s3 in
      if (a <? 0) || (b <? 0) || (c <? 0) || (d <? 0) then None
      else out ← decode_groups src; Some (decode_group a b c d ++ out)
  | _ => None
  end.

(** The bytes before the key in an ssh-ed25519 blob. *)
Definition blob_prefix : list Z := [0; 0; 0; 11] ++ bs "ssh-ed25519" ++ [0; 0; 0; 32].

(** [src] holds the [len] characters. *)
Definition decode_blob (src : list Z) : option (list Z) :=
  if zlen src =? 68 then
    out ← decode_groups src;
    if (zlen out =? 51) && bool_decide (ztake 19 out = blob_prefix) then Some out else None
  else None.

(** ** Encoding: main.c *)

Definition alphabet : list Z := bs "ABCDEFGHIJKLMNOPQRSTUVWXYZabcdefghijklmnopqrstuvwxyz0123456789+/".

Definition encode_group (b0 b1 b2 : Z) : list Z :=
  let x := Z.lor (Z.lor (Z.shiftl b0 16) (Z.shiftl b1 8)) b2 in
  let char v := alphabet !!! Z.to_nat (Z.land v 63) in
  [char (Z.shiftr x 18); char (Z.shiftr x 12); char (Z.shiftr x 6); char x].

(** The loop [for(i = 0u; i < sizeof(blob); i += 3u)]. *)
Fixpoint encode_groups (blob : list Z) : list Z :=
  match blob with
  | b0 :: b1 :: b2 :: blob => encode_group b0 b1 b2 ++ encode_groups blob
  | _ => []
  end.

(** The line printed; [None]: the public key could not be computed. *)
Definition print_host_public_key `{NoxTLS} (seed : list Z) : option (list Z) :=
  let '(ok, pk) := noxtls_ed25519_public_key seed in
  if ok then Some (bs "ssh-ed25519 " ++ encode_groups (blob_prefix ++ pk) ++ bs " noxsshd-host" ++ [10])
  else None.

(** ** The two are inverse *)

Lemma b64val_range c : b64val c < 64.
Proof. unfold b64val. repeat case_match; lia. Qed.

Lemma b64val_alphabet v : 0 <= v < 64 -> b64val (alphabet !!! Z.to_nat v) = v.
Proof.
  intros Hv. assert (Hall : forallb (fun n => b64val (alphabet !!! n) =? Z.of_nat n) (seq 0 64) = true)
    by (vm_compute; reflexivity).
  rewrite forallb_forall in Hall. specialize (Hall (Z.to_nat v)). rewrite in_seq in Hall.
  specialize (Hall ltac:(lia)). lia.
Qed.

Lemma alphabet_b64val c : 0 <= b64val c -> alphabet !!! Z.to_nat (b64val c) = c.
Proof.
  intros Hc. assert (Hr : 0 <= c < 256) by (revert Hc; unfold b64val; repeat case_match; lia).
  assert (Hall : forallb (fun n => (b64val (Z.of_nat n) <? 0) ||
    (alphabet !!! Z.to_nat (b64val (Z.of_nat n)) =? Z.of_nat n)) (seq 0 256) = true)
    by (vm_compute; reflexivity).
  rewrite forallb_forall in Hall. specialize (Hall (Z.to_nat c)). rewrite in_seq in Hall.
  specialize (Hall ltac:(lia)). rewrite Z2Nat.id in Hall by lia. lia.
Qed.

(** Bits out of a packed integer, as division. *)
Lemma land_63 v : Z.land v 63 = v mod 64.
Proof. change 63 with (Z.ones 6). by rewrite Z.land_ones. Qed.

Lemma lor_mul_add hi n lo : 0 <= n -> 0 <= lo < 2 ^ n -> Z.lor (hi * 2 ^ n) lo = hi * 2 ^ n + lo.
Proof. intros Hn Hlo. rewrite <- (lor_shiftl_add hi lo n) by done. by rewrite Z.shiftl_mul_pow2. Qed.

Lemma sextets_value a b c d : 0 <= b < 64 -> 0 <= c < 64 -> 0 <= d < 64 ->
  Z.lor (Z.lor (Z.lor (Z.shiftl a 18) (Z.shiftl b 12)) (Z.shiftl c 6)) d
  = ((a * 64 + b) * 64 + c) * 64 + d.
Proof.
  intros. rewrite !Z.shiftl_mul_pow2 by lia.
  rewrite (lor_mul_add a 18) by lia.
  replace (a * 2 ^ 18 + b * 2 ^ 12) with ((a * 64 + b) * 2 ^ 12) by lia. rewrite lor_mul_add by lia.
  replace ((a * 64 + b) * 2 ^ 12 + c * 2 ^ 6) with (((a * 64 + b) * 64 + c) * 2 ^ 6) by lia.
  rewrite lor_mul_add by lia. lia.
Qed.
Lemma octets_value b0 b1 b2 : is_byte b1 -> is_byte b2 ->
  Z.lor (Z.lor (Z.shiftl b0 16) (Z.shiftl b1 8)) b2 = (b0 * 256 + b1) * 256 + b2.
Proof.
  unfold is_byte. intros. rewrite !Z.shiftl_mul_pow2 by lia. rewrite (lor_mul_add b0 16) by lia.
  replace (b0 * 2 ^ 16 + b1 * 2 ^ 8) with ((b0 * 256 + b1) * 2 ^ 8) by lia. rewrite lor_mul_add by lia. lia.
Qed.

Lemma decode_group_values a b c d : 0 <= a < 64 -> 0 <= b < 64 -> 0 <= c < 64 -> 0 <= d < 64 ->
  decode_group a b c d = [a * 4 + b / 16; b mod 16 * 16 + c / 4; c mod 4 * 64 + d].
Proof.
  intros. unfold decode_group, u8. rewrite sextets_value, !Z.shiftr_div_pow2 by lia.
  change (2 ^ 16) with 65536. change (2 ^ 8) with 256.
  f_equal; [|f_equal; [|f_equal]]; Z.to_euclidean_division_equations; lia.
Qed.

Lemma encode_group_values b0 b1 b2 : is_byte b0 -> is_byte b1 -> is_byte b2 ->
  encode_group b0 b1 b2 = (fun v => alphabet !!! Z.to_nat v) <$>
    [b0 / 4; b0 mod 4 * 16 + b1 / 16; b1 mod 16 * 4 + b2 / 64; b2 mod 64].
Proof.
  unfold is_byte. intros. unfold encode_group. rewrite octets_value by done. rewrite !land_63, !Z.shiftr_div_pow2 by lia.
  change (2 ^ 18) with 262144. change (2 ^ 12) with 4096. change (2 ^ 6) with 64. simpl fmap.
  f_equal; [|f_equal; [|f_equal; [|f_equal]]]; f_equal; f_equal; Z.to_euclidean_division_equations; lia.
Qed.

Lemma decode_encode_group b0 b1 b2 rest : is_byte b0 -> is_byte b1 -> is_byte b2 ->
  decode_groups (encode_group b0 b1 b2 ++ rest) = (out ← decode_groups rest; Some ([b0; b1; b2] ++ out)).
Proof.
  intros H0 H1 H2. rewrite encode_group_values by done. unfold is_byte in *. simpl fmap. cbn [app decode_groups].
  rewrite !b64val_alphabet by (Z.to_euclidean_division_equations; lia).
  case_match eqn:E; [exfalso; revert E; Z.to_euclidean_division_equations; lia|]. clear E.
  rewrite decode_group_values by (Z.to_euclidean_division_equations; lia).
  destruct (decode_groups rest); [|done]. simpl. f_equal.
  f_equal; [|f_equal; [|f_equal]]; Z.to_euclidean_division_equations; lia.
Qed.

Lemma encode_decode_group s0 s1 s2 s3 : 0 <= b64val s0 -> 0 <= b64val s1 -> 0 <= b64val s2 -> 0 <= b64val s3 ->
  exists b0 b1 b2, decode_group (b64val s0) (b64val s1) (b64val s2) (b64val s3) = [b0; b1; b2] /\
    bytes_ok [b0; b1; b2] /\ encode_group b0 b1 b2 = [s0; s1; s2; s3].
Proof.
  intros H0 H1 H2 H3. rewrite <- (alphabet_b64val s0), <- (alphabet_b64val s1), <- (alphabet_b64val s2),
    <- (alphabet_b64val s3) by done. rewrite !b64val_alphabet by auto using b64val_range.
  pose proof (b64val_range s0). pose proof (b64val_range s1). pose proof (b64val_range s2). pose proof (b64val_range s3).
  generalize dependent (b64val s0). generalize dependent (b64val s1). generalize dependent (b64val s2).
  generalize dependent (b64val s3). intros d Hd Hd' c Hc Hc' b Hb Hb' a Ha Ha'.
  rewrite decode_group_values by lia. do 3 eexists. split; [reflexivity|].
  assert (Hok : bytes_ok [a * 4 + b / 16; b mod 16 * 16 + c / 4; c mod 4 * 64 + d]).
  { repeat constructor; unfold is_byte; Z.to_euclidean_division_equations; lia. }
  split; [done|]. inversion Hok as [|? ? K0 Hok1]; inversion Hok1 as [|? ? K1 Hok2]; inversion Hok2 as [|? ? K2 _].
  rewrite encode_group_values by done. simpl fmap.
  f_equal; [|f_equal; [|f_equal; [|f_equal]]]; f_equal; f_equal; Z.to_euclidean_division_equations; lia.
Qed.

Lemma list_groups3 (P : list Z -> Prop) : P [] ->
  (forall a b c l, P l -> P (a :: b :: c :: l)) -> forall n l, length l = (3 * n)%nat -> P l.
Proof.
  intros H0 H3 n. induction n as [|n IH]; intros l Hl; [by destruct l|].
  destruct l as [|a [|b [|c l]]]; simpl in Hl; try lia. apply H3, IH. lia.
Qed.

Lemma decode_encode_groups n blob : length blob = (3 * n)%nat -> bytes_ok blob ->
  decode_groups (encode_groups blob) = Some blob.
Proof.
  revert blob. apply (list_groups3 (fun blob => bytes_ok blob -> _)); [done|].
  intros a b c l IH Hok. inversion Hok as [|? ? K0 Hok1]; inversion Hok1 as [|? ? K1 Hok2];
    inversion Hok2 as [|? ? K2 Hok3]; subst. cbn [encode_groups]. by rewrite decode_encode_group, IH.
Qed.

Lemma decode_groups_inv n src out : length src = (4 * n)%nat -> decode_groups src = Some out ->
  bytes_ok out /\ length out = (3 * n)%nat /\ encode_groups out = src.
Proof.
  revert src out. induction n as [|n IH]; intros src out Hl Hd.
  - destruct src; [|done]. injection Hd as <-. by repeat constructor.
  - destruct src as [|s0 [|s1 [|s2 [|s3 src]]]]; simpl in Hl; try lia. cbn [decode_groups] in Hd.
    case_match eqn:E; [done|]. apply bind_Some in Hd as (out' & Hd & Ho%(inj Some)). subst out.
    destruct (IH src out' ltac:(lia) Hd) as (Hok & Hlen & Henc).
    destruct (encode_decode_group s0 s1 s2 s3) as (b0 & b1 & b2 & -> & Hok3 & Hg); [lia..|].
    split; [by apply bytes_ok_app|]. split; [simpl; lia|]. cbn [app encode_groups]. by rewrite Hg, Henc.
Qed.

Lemma encode_groups_length n blob : length blob = (3 * n)%nat -> length (encode_groups blob) = (4 * n)%nat.
Proof.
  revert blob. induction n as [|n IH]; intros blob Hl; [by destruct blob|].
  destruct blob as [|a [|b [|c l]]]; simpl in Hl; try lia.
  cbn [encode_groups]. rewrite length_app, IH by lia. simpl. lia.
Qed.

Lemma blob_prefix_ok : bytes_ok blob_prefix.
Proof. apply (bool_decide_unpack _). vm_compute. exact I. Qed.

(** The decoder accepts exactly what the encoder makes of a key. *)
Lemma decode_blob_iff src out : decode_blob src = Some out <->
  exists key, zlen key = 32 /\ bytes_ok key /\ out = blob_prefix ++ key /\ src = encode_groups out.
Proof.
  unfold decode_blob. split.
  - destruct (Z.eqb_spec (zlen src) 68) as [Hs|]; [|done]. intros Hd. apply bind_Some in Hd as (out' & Hd & Ho).
    destruct (decode_groups_inv 17 src out' ltac:(lia) Hd) as (Hok & Hl & <-).
    case_match eqn:E; [|done]. injection Ho as <-. apply andb_prop in E as [_ E%bool_decide_eq_true].
    exists (zdrop 19 out'). split; [rewrite zdrop_length; lia|]. split; [auto with noxssh|].
    split; [|done]. rewrite <- E. symmetry. apply take_drop.
  - intros (key & Hl & Hok & -> & ->).
    assert (Hlen : length (blob_prefix ++ key) = (3 * 17)%nat) by (rewrite length_app; simpl; lia).
    rewrite (encode_groups_length 17), (decode_encode_groups 17) by auto using bytes_ok_app, blob_prefix_ok.
    cbn [mbind option_bind Z.eqb]. rewrite Hlen, ztake_app_exact by done. rewrite bool_decide_eq_true_2 by done.
    done.
Qed.
