(* ===== verification/AuthorizedKeys.v ===== *)
(** The daemon's key check (server/auth_posix.c): which Ed25519 keys the account's
    authorized_keys file lists, and when the file is trusted. The file system and the
    password database are the class [AccountHost]; [accounts] is what they hold. *)

From S2P Require Export Frame Posix CString Base64 Sample.

(** ** Lines of the file *)

Definition is_blank (c : Z) : bool := (c =? 32) || (c =? 9).

(** The loop that steps a C string over blanks. *)
Fixpoint skip_blanks (s : list Z) : list Z :=
  match s with c :: s' => if is_blank c then skip_blanks s' else s | [] => [] end.

(** The characters counted by [strcspn(blob, ..)] with blank, tab, CR and LF. *)
Fixpoint token (s : list Z) : list Z :=
  match s with
  | c :: s' => if is_blank c || (c =? 13) || (c =? 10) then [] else c :: token s'
  | [] => []
  end.

Definition alg_name : list Z := bs "ssh-ed25519".

(** The decoded blob of a line, if it is an ssh-ed25519 entry. *)
Definition line_blob (line : list Z) : option (list Z) :=
  let alg := skip_blanks (cstr line) in
  if bool_decide (ztake 11 alg = alg_name) && is_blank (default 0 (alg !! 11%nat))
  then decode_blob (token (skip_blanks (zdrop 11 alg)))
  else None.

(** [key] is NULL when any key will do. *)
Definition line_matches (key : option (list Z)) (line : list Z) : bool :=
  match line_blob line with
  | Some decoded =>
      match key with Some key => bool_decide (zdrop 19 decoded = key) | None => true end
  | None => false
  end.

(** [while(fgets(line, sizeof(line), f))] *)
Fixpoint scan_keys (fuel : nat) (key : option (list Z)) (stream : list Z) : outcome bool :=
  match stream with
  | [] => Ok false
  | _ =>
      let '(line, rest) := fgets 8191 stream in
      if line_matches key line then Ok true
      else match fuel with O => Diverge | S fuel => scan_keys fuel key rest end
  end.

(** ** The account and its files *)

Class AccountHost (E : Type) : Type := {
  (** [getpwnam_r] with its buffer of 16384 bytes *)
  c_getpwnam : list Z -> E -> option passwd * E;
  c_stat : list Z -> E -> option stat_t * E;
  c_lstat : list Z -> E -> option stat_t * E;
  (** [open(path, O_RDONLY | O_CLOEXEC | O_NOFOLLOW)] *)
  c_open : list Z -> E -> Z * E;
  c_fstat : Z -> E -> option stat_t * E;
  (** [fdopen(fd, "r")], and the bytes the stream then delivers *)
  c_fdopen : Z -> E -> option (list Z) * E;
  (** [close], or [fclose] of its stream *)
  c_close : Z -> E -> E
}.

Definition nul_or (s : option (list Z)) : list Z := default [] s.

(** The tests on the user name, and on the entry found for it. *)
Definition name_ok (username : list Z) : bool :=
  negb (bool_decide (username = [])) && negb (bool_decide (47 ∈ username)) && negb (bool_decide (92 ∈ username)).
Definition account_ok (pw : passwd) : bool :=
  negb (bool_decide (nul_or (pw_dir pw) = [])) && negb (bool_decide (nul_or (pw_shell pw) = [])) &&
  negb (strstr (nul_or (pw_shell pw)) (bs "nologin")) && negb (strstr (nul_or (pw_shell pw)) (bs "false")).

(** Nobody but the account and root can write it. *)
Definition owned_by (pw : passwd) (st : stat_t) : bool :=
  negb (has_bits (st_mode st) 18) && ((st_uid st =? pw_uid pw) || (st_uid st =? 0)).
Definition dir_ok (pw : passwd) (st : option stat_t) : bool :=
  match st with Some st => S_ISDIR (st_mode st) && owned_by pw st | None => false end.
Definition file_ok (pw : passwd) (st : option stat_t) : bool :=
  match st with
  | Some st => S_ISREG (st_mode st) && negb (st_size st >? 65536) && owned_by pw st
  | None => false
  end.

(** [snprintf] into [path], of 4096 bytes. *)
Definition ssh_dir (home : list Z) : list Z := ztake 4095 (home ++ bs "/.ssh").
Definition keys_file (home : list Z) : list Z := ztake 4095 (home ++ bs "/.ssh/authorized_keys").

Section check.
Context {E : Type} `{AccountHost E}.

Abbreviation AM := (M E).

(** [return 0], here an error. *)
Definition refuse_unless (ok : bool) : AM unit := guard_m ok NETNOX_RETURN_FAILED.

Definition find_account (username : list Z) : AM passwd :=
  refuse_unless (name_ok username);;
  pw ← ask (c_getpwnam username);
  match pw with
  | Some pw => refuse_unless (account_ok pw);; mret pw
  | None => fail NETNOX_RETURN_FAILED
  end.

Definition check_dirs (pw : passwd) (home : list Z) : AM unit :=
  refuse_unless (zlen home + 22 <=? 4096);;
  st ← ask (c_stat home);
  refuse_unless (dir_ok pw st);;
  st ← ask (c_lstat (ssh_dir home));
  refuse_unless (dir_ok pw st).

(** The bytes of the authorized_keys file and its descriptor. *)
Definition open_keys (pw : passwd) (home : list Z) : AM (Z * list Z) :=
  fd ← ask (c_open (keys_file home));
  refuse_unless (0 <=? fd);;
  st ← ask (c_fstat fd);
  f ← (if file_ok pw st then ask (c_fdopen fd) else mret None);
  match f with
  | Some stream => mret (fd, stream)
  | None => modify (c_close fd);; fail NETNOX_RETURN_FAILED
  end.

Definition scan_file (username : list Z) (key : option (list Z)) : AM bool :=
  pw ← find_account username;
  let home := nul_or (pw_dir pw) in
  check_dirs pw home;;
  '(fd, stream) ← open_keys pw home;
  ok ← lift (scan_keys (length stream) key stream);
  modify (c_close fd);;
  mret ok.

(** The int result: [return 0] for every refusal. *)
Definition authorized_user_key (username : list Z) (key : option (list Z)) : AM bool :=
  r ← attempt (scan_file username key);
  mret (default false r).

Definition noxsshd_authorized_ed25519 (username : list Z) (key : list Z) : AM bool :=
  authorized_user_key username (Some key).
Definition noxsshd_authorized_user_ready (username : list Z) : AM bool :=
  authorized_user_key username None.
End check.

(** ** Specification: the lines *)

(** The pieces in which [fgets] reads the stream into the buffer of 8192 bytes. *)
Definition entries (stream : list Z) : list (list Z) := fgets_all 8191 stream.

(** The loop finds an entry exactly if one of the pieces is. *)
Lemma scan_keys_pieces key fuel stream : (length stream <= fuel)%nat ->
  scan_keys fuel key stream = Ok (existsb (line_matches key) (pieces 8191 fuel stream)).
Proof.
  revert stream. induction fuel as [|fuel IH]; intros stream Hl; destruct stream as [|c rest];
    try done; [simpl in Hl; lia|].
  cbn [scan_keys pieces]. pose proof (fgets_progress 8191 c rest ltac:(lia)) as Hp.
  destruct (fgets 8191 (c :: rest)) as [line rest']. simpl in Hp, Hl. cbn [existsb].
  destruct (line_matches key line); [done|]. cbn [orb]. apply IH. lia.
Qed.

(** The line is an entry for the key: blanks, the algorithm, blanks, the base64 text
    of the key blob, and the end or a separator. *)
Definition separator (c : Z) : Prop := is_blank c = true \/ c = 13 \/ c = 10.
Definition entry_for (key line : list Z) : Prop :=
  exists before gap after, cstr line = before ++ alg_name ++ gap ++ encode_groups (blob_prefix ++ key) ++ after /\
    Forall (fun c => is_blank c = true) before /\
    gap <> [] /\ Forall (fun c => is_blank c = true) gap /\
    match after with [] => True | c :: _ => separator c end.

Lemma skip_blanks_spec s : exists pre, s = pre ++ skip_blanks s /\ Forall (fun c => is_blank c = true) pre.
Proof.
  induction s as [|c s (pre & Hs & Hp)]; [by exists []|]. simpl. destruct (is_blank c) eqn:E.
  - exists (c :: pre). simpl. rewrite <- Hs. auto.
  - by exists [].
Qed.
Lemma skip_blanks_app pre s : Forall (fun c => is_blank c = true) pre ->
  match s with [] => True | c :: _ => is_blank c = false end -> skip_blanks (pre ++ s) = s.
Proof.
  induction 1 as [|c pre Hc Hp IH]; intros Hs; simpl; [|rewrite Hc; auto].
  destruct s as [|c s]; [done|]. simpl. by rewrite Hs.
Qed.

Lemma token_spec s : exists after, s = token s ++ after /\
  match after with [] => True | c :: _ => separator c end.
Proof.
  induction s as [|c s (after & Hs & Ha)]; [by exists []|]. simpl.
  destruct (is_blank c || (c =? 13) || (c =? 10)) eqn:E.
  - exists (c :: s). split; [done|]. unfold separator. destruct (is_blank c); [by left|right; lia].
  - exists after. simpl. by rewrite <- Hs.
Qed.
Lemma token_app s after : Forall (fun c => ~ separator c) s ->
  match after with [] => True | c :: _ => separator c end -> token (s ++ after) = s.
Proof.
  intros Hs Ha. induction Hs as [|c s Hc Hs IH]; simpl.
  - destruct after as [|c after]; [done|]. simpl. unfold separator in Ha.
    destruct (is_blank c); [done|]. destruct Ha as [|[->| ->]]; done.
  - rewrite IH. unfold separator in Hc. destruct (is_blank c); [tauto|].
    destruct (Z.eqb_spec c 13); [tauto|]. destruct (Z.eqb_spec c 10); [tauto|done].
Qed.

Lemma b64_not_separator c : 0 <= b64val c -> ~ separator c /\ c <> 0.
Proof. unfold separator, is_blank, b64val. intros Hc. split; [intros Hs|intros ->; simpl in Hc; lia]. repeat case_match; lia. Qed.
Lemma encode_groups_b64 n l : length l = (3 * n)%nat -> bytes_ok l ->
  Forall (fun c => 0 <= b64val c) (encode_groups l).
Proof.
  revert l. apply (list_groups3 (fun l => bytes_ok l -> _)); [by constructor|].
  intros a b c l IH Hok. inversion Hok as [|? ? K0 Hok1]; inversion Hok1 as [|? ? K1 Hok2];
    inversion Hok2 as [|? ? K2 Hok3]; subst. cbn [encode_groups]. apply Forall_app. split; [|auto].
  rewrite encode_group_values by done. unfold is_byte in *. simpl fmap.
  repeat constructor; rewrite b64val_alphabet; Z.to_euclidean_division_equations; lia.
Qed.
(** The text of a key holds no separator and no NUL. *)
Lemma key_text_chars key : zlen key = 32 -> bytes_ok key ->
  Forall (fun c => ~ separator c) (encode_groups (blob_prefix ++ key)) /\ 0 ∉ encode_groups (blob_prefix ++ key).
Proof.
  intros Hl Hok. assert (Hb : Forall (fun c => 0 <= b64val c) (encode_groups (blob_prefix ++ key))).
  { apply (encode_groups_b64 17); [rewrite length_app; simpl; lia|].
    apply bytes_ok_app; [apply blob_prefix_ok|done]. }
  split; [eapply Forall_impl; [exact Hb|]; intros c Hc; by apply b64_not_separator|].
  intros H0. rewrite Forall_forall in Hb. by apply Hb, b64_not_separator in H0 as [_ ?].
Qed.

Lemma line_blob_iff line out : line_blob line = Some out <->
  exists key, zlen key = 32 /\ bytes_ok key /\ out = blob_prefix ++ key /\ entry_for key line.
Proof.
  unfold line_blob, entry_for. split.
  - case_match eqn:E; [|done]. apply andb_prop in E as [Ea%bool_decide_eq_true Eb].
    intros (key & Hl & Hok & -> & He)%decode_blob_iff. exists key. split_and!; try done.
    set (alg := skip_blanks (cstr line)) in *. destruct (skip_blanks_spec (cstr line)) as (before & Hs & Hb).
    fold alg in Hs. destruct (skip_blanks_spec (zdrop 11 alg)) as (gap & Hg & Hgb).
    destruct (token_spec (skip_blanks (zdrop 11 alg))) as (after & Ht & Haft).
    rewrite He in Ht. exists before, gap, after. rewrite <- Ht, <- Hg, <- Ea, Hs. unfold ztake, zdrop.
    rewrite take_drop. split_and!; try done. intros ->. simpl in Hg.
    assert (Hd : zdrop 11 alg = skip_blanks (zdrop 11 alg)) by done. clear -Eb Hd.
    assert (Hz : (alg !! 11%nat) = (zdrop 11 alg) !! 0%nat) by (unfold zdrop; by rewrite lookup_drop).
    rewrite Hz in Eb. destruct (zdrop 11 alg) as [|c r]; [done|]. simpl in *. rewrite Eb in Hd.
    destruct (skip_blanks_spec r) as (pre & Hr & _). apply (f_equal length) in Hd, Hr.
    rewrite length_app in Hr. simpl in Hd. lia.
  - intros (key & Hl & Hok & -> & before & gap & after & -> & Hb & Hg & Hgb & Haft).
    set (enc := encode_groups (blob_prefix ++ key)).
    assert (Henc : Forall (fun c => ~ separator c) enc).
    { by apply key_text_chars. }
    assert (Hne : length enc = 68%nat) by (apply (encode_groups_length 17); rewrite length_app; simpl; lia).
    rewrite skip_blanks_app; [|done|done]. rewrite ztake_app_exact, zdrop_app_exact by done.
    rewrite bool_decide_eq_true_2 by done. rewrite lookup_app_r by (simpl; lia). simpl length.
    destruct gap as [|g gap]; [done|]. inversion Hgb as [|? ? Hg1 Hg2]; subst. simpl (default _ _). rewrite Hg1. cbn [andb].
    rewrite skip_blanks_app; [|done|].
    + rewrite token_app by done. apply decode_blob_iff. by exists key.
    + destruct enc as [|c enc']; [done|]. apply Forall_cons in Henc as [Hc _]. simpl.
      destruct (is_blank c) eqn:Ec; [|done]. destruct Hc. by left.
Qed.

Lemma line_matches_iff key line : line_matches (Some key) line = true <->
  zlen key = 32 /\ bytes_ok key /\ entry_for key line.
Proof.
  unfold line_matches. split.
  - destruct (line_blob line) as [out|] eqn:E; [|done]. intros Hk%bool_decide_eq_true.
    apply line_blob_iff in E as (key' & Hl & Hok & -> & He). rewrite zdrop_app_exact in Hk by done. by subst.
  - intros (Hl & Hok & He). assert (Hb : line_blob line = Some (blob_prefix ++ key)).
    { apply line_blob_iff. by exists key. }
    rewrite Hb, zdrop_app_exact by done. by apply bool_decide_eq_true.
Qed.

(** ** Specification: the account *)

(** What the password database and the file system hold. *)
Record accounts : Type := mkAccounts {
  a_passwd : list Z -> option passwd;
  a_stat : list Z -> option stat_t;
  a_lstat : list Z -> option stat_t;
  (** the files that can be opened without following a link at the end *)
  a_file : list Z -> option (stat_t * list Z)
}.

(** Nobody changes them while the check runs, and memory suffices. *)
Class StableAccounts (E : Type) `{AccountHost E} : Type := {
  accounts_of : E -> accounts;
  opened : E -> Z -> option (stat_t * list Z);
  getpwnam_law name e : (c_getpwnam name e).1 = a_passwd (accounts_of e) name /\
    accounts_of (c_getpwnam name e).2 = accounts_of e;
  stat_law path e : (c_stat path e).1 = a_stat (accounts_of e) path /\
    accounts_of (c_stat path e).2 = accounts_of e;
  lstat_law path e : (c_lstat path e).1 = a_lstat (accounts_of e) path /\
    accounts_of (c_lstat path e).2 = accounts_of e;
  open_law path e fd e' : c_open path e = (fd, e') -> accounts_of e' = accounts_of e /\
    match a_file (accounts_of e) path with
    | Some f => 0 <= fd /\ opened e' fd = Some f
    | None => fd < 0
    end;
  fstat_law fd f e st e' : c_fstat fd e = (st, e') -> opened e fd = Some f ->
    st = Some f.1 /\ accounts_of e' = accounts_of e /\ opened e' fd = Some f;
  fdopen_law fd f e : opened e fd = Some f ->
    (c_fdopen fd e).1 = Some f.2 /\ accounts_of (c_fdopen fd e).2 = accounts_of e;
  close_law fd e : accounts_of (c_close fd e) = accounts_of e
}.

(** The key may log in as the user: the account exists and has a login shell, nobody
    else can write its home directory, .ssh directory and authorized_keys file, and
    the file has an entry for the key. *)
Definition authorized (a : accounts) (username key : list Z) : Prop :=
  name_ok username = true /\ zlen key = 32 /\ bytes_ok key /\
  exists pw st content, a_passwd a username = Some pw /\ account_ok pw = true /\
    let home := nul_or (pw_dir pw) in
    zlen home <= 4074 /\
    dir_ok pw (a_stat a home) = true /\ dir_ok pw (a_lstat a (home ++ bs "/.ssh")) = true /\
    a_file a (home ++ bs "/.ssh/authorized_keys") = Some (st, content) /\ file_ok pw (Some st) = true /\
    exists line, line ∈ entries content /\ entry_for key line.

Lemma paths_fit home : zlen home <= 4074 ->
  ssh_dir home = home ++ bs "/.ssh" /\ keys_file home = home ++ bs "/.ssh/authorized_keys".
Proof. intros Hl. unfold ssh_dir, keys_file. rewrite !ztake_all; [done|rewrite length_app; simpl; lia..]. Qed.

Lemma scan_entries key content : scan_keys (length content) (Some key) content = Ok true <->
  zlen key = 32 /\ bytes_ok key /\ exists line, line ∈ entries content /\ entry_for key line.
Proof.
  rewrite scan_keys_pieces by done. fold (entries content). split.
  - intros [= He]. apply existsb_exists in He as (line & Hin & Hm). apply line_matches_iff in Hm as (? & ? & ?).
    split_and!; try done. exists line. split; [by apply list_elem_of_In|done].
  - intros (Hl & Hok & line & Hin & He). f_equal. apply existsb_exists. exists line.
    split; [by apply list_elem_of_In|]. by apply line_matches_iff.
Qed.

Section spec.
Context {E : Type} `{StableAccounts E}.
Context (a : accounts).

(** With the accounts [a], [m] returns what the option says; [None] is [return 0]. *)
Definition decides {A} (m : M E A) (r : option A) : Prop := forall e, accounts_of e = a ->
  exists e', m e = (match r with Some x => Ok x | None => Err NETNOX_RETURN_FAILED end, e') /\
    accounts_of e' = a.

Lemma decides_ret {A} (x : A) : decides (mret x) (Some x).
Proof. intros e He. by exists e. Qed.
Lemma decides_fail {A} : decides (fail NETNOX_RETURN_FAILED : M E A) None.
Proof. intros e He. by exists e. Qed.
Lemma decides_bind {A B} (m : M E A) (k : A -> M E B) r f :
  decides m r -> (forall x, r = Some x -> decides (k x) (f x)) -> decides (m ≫= k) (r ≫= f).
Proof.
  intros Hm Hk e He. destruct (Hm e He) as (e1 & Hrun & He1). destruct r as [x|].
  - destruct (Hk x eq_refl e1 He1) as (e2 & Hrun2 & He2). exists e2. split; [|done].
    by rewrite (bind_run _ _ _ _ _ Hrun).
  - exists e1. split; [|done]. unfold mbind, M_bind. by rewrite Hrun.
Qed.
Lemma decides_ask {A} (f : E -> A * E) x :
  (forall e, accounts_of e = a -> (f e).1 = x /\ accounts_of (f e).2 = accounts_of e) ->
  decides (ask f) (Some x).
Proof.
  intros Hf e He. destruct (Hf e He) as [Hx Ha]. exists (f e).2. unfold ask. destruct (f e) as [y e1]. simpl in *.
  subst y. by rewrite Ha.
Qed.
Lemma decides_refuse b : decides (refuse_unless b) (if b then Some tt else None).
Proof. intros e He. exists e. by destruct b. Qed.
Lemma decides_eq {A} (m : M E A) r r' : decides m r -> r = r' -> decides m r'.
Proof. by intros ? <-. Qed.

Definition found (username : list Z) : option passwd :=
  if name_ok username then
    pw ← a_passwd a username; if account_ok pw then Some pw else None
  else None.
Definition dirs_ok (pw : passwd) (home : list Z) : bool :=
  (zlen home <=? 4074) && dir_ok pw (a_stat a home) && dir_ok pw (a_lstat a (home ++ bs "/.ssh")).
Definition keys_of (pw : passwd) (home : list Z) : option (list Z) :=
  '(st, content) ← a_file a (home ++ bs "/.ssh/authorized_keys");
  if file_ok pw (Some st) then Some content else None.

(** A call, and then [k]. *)
Lemma decides_call {A B} (c : E -> A * E) x (k : A -> M E B) r :
  (forall e, accounts_of e = a -> (c e).1 = x /\ accounts_of (c e).2 = accounts_of e) ->
  decides (k x) r -> decides (ask c ≫= k) r.
Proof.
  intros Hc Hk. change r with (Some x ≫= fun _ => r). apply decides_bind; [by apply decides_ask|].
  by intros y [= <-].
Qed.
Lemma decides_unless {B} b (k : unit -> M E B) r :
  decides (k tt) r -> decides (refuse_unless b ≫= k) (if b then r else None).
Proof.
  intros Hk. apply (decides_eq _ ((if b then Some tt else None) ≫= fun _ => r)); [|by destruct b].
  apply decides_bind; [apply decides_refuse|]. by intros [] _.
Qed.
Ltac from_law law := let e := fresh "e" in let He := fresh "He" in intros e He; rewrite <- He; apply law.

Lemma find_account_decides username : decides (find_account username) (found username).
Proof.
  unfold find_account, found. apply decides_unless.
  apply (decides_call _ (a_passwd a username)); [from_law getpwnam_law|].
  destruct (a_passwd a username) as [pw|]; [|apply decides_fail]. apply decides_unless, decides_ret.
Qed.

Lemma check_dirs_decides pw home : decides (check_dirs pw home) (if dirs_ok pw home then Some tt else None).
Proof.
  unfold check_dirs, dirs_ok. replace (zlen home + 22 <=? 4096) with (zlen home <=? 4074) by lia.
  destruct (Z.leb_spec (zlen home) 4074) as [Hl|]; [|by intros e He; exists e].
  destruct (paths_fit home Hl) as [-> _]. cbn [andb].
  eapply decides_eq.
  - apply decides_unless. apply (decides_call _ (a_stat a home)); [from_law stat_law|].
    apply decides_unless. apply (decides_call _ (a_lstat a (home ++ bs "/.ssh"))); [from_law lstat_law|]. apply decides_refuse.
  - by destruct (dir_ok pw (a_stat a home)).
Qed.

Lemma refuse_run {B} b (k : unit -> M E B) e :
  (refuse_unless b ≫= k) e = if b then k tt e else (Err NETNOX_RETURN_FAILED, e).
Proof. apply bind_guard. Qed.

(** The descriptor is the system's choice; the bytes are not. *)
Lemma open_keys_run pw home e : zlen home <= 4074 -> accounts_of e = a ->
  exists fd e', open_keys pw home e =
    (match keys_of pw home with Some stream => Ok (fd, stream) | None => Err NETNOX_RETURN_FAILED end, e') /\
    accounts_of e' = a.
Proof.
  intros Hl He. unfold open_keys, keys_of. destruct (paths_fit home Hl) as [_ ->].
  set (path := home ++ bs "/.ssh/authorized_keys").
  destruct (c_open path e) as [fd e1] eqn:Eo. exists fd.
  destruct (open_law _ _ _ _ Eo) as [He1 Hf]. rewrite He in He1, Hf.
  rewrite ask_run, Eo. cbn [fst snd]. rewrite refuse_run.
  destruct (a_file a path) as [[st content]|].
  - destruct Hf as [Hfd Ho]. replace (0 <=? fd) with true by lia.
    destruct (c_fstat fd e1) as [o e2] eqn:Ef. destruct (fstat_law _ _ _ _ _ Ef Ho) as (-> & He2 & Ho2).
    rewrite ask_run, Ef. cbn [fst snd mbind option_bind]. destruct (file_ok pw (Some st)).
    + destruct (fdopen_law _ _ _ Ho2) as [Hs He3]. rewrite ask_run, Hs.
      eexists. split; [reflexivity|]. congruence.
    + exists (c_close fd e2). split; [done|]. rewrite close_law. congruence.
  - replace (0 <=? fd) with false by lia. exists e1. done.
Qed.

Lemma open_keys_decides {B} pw home (k : Z * list Z -> M E B) f : zlen home <= 4074 ->
  (forall fd stream, decides (k (fd, stream)) (f stream)) ->
  decides (open_keys pw home ≫= k) (keys_of pw home ≫= f).
Proof.
  intros Hl Hk e He. destruct (open_keys_run pw home e Hl He) as (fd & e' & Hrun & He').
  destruct (keys_of pw home) as [stream|].
  - destruct (Hk fd stream e' He') as (e2 & Hrun2 & He2). exists e2. by rewrite (bind_run _ _ _ _ _ Hrun).
  - exists e'. split; [|done]. unfold mbind, M_bind. by rewrite Hrun.
Qed.

(** The whole check, as a function of the accounts. *)
Definition allows (username : list Z) (key : option (list Z)) : option bool :=
  pw ← found username;
  let home := nul_or (pw_dir pw) in
  if dirs_ok pw home then
    content ← keys_of pw home; Some (existsb (line_matches key) (entries content))
  else None.

Lemma scan_file_decides username key : decides (scan_file username key) (allows username key).
Proof.
  unfold scan_file, allows. apply decides_bind; [apply find_account_decides|]. intros pw _.
  set (home := nul_or (pw_dir pw)).
  apply (decides_eq _ ((if dirs_ok pw home then Some tt else None) ≫= fun _ =>
    content ← keys_of pw home; Some (existsb (line_matches key) (entries content)))); [|by destruct (dirs_ok pw home)].
  apply decides_bind; [apply check_dirs_decides|]. intros [] Hd.
  assert (Hl : zlen home <= 4074) by (unfold dirs_ok in Hd; destruct (Z.leb_spec (zlen home) 4074); done).
  apply open_keys_decides; [done|]. intros fd stream e He.
  exists (c_close fd e). rewrite scan_keys_pieces, bind_lift_ok by done. split; [done|]. by rewrite close_law.
Qed.

Lemma authorized_user_key_run username key e : accounts_of e = a -> exists e',
  authorized_user_key username key e = (Ok (default false (allows username key)), e') /\ accounts_of e' = a.
Proof.
  intros He. destruct (scan_file_decides username key e He) as (e' & Hrun & He'). exists e'.
  split; [|done]. unfold authorized_user_key, mbind, M_bind, attempt. rewrite Hrun. by destruct (allows username key).
Qed.

Lemma keys_listed key content : existsb (line_matches (Some key)) (entries content) = true <->
  zlen key = 32 /\ bytes_ok key /\ exists line, line ∈ entries content /\ entry_for key line.
Proof.
  rewrite existsb_exists. split.
  - intros (line & Hin & Hm). apply line_matches_iff in Hm as (? & ? & ?).
    split_and!; try done. exists line. split; [by apply list_elem_of_In|done].
  - intros (Hl & Hok & line & Hin & He). exists line. split; [by apply list_elem_of_In|]. by apply line_matches_iff.
Qed.

Lemma allows_authorized username key :
  default false (allows username (Some key)) = true <-> authorized a username key.
Proof.
  assert (Hd : forall o : option bool, default false o = true <-> o = Some true) by (intros [[]|]; naive_solver).
  rewrite Hd. clear Hd. unfold allows, authorized. split.
  - intros (pw & Hf & Hr)%bind_Some. unfold found in Hf. destruct (name_ok username); [|done].
    apply bind_Some in Hf as (pw' & Hp & Hf). destruct (account_ok pw') eqn:Ea; [|done]. injection Hf as ->.
    destruct (dirs_ok pw _) eqn:Eds in Hr; [|done]. apply andb_prop in Eds as [Eds E3].
    apply andb_prop in Eds as [E1%Z.leb_le E2]. apply bind_Some in Hr as (content & Hk & [= Hx]).
    apply keys_listed in Hx as (Hkl & Hok & Hline). unfold keys_of in Hk.
    apply bind_Some in Hk as ([st content'] & Hfile & Hk). destruct (file_ok pw (Some st)) eqn:Efo; [|done].
    injection Hk as ->. split_and!; try done. by exists pw, st, content.
  - intros (Hn & Hkl & Hok & pw & st & content & Hp & Ha & Hrest). cbv zeta in Hrest.
    destruct Hrest as (Hl & D1 & D2 & Hfile & Hfo & Hline).
    unfold found, dirs_ok, keys_of. rewrite Hn, Hp. cbn [mbind option_bind]. rewrite Ha. cbn [mbind option_bind].
    replace (zlen (nul_or (pw_dir pw)) <=? 4074) with true by lia. rewrite D1, D2. cbn [andb].
    rewrite Hfile. cbn [mbind option_bind]. rewrite Hfo. cbn [mbind option_bind]. f_equal. by apply keys_listed.
Qed.
End spec.

(** ** Properties *)

(** C16: the daemon's callback says yes to an Ed25519 key exactly when the account is
    authorized for it: a user name without slashes, an account with a login shell, a
    home directory, .ssh directory and authorized_keys file that only the account and
    root can write, and an entry for the key in the file; it always returns. *)
Theorem authorized_ed25519_iff E (H : AccountHost E) (S : StableAccounts E) username key (e : E) :
  exists allowed e', noxsshd_authorized_ed25519 username key e = (Ok allowed, e') /\
    accounts_of e' = accounts_of e /\
    (allowed = true <-> authorized (accounts_of e) username key).
Proof.
  destruct (authorized_user_key_run (accounts_of e) username (Some key) e eq_refl) as (e' & Hrun & He').
  exists (default false (allows (accounts_of e) username (Some key))), e'.
  split; [exact Hrun|]. split; [exact He'|]. exact (allows_authorized (accounts_of e) username key).
Qed.

(** The file is read in the pieces of [fgets]: together they are the file, and they
    are its lines when no line exceeds the buffer of 8192 bytes. A longer line is cut:
    what follows its first 8191 characters is read as a line of its own, so the end of
    a long comment can be an entry. *)
Theorem entries_are_lines stream :
  concat (entries stream) = stream /\
  (Forall (fun line => zlen line <= 8191) (lines stream) -> entries stream = lines stream) /\
  (forall junk rest, stream = junk ++ rest -> zlen junk = 8191 -> 10 ∉ junk -> rest <> [] ->
     entries stream = junk :: entries rest).
Proof.
  split; [by apply fgets_all_concat|]. split; [by apply fgets_all_lines|].
  intros junk rest -> Hl Hlf Hr. by apply fgets_all_full.
Qed.

(** C31: the line that noxsshd prints for its host key is an entry for that key where
    noxsshd reads authorized_keys: the encoder of main.c and the decoder of
    auth_posix.c agree on every key. *)
Theorem printed_key_is_entry (T : NoxTLS) (L : NoxTLSLaws T) seed pk line :
  noxtls_ed25519_public_key seed = (true, pk) -> print_host_public_key seed = Some line ->
  line_matches (Some pk) line = true.
Proof.
  unfold print_host_public_key. intros Hpk. rewrite Hpk. intros Hline%(inj Some).
  destruct (ed25519_public_length _ _ Hpk) as [Hl Hok]. apply line_matches_iff.
  assert (Hl' : zlen pk = 32) by (rewrite Hl; done). split; [done|]. split; [done|].
  exists [], [32], (bs " noxsshd-host" ++ [10]).
  destruct (key_text_chars pk Hl' Hok) as [_ Hn]. revert Hline Hn.
  generalize (encode_groups (blob_prefix ++ pk)). intros text <- Hn. split_and!; try done.
  - rewrite cstr_no_nul; [done|]. rewrite !not_elem_of_app. split_and!; [|done|apply (bool_decide_unpack _); vm_compute; exact I..].
    apply (bool_decide_unpack _). vm_compute. exact I.
  - by repeat constructor.
  - left. done.
Qed.

(** ** Witnesses *)

Import SampleInstances.

(** A host with one account and its file. *)
Definition sample_st (content : list Z) : stat_t := mkStat (32768 + 384) 1000 (zlen content).
Definition sample_accounts (content : list Z) : accounts :=
  let home := bs "/home/user" in
  let dir path := if bool_decide (path = home) || bool_decide (path = home ++ bs "/.ssh")
                  then Some (mkStat (16384 + 448) 1000 4096) else None in
  mkAccounts
    (fun name => if bool_decide (name = bs "user")
                 then Some (mkPasswd name 1000 1000 (Some home) (Some (bs "/bin/sh"))) else None)
    dir dir
    (fun path => if bool_decide (path = home ++ bs "/.ssh/authorized_keys")
                 then Some (sample_st content, content) else None).

Definition sample_account_host (content : list Z) (E : Type) : AccountHost E := {|
  c_getpwnam name e := (a_passwd (sample_accounts content) name, e);
  c_stat path e := (a_stat (sample_accounts content) path, e);
  c_lstat path e := (a_lstat (sample_accounts content) path, e);
  c_open path e := (match a_file (sample_accounts content) path with Some _ => 5 | None => -1 end, e);
  c_fstat _ e := (Some (sample_st content), e);
  c_fdopen _ e := (Some content, e);
  c_close _ e := e
|}.
Lemma sample_account_file content path : a_file (sample_accounts content) path = None \/
  a_file (sample_accounts content) path = Some (sample_st content, content).
Proof. unfold sample_accounts. cbn [a_file]. case_bool_decide; [by right|by left]. Qed.

Definition sample_stable (content : list Z) (E : Type) : @StableAccounts E (sample_account_host content E).
Proof.
  refine {| accounts_of (_ : E) := sample_accounts content;
            opened (_ : E) (_ : Z) := Some (sample_st content, content) |}; try done.
  - intros path e fd e' Ho. split; [done|]. apply (f_equal fst) in Ho.
    change (match a_file (sample_accounts content) path with Some _ => 5 | None => -1 end = fd) in Ho.
    destruct (sample_account_file content path) as [Hf|Hf]; rewrite Hf in *; subst fd; [done|by split].
  - intros fd f e st e' [= <- <-] [= <-]. done.
  - intros fd f e [= <-]. done.
Defined.

(** The file lists the key that noxsshd prints for a seed. *)
Definition sample_seed : list Z := be_bytes 32 7.
Definition sample_pk : list Z := (noxtls_ed25519_public_key sample_seed).2.
Definition sample_keys : list Z :=
  bs "# keys" ++ [10] ++ default [] (print_host_public_key sample_seed).

Lemma authorized_ed25519_iff_witness :
  @noxsshd_authorized_ed25519 unit (sample_account_host sample_keys unit) (bs "user") sample_pk tt = (Ok true, tt) /\
  authorized (sample_accounts sample_keys) (bs "user") sample_pk.
Proof.
  assert (Hrun : @noxsshd_authorized_ed25519 unit (sample_account_host sample_keys unit) (bs "user") sample_pk tt =
    (Ok true, tt)) by (vm_compute; reflexivity).
  split; [exact Hrun|].
  destruct (authorized_ed25519_iff unit (sample_account_host sample_keys unit) (sample_stable sample_keys unit)
    (bs "user") sample_pk tt) as (b & e' & Hr & _ & Hiff).
  rewrite Hrun in Hr. apply Hiff. by injection Hr as <- _.
Defined.

Lemma printed_key_is_entry_witness :
  line_matches (Some sample_pk) (default [] (print_host_public_key sample_seed)) = true.
Proof.
  apply (printed_key_is_entry sample_noxtls sample_laws sample_seed sample_pk); vm_compute; reflexivity.
Defined.
