(* ===== verification/HostSeed.v ===== *)
(** The daemon's host key file (server/main.c): [host_seed] reads the 32 byte seed, or
    makes and stores a new one when there is none. The calls are the class [SeedHost];
    [SeedFs] states what they do to the directory and to the descriptor table. *)

From stdpp Require Import gmap.
From S2P Require Export Posix CString.

(** ** The calls *)

Inductive open_result : Type := Opened (fd : Z) | NoEntry | Exists | OpenFailed.

Class SeedHost (E : Type) : Type := {
  c_geteuid : E -> Z;
  (** [open(parent, O_RDONLY | O_DIRECTORY | O_CLOEXEC | O_NOFOLLOW)] *)
  c_opendir : list Z -> E -> option Z * E;
  c_fstat_fd : Z -> E -> option stat_t * E;
  (** [openat(parent_fd, name, O_RDONLY | O_CLOEXEC | O_NOFOLLOW | O_NONBLOCK)] *)
  c_openat : Z -> list Z -> E -> open_result * E;
  (** [openat(parent_fd, name, O_WRONLY | O_CREAT | O_EXCL | O_CLOEXEC | O_NOFOLLOW, 0600)] *)
  c_create : Z -> list Z -> E -> open_result * E;
  c_random : Z -> E -> read_result * E;
  c_write_fd : Z -> list Z -> E -> write_result * E;
  c_read_fd : Z -> Z -> E -> read_result * E;
  (** [fsync(fd) == 0], [close(fd) == 0] *)
  c_fsync : Z -> E -> bool * E;
  c_close_fd : Z -> E -> bool * E;
  c_unlinkat : Z -> list Z -> E -> E
}.

(** ** The path *)

(** The trailing slashes of a directory, but not the last character, from the end. *)
Fixpoint drop_slashes (r : list Z) : list Z :=
  match r with
  | c :: ((_ :: _) as r') => if c =? 47 then drop_slashes r' else r
  | _ => r
  end.

(** The directory and the name; [None] is [return -1]. *)
Definition seed_path (path : list Z) : option (list Z * list Z) :=
  '(parent, name) ← strrchr_split 47 path;
  if (4096 <=? zlen parent) || bool_decide (parent = []) || bool_decide (name = []) ||
     bool_decide (name = bs ".") || bool_decide (name = bs "..") then None
  else Some (rev (drop_slashes (rev parent)), name).

Section code.
Context {E : Type} `{SeedHost E}.

Abbreviation AM := (M E).

(** ** Loops *)

(** 32 bytes from [getrandom] or [read]; [None]: it failed. *)
Definition fill_32 (get : Z -> E -> read_result * E) : AM (option (list Z)) :=
  loop forever (fun out =>
    if zlen out <? 32 then
      r ← ask (get (32 - zlen out));
      match r with
      | ReadBytes ((_ :: _) as bytes) => mret (inl (out ++ bytes))
      | ReadErr EINTR => mret (inl out)
      | _ => mret (inr None)
      end
    else mret (inr (Some out))) [].

Definition random_seed : AM (option (list Z)) := fill_32 c_random.

(** The loop that writes the seed. *)
Definition write_32 (fd : Z) (seed : list Z) : AM bool :=
  loop forever (fun pos =>
    if pos <? 32 then
      r ← ask (c_write_fd fd (zdrop pos seed));
      match r with
      | Wrote n => if n >? 0 then mret (inl (pos + n)) else mret (inr false)
      | WriteErr EINTR => mret (inl pos)
      | WriteErr _ => mret (inr false)
      end
    else mret (inr true)) 0.

(** ** The file *)

(** A regular file of ours that nobody else can use, of the given size. *)
Definition private_file (euid : Z) (size : Z) (st : option stat_t) : bool :=
  match st with
  | Some st => S_ISREG (st_mode st) && (st_uid st =? euid) && negb (has_bits (st_mode st) 63) &&
               (st_size st =? size)
  | None => false
  end.
(** A directory of ours that nobody else can write. *)
Definition private_dir (euid : Z) (st : option stat_t) : bool :=
  match st with
  | Some st => S_ISDIR (st_mode st) && negb (has_bits (st_mode st) 18) && (st_uid st =? euid)
  | None => false
  end.

(** The label [remove_created]. *)
Definition remove_created (parent : Z) (name : list Z) (fd : option Z) : AM bool :=
  match fd with Some fd => ask (c_close_fd fd);; mret tt | None => mret tt end;;
  modify (c_unlinkat parent name);;
  mret false.

(** The new file [fd] gets the seed. *)
Definition store_seed (parent fd : Z) (name seed : list Z) : AM bool :=
  euid ← gets c_geteuid;
  st ← ask (c_fstat_fd fd);
  if negb (private_file euid 0 st) then remove_created parent name (Some fd)
  else
    written ← write_32 fd seed;
    if negb written then remove_created parent name (Some fd)
    else
      synced ← ask (c_fsync fd);
      closed ← ask (c_close_fd fd);
      if negb (synced && closed) then remove_created parent name None
      else ask (c_fsync parent).

(** The existing file [fd]; it is closed at [out]. *)
Definition load_seed (fd : Z) : AM (option (list Z)) :=
  euid ← gets c_geteuid;
  st ← ask (c_fstat_fd fd);
  seed ← (if private_file euid 32 st then
            seed ← fill_32 (c_read_fd fd);
            match seed with
            | Some seed =>
                extra ← ask (c_read_fd fd 1);
                mret (match extra with ReadEof => Some seed | _ => None end)
            | None => mret None
            end
          else mret None);
  closed ← ask (c_close_fd fd);
  mret (if (closed : bool) then seed else None).

Definition load_again (parent : Z) (name : list Z) : AM (option (list Z)) :=
  r ← ask (c_openat parent name);
  match r with Opened fd => load_seed fd | _ => mret None end.

(** No file was there. *)
Definition make_seed (parent : Z) (name : list Z) : AM (option (list Z)) :=
  fresh ← random_seed;
  match fresh with
  | None => mret None
  | Some seed =>
      r ← ask (c_create parent name);
      match r with
      | Opened fd => ok ← store_seed parent fd name seed; mret (if (ok : bool) then Some seed else None)
      | Exists => load_again parent name
      | _ => mret None
      end
  end.

Definition seed_in (parent : Z) (name : list Z) : AM (option (list Z)) :=
  r ← ask (c_openat parent name);
  match r with
  | Opened fd => load_seed fd
  | NoEntry => make_seed parent name
  | _ => load_again parent name
  end.

(** [host_seed(path, seed) == 0] and the seed array afterwards. *)
Definition host_seed (path seed : list Z) : AM (bool * list Z) :=
  match seed_path path with
  | None => mret (false, seed)
  | Some (dir, name) =>
      let failed := (false, zeros 32) in
      p ← ask (c_opendir dir);
      match p with
      | None => mret failed
      | Some parent =>
          euid ← gets c_geteuid;
          st ← ask (c_fstat_fd parent);
          r ← (if private_dir euid st then seed_in parent name else mret None);
          closed ← ask (c_close_fd parent);
          mret (match r with Some s => if (closed : bool) then (true, s) else failed | None => failed end)
      end
  end.
End code.

(** ** Arguments of noxsshd *)

Record daemon_options : Type := mkOptions {
  bind_host : list Z; key_path : list Z; check_user : option (list Z); port : Z; print_public : bool
}.
Definition default_options : daemon_options :=
  mkOptions (bs "127.0.0.1") (bs "/etc/noxssh/host_ed25519_seed") None 2222 false.

(** What [main] does with its arguments: the usage text, an error exit with 2, or go on. *)
Inductive arguments : Type := Help | Invalid | Options (o : daemon_options).

Fixpoint parse_args (o : daemon_options) (args : list (list Z)) : arguments :=
  match args with
  | [] => if match check_user o with Some _ => print_public o | None => false end then Invalid else Options o
  | a :: rest =>
      let opt s := bool_decide (a = bs s) in
      if opt "--help" || opt "-h" then Help
      else if opt "--print-host-public-key" then
        parse_args (mkOptions (bind_host o) (key_path o) (check_user o) (port o) true) rest
      else
        match rest with
        | v :: rest =>
            if opt "-b" then parse_args (mkOptions v (key_path o) (check_user o) (port o) (print_public o)) rest
            else if opt "-p" then
              match strtoul_all v 1 65535 with
              | Some p => parse_args (mkOptions (bind_host o) (key_path o) (check_user o) p (print_public o)) rest
              | None => Invalid
              end
            else if opt "--host-key" then
              parse_args (mkOptions (bind_host o) v (check_user o) (port o) (print_public o)) rest
            else if opt "--check-user" then
              parse_args (mkOptions (bind_host o) (key_path o) (Some v) (port o) (print_public o)) rest
            else Invalid
        | [] => Invalid
        end
  end.

(** ** What the calls do *)

Record file_t : Type := mkFile { f_mode : Z; f_uid : Z; f_content : list Z }.
Definition f_stat (f : file_t) : stat_t := mkStat (f_mode f) (f_uid f) (zlen (f_content f)).

(** An open descriptor: a directory, or a file of it and the position. *)
Inductive desc : Type := DirDesc (dir : list Z) | FileDesc (dir name : list Z) (pos : Z).

(** The files by directory and name, the descriptor table, and a bound on how often
    signals will still interrupt a call. Nobody else changes the directory meanwhile,
    and a name in our own directory can be unlinked. *)
Class SeedFs (E : Type) `{SeedHost E} : Type := {
  files : E -> gmap (list Z * list Z) file_t;
  fds : E -> gmap Z desc;
  interrupts : E -> Z;
  interrupts_pos e : 0 <= interrupts e;
  (** the calls that change neither table *)
  same (e e' : E) : Prop := files e' = files e /\ fds e' = fds e /\
    interrupts e' <= interrupts e /\ c_geteuid e' = c_geteuid e;
  opendir_law dir e r e' : c_opendir dir e = (r, e') ->
    match r with
    | Some fd => fds e !! fd = None /\ files e' = files e /\ fds e' = <[fd := DirDesc dir]> (fds e) /\
                 interrupts e' <= interrupts e /\ c_geteuid e' = c_geteuid e
    | None => same e e'
    end;
  fstat_fd_law fd e r e' : c_fstat_fd fd e = (r, e') -> same e e' /\
    forall st d n pos f, r = Some st -> fds e !! fd = Some (FileDesc d n pos) ->
      files e !! (d, n) = Some f -> st = f_stat f;
  openat_law p d n e r e' : c_openat p n e = (r, e') -> fds e !! p = Some (DirDesc d) ->
    match r with
    | Opened fd => fds e !! fd = None /\ is_Some (files e !! (d, n)) /\ files e' = files e /\
                   fds e' = <[fd := FileDesc d n 0]> (fds e) /\
                   interrupts e' <= interrupts e /\ c_geteuid e' = c_geteuid e
    | NoEntry => files e !! (d, n) = None /\ same e e'
    | _ => same e e'
    end;
  create_law p d n e r e' : c_create p n e = (r, e') -> fds e !! p = Some (DirDesc d) ->
    match r with
    | Opened fd => fds e !! fd = None /\ files e !! (d, n) = None /\
                   (exists m u, files e' = <[(d, n) := mkFile m u []]> (files e)) /\
                   fds e' = <[fd := FileDesc d n 0]> (fds e) /\
                   interrupts e' <= interrupts e /\ c_geteuid e' = c_geteuid e
    | _ => same e e'
    end;
  random_law n e r e' : c_random n e = (r, e') -> same e e' /\
    match r with
    | ReadBytes bytes => zlen bytes <= Z.max 0 n
    | ReadErr EINTR => interrupts e' < interrupts e
    | _ => True
    end;
  write_fd_law fd data d n f e r e' : c_write_fd fd data e = (r, e') ->
    fds e !! fd = Some (FileDesc d n (zlen (f_content f))) -> files e !! (d, n) = Some f ->
    interrupts e' <= interrupts e /\ c_geteuid e' = c_geteuid e /\
    match r with
    | Wrote k => 0 < k -> k <= zlen data /\
        files e' = <[(d, n) := mkFile (f_mode f) (f_uid f) (f_content f ++ ztake k data)]> (files e) /\
        fds e' = <[fd := FileDesc d n (zlen (f_content f) + k)]> (fds e)
    | WriteErr EINTR => same e e' /\ interrupts e' < interrupts e
    | WriteErr _ => same e e'
    end /\
    match r with Wrote k => k <= 0 -> same e e' | _ => True end;
  read_fd_law fd k d n pos f e r e' : c_read_fd fd k e = (r, e') ->
    fds e !! fd = Some (FileDesc d n pos) -> files e !! (d, n) = Some f ->
    files e' = files e /\ interrupts e' <= interrupts e /\ c_geteuid e' = c_geteuid e /\
    match r with
    | ReadBytes bytes => zlen bytes <= k /\ bytes = ztake (zlen bytes) (zdrop pos (f_content f)) /\
        fds e' = <[fd := FileDesc d n (pos + zlen bytes)]> (fds e)
    | ReadEof => zdrop pos (f_content f) = [] /\ fds e' = fds e
    | ReadErr EINTR => fds e' = fds e /\ interrupts e' < interrupts e
    | ReadErr _ => fds e' = fds e
    end;
  fsync_law fd e r e' : c_fsync fd e = (r, e') -> same e e';
  close_fd_law fd e r e' : c_close_fd fd e = (r, e') -> files e' = files e /\ fds e' = delete fd (fds e) /\
    interrupts e' <= interrupts e /\ c_geteuid e' = c_geteuid e;
  unlinkat_law p d n e : fds e !! p = Some (DirDesc d) ->
    files (c_unlinkat p n e) = delete (d, n) (files e) /\ fds (c_unlinkat p n e) = fds e /\
    interrupts (c_unlinkat p n e) <= interrupts e /\ c_geteuid (c_unlinkat p n e) = c_geteuid e
}.

Section spec.
Context {E : Type} `{SeedFs E}.

Lemma same_refl e : same e e.
Proof. by split_and!. Qed.

(** The 32 byte loop: [G] holds of what was read so far, [R] when it fails. *)
Lemma fill_32_spec get (G : list Z -> E -> Prop) (R : E -> Prop) e :
  (forall out e r e', G out e -> zlen out < 32 -> get (32 - zlen out) e = (r, e') ->
     match r with
     | ReadBytes ((_ :: _) as bytes) => G (out ++ bytes) e' /\ zlen bytes <= 32 - zlen out /\
                                        interrupts e' <= interrupts e
     | ReadErr EINTR => G out e' /\ interrupts e' < interrupts e
     | _ => R e'
     end) ->
  G [] e -> interrupts e < 2 ^ 61 ->
  wp (fill_32 get) (fun o e' => match o with
    | Ok (Some out) => G out e' /\ zlen out = 32
    | Ok None => R e'
    | _ => False end) e.
Proof.
  intros Hget HG Hi. unfold fill_32. apply (wp_loop _ (fun out e => G out e /\ zlen out <= 32)
    (fun out e => 32 - zlen out + interrupts e)).
  - clear e HG Hi. intros out e [HG Hl]. destruct (Z.ltb_spec (zlen out) 32) as [Hlt|Hge].
    + apply wp_bind, wp_ask. intros r e' Hr. cbn [ok_or]. specialize (Hget out e r e' HG Hlt Hr).
      pose proof (interrupts_pos e').
      destruct r as [[|b bytes]| |[]]; apply wp_ret; simpl; try done.
      * destruct Hget as (HG' & Hb & Hi). rewrite length_app. simpl length in *. split_and!; try done; lia.
      * destruct Hget as [HG' Hi]. split_and!; try done; lia.
    + apply wp_ret. simpl. split; [done|lia].
  - done.
  - pose proof (interrupts_pos e). change (Z.pos forever) with (2 ^ 62). simpl. lia.
Qed.

Lemma random_seed_spec e : interrupts e < 2 ^ 61 ->
  wp random_seed (fun o e' => same e e' /\
    match o with Ok (Some out) => zlen out = 32 | Ok None => True | _ => False end) e.
Proof.
  intros Hi. eapply wp_mono.
  - apply (fill_32_spec _ (fun _ e' => same e e') (fun e' => same e e')); [|apply same_refl|done].
    intros out e1 r e2 (F1 & D1 & I1 & U1) Hl Hr. destruct (random_law _ _ _ _ Hr) as [(F2 & D2 & I2 & U2) Hb].
    assert (Hs : same e e2) by (split_and!; congruence || lia).
    destruct r as [[|b bytes]| |[]]; try done. split; [done|]. split; [lia|done].
  - intros o e' Ho. by destruct o as [[out|]| | |].
Qed.

(** What is known of the file behind a descriptor. *)
Definition has_file (fd : Z) (key : list Z * list Z) (pos : Z) (f : file_t) (e : E) : Prop :=
  fds e !! fd = Some (FileDesc key.1 key.2 pos) /\ files e !! key = Some f.

Definition private (euid : Z) (f : file_t) : Prop :=
  S_ISREG (f_mode f) = true /\ f_uid f = euid /\ has_bits (f_mode f) 63 = false.

Lemma private_file_stat euid size f : private_file euid size (Some (f_stat f)) = true ->
  private euid f /\ zlen (f_content f) = size.
Proof.
  unfold private_file, private. simpl. intros Hp. apply andb_prop in Hp as [Hp Hs].
  apply andb_prop in Hp as [Hp Hb]. apply andb_prop in Hp as [Hr Hu].
  apply negb_true_iff in Hb. split_and!; try done; lia.
Qed.

(** Reading: the bytes come from the position, which moves. *)
Lemma read_32_spec fd key f e : has_file fd key 0 f e -> interrupts e < 2 ^ 61 ->
  wp (fill_32 (c_read_fd fd)) (fun o e' =>
    files e' = files e /\ delete fd (fds e') = delete fd (fds e) /\ c_geteuid e' = c_geteuid e /\
    interrupts e' <= interrupts e /\
    match o with
    | Ok (Some out) => zlen out = 32 /\ ztake 32 (f_content f) = out /\ has_file fd key 32 f e'
    | Ok None => True
    | _ => False end) e.
Proof.
  intros [Hd Hf] Hi.
  set (K := fun e' => files e' = files e /\ delete fd (fds e') = delete fd (fds e) /\ c_geteuid e' = c_geteuid e /\
    interrupts e' <= interrupts e).
  eapply wp_mono.
  - apply (fill_32_spec _ (fun out e' => K e' /\ ztake (zlen out) (f_content f) = out /\
      zlen out <= zlen (f_content f) /\ has_file fd key (zlen out) f e') K); [| |done].
    + intros out e1 r e2 ((F1 & D1 & U1 & I1) & Ht & Hle & Hd1 & Hf1) Hl Hr.
      destruct (read_fd_law _ _ _ _ _ _ _ _ _ Hr Hd1 ltac:(rewrite <- surjective_pairing; exact Hf1)) as (F2 & I2 & U2 & Hres).
      assert (HK : forall fds', delete fd fds' = delete fd (fds e1) -> fds e2 = fds' -> K e2)
        by (intros fds' ? ?; unfold K; split_and!; congruence || lia).
      assert (HK' : forall d, fds e2 = <[fd := d]> (fds e1) -> K e2)
        by (intros d Hd2; refine (HK _ _ Hd2); apply delete_insert_eq).
      assert (Hsame : fds e2 = fds e1 -> K e2) by (intros; by apply (HK (fds e1))).
      destruct r as [[|b bytes]| |[]]; try (apply Hsame, Hres); [apply (HK' _ (proj2 (proj2 Hres)))| |].
      * destruct Hres as (Hb & Heq & Hd2). set (new := b :: bytes) in *.
        pose proof (f_equal length Heq) as Hlen. unfold ztake, zdrop in Hlen. rewrite length_take, length_drop in Hlen.
        split; [|split; [lia|done]]. split; [by apply (HK' _ Hd2)|]. rewrite length_app.
        split; [|split; [lia|]].
        -- rewrite Heq at 2. rewrite <- Ht at 2. unfold ztake, zdrop. rewrite take_take_drop. f_equal. lia.
        -- split; [|congruence]. rewrite Hd2, lookup_insert_eq. do 2 f_equal. lia.
      * destruct Hres as [Hd2 Hi2]. split; [|done]. split; [by apply Hsame|].
        split_and!; try done. split; congruence.
    + split; [by unfold K|]. split_and!; try done; simpl; lia.
  - intros o e' Ho. destruct o as [[out|]| | |]; try done.
    + destruct Ho as ((HK & Ht & Hle & Hh) & Hl). rewrite Hl in *. destruct HK as (? & ? & ? & ?). by split_and!.
    + destruct Ho as (? & ? & ? & ?). by split_and!.
Qed.

(** Writing: whatever was written is in the file, all of it on success. *)
Lemma write_32_spec fd d n m u seed e :
  has_file fd (d, n) 0 (mkFile m u []) e -> zlen seed = 32 -> interrupts e < 2 ^ 61 ->
  wp (write_32 fd seed) (fun o e' => exists pos,
    let f := mkFile m u (ztake pos seed) in
    has_file fd (d, n) pos f e' /\ files e' = <[(d, n) := f]> (files e) /\
    delete fd (fds e') = delete fd (fds e) /\ interrupts e' <= interrupts e /\
    c_geteuid e' = c_geteuid e /\ match o with Ok ok => ok = true -> pos = 32 | _ => False end) e.
Proof.
  intros Hh Hl Hi. unfold write_32.
  apply (wp_loop _ (fun pos e' => 0 <= pos <= 32 /\ has_file fd (d, n) pos (mkFile m u (ztake pos seed)) e' /\
    files e' = <[(d, n) := mkFile m u (ztake pos seed)]> (files e) /\
    delete fd (fds e') = delete fd (fds e) /\ interrupts e' <= interrupts e /\ c_geteuid e' = c_geteuid e)
    (fun pos e' => 32 - pos + interrupts e')).
  - intros pos e1 (Hp & [Hd1 Hf1] & F1 & D1 & I1 & U1).
    assert (Hpos : zlen (f_content (mkFile m u (ztake pos seed))) = pos)
      by (simpl; rewrite ztake_length; lia).
    destruct (Z.ltb_spec pos 32) as [Hlt|Hge].
    2:{ apply wp_ret. simpl. exists pos. split_and!; try done. intros _. lia. }
    apply wp_bind, wp_ask. intros r e2 Hr. cbn [ok_or].
    assert (Hd1' := Hd1). simpl in Hd1'. rewrite <- Hpos in Hd1'.
    destruct (write_fd_law _ _ _ _ _ _ _ _ Hr Hd1' Hf1) as (I2 & U2 & Hres & Hz). rewrite Hpos in Hres.
    pose proof (interrupts_pos e2).
    assert (Hsame : files e2 = files e1 -> fds e2 = fds e1 ->
      has_file fd (d, n) pos (mkFile m u (ztake pos seed)) e2 /\
      files e2 = <[(d, n) := mkFile m u (ztake pos seed)]> (files e) /\
      delete fd (fds e2) = delete fd (fds e) /\ interrupts e2 <= interrupts e /\ c_geteuid e2 = c_geteuid e).
    { intros F2 D2. unfold has_file. rewrite F2, D2. split_and!; try done; [lia|congruence]. }
    destruct r as [k|[]]; [destruct (Z.gtb_spec k 0) as [Hk|Hk]|..]; apply wp_ret; simpl.
    + destruct (Hres ltac:(lia)) as (Hkl & F2 & D2). simpl in F2. rewrite zdrop_length in Hkl by lia.
      rewrite F1, insert_insert_eq, ztake_zdrop_app in F2 by lia.
      split; [|lia]. split; [lia|]. unfold has_file. rewrite F2, D2. simpl.
      rewrite !lookup_insert_eq, delete_insert_eq. split_and!; try done; [lia|congruence].
    + exists pos. destruct (Hz Hk) as (F2 & D2 & _). destruct (Hsame F2 D2) as (? & ? & ? & ? & ?). by split_and!.
    + destruct Hres as [(F2 & D2 & _) ?]. split; [split; [lia|by apply Hsame]|lia].
    + exists pos. destruct Hres as (F2 & D2 & _). destruct (Hsame F2 D2) as (? & ? & ? & ? & ?). by split_and!.
    + exists pos. destruct Hres as (F2 & D2 & _). destruct (Hsame F2 D2) as (? & ? & ? & ? & ?). by split_and!.
    + exists pos. destruct Hres as (F2 & D2 & _). destruct (Hsame F2 D2) as (? & ? & ? & ? & ?). by split_and!.
  - destruct Hh as [Hd Hf]. split_and!; try done; try lia. by rewrite insert_id.
  - pose proof (interrupts_pos e). change (Z.pos forever) with (2 ^ 62). lia.
Qed.

(** What every step keeps. *)
Definition calm (e e' : E) : Prop := interrupts e' <= interrupts e /\ c_geteuid e' = c_geteuid e.

Lemma calm_trans e1 e2 e3 : calm e1 e2 -> calm e2 e3 -> calm e1 e3.
Proof. intros [] []. split; [lia|congruence]. Qed.
Lemma calm_refl e : calm e e.
Proof. split; lia. Qed.

Lemma remove_created_spec parent d name fd e : fds e !! parent = Some (DirDesc d) ->
  (forall x, fd = Some x -> x <> parent) ->
  wp (remove_created parent name fd) (fun o e' => o = Ok false /\ calm e e' /\
    files e' = delete (d, name) (files e) /\
    fds e' = match fd with Some x => delete x (fds e) | None => fds e end) e.
Proof.
  intros Hp Hne. unfold remove_created.
  assert (Hend : forall e1 D, fds e1 = D -> D !! parent = Some (DirDesc d) -> files e1 = files e -> calm e e1 ->
    wp (modify (c_unlinkat parent name);; mret false) (fun o e' => o = Ok false /\ calm e e' /\
      files e' = delete (d, name) (files e) /\ fds e' = D) e1).
  { intros e1 D <- Hp1 F1 C1. apply wp_bind, wp_modify, wp_ret.
    destruct (unlinkat_law parent d name e1 Hp1) as (F2 & D2 & I2 & U2).
    split; [done|]. split; [by apply (calm_trans _ _ _ C1)|]. by rewrite F2, F1. }
  destruct fd as [x|].
  - apply wp_bind, wp_bind, wp_ask. intros ok e1 Hc. apply wp_ret. cbn [ok_or].
    destruct (close_fd_law _ _ _ _ Hc) as (F1 & D1 & I1 & U1). apply Hend; try done.
    rewrite lookup_delete_ne; [done|]. by apply Hne.
  - apply wp_bind, wp_ret. cbn [ok_or]. by apply Hend.
Qed.

Definition complete (euid : Z) (f : file_t) : Prop := private euid f /\ zlen (f_content f) = 32.

(** A new file becomes a complete one, or is removed again; only when the directory
    cannot be flushed the complete file stays although the caller hears of a failure. *)
Lemma store_seed_spec parent d name fd m u seed e :
  fds e !! parent = Some (DirDesc d) -> fd <> parent ->
  has_file fd (d, name) 0 (mkFile m u []) e -> zlen seed = 32 -> interrupts e < 2 ^ 61 ->
  wp (store_seed parent fd name seed) (fun o e' => calm e e' /\ fds e' = delete fd (fds e) /\
    let f := mkFile m u seed in
    (exists ok, o = Ok ok /\ (ok = true -> files e' = <[(d, name) := f]> (files e))) /\
    (files e' = delete (d, name) (files e) \/
     (files e' = <[(d, name) := f]> (files e) /\ complete (c_geteuid e) f))) e.
Proof.
  intros Hp Hne Hh Hl Hi. unfold store_seed.
  apply wp_bind, wp_gets. cbn [ok_or]. apply wp_bind, wp_ask. intros st e1 Hst. cbn [ok_or].
  destruct (fstat_fd_law _ _ _ _ Hst) as [(F1 & D1 & I1 & U1) Hstat].
  assert (Hremove : forall e2 (f : file_t) o fds', fds e2 !! parent = Some (DirDesc d) ->
    (forall x, o = Some x -> x <> parent) -> calm e e2 -> files e2 = <[(d, name) := f]> (files e) ->
    fds' = match o with Some x => delete x (fds e2) | None => fds e2 end -> fds' = delete fd (fds e) ->
    wp (remove_created parent name o) (fun o e' => calm e e' /\ fds e' = delete fd (fds e) /\
      (exists ok, o = Ok ok /\ (ok = true -> files e' = <[(d, name) := mkFile m u seed]> (files e))) /\
      (files e' = delete (d, name) (files e) \/
       (files e' = <[(d, name) := mkFile m u seed]> (files e) /\ complete (c_geteuid e) (mkFile m u seed)))) e2).
  { intros e2 f o fds' Hp2 Ho C2 F2 -> Hd. eapply wp_mono; [by apply remove_created_spec|].
    intros r e3 (-> & C3 & F3 & D3). split; [by eapply calm_trans|]. split; [congruence|].
    split; [by exists false|]. left. rewrite F3, F2. apply delete_insert_eq. }
  destruct Hh as [Hd Hf].
  destruct (private_file _ 0 st) eqn:Epriv; cbn [negb].
  2:{ eapply (Hremove e1 (mkFile m u []) (Some fd)); try done; [by rewrite D1|congruence| |by rewrite D1].
      rewrite F1. by rewrite insert_id. }
  assert (Hpriv : private (c_geteuid e) (mkFile m u seed)).
  { destruct st as [st|]; [|done]. rewrite (Hstat st d name 0 (mkFile m u [])) in Epriv by (done || congruence).
    by apply private_file_stat in Epriv as [? _]. }
  apply wp_bind. eapply wp_mono.
  { apply (write_32_spec fd d name m u seed); [split; [by rewrite D1|by rewrite F1]|done|lia]. }
  intros o e2 (pos & [Hd2 Hf2] & F2 & D2 & I2 & U2 & Hok). destruct o as [written| | |]; try done. cbn [ok_or].
  rewrite F1 in F2. rewrite D1 in D2.
  assert (Hp2 : fds e2 !! parent = Some (DirDesc d)).
  { rewrite <- Hp, <- (lookup_delete_ne (fds e2) fd), D2 by done. by rewrite lookup_delete_ne. }
  assert (C2 : calm e e2) by (split; [lia|congruence]).
  destruct written; cbn [negb]; [|by eapply (Hremove e2 _ (Some fd)); try done; congruence].
  rewrite (Hok eq_refl) in *. rewrite (ztake_all seed) in F2, Hf2 by lia.
  apply wp_bind, wp_ask. intros synced e3 Hs. cbn [ok_or].
  apply fsync_law in Hs as (F3 & D3 & I3 & U3).
  apply wp_bind, wp_ask. intros closed e4 Hc. cbn [ok_or].
  destruct (close_fd_law _ _ _ _ Hc) as (F4 & D4 & I4 & U4).
  assert (C4 : calm e e4) by (split; [destruct C2; lia|destruct C2; congruence]).
  assert (D : fds e4 = delete fd (fds e)) by (rewrite D4, D3; done).
  assert (Hp4 : fds e4 !! parent = Some (DirDesc d)) by (rewrite D; by rewrite lookup_delete_ne).
  destruct (synced && closed); cbn [negb].
  - apply wp_ask. intros ok e5 Hs5. apply fsync_law in Hs5 as (F5 & D5 & I5 & U5).
    split; [destruct C4; split; [lia|congruence]|]. split; [congruence|].
    split; [exists ok; split; [done|]; intros _; congruence|]. right. split; [congruence|]. by split.
  - eapply (Hremove e4 (mkFile m u seed) None); try done. congruence.
Qed.

(** The seed handed out is the content of a private file. *)
Definition stored (key : list Z * list Z) (euid : Z) (seed : list Z) (e : E) : Prop :=
  exists f, files e !! key = Some f /\ complete euid f /\ f_content f = seed.

Lemma load_seed_spec d n fd f e : has_file fd (d, n) 0 f e -> interrupts e < 2 ^ 61 ->
  wp (load_seed fd) (fun o e' => calm e e' /\ files e' = files e /\ fds e' = delete fd (fds e) /\
    exists r, o = Ok r /\ forall s, r = Some s -> stored (d, n) (c_geteuid e) s e') e.
Proof.
  intros [Hd Hf] Hi. unfold load_seed.
  apply wp_bind, wp_gets. cbn [ok_or]. apply wp_bind, wp_ask. intros st e1 Hst. cbn [ok_or].
  destruct (fstat_fd_law _ _ _ _ Hst) as [(F1 & D1 & I1 & U1) Hstat].
  assert (Hclose : forall r e2, calm e e2 -> files e2 = files e -> delete fd (fds e2) = delete fd (fds e) ->
    (forall s, r = Some s -> stored (d, n) (c_geteuid e) s e) ->
    wp (closed ← ask (c_close_fd fd); mret (if (closed : bool) then r else None))
      (fun o e' => calm e e' /\ files e' = files e /\ fds e' = delete fd (fds e) /\
        exists r, o = Ok r /\ forall s, r = Some s -> stored (d, n) (c_geteuid e) s e') e2).
  { intros r e2 C2 F2 D2 Hs. apply wp_bind, wp_ask. intros closed e3 Hc. apply wp_ret.
    destruct (close_fd_law _ _ _ _ Hc) as (F3 & D3 & I3 & U3).
    split; [by apply (calm_trans _ _ _ C2)|]. split; [congruence|]. split; [congruence|].
    eexists. split; [done|]. intros s Hr. unfold stored. rewrite F3, F2. apply Hs. by destruct closed. }
  apply wp_bind. destruct (private_file _ 32 st) eqn:Epriv.
  2:{ apply wp_ret. cbn [ok_or]. apply Hclose; try done; first [by split|congruence]. }
  assert (Hpriv : complete (c_geteuid e) f).
  { destruct st as [st|]; [|done]. rewrite (Hstat st d n 0 f) in Epriv by (done || congruence).
    by apply private_file_stat in Epriv. }
  apply wp_bind. eapply wp_mono; [apply (read_32_spec fd (d, n) f);
    [split; [by rewrite D1|by rewrite F1]|lia]|]. intros o e2 (F2 & D2 & U2 & I2 & Ho).
  assert (C2 : calm e e2) by (split; [lia|congruence]).
  destruct o as [[out|]| | |]; try done; cbn [ok_or].
  - destruct Ho as (Hl & Ht & Hh2). apply wp_bind, wp_ask. intros extra e3 Hx. cbn [ok_or].
    destruct Hh2 as [Hd2 Hf2]. destruct (read_fd_law _ _ _ _ _ _ _ _ _ Hx Hd2 Hf2) as (F3 & I3 & U3 & Hres).
    apply wp_ret. apply Hclose.
    + apply (calm_trans _ _ _ C2). by split.
    + congruence.
    + destruct extra as [bytes| |[]]; (destruct Hres as (? & ? & ->) || destruct Hres as (? & ->) ||
        destruct Hres as (-> & ?) || rewrite Hres); rewrite ?delete_insert_eq; congruence.
    + intros s Hs. destruct extra; try done. injection Hs as <-. exists f. split; [done|].
      split; [done|]. destruct Hpriv as [_ Hl32]. rewrite ztake_all in Ht by lia. done.
  - apply wp_ret. apply Hclose; try done; congruence.
Qed.

Lemma complete_stored key euid f seed e : files e !! key = Some f -> complete euid f -> f_content f = seed ->
  stored key euid seed e.
Proof. by exists f. Qed.

(** A failed run leaves the directory as it was, or with a complete new file; a
    successful one returns what is stored. *)
Definition seeded (key : list Z * list Z) (e : E) (o : outcome (option (list Z))) (e' : E) : Prop :=
  calm e e' /\ fds e' = fds e /\
  (files e' = files e \/
   (files e !! key = None /\ exists f, files e' = <[key := f]> (files e) /\ complete (c_geteuid e) f)) /\
  exists r, o = Ok r /\ forall s, r = Some s -> stored key (c_geteuid e) s e'.

Lemma seeded_none key e e' : calm e e' -> fds e' = fds e -> files e' = files e -> seeded key e (Ok None) e'.
Proof. intros. split; [done|]. split; [done|]. split; [by left|]. by exists None. Qed.

Lemma seeded_from key e e1 o e' : calm e e1 -> fds e1 = fds e -> files e1 = files e ->
  seeded key e1 o e' -> seeded key e o e'.
Proof.
  intros C1 D1 F1 (C & D & F & R). unfold seeded. destruct C1 as [I1 U1]. rewrite <- D1, <- F1, <- U1.
  split; [|done]. by apply (calm_trans _ e1).
Qed.

(** The file is open: [fds] has one descriptor more until [load_seed] closes it. *)
Lemma load_opened d n fd e e1 : fds e !! fd = None -> is_Some (files e !! (d, n)) -> files e1 = files e ->
  fds e1 = <[fd := FileDesc d n 0]> (fds e) -> calm e e1 -> interrupts e < 2 ^ 61 ->
  wp (load_seed fd) (seeded (d, n) e) e1.
Proof.
  intros Hnew [f Hf] F1 D1 C1 Hi. destruct (C1) as [I1 U1].
  eapply wp_mono; [apply (load_seed_spec d n fd f); [split; [by rewrite D1, lookup_insert_eq|congruence]|lia]|].
  intros o e2 (C2 & F2 & D2 & r & -> & Hr). split; [by apply (calm_trans _ e1)|].
  split; [rewrite D2, D1; by apply delete_insert_id|]. split; [left; congruence|].
  exists r. split; [done|]. rewrite <- U1. exact Hr.
Qed.

Lemma load_again_spec parent d n e : fds e !! parent = Some (DirDesc d) -> interrupts e < 2 ^ 61 ->
  wp (load_again parent n) (seeded (d, n) e) e.
Proof.
  intros Hp Hi. apply wp_bind, wp_ask. intros r e1 Hr. cbn [ok_or].
  pose proof (openat_law _ _ _ _ _ _ Hr Hp) as Hl. destruct r as [fd| | |].
  - destruct Hl as (? & ? & ? & ? & ? & ?). by apply load_opened.
  - destruct Hl as (_ & ? & ? & ?). by apply wp_ret, seeded_none.
  - destruct Hl as (? & ? & ?). by apply wp_ret, seeded_none.
  - destruct Hl as (? & ? & ?). by apply wp_ret, seeded_none.
Qed.

Lemma make_seed_spec parent d n e : fds e !! parent = Some (DirDesc d) -> interrupts e < 2 ^ 61 ->
  wp (make_seed parent n) (seeded (d, n) e) e.
Proof.
  intros Hp Hi. apply wp_bind. eapply wp_mono; [by apply random_seed_spec|].
  intros o e1 ((F1 & D1 & C1) & Ho). destruct o as [[seed|]| | |]; try done; cbn [ok_or];
    [|by apply wp_ret, seeded_none].
  apply wp_bind, wp_ask. intros r e2 Hr. cbn [ok_or].
  assert (Hp1 : fds e1 !! parent = Some (DirDesc d)) by congruence.
  pose proof (create_law _ _ _ _ _ _ Hr Hp1) as Hl.
  assert (Hsame : same e1 e2 -> calm e e2 /\ fds e2 = fds e /\ files e2 = files e)
    by (intros (F2 & D2 & C2); split; [by apply (calm_trans _ e1)|split; congruence]).
  destruct r as [fd| | |].
  - destruct Hl as (Hnew & Habs & (m & u & F2) & D2 & C2).
    assert (Hne : fd <> parent) by (intros ->; congruence).
    apply wp_bind. eapply wp_mono.
    { apply (store_seed_spec parent d n fd m u seed).
      - rewrite D2. by rewrite lookup_insert_ne.
      - done.
      - split; simpl; [by rewrite D2, lookup_insert_eq|by rewrite F2, lookup_insert_eq].
      - done.
      - destruct C1, C2. lia. }
    intros o e3 (C3 & D3 & (ok & -> & Hok) & Hfiles). apply wp_ret. cbn [ok_or].
    assert (Hu : c_geteuid e2 = c_geteuid e) by (destruct C1, C2; congruence).
    rewrite F2, insert_insert_eq, F1, Hu in Hfiles. rewrite F2, insert_insert_eq, F1 in Hok.
    rewrite F1 in Habs.
    split; [apply (calm_trans _ e1 _ C1), (calm_trans _ e2 _ C2), C3|].
    split; [rewrite D3, D2, D1; apply delete_insert_id; congruence|]. split.
    + destruct Hfiles as [->|[-> Hc]]; [left; by apply delete_insert_id|right].
      split; [done|]. by eexists.
    + eexists. split; [done|]. intros s Hs. destruct ok; [|done]. injection Hs as <-.
      rewrite (Hok eq_refl) in Hfiles. destruct Hfiles as [Hbad|[_ Hc]].
      * exfalso. apply (f_equal (.!! (d, n))) in Hbad.
        rewrite lookup_insert_eq, lookup_delete_eq in Hbad. done.
      * eapply complete_stored; [|exact Hc|done]. by rewrite (Hok eq_refl), lookup_insert_eq.
  - destruct (Hsame Hl) as (? & ? & ?). by apply wp_ret, seeded_none.
  - destruct (Hsame Hl) as (? & ? & ?). eapply wp_mono.
    + apply (load_again_spec parent d n e2); [congruence|]. destruct H1. lia.
    + intros o e3. by apply seeded_from.
  - destruct (Hsame Hl) as (? & ? & ?). by apply wp_ret, seeded_none.
Qed.

Lemma seed_in_spec parent d n e : fds e !! parent = Some (DirDesc d) -> interrupts e < 2 ^ 61 ->
  wp (seed_in parent n) (seeded (d, n) e) e.
Proof.
  intros Hp Hi. apply wp_bind, wp_ask. intros r e1 Hr. cbn [ok_or].
  pose proof (openat_law _ _ _ _ _ _ Hr Hp) as Hl.
  assert (Hagain : same e e1 -> wp (load_again parent n) (seeded (d, n) e) e1).
  { intros (F1 & D1 & C1). eapply wp_mono; [apply (load_again_spec parent d n e1); [congruence|lia]|].
    intros o e2. by apply seeded_from. }
  destruct r as [fd| | |].
  - destruct Hl as (? & ? & ? & ? & ? & ?). by apply load_opened.
  - destruct Hl as (_ & F1 & D1 & C1). eapply wp_mono.
    + apply (make_seed_spec parent d n e1); [congruence|lia].
    + intros o e2. by apply seeded_from.
  - by apply Hagain.
  - by apply Hagain.
Qed.

Lemma host_seed_run path seed0 dir name e : seed_path path = Some (dir, name) -> interrupts e < 2 ^ 61 ->
  wp (host_seed path seed0) (fun o e' => fds e' = fds e /\
    (files e' = files e \/ (files e !! (dir, name) = None /\
       exists f, files e' = <[(dir, name) := f]> (files e) /\ complete (c_geteuid e) f)) /\
    exists (ok : bool) s, o = Ok (ok, s) /\
      if ok then stored (dir, name) (c_geteuid e) s e' else s = zeros 32) e.
Proof.
  intros Hpath Hi. unfold host_seed. rewrite Hpath.
  apply wp_bind, wp_ask. intros p e1 Hp. cbn [ok_or]. apply opendir_law in Hp.
  destruct p as [parent|].
  2:{ destruct Hp as (F1 & D1 & _). apply wp_ret. split; [done|]. split; [by left|]. by exists false, (zeros 32). }
  destruct Hp as (Hnew & F1 & D1 & C1).
  apply wp_bind, wp_gets. cbn [ok_or]. apply wp_bind, wp_ask. intros st e2 Hst. cbn [ok_or].
  destruct (fstat_fd_law _ _ _ _ Hst) as [(F2 & D2 & C2) _].
  assert (C12 : calm e e2) by by apply (calm_trans _ e1).
  assert (Hfrom : forall o e', seeded (dir, name) e2 o e' -> calm e e' /\ fds e' = fds e2 /\
    (files e' = files e \/ (files e !! (dir, name) = None /\
       exists f, files e' = <[(dir, name) := f]> (files e) /\ complete (c_geteuid e) f)) /\
    exists r, o = Ok r /\ forall s, r = Some s -> stored (dir, name) (c_geteuid e) s e').
  { intros o e' (C & D & Fs & R). rewrite F2, F1 in Fs. destruct (C12) as [_ <-].
    split; [by apply (calm_trans _ e2)|]. by split_and!. }
  apply wp_bind, (wp_mono _ (seeded (dir, name) e2)).
  { destruct (private_dir _ st); [|by apply wp_ret, seeded_none].
    apply seed_in_spec; [by rewrite D2, D1, lookup_insert_eq|destruct C12; lia]. }
  intros o e3 Hs. destruct (Hfrom _ _ Hs) as (C3 & D3 & F3 & r & -> & Hr). cbn [ok_or].
  apply wp_bind, wp_ask. intros closed e4 Hc. cbn [ok_or].
  destruct (close_fd_law _ _ _ _ Hc) as (F4 & D4 & C4). apply wp_ret.
  split; [rewrite D4, D3, D2, D1; by apply delete_insert_id|]. split; [by rewrite F4|].
  destruct r as [s|]; [destruct closed|].
  - exists true, s. split; [done|]. unfold stored. rewrite F4. by apply Hr.
  - by exists false, (zeros 32).
  - by exists false, (zeros 32).
Qed.

(** C17: [host_seed] always returns, and leaves no descriptor open. Where the path names no
    file it refuses, and the seed array is untouched. Otherwise the directory afterwards is
    what it was, or it has one more file, where none was, that is complete: private to the
    daemon and 32 bytes long. If it succeeds, the seed is 32 bytes, the content of such a
    private file; if it fails, the array is zero. *)
Theorem host_seed_correct path seed0 e : interrupts e < 2 ^ 61 ->
  exists (ok : bool) s e', host_seed path seed0 e = (Ok (ok, s), e') /\ fds e' = fds e /\
  match seed_path path with
  | None => ok = false /\ s = seed0 /\ files e' = files e
  | Some key =>
      (files e' = files e \/
       (files e !! key = None /\ exists f, files e' = <[key := f]> (files e) /\ complete (c_geteuid e) f)) /\
      if ok then stored key (c_geteuid e) s e' else s = zeros 32
  end.
Proof.
  intros Hi. destruct (seed_path path) as [[dir name]|] eqn:Hpath.
  - pose proof (host_seed_run path seed0 dir name e Hpath Hi) as Hw. unfold wp in Hw.
    destruct (host_seed path seed0 e) as [o e']. destruct Hw as (D & F & ok & s & -> & Hs).
    by exists ok, s, e'.
  - exists false, seed0, e. unfold host_seed. by rewrite Hpath.
Qed.

(** The host identity is stable: whatever happened between two successful runs of
    [host_seed] on a path, as long as the files are the same, they give the same seed; in
    particular the first one, which may have made the file, and the next start. *)
Theorem host_seed_stable path seed1 seed2 e1 e2 s1 s2 e1' e2' :
  interrupts e1 < 2 ^ 61 -> interrupts e2 < 2 ^ 61 -> files e2 = files e1' ->
  host_seed path seed1 e1 = (Ok (true, s1), e1') -> host_seed path seed2 e2 = (Ok (true, s2), e2') ->
  s2 = s1.
Proof.
  intros Hi1 Hi2 F R1 R2. destruct (seed_path path) as [[dir name]|] eqn:Hpath;
    [|unfold host_seed in R1; by rewrite Hpath in R1].
  destruct (wp_run _ _ _ _ _ (host_seed_run path seed1 dir name e1 Hpath Hi1) R1) as (_ & _ & ok1 & t1 & E1 & H1).
  destruct (wp_run _ _ _ _ _ (host_seed_run path seed2 dir name e2 Hpath Hi2) R2) as (_ & F2 & ok2 & t2 & E2 & H2).
  injection E1 as <- <-. injection E2 as <- <-.
  destruct H1 as (f1 & L1 & _ & <-), H2 as (f2 & L2 & _ & <-). rewrite <- F in L1.
  destruct F2 as [F2|(Hnone & _)]; congruence.
Qed.
End spec.

(** ** A directory *)

Record sample_fs : Type := mkFs { s_files : gmap (list Z * list Z) file_t; s_fds : gmap Z desc }.

Definition sample_fd (m : gmap Z desc) : option Z :=
  match m !! 3 with None => Some 3 | Some _ => match m !! 4 with None => Some 4 | Some _ => None end end.
Definition sample_file (fd : Z) (e : sample_fs) : option (list Z * list Z * Z * file_t) :=
  match s_fds e !! fd with
  | Some (FileDesc d n pos) => f ← s_files e !! (d, n); Some (d, n, pos, f)
  | _ => None
  end.
Definition sample_open (fd : Z) (x : desc) (e : sample_fs) : sample_fs := mkFs (s_files e) (<[fd := x]> (s_fds e)).
Definition sample_at {A} (p : Z) (fail : A) (k : list Z -> Z -> A) (e : sample_fs) : A :=
  match s_fds e !! p, sample_fd (s_fds e) with Some (DirDesc d), Some fd => k d fd | _, _ => fail end.

#[export] Instance sample_seed_host : SeedHost sample_fs := {
  c_geteuid _ := 0;
  c_opendir dir e :=
    match sample_fd (s_fds e) with Some fd => (Some fd, sample_open fd (DirDesc dir) e) | None => (None, e) end;
  c_fstat_fd fd e :=
    (match sample_file fd e with Some (_, _, _, f) => Some (f_stat f) | None => Some (mkStat 16832 0 0) end, e);
  c_openat p n e := sample_at p (OpenFailed, e) (fun d fd =>
    match s_files e !! (d, n) with
    | Some _ => (Opened fd, sample_open fd (FileDesc d n 0) e)
    | None => (NoEntry, e)
    end) e;
  c_create p n e := sample_at p (OpenFailed, e) (fun d fd =>
    match s_files e !! (d, n) with
    | Some _ => (Exists, e)
    | None => (Opened fd, mkFs (<[(d, n) := mkFile 33152 0 []]> (s_files e)) (<[fd := FileDesc d n 0]> (s_fds e)))
    end) e;
  c_random n e := (ReadBytes (ztake n (replicate 32 7)), e);
  c_write_fd fd data e :=
    match sample_file fd e with
    | Some (d, n, pos, f) =>
        (Wrote (zlen data), mkFs (<[(d, n) := mkFile (f_mode f) (f_uid f) (f_content f ++ data)]> (s_files e))
                                 (<[fd := FileDesc d n (pos + zlen data)]> (s_fds e)))
    | None => (WriteErr EIO, e)
    end;
  c_read_fd fd k e :=
    match sample_file fd e with
    | Some (d, n, pos, f) =>
        match ztake k (zdrop pos (f_content f)) with
        | [] => (match zdrop pos (f_content f) with [] => ReadEof | _ => ReadErr EIO end, e)
        | bytes => (ReadBytes bytes, sample_open fd (FileDesc d n (pos + zlen bytes)) e)
        end
    | None => (ReadErr EIO, e)
    end;
  c_fsync _ e := (true, e);
  c_close_fd fd e := (true, mkFs (s_files e) (delete fd (s_fds e)));
  c_unlinkat p n e :=
    match s_fds e !! p with Some (DirDesc d) => mkFs (delete (d, n) (s_files e)) (s_fds e) | _ => e end
}.

Lemma sample_fd_new m fd : sample_fd m = Some fd -> m !! fd = None.
Proof. unfold sample_fd. repeat case_match; intros; simplify_eq; done. Qed.

Lemma sample_file_at fd d n pos f e : s_fds e !! fd = Some (FileDesc d n pos) -> s_files e !! (d, n) = Some f ->
  sample_file fd e = Some (d, n, pos, f).
Proof. intros Hd Hf. unfold sample_file. rewrite Hd. simpl. by rewrite Hf. Qed.

#[export, refine] Instance sample_seed_fs : SeedFs sample_fs := {|
  files := s_files; fds := s_fds; interrupts _ := 0 |}.
Proof.
  - done.
  - intros dir e r e' Hr. simpl in Hr. destruct (sample_fd (s_fds e)) as [fd|] eqn:Efd; injection Hr as <- <-.
    + split; [by apply sample_fd_new|]. by split_and!.
    + by split_and!.
  - intros fd e r e' Hr. injection Hr as <- <-. split; [by split_and!|]. intros st d n pos f Hst Hd Hf.
    rewrite (sample_file_at _ _ _ _ _ _ Hd Hf) in Hst. by injection Hst.
  - intros p d n e r e' Hr Hp. simpl in Hr. unfold sample_at in Hr. rewrite Hp in Hr.
    destruct (sample_fd (s_fds e)) as [fd|] eqn:Efd; [|injection Hr as <- <-; by split_and!].
    destruct (s_files e !! (d, n)) eqn:Ef; injection Hr as <- <-; [|by split_and!].
    split; [by apply sample_fd_new|]. by split_and!.
  - intros p d n e r e' Hr Hp. simpl in Hr. unfold sample_at in Hr. rewrite Hp in Hr.
    destruct (sample_fd (s_fds e)) as [fd|] eqn:Efd; [|injection Hr as <- <-; by split_and!].
    destruct (s_files e !! (d, n)) eqn:Ef; injection Hr as <- <-; [by split_and!|].
    split; [by apply sample_fd_new|]. split_and!; try done. by exists 33152, 0.
  - intros n e r e' Hr. injection Hr as <- <-. split; [by split_and!|]. unfold ztake. rewrite length_take. lia.
  - intros fd data d n f e r e' Hr Hd Hf. simpl in Hr. rewrite (sample_file_at _ _ _ _ _ _ Hd Hf) in Hr.
    injection Hr as <- <-. split_and!; try done.
    + intros Hk. rewrite ztake_all by lia. by split_and!.
    + intros Hk. destruct data; [|simpl in Hk; lia]. simpl. rewrite app_nil_r, Z.add_0_r.
      destruct f. simpl in *. split_and!; try done; by apply insert_id.
  - intros fd k d n pos f e r e' Hr Hd Hf. simpl in Hr. rewrite (sample_file_at _ _ _ _ _ _ Hd Hf) in Hr.
    destruct (ztake k (zdrop pos (f_content f))) as [|b bs'] eqn:Et.
    + destruct (zdrop pos (f_content f)) eqn:Ed; injection Hr as <- <-; by split_and!.
    + injection Hr as <- <-. simpl. split_and!; try done.
      * apply (f_equal length) in Et. unfold ztake in Et. rewrite length_take in Et. simpl in *. lia.
      * rewrite <- Et at 1. apply (f_equal length) in Et. unfold ztake in Et |- *.
        rewrite length_take in Et. simpl in Et.
        destruct (decide (Z.to_nat k <= length (zdrop pos (f_content f)))%nat);
          [f_equal; simpl; lia|rewrite !take_ge by (simpl; lia); done].
  - intros fd e r e' Hr. injection Hr as <- <-. by split_and!.
  - intros fd e r e' Hr. injection Hr as <- <-. by split_and!.
  - intros p d n e Hp. simpl. rewrite Hp. by split_and!.
Defined.

Lemma host_seed_correct_witness : (0 < 2 ^ 61) /\
  exists (ok : bool) s e', host_seed (bs "/a/b") [] (mkFs empty empty) = (Ok (ok, s), e').
Proof.
  split; [lia|]. destruct (host_seed_correct (bs "/a/b") [] (mkFs empty empty)) as (ok & s & e' & Hr & _).
  - reflexivity.
  - exists ok, s, e'. exact Hr.
Defined.

Lemma host_seed_stable_witness :
  let r1 := host_seed (bs "/a/b") [] (mkFs empty empty) in
  let r2 := host_seed (bs "/a/b") [] (mkFs (s_files r1.2) empty) in
  exists s1 s2, r1.1 = Ok (true, s1) /\ r2.1 = Ok (true, s2) /\ s2 = s1.
Proof.
  intros r1 r2. exists (replicate 32 7), (replicate 32 7).
  split; [vm_compute; reflexivity|]. split; [vm_compute; reflexivity|].
  apply (host_seed_stable (bs "/a/b") [] [] (mkFs empty empty) (mkFs (s_files r1.2) empty) _ _ r1.2 r2.2);
    [reflexivity|reflexivity|reflexivity|vm_compute; reflexivity|vm_compute; reflexivity].
Defined.
