(* ===== verification/Listen.v ===== *)
(** The listening socket of the daemon (server/daemon_runtime.c): [noxsshd_listen_posix]
    binds one of the addresses of the host, and then serves each client in a process of its
    own, at most four at a time. [DaemonHost] is the class of its calls; [Processes] states
    what they do to the sockets and the children of the daemon. *)

From stdpp Require Import gmap.
From S2P Require Export Posix.

(** ** The calls *)

Class DaemonHost (E : Type) : Type := {
  addrinfo : Type;
  (** [getaddrinfo(host, port, ..)]: the list, [None] for an error *)
  c_getaddrinfo : option (list Z) -> Z -> E -> option (list addrinfo) * E;
  c_socket : addrinfo -> E -> Z * E;
  (** [setsockopt(fd, SOL_SOCKET, SO_REUSEADDR, ..)], [bind] and [listen] are 0 *)
  c_reuseaddr : Z -> E -> bool * E;
  c_bind : Z -> addrinfo -> E -> bool * E;
  c_listen : Z -> E -> bool * E;
  (** [sigaction(SIGCHLD, ..) == 0] *)
  c_sigaction : E -> bool * E;
  (** [waitpid(-1, NULL, WNOHANG)] *)
  c_waitpid_any : E -> Z * E;
  c_accept : Z -> E -> Z * E;
  (** the send and receive timeouts of a client *)
  c_timeouts : Z -> E -> E;
  (** [fork()] in the daemon; the child serves the client and exits *)
  c_fork_client : Z -> E -> Z * E;
  c_close_socket : Z -> E -> E
}.

(** ** The code *)

Section code.
Context {E : Type} `{DaemonHost E}.

(** A socket bound to the first address that allows it. *)
Fixpoint bind_first (res : list addrinfo) : M E (option Z) :=
  match res with
  | [] => mret None
  | rp :: rest =>
      listen_fd ← ask (c_socket rp);
      if listen_fd =? -1 then bind_first rest
      else
        reuse ← ask (c_reuseaddr listen_fd);
        if negb reuse then modify (c_close_socket listen_fd);; bind_first rest
        else
          bound ← ask (c_bind listen_fd rp);
          if (bound : bool) then mret (Some listen_fd)
          else modify (c_close_socket listen_fd);; bind_first rest
  end.

(** Up to the loop; [None] is [return 1]. *)
Definition open_listener (bind_host : option (list Z)) (port : Z) : M E (option Z) :=
  let host := match bind_host with Some ((_ :: _) as h) => Some h | _ => None end in
  res ← ask (c_getaddrinfo host port);
  match res with
  | None | Some [] => mret None
  | Some res =>
      fd ← bind_first res;
      match fd with
      | None => mret None
      | Some listen_fd =>
          listening ← ask (c_listen listen_fd);
          if negb listening then modify (c_close_socket listen_fd);; mret None
          else
            handled ← ask c_sigaction;
            if negb handled then modify (c_close_socket listen_fd);; mret None
            else mret (Some listen_fd)
      end
  end.

(** [while((done = waitpid(-1, NULL, WNOHANG)) > 0) { if(active) active--; }] *)
Definition reap : Z -> M E Z :=
  loop forever (fun active =>
    done ← ask c_waitpid_any;
    if done >? 0 then mret (inl (if negb (active =? 0) then active - 1 else active))
    else mret (inr active)).

(** A client: refused when four are served already. *)
Definition serve_client (active client : Z) : M E Z :=
  if active >=? 4 then modify (c_close_socket client);; mret active
  else
    modify (c_timeouts client);;
    child ← ask (c_fork_client client);
    modify (c_close_socket client);;
    mret (if child >? 0 then u32 (active + 1) else active).

(** One pass of the endless loop. *)
Definition listen_pass (listen_fd active : Z) : M E Z :=
  active ← reap active;
  client ← ask (c_accept listen_fd);
  if client =? -1 then mret active else serve_client active client.
End code.

(** ** What the calls do *)

(** The open sockets, the children that were not waited for yet, and those of them that have
    ended. A failed call changes neither the sockets nor the children; a child may end at any
    time, and is then there for [waitpid], which without blocking finds one as long as there
    is one. *)
Class Processes (E : Type) `{DaemonHost E} : Type := {
  sockets : E -> gset Z;
  children : E -> gset Z;
  ended : E -> gset Z;
  idle (e e' : E) : Prop := sockets e' = sockets e /\ children e' = children e;
  getaddrinfo_law h p e : idle e (c_getaddrinfo h p e).2;
  socket_law a e fd e' : c_socket a e = (fd, e') -> children e' = children e /\
    if fd =? -1 then sockets e' = sockets e
    else (fd ∉ sockets e) /\ sockets e' = ({[fd]} ∪ sockets e);
  reuseaddr_law fd e : idle e (c_reuseaddr fd e).2;
  bind_law fd a e : idle e (c_bind fd a e).2;
  listen_law fd e : idle e (c_listen fd e).2;
  sigaction_law e : idle e (c_sigaction e).2;
  waitpid_any_law e pid e' : c_waitpid_any e = (pid, e') -> sockets e' = sockets e /\
    if pid >? 0 then (pid ∈ children e) /\ children e' = (children e ∖ {[pid]}) /\ (ended e ∖ {[pid]}) ⊆ ended e'
    else children e' = children e /\ children e ## ended e;
  accept_law fd e client e' : c_accept fd e = (client, e') -> children e' = children e /\
    if client =? -1 then sockets e' = sockets e
    else (client ∉ sockets e) /\ sockets e' = ({[client]} ∪ sockets e);
  timeouts_law fd e : idle e (c_timeouts fd e);
  fork_client_law fd e child e' : c_fork_client fd e = (child, e') -> sockets e' = sockets e /\
    if child >? 0 then (child ∉ children e) /\ children e' = ({[child]} ∪ children e)
    else children e' = children e;
  close_socket_law fd e : sockets (c_close_socket fd e) = (sockets e ∖ {[fd]}) /\
    children (c_close_socket fd e) = children e
}.

Section spec.
Context {E : Type} `{Processes E}.

Lemma close_opened (fd : Z) (s : gset Z) : fd ∉ s -> ({[fd]} ∪ s) ∖ {[fd]} = s.
Proof. set_solver. Qed.

(** A failed attempt closes what it opened. *)
Lemma bind_first_spec res e : wp (bind_first res) (fun o e' => children e' = children e /\
  match o with
  | Ok (Some fd) => (fd ∉ sockets e) /\ sockets e' = ({[fd]} ∪ sockets e)
  | Ok None => sockets e' = sockets e
  | _ => False
  end) e.
Proof.
  revert e. induction res as [|rp rest IH]; intros e; [by apply wp_ret|]. cbn [bind_first].
  apply wp_bind, wp_ask. intros fd e1 Hs. cbn [ok_or]. destruct (socket_law _ _ _ _ Hs) as [C1 S1].
  assert (Hrest : forall e2, sockets e2 = sockets e -> children e2 = children e ->
    wp (bind_first rest) (fun o e' => children e' = children e /\
      match o with
      | Ok (Some fd) => (fd ∉ sockets e) /\ sockets e' = ({[fd]} ∪ sockets e)
      | Ok None => sockets e' = sockets e
      | _ => False
      end) e2).
  { intros e2 S2 C2. eapply wp_mono; [apply IH|]. intros o e3. by rewrite S2, C2. }
  destruct (fd =? -1); [by apply Hrest|]. destruct S1 as [Hnew S1].
  assert (Hclose : forall e2, idle e1 e2 ->
    wp (modify (c_close_socket fd);; bind_first rest) (fun o e' => children e' = children e /\
      match o with
      | Ok (Some fd) => (fd ∉ sockets e) /\ sockets e' = ({[fd]} ∪ sockets e)
      | Ok None => sockets e' = sockets e
      | _ => False
      end) e2).
  { intros e2 [S2 C2]. apply wp_bind, wp_modify. cbn [ok_or].
    destruct (close_socket_law fd e2) as [S3 C3]. apply Hrest; [|congruence].
    rewrite S3, S2, S1. by apply close_opened. }
  apply wp_bind, wp_ask. intros reuse e2 Hr. cbn [ok_or].
  pose proof (reuseaddr_law fd e1) as I2. rewrite Hr in I2. simpl in I2.
  destruct reuse; [|by apply Hclose]. apply wp_bind, wp_ask. intros bound e3 Hb. cbn [ok_or negb].
  pose proof (bind_law fd rp e2) as I3. rewrite Hb in I3. destruct I2 as [S2 C2], I3 as [S3 C3]. simpl in *.
  destruct bound; [|apply Hclose; split; congruence]. apply wp_ret. split; [congruence|]. split; [done|congruence].
Qed.

(** The children that are left were running when it began. *)
Lemma reap_spec active e : active = Z.of_nat (size (children e)) -> active <= 4 ->
  wp (reap active) (fun o e' => sockets e' = sockets e /\ (children e' ⊆ children e ∖ ended e) /\
    exists n, o = Ok n /\ n = Z.of_nat (size (children e')) /\ n <= active) e.
Proof.
  intros Ha H4. apply (wp_loop _ (fun n e' => sockets e' = sockets e /\ children e' ⊆ children e /\
    (children e' ∩ ended e ⊆ ended e') /\ n = Z.of_nat (size (children e')) /\ n <= active) (fun n _ => n)).
  - intros n e1 (S1 & C1 & D1 & Hn & Hle). apply wp_bind, wp_ask. intros pid e2 Hp. cbn [ok_or].
    destruct (waitpid_any_law _ _ _ Hp) as [S2 C2]. destruct (pid >? 0).
    + destruct C2 as (Hin & C2 & D2). assert (Hsz : size (children e1) = S (size (children e2))).
      { rewrite C2. rewrite size_difference, size_singleton by set_solver. assert (size (children e1) <> 0%nat); [|lia].
        apply size_non_empty_iff. set_solver. }
      replace (n =? 0) with false by lia. cbn [negb]. apply wp_ret. simpl.
      split; [|lia]. split; [congruence|]. split; [set_solver|]. split; [set_solver|]. lia.
    + destruct C2 as [C2 D2]. apply wp_ret. split; [congruence|]. split; [set_solver|]. exists n. rewrite C2. done.
  - split; [done|]. split; [done|]. split; [set_solver|]. lia.
  - unfold forever. lia.
Qed.

(** The state of the loop: [active] counts the children, and there are at most four. *)
Definition counted (active : Z) (e : E) : Prop :=
  active = Z.of_nat (size (children e)) /\ active <= 4.

Lemma serve_client_spec active client e : counted active e -> (client ∈ sockets e) ->
  wp (serve_client active client) (fun o e' => sockets e' = (sockets e ∖ {[client]}) /\
    exists n, o = Ok n /\ counted n e' /\ children e ⊆ children e') e.
Proof.
  intros [Ha H4] Hc. unfold serve_client. destruct (Z.geb_spec active 4) as [Hge|Hlt].
  - apply wp_bind, wp_modify, wp_ret. destruct (close_socket_law client e) as [S1 C1].
    split; [done|]. exists active. unfold counted. by rewrite C1.
  - apply wp_bind, wp_modify. cbn [ok_or]. apply wp_bind, wp_ask. intros child e2 Hf. cbn [ok_or].
    apply wp_bind, wp_modify, wp_ret. destruct (timeouts_law client e) as [S1 C1].
    destruct (fork_client_law _ _ _ _ Hf) as [S2 C2]. destruct (close_socket_law client e2) as [S3 C3].
    split; [congruence|]. eexists. split; [done|]. unfold counted. rewrite C3.
    destruct (child >? 0).
    + destruct C2 as [Hnew C2]. rewrite C1 in Hnew, C2. rewrite C2, size_union by set_solver.
      rewrite size_singleton, u32_small by ulia. split; [lia|]. set_solver.
    + rewrite C2, C1. done.
Qed.

Lemma listen_pass_spec listen_fd active e : counted active e ->
  wp (listen_pass listen_fd active) (fun o e' => sockets e' = sockets e /\
    exists n, o = Ok n /\ counted n e') e.
Proof.
  intros [Ha H4]. apply wp_bind. eapply wp_mono; [apply reap_spec; lia|].
  intros o e1 (S1 & C1 & n & -> & Hn & Hle). cbn [ok_or]. apply wp_bind, wp_ask. intros client e2 Hc. cbn [ok_or].
  destruct (accept_law _ _ _ _ Hc) as [C2 S2].
  assert (Hcount : counted n e2) by (split; [rewrite C2; lia|lia]).
  destruct (client =? -1); [apply wp_ret; split; [congruence|by exists n]|]. destruct S2 as [Hnew S2].
  eapply wp_mono; [apply serve_client_spec; [done|set_solver]|]. intros o e3 (S3 & k & -> & Hk & _).
  split; [|by exists k]. rewrite S3, S2, <- S1. by apply close_opened.
Qed.

(** The states the loop reaches. *)
Inductive serving (listen_fd : Z) (e0 : E) : Z -> E -> Prop :=
| serving_start : serving listen_fd e0 0 e0
| serving_pass active e active' e' : serving listen_fd e0 active e ->
    listen_pass listen_fd active e = (Ok active', e') -> serving listen_fd e0 active' e'.

Lemma serving_counted listen_fd e0 active e : children e0 = ∅ -> serving listen_fd e0 active e ->
  counted active e /\ sockets e = sockets e0.
Proof.
  intros Hnone. induction 1 as [|active e active' e' Hr [Hc Hs] Hp].
  - split; [|done]. split; [|lia]. by rewrite Hnone, size_empty.
  - destruct (wp_run _ _ _ _ _ (listen_pass_spec listen_fd active e Hc) Hp) as (S' & n & [= ->] & Hn).
    split; [done|congruence].
Qed.
End spec.

(** ** Properties *)

(** C29: however many clients come and go, the daemon serves at most four at a time: in every
    state of its loop the counter [active] is the number of children it has not waited for
    yet, at most 4, and the only sockets open are the ones that were open before, so a pass
    closes the client's socket in every case; and the next pass always comes to an end. *)
Theorem listen_loop_bounded E (H : DaemonHost E) (P : Processes E) listen_fd (e0 : E) active e :
  children e0 = ∅ -> serving listen_fd e0 active e ->
  active = Z.of_nat (size (children e)) /\ active <= 4 /\ sockets e = sockets e0 /\
  exists active' e', listen_pass listen_fd active e = (Ok active', e') /\ serving listen_fd e0 active' e'.
Proof.
  intros H0 Hr. destruct (serving_counted _ _ _ _ H0 Hr) as [Hc Hs].
  destruct (listen_pass listen_fd active e) as [o e'] eqn:Hp.
  destruct (wp_run _ _ _ _ _ (listen_pass_spec listen_fd active e Hc) Hp) as (_ & n & -> & _).
  destruct Hc as [Ha H4]. split; [exact Ha|]. split; [exact H4|]. split; [exact Hs|].
  exists n, e'. split; [reflexivity|]. exact (serving_pass _ _ _ _ _ _ Hr Hp).
Qed.

(** C30: whom a pass of the loop serves. It first waits for the children that have ended, so
    that only children that were running when it began are left to count. For the client it
    then accepts the daemon forks when fewer than four are left, with one child more when the
    fork succeeds, and closes the connection otherwise: a client is turned away only when at
    least four children were still running when the pass began to wait for it. *)
Theorem listen_pass_serves E (H : DaemonHost E) (P : Processes E) listen_fd active e :
  active = Z.of_nat (size (children e)) -> active <= 4 ->
  exists n e1, reap active e = (Ok n, e1) /\ (children e1 ⊆ children e ∖ ended e) /\
  let '(client, e2) := c_accept listen_fd e1 in
  if client =? -1 then listen_pass listen_fd active e = (Ok n, e2)
  else if bool_decide (size (children e1) < 4)%nat then
    let '(child, e3) := c_fork_client client (c_timeouts client e2) in
    listen_pass listen_fd active e = (Ok (if child >? 0 then n + 1 else n), c_close_socket client e3) /\
    (0 < child -> children (c_close_socket client e3) = ({[child]} ∪ children e1) /\ (child ∉ children e1))
  else (4 <= size (children e ∖ ended e))%nat /\ listen_pass listen_fd active e = (Ok n, c_close_socket client e2).
Proof.
  intros Ha H4. destruct (reap active e) as [o e1] eqn:Hreap.
  destruct (wp_run _ _ _ _ _ (reap_spec active e Ha H4) Hreap) as (_ & Hsub & n & -> & Hn & Hle).
  exists n, e1. split; [done|]. split; [done|]. pose proof (subseteq_size _ _ Hsub) as Hsize.
  destruct (c_accept listen_fd e1) as [client e2] eqn:Hacc. destruct (accept_law _ _ _ _ Hacc) as [C2 _].
  unfold listen_pass. rewrite (bind_run _ _ _ _ _ Hreap), ask_run, Hacc. cbn [fst snd].
  destruct (client =? -1); [done|]. unfold serve_client. case_bool_decide as Hlt.
  2:{ replace (n >=? 4) with true by lia. split; [lia|done]. }
  replace (n >=? 4) with false by lia. destruct (c_fork_client client (c_timeouts client e2)) as [child e3] eqn:Hf.
  destruct (fork_client_law _ _ _ _ Hf) as [_ C3]. destruct (timeouts_law client e2) as [_ Ct]. split.
  - unfold mbind at 1, M_bind at 1, modify at 1. cbn. rewrite ask_run, Hf. cbn. by rewrite u32_small by ulia.
  - intros Hpos. replace (child >? 0) with true in C3 by lia. rewrite Ct, C2 in C3.
    destruct (close_socket_law client e3) as [_ ->]. destruct C3. done.
Qed.

(** Opening the listening socket leaves no other socket open: on success exactly the one
    that is returned, and none when no address can be bound, or [listen] or [sigaction]
    fails. *)
Theorem open_listener_sockets E (H : DaemonHost E) (P : Processes E) bind_host port (e : E) :
  exists r e', open_listener bind_host port e = (Ok r, e') /\ children e' = children e /\
  sockets e' = match r with Some fd => ({[fd]} ∪ sockets e) | None => sockets e end.
Proof.
  assert (Hw : wp (open_listener bind_host port) (fun o e' => exists r, o = Ok r /\ children e' = children e /\
    sockets e' = match r with Some fd => ({[fd]} ∪ sockets e) | None => sockets e end) e).
  { apply wp_bind, wp_ask. intros res e1 Hg. cbn [ok_or].
    pose proof (getaddrinfo_law (match bind_host with Some ((_ :: _) as h) => Some h | _ => None end) port e) as I1.
    rewrite Hg in I1. destruct I1 as [S1 C1]. simpl in S1, C1.
    destruct res as [[|a res]|]; [apply wp_ret; by exists None| |apply wp_ret; by exists None].
    apply wp_bind. eapply wp_mono; [apply bind_first_spec|]. intros o e2 [C2 S2].
    rewrite C1 in C2. destruct o as [[fd|]| | |]; try done; cbn [ok_or];
      [|apply wp_ret; exists None; by rewrite S2]. destruct S2 as [Hnew S2]. rewrite S1 in Hnew, S2.
    assert (Hclose : forall e3, idle e2 e3 -> wp (modify (c_close_socket fd);; mret None) (fun o e' =>
      exists r : option Z, o = Ok r /\ children e' = children e /\
      sockets e' = match r with Some fd => ({[fd]} ∪ sockets e) | None => sockets e end) e3).
    { intros e3 [S3 C3]. apply wp_bind, wp_modify, wp_ret. destruct (close_socket_law fd e3) as [S4 C4].
      exists None. split; [done|]. split; [congruence|]. rewrite S4, S3, S2. by apply close_opened. }
    apply wp_bind, wp_ask. intros l e3 Hl. cbn [ok_or]. pose proof (listen_law fd e2) as I3. rewrite Hl in I3.
    destruct l; [|by apply Hclose]. apply wp_bind, wp_ask. intros h e4 Hh. cbn [ok_or negb].
    pose proof (sigaction_law e3) as I4. rewrite Hh in I4. destruct I3 as [S3 C3], I4 as [S4 C4]. simpl in *.
    destruct h; [|apply Hclose; split; congruence].
    apply wp_ret. exists (Some fd). split; [done|]. split; congruence. }
  destruct (open_listener bind_host port e) as [o e'] eqn:Ho.
  destruct (wp_run _ _ _ _ _ Hw Ho) as (r & -> & Hc & Hs).
  exists r, e'. split; [reflexivity|]. by split.
Qed.

(** ** Witnesses *)

(** A host where every call succeeds as long as its one descriptor is free: sockets get
    number 3, clients number 4, and child [n] gets the number 100 + [n]. *)
Record sample_daemon : Type := mkDaemon { d_sockets : gset Z; d_children : gset Z; d_ended : gset Z }.

Definition sample_new (fd : Z) (e : sample_daemon) : Z * sample_daemon :=
  if decide (fd ∈ d_sockets e) then (-1, e) else (fd, mkDaemon ({[fd]} ∪ d_sockets e) (d_children e) (d_ended e)).

(** The children that ended, all of whose numbers are positive. *)
Definition sample_ended (e : sample_daemon) : gset Z := filter (fun pid => 0 < pid) (d_ended e).

#[local] Instance sample_daemon_host : DaemonHost sample_daemon := {|
  addrinfo := unit;
  c_getaddrinfo _ _ e := (Some [tt], e);
  c_socket _ e := sample_new 3 e;
  c_reuseaddr _ e := (true, e);
  c_bind _ _ e := (true, e);
  c_listen _ e := (true, e);
  c_sigaction e := (true, e);
  c_waitpid_any e :=
    match elements (d_children e ∩ sample_ended e) with
    | pid :: _ => (pid, mkDaemon (d_sockets e) (d_children e ∖ {[pid]}) (d_ended e))
    | [] => (0, e)
    end;
  c_accept _ e := sample_new 4 e;
  c_timeouts _ e := e;
  c_fork_client _ e :=
    let pid := 100 + Z.of_nat (size (d_children e)) in
    if decide (pid ∈ d_children e) then (-1, e) else (pid, mkDaemon (d_sockets e) ({[pid]} ∪ d_children e) (d_ended e));
  c_close_socket fd e := mkDaemon (d_sockets e ∖ {[fd]}) (d_children e) (d_ended e)
|}.

Lemma sample_new_law fd e r e' : 0 <= fd -> sample_new fd e = (r, e') -> d_children e' = d_children e /\
  if r =? -1 then d_sockets e' = d_sockets e
  else (r ∉ d_sockets e) /\ d_sockets e' = ({[r]} ∪ d_sockets e).
Proof.
  unfold sample_new. intros Hfd. case_decide; intros [= <- <-]; [done|].
  replace (fd =? -1) with false by lia. done.
Qed.

#[local, refine] Instance sample_processes : Processes sample_daemon :=
  {| sockets := d_sockets; children := d_children; ended := sample_ended |}.
Proof.
  all: try done.
  - intros a e fd e' Hs. by apply (sample_new_law 3).
  - intros e pid e' Hw. cbn [c_waitpid_any sample_daemon_host] in Hw.
    destruct (elements (d_children e ∩ sample_ended e)) as [|p ps] eqn:He; injection Hw as <- <-; (split; [done|]).
    + split; [done|]. apply elements_empty_inv in He. set_solver.
    + assert (Hp : p ∈ d_children e ∩ sample_ended e) by (apply elem_of_elements; rewrite He; left). unfold sample_ended in Hp.
      apply elem_of_intersection in Hp as [Hc Hp]. apply elem_of_filter in Hp as [Hp _].
      replace (p >? 0) with true by lia. split; [done|]. split; [done|]. set_solver.
  - intros fd e client e' Ha. by apply (sample_new_law 4).
  - intros fd e child e' Hf. simpl in Hf. case_decide; injection Hf as <- <-; [done|].
    case_match; [|lia]. done.
Defined.

Definition sample_listening : sample_daemon := (open_listener None 22 (mkDaemon ∅ ∅ ∅)).2.
Definition sample_serving : sample_daemon := (listen_pass 3 0 sample_listening).2.

Lemma sample_first_pass : listen_pass 3 0 sample_listening = (Ok 1, sample_serving).
Proof. vm_compute. reflexivity. Qed.

Lemma listen_loop_bounded_witness : d_children sample_serving = {[100]} /\
  exists active' e', listen_pass 3 1 sample_serving = (Ok active', e') /\ serving 3 sample_listening active' e'.
Proof.
  split; [vm_compute; reflexivity|].
  destruct (listen_loop_bounded sample_daemon sample_daemon_host sample_processes 3 sample_listening 1 sample_serving)
    as (_ & _ & _ & Hnext).
  - vm_compute. reflexivity.
  - exact (serving_pass 3 sample_listening 0 sample_listening 1 sample_serving (serving_start _ _) sample_first_pass).
  - exact Hnext.
Defined.

(** Of its four children two have ended; the pass finds both, and serves the next client. *)
Definition sample_full : sample_daemon := mkDaemon {[3]} (list_to_set [100; 101; 102; 103]) (list_to_set [101; 102]).

Lemma listen_pass_serves_witness : exists e1 e3, reap 4 sample_full = (Ok 2, e1) /\
  listen_pass 3 4 sample_full = (Ok 3, e3) /\ children e3 = ({[102]} ∪ children e1).
Proof.
  assert (Hs : 4 = Z.of_nat (size (children sample_full))) by (vm_compute; reflexivity).
  destruct (listen_pass_serves sample_daemon sample_daemon_host sample_processes 3 4 sample_full Hs (Z.le_refl 4))
    as (n & e1 & Hr & _ & Hp).
  assert (Hreap : reap 4 sample_full = (Ok 2, (reap 4 sample_full).2)) by (vm_compute; reflexivity).
  rewrite Hreap in Hr. injection Hr as <- He1. revert Hp. rewrite <- He1. clear He1.
  assert (Ha : c_accept 3 (reap 4 sample_full).2 = (4, (c_accept 3 (reap 4 sample_full).2).2)) by (vm_compute; reflexivity).
  assert (Hf : c_fork_client 4 (c_accept 3 (reap 4 sample_full).2).2 =
    (102, (c_fork_client 4 (c_accept 3 (reap 4 sample_full).2).2).2)) by (vm_compute; reflexivity).
  rewrite Ha. cbn [Z.eqb]. rewrite bool_decide_eq_true_2 by (apply Nat.ltb_lt; vm_compute; reflexivity).
  change (c_timeouts 4 ?e) with e. rewrite Hf. intros [Hl Hc]. eexists _, _. split; [exact Hreap|]. split; [exact Hl|].
  apply Hc. lia.
Defined.
