(* ===== verification/Daemon.v ===== *)
(** noxsshd as a whole (server/daemon_runtime.c, server/main.c): the process of one client,
    [noxsshd_serve_connection], which joins the server with the check of authorized_keys,
    and [main], which joins the arguments, the host key and the listening socket. *)

From stdpp Require Import gmap.
From S2P Require Export ServerSpec Logged AuthorizedKeys HostSeed Listen.

(** ** The process of a client *)

Section connection.
Context {E : Type} `{Host E} `{AuthHost E} `{PosixHost E} `{NoxTLS}.

Abbreviation SM := (M (world netnox_ssh_server_t E)).

(** The result is the exit status of the process. *)
Definition noxsshd_serve_connection (client_sock : Z) (host_ed25519_seed : list Z) : SM Z :=
  ready ← attempt netnox_ssh_server_init;
  match ready with
  | None => mret 1
  | Some _ =>
      netnox_ssh_server_set_io_callbacks true true;;
      keyed ← attempt (netnox_ssh_server_set_host_ed25519_seed host_ed25519_seed);
      match keyed with
      | None => mret 1
      | Some _ =>
          netnox_ssh_server_set_publickey_callback true;;
          set_server (fun s => s <| transport_fd := client_sock |>);;
          rc ← attempt netnox_ssh_server_serve_one;
          ignore netnox_ssh_server_reset;;
          mret (match rc with Some _ => 0 | None => 1 end)
      end
  end.
End connection.

(** The callback the daemon installs is the check of authorized_keys. *)
Class Allocator (E : Type) : Type := c_alloc : Z -> E -> bool * E.

#[export] Instance daemon_auth {E} `{AccountHost E} `{Allocator E} : AuthHost E := {|
  publickey_allowed_cb user key e :=
    match noxsshd_authorized_ed25519 user key e with (Ok b, e') => (b, e') | (_, e') => (false, e') end;
  c_malloc := c_alloc
|}.

(** ** The program *)

(** [printf]: whether it succeeded. *)
Class Output (E : Type) : Type := c_puts : list Z -> E -> bool * E.

(** [main] returns an exit status, or enters the loop on a socket with a host key. *)
Inductive main_result : Type := Exit (status : Z) | Listening (fd : Z) (seed : list Z).

Definition absolute (path : list Z) : bool := match path with 47 :: _ => true | _ => false end.

Section main.
Context {E : Type} `{AccountHost E} `{SeedHost E} `{DaemonHost E} `{Output E} `{NoxTLS}.

Abbreviation EM := (M E).

Definition print_key (seed : list Z) : EM main_result :=
  match print_host_public_key seed with
  | Some line => ok ← ask (c_puts line); mret (Exit (if (ok : bool) then 0 else 1))
  | None => mret (Exit 1)
  end.

(** The loop's process, after the host key was read. *)
Definition start_listening (o : daemon_options) (seed : list Z) : EM main_result :=
  fd ← open_listener (Some (bind_host o)) (port o);
  mret (match fd with Some fd => Listening fd seed | None => Exit 1 end).

(** [stack]: what the seed array holds before it is set. *)
Definition noxsshd_main (stack : list Z) (args : list (list Z)) : EM main_result :=
  match parse_args default_options args with
  | Help => mret (Exit 0)
  | Invalid => mret (Exit 2)
  | Options o =>
      match check_user o with
      | Some user =>
          ready ← noxsshd_authorized_user_ready user;
          mret (Exit (if (ready : bool) then 0 else 1))
      | None =>
          '(ok, seed) ← (if absolute (key_path o) then host_seed (key_path o) stack else mret (false, stack));
          if negb ok then mret (Exit 1)
          else if print_public o then print_key seed
          else start_listening o seed
      end
  end.
End main.

(** ** Specification *)

Section spec.
Context {E : Type} `{Spawning E} `{!HostLaws E} {T : NoxTLS} {L : NoxTLSLaws T}.
Implicit Types w : world netnox_ssh_server_t E.

(** A context without a host key and a connection. *)
Definition blank (s : netnox_ssh_server_t) : Prop :=
  let t := s_transport s in
  dirs_wf s /\ cstr (authenticated_user s) = [] /\ authenticated t = false /\ channel_open t = false /\
  zlen (client_ident t) <= 256 /\ zlen (server_ident t) <= 256 /\
  zlen (kexinit_client_payload t) <= 32768 /\ zlen (kexinit_server_payload t) <= 32768.

Lemma init_run w : exists s, netnox_ssh_server_init w = (Ok tt, w <| ctx := s |>) /\ blank s.
Proof.
  destruct w as [s0 e b]. exists (ctx (netnox_ssh_server_init (mkWorld server_zero e b)).2).
  split; [vm_compute; reflexivity|].
  assert (Hb : forall l, bool_decide (bytes_ok l) = true -> bytes_ok l) by (intros l; apply bool_decide_eq_true).
  unfold blank, dirs_wf, direction_wf. split_and!; try (vm_compute; (reflexivity || discriminate)); apply Hb; vm_compute; reflexivity.
Qed.

Lemma reset_spec w : wp netnox_ssh_server_reset (fun o w' =>
  env w' = env w /\ session_id (s_transport (ctx w')) = session_id (s_transport (ctx w))) w.
Proof.
  apply wp_bind, wp_gets. cbn [ok_or]. apply wp_bind, wp_lift.
  destruct (mem_write (authenticated_user (ctx w)) 0 [0]) as [user|rc| |]; by split.
Qed.

(** What a connection leaves: its children were admitted, and the exit status. *)
Definition connection_end (base : list child) (o : outcome Z) w' : Prop :=
  (exists new, spawned (env w') = base ++ new /\
     admits_all (env w') (session_id (s_transport (ctx w'))) new) /\
  match o with Ok rc => rc = 0 \/ rc = 1 | Err _ => False | _ => True end.

(** Serving from a blank context: whoever a child runs for was admitted. *)
Lemma serve_connection_spec client_sock seed w :
  wp (noxsshd_serve_connection client_sock seed) (connection_end (spawned (env w))) w.
Proof.
  assert (Hnone : forall w', env w' = env w -> wp (mret 1) (connection_end (spawned (env w))) w').
  { intros w' He. apply wp_ret. rewrite <- He. split; [|by right]. exists []. rewrite app_nil_r.
    split; [done|constructor]. }
  apply wp_bind, wp_attempt. destruct (init_run w) as (s & Hinit & Hblank).
  unfold wp at 1. rewrite Hinit. cbn [ok_or].
  apply wp_bind, wp_set_server. cbn [ok_or]. apply wp_bind, wp_attempt.
  unfold netnox_ssh_server_set_host_ed25519_seed. apply wp_bind, wp_set_server. cbn [ok_or].
  destruct (noxtls_ed25519_public_key seed) as [ok pk] eqn:Epk. apply wp_bind, wp_guard; intros Hok; cbn [ok_or];
    [|by apply Hnone]. subst ok. apply wp_set_server. cbn [ok_or].
  apply wp_bind, wp_set_server. cbn [ok_or]. apply wp_bind, wp_set_server. cbn [ok_or].
  apply wp_bind, wp_attempt. set (w1 := set ctx _ _).
  assert (Hstart : connection_start (ctx w1)).
  { destruct Hblank as (Hd & Hu & Ha & Ho & Hz1 & Hz2 & Hz3 & Hz4). unfold connection_start, hash_inputs_ok.
    split; [exact Hd|]. split; [exact Hu|]. split; [exact Ha|]. split; [exact Ho|].
    split; [exact Hz1|]. split; [exact Hz2|]. split; [exact Hz3|]. split; [exact Hz4|].
    apply (ed25519_public_length seed pk Epk). }
  eapply wp_mono; [exact (serve_one_spec w1 Hstart)|].
  change (spawned (env w)) with (spawned (env w1)). clearbody w1.
  intros o w2 (new & Hnew & Hall & _).
  assert (Hend : forall (rc : option unit), wp (ignore netnox_ssh_server_reset;;
    mret (match rc with Some _ => 0 | None => 1 end)) (connection_end (spawned (env w1))) w2).
  { intros rc. apply wp_bind, wp_ignore. eapply wp_mono; [apply reset_spec|].
    intros o' w3 [He Hid]. assert (Hnew3 : exists new, spawned (env w3) = spawned (env w1) ++ new /\
      admits_all (env w3) (session_id (s_transport (ctx w3))) new) by (rewrite He, Hid; by exists new).
    destruct o'; cbn [ok_or]; try (by split); apply wp_ret; (split; [done|destruct rc; auto]). }
  destruct o as [u|rc| |]; cbn [ok_or];
    [exact (Hend (Some u))|exact (Hend None)|split; [by exists new|done]..].
Qed.
End spec.

(** What is known of the options that [parse_args] accepts. *)
Definition options_ok (o : daemon_options) : Prop := 1 <= port o <= 65535.

Lemma parse_args_ok args : forall o0 o, options_ok o0 -> parse_args o0 args = Options o ->
  options_ok o /\ (check_user o = None \/ print_public o = false).
Proof.
  induction args as [args IH] using (induction_ltof1 _ (@length (list Z))). unfold ltof in IH.
  intros o0 o Hok Hp. destruct args as [|x rest]; cbn [parse_args] in Hp.
  { destruct (check_user o0) eqn:Hu, (print_public o0) eqn:Hpr; inversion Hp; subst; auto. }
  destruct (_ || _); [done|]. destruct (bool_decide _); [by eapply IH in Hp; [|simpl; lia|]|].
  destruct rest as [|v rest]; [done|].
  destruct (bool_decide _); [by eapply IH in Hp; [|simpl; lia|]|].
  destruct (bool_decide _).
  { destruct (strtoul_all v 1 65535) as [p|] eqn:Hv; [|done]. eapply IH in Hp; [done|simpl; lia|].
    unfold strtoul_all in Hv. apply bind_Some in Hv as ([n r] & _ & Hv). unfold options_ok. simpl.
    destruct (_ && _) eqn:Hb; [|done]. injection Hv as ->. lia. }
  destruct (bool_decide _); [by eapply IH in Hp; [|simpl; lia|]|].
  destruct (bool_decide _); [by eapply IH in Hp; [|simpl; lia|]|done].
Qed.

Section program.
Context {E : Type} `{AccountHost E} `{SeedFs E} `{DaemonHost E} `{Output E} `{NoxTLS}.

(** [main] reaches its loop. *)
Definition listens (o : daemon_options) (key : list Z * list Z) (e : E) (fd : Z) (seed : list Z) (e' : E) : Prop :=
  check_user o = None /\ print_public o = false /\ absolute (key_path o) = true /\
  seed_path (key_path o) = Some key /\
  exists e1, stored key (c_geteuid e) seed e1 /\ open_listener (Some (bind_host o)) (port o) e1 = (Ok (Some fd), e').

Lemma main_run stack args e : interrupts e < 2 ^ 61 ->
  wp (noxsshd_main stack args) (fun out e' => forall fd seed, out = Ok (Listening fd seed) ->
    exists o key, parse_args default_options args = Options o /\ listens o key e fd seed e') e.
Proof.
  intros Hi. unfold noxsshd_main. destruct (parse_args default_options args) as [| |o] eqn:Hargs; [by apply wp_ret..|].
  destruct (check_user o) as [user|] eqn:Hu.
  { apply wp_bind, wp_intro. by intros [ready| | |] e1 _. }
  destruct (absolute (key_path o)) eqn:Habs; apply wp_bind; [|apply wp_ret; by apply wp_ret].
  apply wp_intro. intros r e1 Hr. destruct (seed_path (key_path o)) as [[dir name]|] eqn:Hpath.
  2:{ unfold host_seed in Hr. rewrite Hpath in Hr. injection Hr as <- <-. by apply wp_ret. }
  destruct (wp_run _ _ _ _ _ (host_seed_run _ stack dir name e Hpath Hi) Hr) as (_ & _ & ok & s & -> & Hs).
  cbn [ok_or]. destruct ok; cbn [negb]; [|by apply wp_ret].
  destruct (print_public o) eqn:Hpr.
  { unfold print_key. destruct (print_host_public_key s); [|by apply wp_ret].
    by apply wp_bind, wp_ask. }
  apply wp_bind, wp_intro. intros l e2 Hl. destruct l as [l| | |]; cbn [ok_or]; try done. apply wp_ret.
  intros fd seed Heq. destruct l as [fd'|]; [|done]. injection Heq as -> ->.
  exists o, (dir, name). split; [done|]. split_and!; try done. by exists e1.
Qed.
End program.

(** ** Properties *)

(** C2: the daemon runs a program only for the owner of an authorized key: while the accounts
    stay as they are, every child that the process of a client starts, whatever the client
    sends, is for a user whose authorized_keys file has an entry for a key (with the account,
    its directories and the file passing the checks) that signed a request for this user over
    the session id. The process ends with status 0 or 1. *)
Theorem daemon_children_authorized E (H : Host E) (HL : HostLaws E) (P : PosixHost E) (A : AccountHost E)
    (S : StableAccounts E) (M : Allocator E) (T : NoxTLS) (L : NoxTLSLaws T) (a : accounts)
    client_sock seed (w : world netnox_ssh_server_t (logged E)) o w' :
  (forall e : E, accounts_of e = a) -> spawned (env w) = [] ->
  noxsshd_serve_connection client_sock seed w = (o, w') ->
  (forall ch, ch ∈ spawned (env w') -> exists key sig, authorized a (ch_user ch) key /\
     noxtls_ed25519_verify key
       (signed_request (session_id (s_transport (ctx w'))) (ch_user ch) key) sig = true) /\
  match o with Ok status => status = 0 \/ status = 1 | Err _ => False | _ => True end.
Proof.
  intros Ha Hbase Hrun. destruct (wp_run _ _ _ _ _ (serve_connection_spec client_sock seed w) Hrun) as
    [(new & Hnew & Hall) Ho]. split; [|exact Ho]. rewrite Hbase in Hnew. simpl in Hnew. rewrite Hnew. clear Hnew Ho Hrun.
  intros ch Hch. unfold admits_all in Hall. rewrite Forall_forall in Hall.
  destruct (Hall ch Hch) as (key & sig & _ & (e0 & Hyes) & _ & Hv). exists key, sig. split; [|exact Hv].
  rewrite logged_allowed in Hyes. unfold publickey_allowed_cb, daemon_auth, noxsshd_authorized_ed25519 in Hyes.
  destruct (authorized_user_key_run a (ch_user ch) (Some key) e0.1 (Ha e0.1)) as (e' & Hr & _).
  rewrite Hr in Hyes. by apply allows_authorized.
Qed.

(** C18: noxsshd listens only with a host key that is on the disk: if [main] gets to its loop,
    the arguments were valid, with a port from 1 to 65535 and neither of the two modes that
    only report something, and the seed it uses is 32 bytes, the content of the private file
    that the absolute path names. *)
Theorem main_listens_with_stored_seed E (A : AccountHost E) (SH : SeedHost E) (Fs : SeedFs E) (D : DaemonHost E)
    (O : Output E) (T : NoxTLS) stack args (e : E) fd seed e' :
  interrupts e < 2 ^ 61 -> noxsshd_main stack args e = (Ok (Listening fd seed), e') ->
  exists o key, parse_args default_options args = Options o /\ 1 <= port o <= 65535 /\
    listens o key e fd seed e'.
Proof.
  intros Hi Hrun. destruct (wp_run _ _ _ _ _ (main_run stack args e Hi) Hrun fd seed eq_refl) as (o & key & Ho & Hl).
  exists o, key. split; [exact Ho|]. split; [|exact Hl].
  apply (parse_args_ok args default_options o); [unfold options_ok; simpl; lia|exact Ho].
Qed.
