(* ===== verification/SampleDaemon.v ===== *)
(** Runs of noxsshd: the client of [SampleServer] logs in on a host where its key is in
    authorized_keys, and [main] starts to listen with a fresh host key. *)

From stdpp Require Import gmap.
From S2P Require Export SampleServer Daemon.

Import SampleInstances.

(** The client of [SampleServer] is served by the daemon of a host where it may log in. *)
Definition user_keys : list Z :=
  bs "ssh-ed25519 " ++ encode_groups (blob_prefix ++ client_key) ++ bs " user" ++ [10].
#[local] Instance user_account_host : AccountHost sample_env := sample_account_host user_keys sample_env.
#[local] Instance user_stable : StableAccounts sample_env := sample_stable user_keys sample_env.
#[local] Instance user_alloc : Allocator sample_env := fun _ e => (true, e).
#[local] Existing Instance SampleServer.sample_posix_host.

Definition user_start : world netnox_ssh_server_t (logged sample_env) := mkWorld server_zero (env srv_start) true.
Local Notation user_run :=
  (@noxsshd_serve_connection (logged sample_env) logged_host (@logged_auth _ daemon_auth) logged_posix sample_noxtls
    3 (be_bytes 32 77) user_start).

Lemma user_run_ends : user_run.1 = Ok 0 /\ spawned (env user_run.2) = [run_child].
Proof. split; vm_compute; reflexivity. Qed.

Lemma daemon_children_authorized_witness : exists key sig,
  authorized (sample_accounts user_keys) (bs "user") key /\
  noxtls_ed25519_verify key
    (signed_request (session_id (s_transport (ctx user_run.2))) (bs "user") key) sig = true.
Proof.
  pose proof (daemon_children_authorized sample_env sample_host sample_host_laws sample_posix_host user_account_host
    user_stable user_alloc sample_noxtls sample_laws (sample_accounts user_keys) 3 (be_bytes 32 77) user_start
    user_run.1 user_run.2) as Hall.
  pose proof (proj2 user_run_ends) as Hs. revert Hall Hs. generalize user_run. intros r Hall Hs.
  destruct Hall as [Hch _].
  - intros e. reflexivity.
  - vm_compute. reflexivity.
  - exact (surjective_pairing r).
  - apply (Hch run_child). rewrite Hs. by left.
Defined.

(** ** Starting *)

#[local] Instance start_account_host : AccountHost sample_fs := sample_account_host [] sample_fs.
#[local] Instance start_output : Output sample_fs := fun _ e => (true, e).
#[local] Instance start_daemon_host : DaemonHost sample_fs := {|
  addrinfo := unit;
  c_getaddrinfo _ _ e := (Some [tt], e);
  c_socket _ e := (3, e);
  c_reuseaddr _ e := (true, e);
  c_bind _ _ e := (true, e);
  c_listen _ e := (true, e);
  c_sigaction e := (true, e);
  c_waitpid_any e := (0, e);
  c_accept _ e := (-1, e);
  c_timeouts _ e := e;
  c_fork_client _ e := (-1, e);
  c_close_socket _ e := e
|}.

Definition start_run : outcome main_result * sample_fs :=
  noxsshd_main [] [bs "-p"; bs "2022"; bs "--host-key"; bs "/a/b"] (mkFs ∅ ∅).

Lemma main_listens_with_stored_seed_witness :
  start_run.1 = Ok (Listening 3 (replicate 32 7)) /\
  exists o key, port o = 2022 /\ listens o key (mkFs ∅ ∅) 3 (replicate 32 7) start_run.2.
Proof.
  assert (Hrun : start_run = (Ok (Listening 3 (replicate 32 7)), start_run.2)) by (vm_compute; reflexivity).
  split; [rewrite Hrun; reflexivity|].
  destruct (main_listens_with_stored_seed sample_fs start_account_host sample_seed_host sample_seed_fs
    start_daemon_host start_output sample_noxtls [] _ (mkFs ∅ ∅) 3 (replicate 32 7) start_run.2
    ltac:(reflexivity) Hrun) as (o & key & Hargs & _ & Hl).
  exists o, key. split; [|exact Hl].
  assert (Hp : match parse_args default_options [bs "-p"; bs "2022"; bs "--host-key"; bs "/a/b"] with
               | Options o => port o | _ => 0 end = 2022) by (vm_compute; reflexivity).
  rewrite Hargs in Hp. exact Hp.
Defined.
