(* ===== verification/ClientConfig.v ===== *)
(** The configuration of the command line client (client/main.c): the ssh_config file, with
    its host patterns, and the paths under the home directory. A C string is the list of
    its characters; [home] is what [getenv("HOME")] returns. *)

From S2P Require Export CString.

Definition NOXSSH_MAX_PATH_LEN : Z := 1024.
Definition NOXSSH_SSHCFG_MAX_LINE_LEN : Z := 1024.
Definition NOXSSH_MAX_HOST_LEN : Z := 255.
Definition NOXSSH_MAX_USER_LEN : Z := 64.

(** ** Words *)

Fixpoint noxssh_ascii_equals_ignore_case (a b : list Z) : bool :=
  match a, b with
  | x :: a, y :: b => (tolower x =? tolower y) && noxssh_ascii_equals_ignore_case a b
  | [], [] => true
  | _, _ => false
  end.

(** StrictHostKeyChecking: NOXSSH_HOSTKEY_CHECK_ASK, _YES, _NO, _ACCEPT_NEW. *)
Inductive host_key_check : Type := CheckAsk | CheckYes | CheckNo | CheckAcceptNew.

Definition noxssh_parse_strict_host_key_mode (value : list Z) : option host_key_check :=
  let word s := noxssh_ascii_equals_ignore_case value (bs s) in
  if word "yes" || word "true" then Some CheckYes
  else if word "no" || word "off" || word "false" then Some CheckNo
  else if word "accept-new" then Some CheckAcceptNew
  else if word "ask" then Some CheckAsk
  else None.

Definition noxssh_ltrim (s : list Z) : list Z := skip_space s.
Definition noxssh_rtrim (s : list Z) : list Z := rev (skip_space (rev s)).

(** ** Host patterns *)

(** '*' is 42, '?' is 63. *)
Fixpoint noxssh_host_pattern_match (pattern host : list Z) : bool :=
  match pattern with
  | [] => bool_decide (host = [])
  | p :: pattern =>
      if p =? 42 then
        (fix star (host : list Z) : bool :=
           noxssh_host_pattern_match pattern host || match host with [] => false | _ :: host => star host end) host
      else
        match host with
        | [] => false
        | h :: host =>
            if p =? 63 then noxssh_host_pattern_match pattern host
            else (tolower p =? tolower h) && noxssh_host_pattern_match pattern host
        end
  end.

(** [strtok(.., " \t")]: the runs of other characters. *)
Definition is_blank_sep (c : Z) : bool := (c =? 32) || (c =? 9).
Fixpoint tokens_from (cur : list Z) (s : list Z) : list (list Z) :=
  match s with
  | [] => match cur with [] => [] | _ => [cur] end
  | c :: s =>
      if is_blank_sep c then match cur with [] => tokens_from [] s | _ => cur :: tokens_from [] s end
      else tokens_from (cur ++ [c]) s
  end.
Definition tokens (s : list Z) : list (list Z) := tokens_from [] s.

(** The loop over the tokens; '!' is 33. *)
Fixpoint list_matches (toks : list (list Z)) (host : list Z) (matched has_positive : bool) : bool :=
  match toks with
  | [] => has_positive && matched
  | tok :: toks =>
      let '(negate, tok) := match tok with 33 :: tok => (true, tok) | _ => (false, tok) end in
      if bool_decide (tok = []) then list_matches toks host matched has_positive
      else
        let has_positive := if negate : bool then has_positive else true in
        if noxssh_host_pattern_match tok host
        then if negate then false else list_matches toks host true has_positive
        else list_matches toks host matched has_positive
  end.
Definition noxssh_host_list_matches (patterns host : list Z) : bool :=
  list_matches (tokens (ztake (NOXSSH_SSHCFG_MAX_LINE_LEN - 1) patterns)) host false false.

(** ** Paths *)

Definition noxssh_get_home_dir (home : option (list Z)) (out_home_len : Z) : option (list Z) :=
  match home with
  | Some ((_ :: _) as h) => if zlen h >=? out_home_len then None else Some h
  | _ => None
  end.

(** '~' is 126. *)
Definition noxssh_expand_home_path (home : option (list Z)) (in_path : list Z) (out_len : Z) : list Z :=
  let plain := ztake (out_len - 1) in_path in
  match in_path with
  | 126 :: ((c :: _) as rest) =>
      if (c =? 47) || (c =? 92) then
        match noxssh_get_home_dir home NOXSSH_MAX_PATH_LEN with
        | Some h => if zlen (h ++ rest) <? out_len then h ++ rest else plain
        | None => plain
        end
      else plain
  | _ => plain
  end.

(** ** The file *)

(** [noxssh_ssh_config_t]; a member without its [has_] flag is [None]. *)
Record ssh_config : Type := mkConfig {
  cfg_host_name : option (list Z);
  cfg_user : option (list Z);
  cfg_identity_file : option (list Z);
  cfg_user_known_hosts_file : option (list Z);
  cfg_port : option Z;
  cfg_strict : option host_key_check;
  cfg_batch_mode : option bool;
  cfg_connect_timeout_ms : option Z;
  cfg_server_alive_interval_sec : option Z;
  cfg_server_alive_count_max : option Z;
  cfg_rekey_interval_sec : option Z
}.
Definition config_zero : ssh_config := mkConfig None None None None None None None None None None None.

(** [if(cfg->has_x == 0) { .. }] *)
Definition unless_set {A} (old new : option A) : option A := match old with None => new | _ => old end.

(** The key words of an active block. *)
Definition config_entry (home : option (list Z)) (key value : list Z) (c : ssh_config) : ssh_config :=
  let word s := noxssh_ascii_equals_ignore_case key (bs s) in
  let '(mkConfig host user ident known port strict batch timeout alive count rekey) := c in
  if word "HostName" then
    mkConfig (unless_set host (Some (ztake NOXSSH_MAX_HOST_LEN value))) user ident known port strict batch timeout alive count rekey
  else if word "User" then
    mkConfig host (unless_set user (Some (ztake NOXSSH_MAX_USER_LEN value))) ident known port strict batch timeout alive count rekey
  else if word "Port" then
    mkConfig host user ident known (unless_set port (strtoul_all value 1 65535)) strict batch timeout alive count rekey
  else if word "IdentityFile" then
    mkConfig host user (unless_set ident (Some (noxssh_expand_home_path home value NOXSSH_MAX_PATH_LEN))) known port strict
      batch timeout alive count rekey
  else if word "UserKnownHostsFile" then
    mkConfig host user ident (unless_set known (Some (noxssh_expand_home_path home value NOXSSH_MAX_PATH_LEN))) port strict
      batch timeout alive count rekey
  else if word "StrictHostKeyChecking" then
    mkConfig host user ident known port (unless_set strict (noxssh_parse_strict_host_key_mode value)) batch timeout alive count rekey
  else if word "BatchMode" then
    mkConfig host user ident known port strict
      (unless_set batch (Some (noxssh_ascii_equals_ignore_case value (bs "yes")))) timeout alive count rekey
  else if word "ConnectTimeout" then
    mkConfig host user ident known port strict batch
      (unless_set timeout ((fun v => u32 (v * 1000)) <$> strtoul_all value 0 600)) alive count rekey
  else if word "ServerAliveInterval" then
    mkConfig host user ident known port strict batch timeout (unless_set alive (strtoul_all value 0 3600)) count rekey
  else if word "ServerAliveCountMax" then
    mkConfig host user ident known port strict batch timeout alive (unless_set count (strtoul_all value 0 100)) rekey
  else if word "RekeyInterval" then
    mkConfig host user ident known port strict batch timeout alive count (unless_set rekey (strtoul_all value 0 86400))
  else c.

(** [strpbrk(p, " \t=")]: the key word, and what follows the separator; '=' is 61. *)
Fixpoint split_key (p : list Z) : option (list Z * list Z) :=
  match p with
  | [] => None
  | c :: p => if is_blank_sep c || (c =? 61) then Some ([], p) else '(k, r) ← split_key p; Some (c :: k, r)
  end.

(** The key and the value of a line; '#' is 35. *)
Definition config_words (line : list Z) : option (list Z * list Z) :=
  let p := noxssh_rtrim (noxssh_ltrim line) in
  match p with
  | [] => None
  | c :: _ =>
      if c =? 35 then None
      else
        '(key, rest) ← split_key p;
        let value := noxssh_rtrim (noxssh_ltrim rest) in
        if bool_decide (value = []) then None else Some (key, value)
  end.

(** A pass of the loop; the state is [active_block] and [cfg]. *)
Definition config_line (home : option (list Z)) (host_alias : list Z) (st : bool * ssh_config) (line : list Z)
    : bool * ssh_config :=
  let '(active, cfg) := st in
  match config_words (cstr line) with
  | None => st
  | Some (key, value) =>
      if noxssh_ascii_equals_ignore_case key (bs "Host") then (noxssh_host_list_matches value host_alias, cfg)
      else if negb active then st
      else (active, config_entry home key value cfg)
  end.

Definition config_lines (home : option (list Z)) (host_alias : list Z) (st : bool * ssh_config) (ls : list (list Z))
    : bool * ssh_config :=
  foldl (config_line home host_alias) st ls.

(** The whole file, in the pieces of [fgets]. *)
Definition config_text (home : option (list Z)) (host_alias content : list Z) : ssh_config :=
  (config_lines home host_alias (false, config_zero) (fgets_all (NOXSSH_SSHCFG_MAX_LINE_LEN - 1) content)).2.

(** ** Specification: patterns *)

(** A pattern of ssh_config: a star stands for any text, a question mark for one
    character, another character for itself in either case. *)
Inductive glob : list Z -> list Z -> Prop :=
| glob_nil : glob [] []
| glob_star pattern skipped host : glob pattern host -> glob (42 :: pattern) (skipped ++ host)
| glob_any pattern c host : glob pattern host -> glob (63 :: pattern) (c :: host)
| glob_char p pattern c host : p <> 42 -> p <> 63 -> tolower p = tolower c -> glob pattern host ->
    glob (p :: pattern) (c :: host).

(** The inner loop tries every end of the host. *)
Definition star_match (pattern : list Z) : list Z -> bool :=
  fix star (host : list Z) : bool :=
    noxssh_host_pattern_match pattern host || match host with [] => false | _ :: host => star host end.

Lemma star_match_iff pattern host :
  star_match pattern host = true <-> exists skipped rest, host = skipped ++ rest /\ noxssh_host_pattern_match pattern rest = true.
Proof.
  induction host as [|c host IH]; simpl; rewrite orb_true_iff.
  - split; [intros [Hm|]; [by exists [], []|done]|]. intros ([|] & [|] & Hh & Hm); try done. by left.
  - rewrite IH. split.
    + intros [Hm|(sk & r & -> & Hm)]; [by exists [], (c :: host)|by exists (c :: sk), r].
    + intros ([|x sk] & r & Hh & Hm); simpl in Hh; [left; by subst|right]. injection Hh as -> ->. by exists sk, r.
Qed.

Lemma pattern_match_glob pattern host : noxssh_host_pattern_match pattern host = true <-> glob pattern host.
Proof.
  revert host. induction pattern as [|p pattern IH]; intros host.
  - simpl. rewrite bool_decide_eq_true. split; [intros ->; constructor|by inversion 1].
  - simpl. fold (star_match pattern). destruct (Z.eqb_spec p 42) as [->|Hp].
    + rewrite star_match_iff. setoid_rewrite IH. split.
      * intros (sk & r & -> & Hg). by constructor.
      * inversion 1; subst; [|done]. by eexists _, _.
    + destruct host as [|c host]; [split; [done|by inversion 1]|]. destruct (Z.eqb_spec p 63) as [->|Hq].
      * rewrite IH. split; [by constructor|]. by inversion 1.
      * rewrite andb_true_iff, Z.eqb_eq, IH. split; [intros []; by constructor|]. by inversion 1.
Qed.

(** What a token says, when it is not empty: the pattern, and whether it is negated. *)
Definition token_pattern (tok : list Z) : bool * list Z :=
  match tok with 33 :: tok => (true, tok) | _ => (false, tok) end.
Definition listed (toks : list (list Z)) (negated : bool) (host : list Z) : Prop :=
  exists tok pattern, tok ∈ toks /\ token_pattern tok = (negated, pattern) /\ pattern <> [] /\ glob pattern host.

Lemma listed_cons tok toks negated host : listed (tok :: toks) negated host <->
  (exists pattern, token_pattern tok = (negated, pattern) /\ pattern <> [] /\ glob pattern host) \/ listed toks negated host.
Proof.
  unfold listed. split.
  - intros (t & p & [->|Hin]%elem_of_cons & ? & ? & ?); [left; by exists p|right; by exists t, p].
  - intros [(p & ? & ? & ?)|(t & p & ? & ? & ? & ?)]; [exists tok, p|exists t, p]; (split; [set_solver|done]).
Qed.

Lemma list_matches_iff toks host matched has_positive : (matched = true -> has_positive = true) ->
  list_matches toks host matched has_positive = true <->
  (matched = true \/ listed toks false host) /\ ~ listed toks true host.
Proof.
  revert matched has_positive. induction toks as [|tok toks IH]; intros matched has_positive Hm.
  - simpl. rewrite andb_true_iff. unfold listed. split.
    + intros [_ ->]. split; [by left|]. intros (t & p & Hin & _). set_solver.
    + intros [[->|(t & p & Hin & _)] _]; [auto|set_solver].
  - rewrite !listed_cons. cbn [list_matches]. fold (token_pattern tok).
    change (match tok with 33 :: tok0 => (true, tok0) | _ => (false, tok) end) with (token_pattern tok).
    destruct (token_pattern tok) as [negate pat]. case_bool_decide as Hp.
    + rewrite IH by done. subst pat. naive_solver.
    + destruct (noxssh_host_pattern_match pat host) eqn:E.
      * apply pattern_match_glob in E. destruct negate.
        -- split; [done|]. intros [_ []]. left. by exists pat.
        -- rewrite IH by done. naive_solver.
      * assert (Hg : ~ glob pat host) by (rewrite <- pattern_match_glob; congruence).
        rewrite IH by (destruct negate; auto). naive_solver.
Qed.

(** ** Properties *)

(** C25: the matcher of host names, with its loop inside a recursion, decides the patterns of
    ssh_config. *)
Theorem host_pattern_match_iff pattern host :
  noxssh_host_pattern_match pattern host = true <-> glob pattern host.
Proof. exact (pattern_match_glob pattern host). Qed.

(** A Host line selects a host exactly when one of its patterns matches and none of the
    patterns with '!' does, in whatever order they are written (of a list of more than
    1023 characters the rest is not seen). *)
Theorem host_list_matches_iff patterns host :
  noxssh_host_list_matches patterns host = true <->
  listed (tokens (ztake 1023 patterns)) false host /\ ~ listed (tokens (ztake 1023 patterns)) true host.
Proof.
  unfold noxssh_host_list_matches. change (NOXSSH_SSHCFG_MAX_LINE_LEN - 1) with 1023.
  rewrite list_matches_iff by done. naive_solver.
Qed.

(** *** The first value *)

(** [c'] has every value of [c]. *)
Definition keeps_value {A} (old new : option A) : Prop := forall v, old = Some v -> new = Some v.
Definition extends (c c' : ssh_config) : Prop :=
  keeps_value (cfg_host_name c) (cfg_host_name c') /\ keeps_value (cfg_user c) (cfg_user c') /\
  keeps_value (cfg_identity_file c) (cfg_identity_file c') /\
  keeps_value (cfg_user_known_hosts_file c) (cfg_user_known_hosts_file c') /\
  keeps_value (cfg_port c) (cfg_port c') /\ keeps_value (cfg_strict c) (cfg_strict c') /\
  keeps_value (cfg_batch_mode c) (cfg_batch_mode c') /\
  keeps_value (cfg_connect_timeout_ms c) (cfg_connect_timeout_ms c') /\
  keeps_value (cfg_server_alive_interval_sec c) (cfg_server_alive_interval_sec c') /\
  keeps_value (cfg_server_alive_count_max c) (cfg_server_alive_count_max c') /\
  keeps_value (cfg_rekey_interval_sec c) (cfg_rekey_interval_sec c').

#[export] Instance keeps_value_preorder A : PreOrder (@keeps_value A).
Proof. split; [by intros x v|]. intros x y z H1 H2 v Hv. auto. Qed.
#[export] Instance extends_preorder : PreOrder extends.
Proof.
  split; [intros c; by split_and!|]. intros c1 c2 c3 H1 H2. unfold extends in *.
  destruct_and!. split_and!; by etransitivity.
Qed.

Lemma keeps_unless_set {A} (old new : option A) : keeps_value old (unless_set old new).
Proof. intros v ->. done. Qed.

(** What the values are bounded by. *)
Definition opt_all {A} (P : A -> Prop) (o : option A) : Prop := forall v, o = Some v -> P v.
Definition config_ok (c : ssh_config) : Prop :=
  opt_all (fun s => 1 <= zlen s <= 255) (cfg_host_name c) /\ opt_all (fun s => 1 <= zlen s <= 64) (cfg_user c) /\
  opt_all (fun s => zlen s <= 1023) (cfg_identity_file c) /\
  opt_all (fun s => zlen s <= 1023) (cfg_user_known_hosts_file c) /\
  opt_all (fun p => 1 <= p <= 65535) (cfg_port c) /\
  opt_all (fun t => 0 <= t <= 600000) (cfg_connect_timeout_ms c) /\
  opt_all (fun t => 0 <= t <= 3600) (cfg_server_alive_interval_sec c) /\
  opt_all (fun t => 0 <= t <= 100) (cfg_server_alive_count_max c) /\
  opt_all (fun t => 0 <= t <= 86400) (cfg_rekey_interval_sec c).

Lemma opt_all_unless {A} (P : A -> Prop) old new : opt_all P old -> opt_all P new -> opt_all P (unless_set old new).
Proof. by destruct old. Qed.
Lemma opt_all_some {A} (P : A -> Prop) v : P v -> opt_all P (Some v).
Proof. by intros Hv ? [= <-]. Qed.
Lemma strtoul_all_range s lo hi : opt_all (fun v => lo <= v <= hi) (strtoul_all s lo hi).
Proof.
  intros v. unfold strtoul_all. destruct (strtoul s) as [[n r]|]; simpl; [|done].
  case_match eqn:E; [|done]. intros [= <-]. lia.
Qed.
Lemma ztake_le (s : list Z) n : 0 <= n -> zlen (ztake n s) <= n.
Proof. intros Hn. unfold ztake. rewrite length_take. lia. Qed.

Lemma expand_home_path_len home path n : 0 < n -> zlen (noxssh_expand_home_path home path n) <= n - 1.
Proof.
  intros Hn. assert (Hp : zlen (ztake (n - 1) path) <= n - 1) by (apply ztake_le; lia).
  unfold noxssh_expand_home_path. repeat case_match; lia.
Qed.

Lemma config_entry_extends home key value c : extends c (config_entry home key value c).
Proof.
  destruct c. unfold config_entry. repeat case_match; unfold extends; simpl;
    split_and!; (apply keeps_unless_set || reflexivity).
Qed.

Lemma timeout_ok value : opt_all (fun t => 0 <= t <= 600000) ((fun v => u32 (v * 1000)) <$> strtoul_all value 0 600).
Proof.
  intros t Ht. apply fmap_Some in Ht as (v & Hv & ->). apply strtoul_all_range in Hv.
  rewrite u32_small by ulia. lia.
Qed.

Lemma ztake_some n (l : list Z) : 0 < n -> l <> [] -> 1 <= zlen (ztake n l) <= n.
Proof. intros Hn Hl. split; [|apply ztake_le; lia]. unfold ztake. rewrite length_take. destruct l; [done|]. simpl. lia. Qed.

Lemma config_entry_ok home key value c : value <> [] -> config_ok c -> config_ok (config_entry home key value c).
Proof.
  intros Hv Hc. destruct c. unfold config_ok in *. simpl in Hc.
  destruct Hc as (Hc1 & Hc2 & Hc3 & Hc4 & Hc5 & Hc6 & Hc7 & Hc8 & Hc9).
  assert (He : opt_all (fun s => zlen s <= 1023) (Some (noxssh_expand_home_path home value NOXSSH_MAX_PATH_LEN)))
    by (apply opt_all_some; apply (expand_home_path_len home value 1024); lia).
  unfold config_entry. repeat (case_match; [simpl; split_and!; try assumption; apply opt_all_unless;
    (assumption || apply strtoul_all_range || apply timeout_ok || by apply opt_all_some, ztake_some)|]).
  simpl. by split_and!.
Qed.

Lemma config_words_value line key value : config_words line = Some (key, value) -> value <> [].
Proof.
  unfold config_words. destruct (noxssh_rtrim (noxssh_ltrim line)) as [|c p]; [done|]. case_match; [done|].
  destruct (split_key (c :: p)) as [[k r]|]; [|done]. cbn [mbind option_bind].
  case_bool_decide; [done|]. by intros [= _ <-].
Qed.

Lemma config_line_keeps home host_alias st line :
  extends st.2 (config_line home host_alias st line).2 /\
  (config_ok st.2 -> config_ok (config_line home host_alias st line).2).
Proof.
  destruct st as [active c]. unfold config_line. destruct (config_words (cstr line)) as [[key value]|] eqn:E; [|done].
  destruct (noxssh_ascii_equals_ignore_case key (bs "Host")); [done|]. destruct active; simpl; [|done].
  split; [apply config_entry_extends|apply config_entry_ok; by eapply config_words_value].
Qed.

Lemma config_lines_keep home host_alias ls st :
  extends st.2 (config_lines home host_alias st ls).2 /\
  (config_ok st.2 -> config_ok (config_lines home host_alias st ls).2).
Proof.
  unfold config_lines. revert st. induction ls as [|l ls IH]; intros st; simpl; [done|].
  destruct (config_line_keeps home host_alias st l) as [H1 H2]. destruct (IH (config_line home host_alias st l)) as [H3 H4].
  split; [by etransitivity|auto].
Qed.

Lemma config_zero_ok : config_ok config_zero.
Proof. unfold config_ok, opt_all. simpl. naive_solver. Qed.
Lemma config_text_ok home host_alias content : config_ok (config_text home host_alias content).
Proof. apply config_lines_keep, config_zero_ok. Qed.

(** C26: what is read from ssh_config is usable whatever the file holds: names are not empty and,
    like the paths, fit their arrays, the port is from 1 to 65535, the times are in range; and the first value
    that applies to the host is the one that counts: no later line of the file changes a
    value that was set. *)
Theorem config_first_value home host_alias content before after :
  fgets_all 1023 content = before ++ after ->
  config_ok (config_text home host_alias content) /\
  extends (config_lines home host_alias (false, config_zero) before).2 (config_text home host_alias content).
Proof.
  intros Hf. unfold config_text. change (NOXSSH_SSHCFG_MAX_LINE_LEN - 1) with 1023. rewrite Hf. split.
  - apply config_lines_keep, config_zero_ok.
  - unfold config_lines at 2. rewrite foldl_app. fold (config_lines home host_alias (false, config_zero) before).
    apply config_lines_keep.
Qed.

(** A value written after "key =", with a space before the '=', keeps the '=' and is
    refused or misread: only one separator is skipped. *)
Lemma spaced_equals_sign :
  config_text None (bs "h") (bs "Host h" ++ [10] ++ bs "Port = 2222" ++ [10] ++ bs "User = me" ++ [10]) =
  mkConfig None (Some (bs "= me")) None None None None None None None None None.
Proof. vm_compute. reflexivity. Qed.

(** ** Witnesses *)

Definition example_config : list Z :=
  bs "# hosts" ++ [10] ++ bs "Host *.example.org !bad.*" ++ [10] ++ bs "  Port 2222" ++ [10] ++
  bs "Host *" ++ [10] ++ bs "Port 22" ++ [10] ++ bs "User=me" ++ [10].

Lemma config_first_value_witness :
  cfg_port (config_text None (bs "www.example.org") example_config) = Some 2222 /\
  cfg_port (config_text None (bs "bad.example.org") example_config) = Some 22.
Proof.
  destruct (config_first_value None (bs "www.example.org") example_config (take 3 (fgets_all 1023 example_config))
    (drop 3 (fgets_all 1023 example_config))) as [_ He].
  - symmetry. apply take_drop.
  - split; [|vm_compute; reflexivity]. destruct He as (_ & _ & _ & _ & Hp & _). apply Hp. vm_compute. reflexivity.
Defined.
