(* ===== verification/KnownHosts.v ===== *)
(** The known hosts file of the command line client, and the decision to trust a host key
    (client/main.c). The texts the client prints are left out. *)

From stdpp Require Import gmap.
From S2P Require Export Posix ClientKeyFile ClientConfig.

Definition NOXSSH_HOSTKEY_HEX_LEN : Z := 64.

(** ** The calls: the user's files and terminal *)

Class UserHost (E : Type) : Type := {
  (** [getenv("HOME")] *)
  c_home : E -> option (list Z);
  (** [fopen(path, "r")]: the bytes the stream then delivers *)
  c_read_file : list Z -> E -> option (list Z) * E;
  (** [fopen(path, "a") != NULL] *)
  c_open_append : list Z -> E -> bool * E;
  (** [(void)fprintf(f, ..); (void)fclose(f);] of a text, on the file of this path *)
  c_write_close : list Z -> list Z -> E -> E;
  (** [mkdir(path, 0700) == 0 || errno == EEXIST] *)
  c_mkdir : list Z -> E -> bool * E;
  (** [fgets(buf, n + 1, stdin)] *)
  c_read_stdin : Z -> E -> option (list Z) * E
}.

(** ** Fingerprints *)

Definition noxssh_is_valid_hex_fingerprint (s : list Z) : bool :=
  (zlen s =? NOXSSH_HOSTKEY_HEX_LEN) &&
  forallb (fun c => ((48 <=? c) && (c <=? 57)) || ((97 <=? c) && (c <=? 102)) || ((65 <=? c) && (c <=? 70))) s.

Definition noxssh_ascii_tolower_inplace (s : list Z) : list Z :=
  (fun c => if (65 <=? c) && (c <=? 90) then c - 65 + 97 else c) <$> s.

(** ** The file *)

(** [sscanf(line, "%255s %u %64s", ..)]: the host, the port and the fingerprint. *)
Definition scan_known_host (line : list Z) : option (list Z * Z * list Z) :=
  '(file_host, line) ← scan_word 255 line;
  '(file_port, line) ← strtoul line;
  '(file_hex, _) ← scan_word 64 line;
  Some (file_host, u32 file_port, file_hex).

(** A line of the file that records [host] and [port]. *)
Definition known_line (host : list Z) (port : Z) (line : list Z) : option (list Z) :=
  let line := cstr line in
  match line with
  | c :: _ =>
      if (c =? 35) || (c =? 10) || (c =? 13) then None
      else
        '(file_host, file_port, file_hex) ← scan_known_host line;
        if bool_decide (file_host = host) && (file_port =? port) then Some file_hex else None
  | [] => None
  end.

(** The first one. *)
Fixpoint known_in (host : list Z) (port : Z) (ls : list (list Z)) : option (list Z) :=
  match ls with
  | [] => None
  | line :: ls => match known_line host port line with Some hex => Some hex | None => known_in host port ls end
  end.

Definition noxssh_get_known_hosts_path (home : option (list Z)) (out_path_len : Z) : option (list Z) :=
  match home with
  | Some ((_ :: _) as h) =>
      let path := h ++ bs "/.noxssh/known_hosts" in
      if zlen path >=? out_path_len then None else Some path
  | _ => None
  end.

Section code.
Context {E : Type} `{UserHost E}.

Abbreviation UM := (M E).

(** The fingerprint recorded for the host, cut to the buffer of [out_hex_len]. *)
Definition noxssh_lookup_known_host (path host : list Z) (port out_hex_len : Z) : UM (option (list Z)) :=
  f ← ask (c_read_file path);
  match f with
  | None => mret None
  | Some content => mret (ztake (out_hex_len - 1) <$> known_in host port (fgets_all 1399 content))
  end.

Definition noxssh_ensure_known_hosts_dir (path : list Z) : UM bool :=
  if bool_decide (path = []) then mret false
  else
    match strrchr_split 47 (ztake (NOXSSH_MAX_PATH_LEN - 1) path) with
    | None => mret false
    | Some (dir, _) => if bool_decide (dir = []) then mret false else ask (c_mkdir dir)
    end.

(** The line that records a host. *)
Definition known_host_line (host : list Z) (port : Z) (hex : list Z) : list Z :=
  host ++ bs " " ++ print_u port ++ bs " " ++ hex ++ [10].

Definition noxssh_append_known_host (path host : list Z) (port : Z) (hex : list Z) : UM bool :=
  ok ← noxssh_ensure_known_hosts_dir path;
  if negb ok then mret false
  else
    opened ← ask (c_open_append path);
    if negb opened then mret false
    else modify (c_write_close path (known_host_line host port hex));; mret true.

(** ** The decision *)

(** [pin] and [known_hosts_override]: empty when not given. *)
Definition known_hosts_path (home : option (list Z)) (known_hosts_override : list Z) : option (list Z) :=
  match known_hosts_override with
  | [] => noxssh_get_known_hosts_path home NOXSSH_MAX_PATH_LEN
  | _ => Some (ztake (NOXSSH_MAX_PATH_LEN - 1) known_hosts_override)
  end.

(** A host that is not recorded. *)
Definition verify_unknown (path host : list Z) (port : Z) (actual_hex : list Z) (check : host_key_check)
    (batch_mode : bool) : UM bool :=
  match check with
  | CheckYes => mret false
  | CheckNo => mret true
  | CheckAcceptNew => noxssh_append_known_host path host port actual_hex
  | CheckAsk =>
      if batch_mode then mret false
      else
        answer ← ask (c_read_stdin 15);
        match answer with
        | None => mret false
        | Some answer =>
            if bool_decide (cstr answer = bs "yes" ++ [10]) || bool_decide (cstr answer = bs "yes" ++ [13; 10])
            then noxssh_append_known_host path host port actual_hex
            else mret false
        end
  end.

Definition noxssh_verify_host_key (host : list Z) (port : Z) (fingerprint : list Z) (check : host_key_check)
    (pin : list Z) (batch_mode : bool) (known_hosts_override : list Z) : UM bool :=
  if negb (zlen fingerprint =? 32) then mret false
  else
    let actual_hex := default [] (noxssh_bytes_to_hex fingerprint (NOXSSH_HOSTKEY_HEX_LEN + 1)) in
    if negb (bool_decide (pin = [])) then mret (bool_decide (actual_hex = pin))
    else
      home ← gets c_home;
      match known_hosts_path home known_hosts_override with
      | None => mret false
      | Some path =>
          known ← noxssh_lookup_known_host path host port (NOXSSH_HOSTKEY_HEX_LEN + 1);
          match known with
          | Some known_hex =>
              mret (bool_decide (known_hex = actual_hex) || match check with CheckNo => true | _ => false end)
          | None => verify_unknown path host port actual_hex check batch_mode
          end
      end.
End code.

(** ** What the calls do *)

(** The user's files, all of which the user can read, and what stdin delivers until it ends.
    Whether a call succeeds is up to the system: a file may fail to open, and of a text
    that is written to an open file any part from its start may arrive (a full disk). *)
Class UserFiles (E : Type) `{UserHost E} : Type := {
  user_files : E -> gmap (list Z) (list Z);
  user_input : E -> list Z;
  same_user (e e' : E) : Prop := c_home e' = c_home e /\ user_input e' = user_input e;
  read_file_law path e r e' : c_read_file path e = (r, e') ->
    r = user_files e !! path /\ user_files e' = user_files e /\ same_user e e';
  open_append_law path e ok e' : c_open_append path e = (ok, e') -> same_user e e' /\
    user_files e' = if (ok : bool) then <[path := default [] (user_files e !! path)]> (user_files e) else user_files e;
  write_close_law path text content e : user_files e !! path = Some content ->
    same_user e (c_write_close path text e) /\
    exists written, written `prefix_of` text /\
      user_files (c_write_close path text e) = <[path := content ++ written]> (user_files e);
  mkdir_law dir e ok e' : c_mkdir dir e = (ok, e') -> user_files e' = user_files e /\ same_user e e';
  read_stdin_law n e r e' : c_read_stdin n e = (r, e') -> user_files e' = user_files e /\ c_home e' = c_home e /\
    r = head (fgets_all n (user_input e))
}.

(** What is recorded. *)
Definition recorded (files : gmap (list Z) (list Z)) (path host : list Z) (port : Z) : option (list Z) :=
  content ← files !! path; known_in host port (fgets_all 1399 content).

(** ** Fingerprints and lines *)

Lemma fingerprint_hex fp : zlen fp = 32 ->
  default [] (noxssh_bytes_to_hex fp (NOXSSH_HOSTKEY_HEX_LEN + 1)) = hex_of fp.
Proof. intros Hl. unfold noxssh_bytes_to_hex. rewrite Hl. done. Qed.

Lemma hex_of_inj a b : bytes_ok a -> bytes_ok b -> hex_of a = hex_of b -> a = b.
Proof. intros Ha Hb E. apply hex_pairs_of in Ha, Hb. congruence. Qed.

(** A digit of the text is a digit or a small letter. *)
Lemma hex_of_chars b : Forall (fun c => 48 <= c <= 57 \/ 97 <= c <= 102) (hex_of b).
Proof.
  induction b as [|x b IH]; [constructor|]. cbn [hex_of mbind list_bind]. fold (hex_of b).
  assert (Hn : forall n, 0 <= n < 16 -> 48 <= hex_digits !!! Z.to_nat n <= 57 \/ 97 <= hex_digits !!! Z.to_nat n <= 102).
  { intros n Hn. assert (Hd : Forall (fun c => 48 <= c <= 57 \/ 97 <= c <= 102) hex_digits)
      by (apply (bool_decide_unpack _); vm_compute; exact I).
    rewrite Forall_lookup in Hd. destruct (lookup_lt_is_Some_2 hex_digits (Z.to_nat n)) as [c Hc]; [simpl; lia|].
    rewrite (list_lookup_total_correct _ _ _ Hc). by eapply Hd. }
  rewrite !land_15. repeat (apply Forall_cons; split; [apply Hn; Z.to_euclidean_division_equations; lia|]). exact IH.
Qed.

(** A host name as the file can hold it. *)
Definition host_name_ok (host : list Z) : Prop :=
  host <> [] /\ zlen host <= NOXSSH_MAX_HOST_LEN /\ Forall (fun c => isspace c = false /\ c <> 0) host /\ head host <> Some 35.

Lemma host_name_prefix c name host : c :: name `prefix_of` host -> host_name_ok host -> host_name_ok (c :: name).
Proof.
  intros [k ->] (_ & Hl & Hc & Hh). split_and!; [done| | |done].
  - rewrite length_app in Hl. lia.
  - by apply Forall_app in Hc as [? _].
Qed.

Lemma not_elem_prefix (x : Z) w l : w `prefix_of` l -> ~ x ∈ l -> ~ x ∈ w.
Proof. intros [k ->] Hx Hin. apply Hx, elem_of_app. by left. Qed.

(** A line that starts with a host name. *)
Lemma known_line_host host port name rest : host_name_ok name -> ~ 0 ∈ rest ->
  match rest with [] => True | c :: _ => isspace c = true end ->
  known_line host port (name ++ rest) =
    ('(file_port, r) ← strtoul rest; '(file_hex, _) ← scan_word 64 r;
     if bool_decide (name = host) && (u32 file_port =? port) then Some file_hex else None).
Proof.
  intros (Hne & Hlen & Hc & Hh) H0 Hr. unfold known_line.
  rewrite cstr_no_nul.
  2:{ rewrite not_elem_of_app. split; [|done]. intros Hin. rewrite Forall_forall in Hc. by apply Hc in Hin as [_ ?]. }
  destruct name as [|c name]; [done|]. pose proof Hc as Hc0. apply Forall_cons in Hc0 as [[Hcs _] _]. cbn [app].
  unfold isspace in Hcs. simpl in Hh.
  replace ((c =? 35) || (c =? 10) || (c =? 13)) with false
    by (destruct (Z.eqb_spec c 35) as [->|]; [done|lia]).
  unfold scan_known_host. rewrite app_comm_cons, scan_word_app;
    [|done|by eapply Forall_impl; [exact Hc|intros ? []]|unfold NOXSSH_MAX_HOST_LEN in Hlen; lia|done].
  cbn [mbind option_bind]. destruct (strtoul rest) as [[p r]|]; [|done]. cbn [mbind option_bind].
  by destruct (scan_word 64 r) as [[hex r']|].
Qed.

Lemma line_no_nul port fp : 0 <= port -> ~ 0 ∈ bs " " ++ print_u port ++ bs " " ++ hex_of fp ++ [10].
Proof.
  intros Hp. pose proof (print_dec_digits 10 port ltac:(lia)) as Hd. pose proof (hex_of_chars fp) as Hx.
  rewrite !not_elem_of_app. split_and!; intros Hin.
  - by apply list_elem_of_singleton in Hin.
  - rewrite Forall_forall in Hd. apply Hd in Hin. unfold isdigit in Hin. lia.
  - by apply list_elem_of_singleton in Hin.
  - rewrite Forall_forall in Hx. apply Hx in Hin. lia.
  - by apply list_elem_of_singleton in Hin.
Qed.

Lemma scan_hex (w rest : list Z) : w <> [] -> Forall (fun c => 48 <= c <= 57 \/ 97 <= c <= 102) w -> zlen w <= 64 ->
  match rest with [] => True | c :: _ => isspace c = true end -> scan_word 64 (bs " " ++ w ++ rest) = Some (w, rest).
Proof.
  intros Hne Hw Hl Hr. transitivity (scan_word 64 (w ++ rest)); [done|].
  apply scan_word_app; [done| |lia|done]. eapply Forall_impl; [exact Hw|]. cbv beta. intros x Hx. unfold isspace. lia.
Qed.

Lemma strtoul_blank_print port rest : 0 <= port < 2 ^ 16 -> match rest with [] => True | c :: _ => isdigit c = false end ->
  strtoul (bs " " ++ print_u port ++ rest) = Some (port, rest).
Proof.
  intros Hp Hr. transitivity (strtoul (print_u port ++ rest)); [done|]. apply strtoul_print; [lia|done].
Qed.

(** The line is read back, also when its end was not written. *)
Lemma known_line_whole host port fp rest : host_name_ok host -> 0 <= port < 2 ^ 16 -> zlen fp = 32 ->
  rest `prefix_of` [10] ->
  known_line host port (host ++ bs " " ++ print_u port ++ bs " " ++ hex_of fp ++ rest) = Some (hex_of fp).
Proof.
  intros Hh Hp Hfp Hr. pose proof (hex_of_length fp) as Hl. pose proof (line_no_nul port fp) as H0.
  rewrite known_line_host; [|done| |done].
  2:{ eapply not_elem_prefix, H0; [|lia]. do 4 apply prefix_app. done. }
  rewrite strtoul_blank_print by done. cbn [mbind option_bind].
  rewrite scan_hex; [|intros E; rewrite E in Hl; simpl in Hl; lia|apply hex_of_chars|lia|].
  2:{ destruct Hr as [k Hk]. destruct rest as [|c rest]; [done|]. by injection Hk as <- _. }
  cbn [mbind option_bind]. rewrite bool_decide_eq_true_2 by done. rewrite u32_small by ulia. by rewrite Z.eqb_refl.
Qed.

Lemma known_host_line_read host port fp : host_name_ok host -> 0 <= port < 2 ^ 16 -> zlen fp = 32 ->
  known_line host port (known_host_line host port (hex_of fp)) = Some (hex_of fp).
Proof. intros. by apply known_line_whole. Qed.

(** A line that was cut: it records nothing, or a fingerprint that is too short. *)
Lemma known_line_cut host port fp written : host_name_ok host -> 0 <= port < 2 ^ 16 -> zlen fp = 32 ->
  written `prefix_of` host ++ bs " " ++ print_u port ++ bs " " ++ hex_of fp ->
  zlen written < zlen (host ++ bs " " ++ print_u port ++ bs " " ++ hex_of fp) ->
  match known_line host port written with Some h => zlen h < 64 | None => True end.
Proof.
  intros Hh Hp Hfp Hpre Hlen. pose proof (hex_of_length fp) as Hl.
  assert (H0 : ~ 0 ∈ bs " " ++ print_u port ++ bs " " ++ hex_of fp).
  { eapply not_elem_prefix, (line_no_nul port fp); [exists [10]; by rewrite <- !app_assoc|lia]. }
  pose proof (print_dec_digits 10 port ltac:(lia)) as Hd. change (print_dec 10 port) with (print_u port) in Hd.
  apply prefix_app_cases in Hpre as [Hpre|(w1 & -> & Hw1)].
  { destruct written as [|c written]; [done|]. rewrite <- (app_nil_r (c :: written)).
    rewrite known_line_host; [exact I|by eapply host_name_prefix|apply not_elem_of_nil|done]. }
  assert (H1 : ~ 0 ∈ w1) by by eapply not_elem_prefix.
  destruct w1 as [|c w2]; [rewrite known_line_host; done|].
  destruct Hw1 as [k Hk]. injection Hk as Hc Hk. change (32 = c) in Hc. subst c. assert (Hw2 : w2 `prefix_of` print_u port ++ bs " " ++ hex_of fp) by by exists k.
  rewrite known_line_host by done. clear k Hk.
  apply prefix_app_cases in Hw2 as [Hw2|(w3 & -> & Hw3)].
  { assert (Hdig : Forall (fun c => isdigit c = true) w2) by (destruct Hw2 as [k Hk]; rewrite Hk in Hd; by apply Forall_app in Hd as [? _]).
    change (strtoul (32 :: w2)) with (strtoul w2). destruct (strtoul w2) as [[p r]|] eqn:E; [|exact I].
    apply strtoul_digits in E; [|done]. subst r. exact I. }
  destruct Hw3 as [k Hk]. destruct w3 as [|c w4].
  { change (32 :: print_u port ++ []) with (bs " " ++ print_u port ++ []). by rewrite strtoul_blank_print. }
  injection Hk as Hc Hk. change (32 = c) in Hc. subst c. change (32 :: print_u port ++ 32 :: w4) with (bs " " ++ print_u port ++ bs " " ++ w4).
  rewrite strtoul_blank_print by done. cbn [mbind option_bind].
  destruct (decide (w4 = [])) as [->|Hne]; [done|].
  rewrite <- (app_nil_r (bs " " ++ w4)), <- app_assoc, scan_hex; [|done| |by rewrite Hk, length_app in Hl; lia|done].
  2:{ pose proof (hex_of_chars fp) as Hx. rewrite Hk in Hx. by apply Forall_app in Hx as [? _]. }
  cbn [mbind option_bind]. destruct (_ && _); [|exact I]. revert Hlen. rewrite !length_app.
  cbn [length]. rewrite length_app. change (length (bs " ")) with 1%nat. cbn [length]. lia.
Qed.

Lemma known_host_line_lf host port fp written : host_name_ok host -> 0 <= port ->
  written `prefix_of` host ++ bs " " ++ print_u port ++ bs " " ++ hex_of fp -> 10 ∉ written.
Proof.
  intros (_ & _ & Hc & _) Hp [k Hk] Hin. assert (Hin2 : 10 ∈ host ++ bs " " ++ print_u port ++ bs " " ++ hex_of fp)
    by (rewrite Hk; apply elem_of_app; by left). revert Hin2. rewrite !elem_of_app. intros [H|[H|[H|[H|H]]]].
  - rewrite Forall_forall in Hc. by apply Hc in H as [? _].
  - by apply list_elem_of_singleton in H.
  - pose proof (print_dec_digits 10 port ltac:(lia)) as Hd. rewrite Forall_forall in Hd. apply Hd in H.
    unfold isdigit in H. lia.
  - by apply list_elem_of_singleton in H.
  - pose proof (hex_of_chars fp) as Hx. rewrite Forall_forall in Hx. apply Hx in H. lia.
Qed.

Lemma known_host_line_length host port fp : host_name_ok host -> zlen fp = 32 ->
  zlen (known_host_line host port (hex_of fp)) <= 1399.
Proof.
  intros (_ & Hlen & _) Hfp. assert (Hpl : forall fuel v, (length (print_dec fuel v) <= fuel)%nat).
  { intros fuel. induction fuel as [|fuel IH]; intros v; [done|]. simpl. case_match; [simpl; lia|].
    rewrite length_app. specialize (IH (v / 10)). simpl. lia. }
  unfold known_host_line. rewrite !length_app, hex_of_length. specialize (Hpl 10%nat port).
  unfold print_u, NOXSSH_MAX_HOST_LEN in *.
  change (length (bs " ")) with 1%nat. cbn [length]. lia.
Qed.

Lemma known_host_line_alone host port fp : host_name_ok host -> 0 <= port < 2 ^ 16 -> zlen fp = 32 ->
  fgets_all 1399 (known_host_line host port (hex_of fp)) = [known_host_line host port (hex_of fp)].
Proof.
  intros Hho Hp Hfp. pose proof (known_host_line_length host port fp Hho Hfp) as Hl. unfold known_host_line in *.
  replace (host ++ bs " " ++ print_u port ++ bs " " ++ hex_of fp ++ [10])
    with ((host ++ bs " " ++ print_u port ++ bs " " ++ hex_of fp) ++ [10]) in * by (rewrite <- !app_assoc; done).
  rewrite length_app in Hl. apply fgets_all_line; [lia| |cbn [length] in Hl; lia].
  apply (known_host_line_lf host port fp); [done|lia|done].
Qed.

(** ** Looking up *)

Lemma known_in_app host port a b :
  known_in host port (a ++ b) = match known_in host port a with Some hex => Some hex | None => known_in host port b end.
Proof. induction a as [|l a IH]; simpl; [done|]. by destruct (known_line host port l). Qed.

Lemma word_length n s : (length (word n s).1 <= n)%nat.
Proof.
  revert s. induction n as [|n IH]; intros s; destruct s as [|c s]; simpl; [lia..|].
  destruct (isspace c); simpl; [lia|]. specialize (IH s). destruct (word n s). simpl in *. lia.
Qed.

Lemma known_in_length host port ls hex : known_in host port ls = Some hex -> zlen hex <= 64.
Proof.
  induction ls as [|l ls IH]; simpl; [done|]. destruct (known_line host port l) as [h|] eqn:E; [|done].
  intros [= ->]. unfold known_line in E. destruct (cstr l) as [|c line]; [done|]. case_match; [done|].
  unfold scan_known_host in E.
  destruct (scan_word 255 (c :: line)) as [[w r]|]; [|done]. cbn [mbind option_bind] in E.
  destruct (strtoul r) as [[v r2]|]; [|done]. cbn [mbind option_bind] in E.
  destruct (scan_word 64 r2) as [[x r3]|] eqn:Ew; [|done]. cbn [mbind option_bind] in E.
  case_match; [|done]. injection E as <-. unfold scan_word in Ew.
  pose proof (word_length 64 (skip_space r2)) as Hl. destruct (word 64 (skip_space r2)) as [w' r']. simpl in Hl.
  case_match; [done|]. injection Ew as <- <-. lia.
Qed.

(** What the file holds of a host after some part of its line was appended. *)
Lemma recorded_after host port fp file written more files path :
  host_name_ok host -> 0 <= port < 2 ^ 16 -> zlen fp = 32 -> ends_line file ->
  known_in host port (fgets_all 1399 file) = None ->
  let line := known_host_line host port (hex_of fp) in written `prefix_of` line ->
  files !! path = Some (file ++ written ++ more) -> more = [] \/ written = line ->
  if zlen line - 1 <=? zlen written then recorded files path host port = Some (hex_of fp)
  else match recorded files path host port with Some h => zlen h < 64 | None => True end.
Proof.
  intros Hho Hport Hl Hend Hno line Hw Hf Hmore. unfold recorded. rewrite Hf. cbn [mbind option_bind].
  rewrite fgets_all_app, known_in_app, Hno by (lia || done).
  assert (Hline : line = (host ++ bs " " ++ print_u port ++ bs " " ++ hex_of fp) ++ [10])
    by (unfold line, known_host_line; by rewrite <- !app_assoc).
  assert (Hlen : zlen line <= 1399).
  { apply known_host_line_length; done. }
  pose proof (known_host_line_read host port fp Hho Hport Hl) as Hread. fold line in Hread.
  destruct (decide (written = line)) as [->|Hne].
  { replace (zlen line - 1 <=? zlen line) with true by lia.
    rewrite fgets_all_app by (lia || (right; rewrite Hline; by eexists)).
    unfold line at 1. rewrite known_host_line_alone by done. fold line. simpl. by rewrite Hread. }
  destruct Hmore as [->|]; [|done]. rewrite app_nil_r.
  assert (Hcut : written `prefix_of` host ++ bs " " ++ print_u port ++ bs " " ++ hex_of fp).
  { rewrite Hline in Hw. apply prefix_app_cases in Hw as [?|(w & -> & [k Hk])]; [done|].
    destruct w as [|c w]; [by rewrite app_nil_r|]. injection Hk as <- Hk. symmetry in Hk. apply app_nil in Hk as [-> _]. done. }
  assert (Hlf : 10 ∉ written) by (apply known_host_line_lf in Hcut; [done..|lia]).
  pose proof (known_line_cut host port fp written Hho Hport Hl Hcut) as Hshort.
  assert (Hsingle : known_in host port (fgets_all 1399 written) = known_line host port written).
  { destruct written as [|c w] eqn:E; [done|]. rewrite <- E in *. rewrite fgets_all_single; [|lia|by rewrite E|done|].
    - simpl. by destruct (known_line host port written).
    - apply prefix_length in Hw. lia. }
  rewrite Hsingle. assert (Hlb : zlen line = zlen (host ++ bs " " ++ print_u port ++ bs " " ++ hex_of fp) + 1)
    by (rewrite Hline, length_app; simpl; lia).
  destruct (Z.leb_spec (zlen line - 1) (zlen written)); [|apply Hshort; lia].
  assert (Hall : written = host ++ bs " " ++ print_u port ++ bs " " ++ hex_of fp).
  { destruct Hcut as [k Hk]. rewrite Hk, length_app in Hlb. destruct k; [by rewrite app_nil_r in Hk|simpl in Hlb; lia]. }
  rewrite Hall. pose proof (known_line_whole host port fp [] Hho Hport Hl (prefix_nil _)) as Hwh.
  by rewrite app_nil_r in Hwh.
Qed.

Section proofs.
Context {E : Type} `{UserFiles E}.

Lemma same_user_refl e : same_user e e.
Proof. done. Qed.
Lemma same_user_trans e1 e2 e3 : same_user e1 e2 -> same_user e2 e3 -> same_user e1 e3.
Proof. intros [] []. split; congruence. Qed.

Lemma lookup_known_host_spec path host port (Q : outcome (option (list Z)) -> E -> Prop) e :
  (forall e', user_files e' = user_files e -> same_user e e' ->
     Q (Ok (recorded (user_files e) path host port)) e') ->
  wp (noxssh_lookup_known_host path host port (NOXSSH_HOSTKEY_HEX_LEN + 1)) Q e.
Proof.
  intros HQ. unfold noxssh_lookup_known_host. apply wp_bind, wp_ask. intros r e1 Hr. cbn [ok_or].
  apply read_file_law in Hr as (-> & F & Hh). unfold recorded in HQ.
  destruct (user_files e !! path) as [content|]; apply wp_ret; [|by apply HQ].
  specialize (HQ e1 F Hh). cbn [mbind option_bind] in HQ. revert HQ.
  destruct (known_in host port (fgets_all 1399 content)) as [hex|] eqn:Ek; [|done].
  cbn [fmap option_fmap option_map]. rewrite ztake_all; [done|].
  apply known_in_length in Ek. unfold NOXSSH_HOSTKEY_HEX_LEN. lia.
Qed.

(** Some part of the text, from its start, is now at the end of the file. *)
Definition appended (files files' : gmap (list Z) (list Z)) (path text : list Z) : Prop :=
  exists written, written `prefix_of` text /\ files' = <[path := default [] (files !! path) ++ written]> files.

(** With these files, the known hosts file could not be opened, or its directory not be made. *)
Definition record_fails (files : gmap (list Z) (list Z)) (path : list Z) : Prop :=
  match strrchr_split 47 (ztake (NOXSSH_MAX_PATH_LEN - 1) path) with
  | Some ((_ :: _) as dir, _) =>
      exists e1 e2, user_files e1 = files /\ (c_mkdir dir e1 = (false, e2) \/ c_open_append path e1 = (false, e2))
  | _ => True
  end.

(** The file was opened and written to, or nothing happened. *)
Lemma append_known_host_spec path host port hex (Q : outcome bool -> E -> Prop) e :
  (forall ok e', c_home e' = c_home e ->
     (if (ok : bool) then appended (user_files e) (user_files e') path (known_host_line host port hex)
      else user_files e' = user_files e /\ record_fails (user_files e) path) -> Q (Ok ok) e') ->
  wp (noxssh_append_known_host path host port hex) Q e.
Proof.
  intros HQ. unfold noxssh_append_known_host. apply wp_bind.
  assert (Hdir : wp (noxssh_ensure_known_hosts_dir path) (fun o e' => exists ok, o = Ok ok /\
    user_files e' = user_files e /\ c_home e' = c_home e /\ (ok = false -> record_fails (user_files e) path)) e).
  { unfold noxssh_ensure_known_hosts_dir, record_fails. case_bool_decide as Hp; [subst; apply wp_ret; by exists false|].
    destruct (strrchr_split _ _) as [[dir ?]|]; [|apply wp_ret; by exists false].
    destruct dir; [apply wp_ret; by exists false|]. rewrite bool_decide_eq_false_2 by done.
    apply wp_ask. intros ok e' Hm. pose proof (mkdir_law _ _ _ _ Hm) as [? []]. exists ok.
    split_and!; [done..|]. intros ->. exists e, e'. auto. }
  eapply wp_mono; [exact Hdir|]. intros o e1 (ok & -> & F & Hh & Hf). cbn [ok_or].
  destruct ok; cbn [negb]; [|by apply wp_ret, HQ; auto].
  apply wp_bind, wp_ask. intros opened e2 Ha. cbn [ok_or]. pose proof (open_append_law _ _ _ _ Ha) as [[Hh2 _] F2].
  destruct opened; cbn [negb].
  2:{ apply wp_ret, HQ; [congruence|]. split; [congruence|]. unfold record_fails. repeat case_match; [done| |done].
      exists e1, e2. auto. }
  apply wp_bind, wp_modify. cbn [ok_or]. apply wp_ret.
  destruct (write_close_law path (known_host_line host port hex) (default [] (user_files e1 !! path)) e2)
    as [[Hh3 _] (written & Hw & F3)]; [by rewrite F2, lookup_insert_eq|].
  apply HQ; [congruence|]. exists written. split; [done|]. by rewrite F3, F2, F, insert_insert_eq.
Qed.

(** The first line of the input, of at most 15 characters, is "yes". *)
Definition agrees (input : list Z) : bool :=
  match fgets_all 15 input with
  | line :: _ => bool_decide (cstr line = bs "yes" ++ [10]) || bool_decide (cstr line = bs "yes" ++ [13; 10])
  | [] => false
  end.

(** An unknown host may be recorded. *)
Definition consents (check : host_key_check) (batch_mode : bool) (input : list Z) : bool :=
  match check with
  | CheckAcceptNew => true
  | CheckAsk => negb batch_mode && agrees input
  | _ => false
  end.

(** What the decision is, and what the file holds afterwards, when no key is pinned. *)
Definition decided (files files' : gmap (list Z) (list Z)) (input path host : list Z) (port : Z) (hex : list Z)
    (check : host_key_check) (batch_mode trusted : bool) : Prop :=
  match recorded files path host port, check with
  | Some known, CheckNo => trusted = true /\ files' = files
  | Some known, _ => trusted = bool_decide (known = hex) /\ files' = files
  | None, CheckNo => trusted = true /\ files' = files
  | None, _ =>
      if consents check batch_mode input
      then if trusted then appended files files' path (known_host_line host port hex)
           else files' = files /\ record_fails files path
      else trusted = false /\ files' = files
  end.

Lemma verify_unknown_spec path host port fp check batch e :
  recorded (user_files e) path host port = None ->
  wp (verify_unknown path host port fp check batch) (fun o e' => exists trusted, o = Ok trusted /\
    c_home e' = c_home e /\
    decided (user_files e) (user_files e') (user_input e) path host port fp check batch trusted) e.
Proof.
  intros Hn. unfold decided. rewrite Hn.
  assert (Happ : forall e1, user_files e1 = user_files e -> c_home e1 = c_home e ->
    wp (noxssh_append_known_host path host port fp) (fun o e' => exists trusted, o = Ok trusted /\
      c_home e' = c_home e /\ if trusted then appended (user_files e) (user_files e') path (known_host_line host port fp)
        else user_files e' = user_files e /\ record_fails (user_files e) path) e1).
  { intros e1 F Hh. apply append_known_host_spec. intros ok e' Hh' F'. exists ok.
    rewrite F in F'. split_and!; [done|congruence|]. by destruct ok. }
  destruct check; cbn [verify_unknown consents].
  - destruct batch; [apply wp_ret; exists false; split_and!; done|].
    apply wp_bind, wp_ask. intros a e1 Ha. apply read_stdin_law in Ha as (F & Hh & ->). cbn [ok_or negb andb].
    unfold agrees. destruct (fgets_all 15 (user_input e)) as [|line ls]; cbn [head];
      [apply wp_ret; exists false; split_and!; done|].
    destruct (_ || _); [|apply wp_ret; exists false; split_and!; done].
    by apply Happ.
  - apply wp_ret. exists false. split_and!; done.
  - apply wp_ret. exists true. split_and!; done.
  - by apply Happ.
Qed.

(** Without a pinned key. *)
Lemma verify_host_key_decides_pre host port fp check batch known_override path e : zlen fp = 32 ->
  known_hosts_path (c_home e) known_override = Some path ->
  wp (noxssh_verify_host_key host port fp check [] batch known_override) (fun o e' => exists trusted, o = Ok trusted /\
    c_home e' = c_home e /\
    decided (user_files e) (user_files e') (user_input e) path host port (hex_of fp) check batch trusted) e.
Proof.
  intros Hl Hp. unfold noxssh_verify_host_key. rewrite Hl, fingerprint_hex by done. cbn [negb Z.eqb Pos.eqb].
  rewrite bool_decide_eq_true_2 by done. cbn [negb]. apply wp_bind, wp_gets. cbn [ok_or]. rewrite Hp.
  apply wp_bind, lookup_known_host_spec. intros e1 F [Hh Hi]. cbn [ok_or].
  destruct (recorded (user_files e) path host port) as [known|] eqn:Er.
  - apply wp_ret. eexists. split_and!; [done..|]. unfold decided. rewrite Er.
    destruct check; rewrite ?orb_false_r, ?orb_true_r; done.
  - rewrite <- F, <- Hh, <- Hi. apply verify_unknown_spec. congruence.
Qed.

(** The decision with everything it depends on. *)
Definition decision (host : list Z) (port : Z) (fp : list Z) (check : host_key_check) (pin : list Z) (batch_mode : bool)
    (known_override : list Z) (e e' : E) (trusted : bool) : Prop :=
  match pin with
  | _ :: _ => trusted = bool_decide (hex_of fp = pin) /\ user_files e' = user_files e
  | [] =>
      match known_hosts_path (c_home e) known_override with
      | None => trusted = false /\ user_files e' = user_files e
      | Some path =>
          decided (user_files e) (user_files e') (user_input e) path host port (hex_of fp) check batch_mode trusted
      end
  end.

Lemma verify_host_key_spec host port fp check pin batch known_override e : zlen fp = 32 ->
  wp (noxssh_verify_host_key host port fp check pin batch known_override) (fun o e' => exists trusted, o = Ok trusted /\
    c_home e' = c_home e /\ decision host port fp check pin batch known_override e e' trusted) e.
Proof.
  intros Hl. unfold decision. destruct pin as [|c pin].
  - destruct (known_hosts_path (c_home e) known_override) as [path|] eqn:Hp; [by apply verify_host_key_decides_pre|].
    unfold noxssh_verify_host_key. rewrite Hl. cbn [negb Z.eqb Pos.eqb].
    rewrite bool_decide_eq_true_2 by done. cbn [negb]. apply wp_bind, wp_gets. cbn [ok_or]. rewrite Hp.
    apply wp_ret. by exists false.
  - unfold noxssh_verify_host_key. rewrite Hl, fingerprint_hex by done. cbn [negb Z.eqb Pos.eqb].
    rewrite bool_decide_eq_false_2 by done. cbn [negb]. apply wp_ret. by eexists.
Qed.

(** C19: the decision on a host key always comes, and is this one. With a pinned fingerprint
    the key is trusted exactly when its hexadecimal SHA-256 fingerprint is the pinned one, and
    no file changes. Otherwise the first record of the host and port in the known hosts file
    decides (StrictHostKeyChecking=no trusts in any case). A host without record is refused
    in the mode yes and trusted in the mode no. In the mode accept-new, and in the mode ask when
    the program is not in batch mode and the user's line is "yes", it is trusted unless the
    file or its directory cannot be opened or made; then some part of its record, from the
    start, has been appended (the results of [fprintf] and [fclose] are ignored, so it need not
    be all of it). In the mode ask with any other answer, or none, it is refused. A refusal
    changes no file.
    Without a home directory or a path that fits, no key is trusted. *)
Theorem verify_host_key_decides host port fp check pin batch known_override e : zlen fp = 32 ->
  wp (noxssh_verify_host_key host port fp check pin batch known_override) (fun o e' => exists trusted, o = Ok trusted /\
    c_home e' = c_home e /\ decision host port fp check pin batch known_override e e' trusted) e.
Proof. apply verify_host_key_spec. Qed.

(** C20: trust on first use. When a host without record was trusted in the mode ask or
    accept-new, some part of its record, from the start, is at the end of the known hosts file.
    If all of it is, then from then on, with whatever else is appended to the file, strict
    checking trusts a key for this host and port exactly when its fingerprint is the one that
    was trusted; the same holds when only the end of the line is missing and nothing follows.
    If the record was cut before that (the code does not notice), strict checking refuses every
    key: it never trusts another one. The file must have ended at the end of a line. *)
Theorem trust_on_first_use host port fp check batch known_override path e e' :
  host_name_ok host -> 0 <= port < 2 ^ 16 -> bytes_ok fp -> zlen fp = 32 ->
  check = CheckAsk \/ check = CheckAcceptNew -> known_hosts_path (c_home e) known_override = Some path ->
  let file := default [] (user_files e !! path) in let line := known_host_line host port (hex_of fp) in
  recorded (user_files e) path host port = None -> ends_line file ->
  noxssh_verify_host_key host port fp check [] batch known_override e = (Ok true, e') ->
  exists written, written `prefix_of` line /\ user_files e' = <[path := file ++ written]> (user_files e) /\
  forall fp' batch' e2 more, bytes_ok fp' -> zlen fp' = 32 -> c_home e2 = c_home e ->
    user_files e2 !! path = Some (file ++ written ++ more) -> more = [] \/ written = line ->
    (noxssh_verify_host_key host port fp' CheckYes [] batch' known_override e2).1 =
      Ok (bool_decide (fp' = fp) && (zlen line - 1 <=? zlen written)).
Proof.
  intros Hho Hport Hb Hl Hck Hpath file line Hnone Hend Hrun.
  pose proof (verify_host_key_decides_pre host port fp check batch known_override path e Hl Hpath) as Hd.
  eapply wp_run in Hd; [|exact Hrun]. destruct Hd as (trusted & [= <-] & _ & Hd).
  assert (Happ : appended (user_files e) (user_files e') path line).
  { unfold decided in Hd. rewrite Hnone in Hd. destruct Hck as [-> | ->]; [|done].
    destruct (consents _ _ _); [done|by destruct Hd]. }
  destruct Happ as (written & Hw & Hf). exists written. split; [done|]. split; [done|].
  intros fp' batch' e2 more Hb' Hl' Hhome Hc2 Hmore. rewrite <- Hhome in Hpath.
  pose proof (verify_host_key_decides_pre host port fp' CheckYes batch' known_override path e2 Hl' Hpath) as Hd2.
  revert Hd2. unfold wp. destruct (noxssh_verify_host_key _ _ _ _ _ _ _ e2) as [o s]. intros (t & -> & _ & Hd2).
  pose proof (recorded_after host port fp file written more (user_files e2) path Hho Hport Hl Hend) as Hrec.
  assert (Hno : known_in host port (fgets_all 1399 file) = None)
    by (unfold recorded in Hnone; unfold file; by destruct (user_files e !! path)).
  specialize (Hrec Hno Hw Hc2 Hmore). fold line in Hrec. simpl. f_equal. unfold decided in Hd2. cbn [consents] in Hd2.
  destruct (Z.leb_spec (zlen line - 1) (zlen written)).
  - rewrite Hrec in Hd2. destruct Hd2 as [-> _]. rewrite andb_true_r. apply bool_decide_ext.
    split; [intros E2; symmetry; by apply hex_of_inj|congruence].
  - rewrite andb_false_r. revert Hrec Hd2. destruct (recorded (user_files e2) path host port) as [h|]; [|by intros _ Hd2; apply Hd2]. intros Hrec [-> _].
    apply bool_decide_eq_false_2. intros ->. pose proof (hex_of_length fp'). lia.
Qed.
End proofs.

(** ** A sample: the files of a user who answers "yes", on a disk with some room left *)

Definition sample_home : list Z := bs "/home/joe".
Record sample_user_t : Type := mkUser { u_files : gmap (list Z) (list Z); u_room : Z }.

#[export] Instance sample_user_host : UserHost sample_user_t := {
  c_home e := Some sample_home;
  c_read_file path e := (u_files e !! path, e);
  c_open_append path e := (true, mkUser (<[path := default [] (u_files e !! path)]> (u_files e)) (u_room e));
  c_write_close path text e :=
    mkUser (<[path := default [] (u_files e !! path) ++ ztake (u_room e) text]> (u_files e)) (u_room e - zlen text);
  c_mkdir dir e := (true, e);
  c_read_stdin n e := (head (fgets_all n (bs "yes" ++ [10])), e)
}.
#[export] Instance sample_user_files : UserFiles sample_user_t.
Proof.
  refine {| user_files := u_files; user_input e := bs "yes" ++ [10] |}; simpl; intros.
  - by simplify_eq.
  - by simplify_eq.
  - split; [done|]. exists (ztake (u_room e) text). split; [apply prefix_take|]. by simplify_option_eq.
  - by simplify_eq.
  - by simplify_eq.
Defined.

Definition sample_known_hosts : list Z := sample_home ++ bs "/.noxssh/known_hosts".
Definition sample_fp (b : Z) : list Z := replicate 32 b.
(** Another host is recorded. *)
Definition sample_record : list Z := known_host_line (bs "example.org") 22 (hex_of (sample_fp 7)).
Definition sample_user (room : Z) : sample_user_t := mkUser {[sample_known_hosts := sample_record]} room.

(** The user answers "yes" to the question about the new host. *)
Definition first_use (room : Z) : outcome bool * sample_user_t :=
  noxssh_verify_host_key (bs "argenox.com") 22 (sample_fp 200) CheckAsk [] false [] (sample_user room).
Definition strict_check (b : Z) (e : sample_user_t) : outcome bool :=
  (noxssh_verify_host_key (bs "argenox.com") 22 (sample_fp b) CheckYes [] true [] e).1.

(** Without a record the mode yes refuses; in the mode ask the "yes" is enough. *)
Lemma verify_host_key_decides_witness :
  wp (noxssh_verify_host_key (bs "argenox.com") 22 (sample_fp 200) CheckYes [] false [])
    (fun o e' => o = Ok false /\ user_files e' = user_files (sample_user 0)) (sample_user 0) /\
  wp (noxssh_verify_host_key (bs "argenox.com") 22 (sample_fp 200) CheckAsk [] false [])
    (fun o e' => o = Ok true) (sample_user 0).
Proof.
  assert (Hr : recorded (user_files (sample_user 0)) sample_known_hosts (bs "argenox.com") 22 = None)
    by (vm_compute; reflexivity).
  split.
  - eapply wp_mono; [apply (verify_host_key_decides (bs "argenox.com") 22 (sample_fp 200)); reflexivity|].
    intros o e' (trusted & -> & _ & Hd). unfold decision in Hd.
    change (known_hosts_path _ _) with (Some sample_known_hosts) in Hd. cbv beta iota in Hd. unfold decided in Hd.
    rewrite Hr in Hd. by destruct Hd as [-> ->].
  - eapply wp_mono; [apply (verify_host_key_decides (bs "argenox.com") 22 (sample_fp 200)); reflexivity|].
    intros o e' (trusted & -> & _ & Hd). unfold decision in Hd.
    change (known_hosts_path _ _) with (Some sample_known_hosts) in Hd. cbv beta iota in Hd. unfold decided in Hd.
    rewrite Hr in Hd. change (consents CheckAsk false (user_input (sample_user 0))) with true in Hd. cbv beta iota in Hd.
    destruct trusted; [done|]. destruct Hd as [_ Hf]. unfold record_fails in Hf.
    change (strrchr_split 47 _) with (Some (sample_home ++ bs "/.noxssh", bs "known_hosts")) in Hf.
    destruct Hf as (e1 & e2 & _ & [Hf|Hf]); discriminate Hf.
Defined.

(** With room for the record the key is trusted from then on, and no other; when the disk
    was full in the middle of the record, no key is. *)
Lemma trust_on_first_use_witness :
  (first_use 1000).1 = Ok true /\ strict_check 200 (first_use 1000).2 = Ok true /\
  strict_check 201 (first_use 1000).2 = Ok false /\
  (first_use 20).1 = Ok true /\ strict_check 200 (first_use 20).2 = Ok false.
Proof.
  assert (Hgo : forall room, (first_use room).1 = Ok true -> exists written,
    user_files (first_use room).2 !! sample_known_hosts = Some (sample_record ++ written) /\
    forall b, is_byte b -> strict_check b (first_use room).2 = Ok (bool_decide (sample_fp b = sample_fp 200) &&
      (zlen (known_host_line (bs "argenox.com") 22 (hex_of (sample_fp 200))) - 1 <=? zlen written))).
  { intros room Ho.
    destruct (trust_on_first_use (bs "argenox.com") 22 (sample_fp 200) CheckAsk false [] sample_known_hosts
      (sample_user room) (first_use room).2) as (written & _ & Hf & Hall).
    - split_and!; [done|by vm_compute|apply (bool_decide_unpack _); vm_compute; exact I|done].
    - lia.
    - apply (bool_decide_unpack _); vm_compute; exact I.
    - reflexivity.
    - by left.
    - reflexivity.
    - vm_compute. reflexivity.
    - right. eexists (take (length sample_record - 1) sample_record). vm_compute. reflexivity.
    - rewrite <- Ho. apply surjective_pairing.
    - assert (Hfile : user_files (first_use room).2 !! sample_known_hosts = Some (sample_record ++ written))
        by (rewrite Hf; apply lookup_insert_eq).
      exists written. split; [exact Hfile|]. intros b Hb.
      apply (Hall (sample_fp b) true (first_use room).2 []); [by apply Forall_replicate|reflexivity|reflexivity| |by left].
      rewrite app_nil_r. exact Hfile. }
  set (line := known_host_line (bs "argenox.com") 22 (hex_of (sample_fp 200))) in *.
  assert (Hfull : (first_use 1000).1 = Ok true /\
    user_files (first_use 1000).2 !! sample_known_hosts = Some (sample_record ++ line)) by (split; vm_compute; reflexivity).
  assert (Hcut : (first_use 20).1 = Ok true /\
    user_files (first_use 20).2 !! sample_known_hosts = Some (sample_record ++ take 20 line)) by (split; vm_compute; reflexivity).
  destruct Hfull as [Ho1 Hf1], Hcut as [Ho2 Hf2].
  destruct (Hgo 1000 Ho1) as (w1 & Hw1 & Hs1), (Hgo 20 Ho2) as (w2 & Hw2 & Hs2).
  rewrite Hf1 in Hw1. injection Hw1 as <-. rewrite Hf2 in Hw2. injection Hw2 as <-.
  split_and!; [done| | |done|]; rewrite ?Hs1, ?Hs2 by (unfold is_byte; lia); vm_compute; reflexivity.
Defined.
