(* ===== verification/ClientLoop.v ===== *)
(** The loops of the command line client (client/main.c): waiting for the socket with
    keepalives and re-keying, printing what the channel delivers, and the interactive
    shell. The texts the client prints about errors are left out. *)

From S2P Require Export ClientSessionSpec KnownHosts.

(** ** The calls: clock, socket, standard output *)

Class Terminal (E : Type) : Type := {
  (** [(uint64_t)time(NULL)] *)
  c_time : E -> Z * E;
  (** [select] on the socket for reading, with a timeout in ms *)
  c_select_read : Z -> Z -> E -> Z * E;
  (** [fwrite] and [fflush] on stdout *)
  c_stdout : list Z -> E -> E
}.

Definition APP_INVALID_SOCKET : Z := -1.

(** The variables the loops share, and the options. *)
Record alive_t : Type := mkAlive {
  io_quiet_since_sec : Z; unanswered_keepalive_count : Z; last_rekey_sec : Z
}.
Record alive_options : Type := mkAliveOptions {
  keepalive_interval_sec : Z; keepalive_count_max : Z; rekey_interval_sec : Z
}.

Section code.
Context {E : Type} `{Host E} `{UserHost E} `{Terminal E} `{NoxTLS}.
Context (depth : nat).

Abbreviation C := (M (world netnox_ssh_client_t E)).

Definition noxssh_now_seconds : C Z := call c_time.

Definition noxssh_maybe_rekey (rekey_interval_sec last_rekey_sec : Z) : C (Z * Z) :=
  if rekey_interval_sec =? 0 then mret (0, last_rekey_sec)
  else
    now_sec ← noxssh_now_seconds;
    if now_sec <? u64 (last_rekey_sec + rekey_interval_sec) then mret (0, last_rekey_sec)
    else
      rc ← return_code (netnox_ssh_client_rekey depth);
      mret (match rc with NETNOX_RETURN_SUCCESS => (1, now_sec) | _ => (-1, last_rekey_sec) end).

Definition noxssh_socket_readable (sock timeout_ms : Z) : C Z :=
  if sock =? APP_INVALID_SOCKET then mret (-1) else call (c_select_read sock timeout_ms).

(** A pass of the loop in slices of 250 ms. *)
Definition wait_pass (sock : Z) (o : alive_options) (st : Z * alive_t) : C (Z * alive_t + Z * alive_t) :=
  let '(remaining, a) := st in
  if remaining >? 0 then
    '(rekeyed, last) ← noxssh_maybe_rekey (rekey_interval_sec o) (last_rekey_sec a);
    let a := mkAlive (io_quiet_since_sec a) (unanswered_keepalive_count a) last in
    if rekeyed <? 0 then mret (inr (-1, a))
    else
      let step := if remaining <? 250 then remaining else 250 in
      ready ← noxssh_socket_readable sock step;
      if negb (ready =? 0) then mret (inr (ready, a))
      else
        let remaining := remaining - step in
        if keepalive_interval_sec o =? 0 then mret (inl (remaining, a))
        else
          now_sec ← noxssh_now_seconds;
          if now_sec >=? u64 (io_quiet_since_sec a + keepalive_interval_sec o) then
            rc ← return_code netnox_ssh_client_send_keepalive;
            match rc with
            | NETNOX_RETURN_SUCCESS =>
                let unanswered := u32 (unanswered_keepalive_count a + 1) in
                if (keepalive_count_max o >? 0) && (unanswered >? keepalive_count_max o)
                then mret (inr (-2, mkAlive (io_quiet_since_sec a) unanswered (last_rekey_sec a)))
                else mret (inl (remaining, mkAlive now_sec unanswered (last_rekey_sec a)))
            | _ => mret (inr (-1, a))
            end
          else mret (inl (remaining, a))
  else mret (inr (0, a)).

(** Positive: readable; zero: nothing came; -1: an error; -2: too many keepalives. *)
Definition noxssh_wait_socket_or_keepalive (sock wait_ms : Z) (o : alive_options) (a : alive_t) : C (Z * alive_t) :=
  if wait_ms =? 0 then ready ← noxssh_socket_readable sock 0; mret (ready, a)
  else loop (Z.to_pos (wait_ms + 1)) (wait_pass sock o) (wait_ms, a).

(** [netnox_ssh_client_recv_data] into [rx_buf]: [None] on an error. *)
Definition recv_output : C (option (list Z)) :=
  attempt (netnox_ssh_client_recv_data depth NETNOX_SSH_MAX_DATA_LEN).

(** Print the data, and note that the server is alive. *)
Definition print_output (data : list Z) (a : alive_t) : C alive_t :=
  call (fun e => (tt, c_stdout data e));;
  now_sec ← noxssh_now_seconds;
  mret (mkAlive now_sec 0 (last_rekey_sec a)).

(** ** Output of a command *)

Definition print_pass (sock : Z) (o : alive_options) (a : alive_t) : C (alive_t + unit) :=
  '(ready, a) ← noxssh_wait_socket_or_keepalive sock 1000 o a;
  if ready <? 0 then mret (inr tt)
  else if ready =? 0 then mret (inl a)
  else
    data ← recv_output;
    match data with
    | Some ((_ :: _) as data) => a ← print_output data a; mret (inl a)
    | _ => mret (inr tt)
    end.

Definition noxssh_print_channel_output (sock : Z) (o : alive_options) : C unit :=
  now_sec ← noxssh_now_seconds;
  loop forever (print_pass sock o) (mkAlive now_sec 0 now_sec).

(** ** The shell *)

(** A pass of the loop of the drain: it ends with 0, 1 (the channel closed), -1 or -2. *)
Definition drain_pass (sock : Z) (o : alive_options) (a : alive_t) : C (alive_t + Z * alive_t) :=
  data ← recv_output;
  match data with
  | None => mret (inr (-1, a))
  | Some [] => mret (inr (1, a))
  | Some data =>
      a ← print_output data a;
      '(ready, a) ← noxssh_wait_socket_or_keepalive sock 60 o a;
      mret (if ready =? -2 then inr (-2, a) else if ready <=? 0 then inr (0, a) else inl a)
  end.

Definition noxssh_drain_shell_output (sock first_wait_ms : Z) (o : alive_options) (a : alive_t) : C (Z * alive_t) :=
  '(ready, a) ← noxssh_wait_socket_or_keepalive sock first_wait_ms o a;
  if ready =? -2 then mret (-2, a)
  else if ready <=? 0 then mret (0, a)
  else loop forever (drain_pass sock o) a.

Definition shell_pass (sock : Z) (o : alive_options) (a : alive_t) : C (alive_t + unit) :=
  '(drain_rc, a) ← noxssh_drain_shell_output sock 250 o a;
  if negb (drain_rc =? 0) then mret (inr tt)
  else
    line ← call (c_read_stdin (NETNOX_SSH_MAX_COMMAND_LEN + 1));
    match line with
    | None => mret (inr tt)
    | Some line =>
        let line := cstr line in
        if bool_decide (line = bs "exit" ++ [10]) || bool_decide (line = bs "exit" ++ [13; 10]) then mret (inr tt)
        else
          rc ← return_code (netnox_ssh_client_send_data line);
          match rc with
          | NETNOX_RETURN_SUCCESS =>
              now_sec ← noxssh_now_seconds;
              '(drain_rc, a) ← noxssh_drain_shell_output sock 300 o (mkAlive now_sec 0 (last_rekey_sec a));
              mret (if negb (drain_rc =? 0) then inr tt else inl a)
          | _ => mret (inr tt)
          end
    end.

Definition noxssh_interactive_shell (sock : Z) (o : alive_options) : C unit :=
  now_sec ← noxssh_now_seconds;
  loop forever (shell_pass sock o) (mkAlive now_sec 0 now_sec).
End code.

(** ** What the calls do *)

(** A call that leaves the connection alone. *)
Definition offline `{HostLaws E} {A} (f : E -> A * E) : Prop :=
  forall e, sent (f e).2 = sent e /\ inbox (f e).2 = inbox e.

Class TerminalLaws (E : Type) `{HostLaws E} `{UserHost E} `{Terminal E} : Prop := {
  time_offline : offline c_time;
  time_law e : 0 <= (c_time e).1 < 2 ^ 63;
  select_offline sock ms : offline (c_select_read sock ms);
  select_law sock ms e : -1 <= (c_select_read sock ms e).1;
  stdout_offline data : offline (fun e => (tt, c_stdout data e));
  stdin_offline n : offline (c_read_stdin n)
}.

(** ** The client works on its context through the API only *)

Section safe.
Context {E : Type} `{HostLaws E} {T : NoxTLS} {L : NoxTLSLaws T}.
Context (depth : nat) (depth_small : Z.of_nat depth < 2 ^ 62).
Implicit Types w : world netnox_ssh_client_t E.

(** The context stays one that calls of the API can reach, and nothing is added to what
    the peer sends. *)
Definition kept w : Prop := reachable w /\ zlen (inbox (env w)) <= Z.of_nat depth.
Definition safe {A} (m : M (world netnox_ssh_client_t E) A) : Prop :=
  forall w, kept w -> wp m (fun o w' => o <> Oob -> kept w') w.

Lemma safe_ret {A} (a : A) : safe (mret a).
Proof. intros w Hw. by apply wp_ret. Qed.
Lemma safe_bind {A B} (m : M _ A) (k : A -> M _ B) : safe m -> (forall a, safe (k a)) -> safe (m ≫= k).
Proof.
  intros Hm Hk w Hw. apply wp_bind. eapply wp_mono; [by apply Hm|]. intros o w1 H1.
  destruct o as [a|rc| |]; cbn [ok_or]; [|by intros _; apply H1|done|by intros _; apply H1].
  apply Hk. by apply H1.
Qed.
Lemma safe_lift {A} (o : outcome A) : safe (lift o).
Proof. intros w Hw. by apply wp_lift. Qed.
Lemma safe_gets {A} (f : world netnox_ssh_client_t E -> A) : safe (gets f).
Proof. intros w Hw. by apply wp_gets. Qed.
Lemma safe_call {A} (f : E -> A * E) : offline f -> safe (call f).
Proof.
  intros Hf w [Hr Hn]. apply wp_call. intros a e Hc _. specialize (Hf (env w)). rewrite Hc in Hf. simpl in Hf.
  split; [by apply reach_env|]. simpl. by rewrite (proj2 Hf).
Qed.
Lemma safe_return_code {A} (m : M _ A) : safe m -> safe (return_code m).
Proof.
  intros Hm w Hw. apply wp_return_code. eapply wp_mono; [by apply Hm|]. intros o w' Ho.
  destruct o; try (intros _; by apply Ho). done.
Qed.
Lemma safe_attempt {A} (m : M _ A) : safe m -> safe (attempt m).
Proof.
  intros Hm w Hw. apply wp_attempt. eapply wp_mono; [by apply Hm|]. intros o w' Ho.
  destruct o; try (intros _; by apply Ho). done.
Qed.
Lemma safe_loop {A B} fuel (body : A -> M _ (A + B)) a : (forall a, safe (body a)) -> safe (loop fuel body a).
Proof.
  intros Hb w Hw. apply (wp_loop_partial body (fun _ => kept)); [done| |done].
  intros a1 w1 H1. eapply wp_mono; [by apply Hb|]. intros o w2 Ho.
  destruct o as [[]| | |]; try (by apply Ho); try (intros _; by apply Ho). done.
Qed.
Lemma safe_api call : call_ok call -> safe (run_call depth call).
Proof.
  intros Hok w [Hr Hn]. apply wp_intro. intros o w' Hrun Ho.
  destruct (triple_run _ _ _ _ _ _ _ _ (run_call_spec depth call depth_small Hok) (reachable_inv w Hr) Hn I Hrun)
    as (_ & _ & He).
  split; [by eapply reach_call|]. destruct o; try done; [destruct He|]; lia.
Qed.
Lemma safe_recv_data len : safe (netnox_ssh_client_recv_data depth len).
Proof.
  intros w Hw. pose proof (safe_api (CallRecvData len) I w Hw) as Hs. cbn [run_call] in Hs.
  unfold wp, mbind, M_bind in *. destruct (netnox_ssh_client_recv_data depth len w) as [[a|rc| |] w']; [intros _; by apply Hs|intros _; by apply Hs|done|intros _; by apply Hs].
Qed.
End safe.

Create HintDb safety.
#[export] Hint Resolve safe_ret safe_lift safe_gets safe_call safe_return_code safe_attempt safe_recv_data : safety.
#[export] Hint Resolve time_offline select_offline stdout_offline stdin_offline : safety.

(** One step of a proof of [safe]. *)
Ltac safe_step :=
  lazymatch goal with
  | |- safe _ (_ ≫= _) => apply safe_bind; [|intros ?]
  | |- safe _ (loop _ _ _) => apply safe_loop; intros ?
  | |- safe _ (match ?x with _ => _ end) => destruct x
  | |- safe _ (mret _) => apply safe_ret
  end.
Ltac safety := repeat safe_step; eauto with safety.

Section facts.
Context {E : Type} `{TL : TerminalLaws E} {T : NoxTLS} {L : NoxTLSLaws T}.
Context (depth : nat) (depth_small : Z.of_nat depth < 2 ^ 62).
Implicit Types w : world netnox_ssh_client_t E.

Lemma rekey_safe : safe depth (netnox_ssh_client_rekey (E:=E) depth).
Proof. by apply (safe_api depth depth_small CallRekey). Qed.
Lemma keepalive_safe : safe depth (netnox_ssh_client_send_keepalive (E:=E)).
Proof. by apply (safe_api depth depth_small CallKeepalive). Qed.
Lemma send_data_safe data : safe depth (netnox_ssh_client_send_data (E:=E) data).
Proof. by apply (safe_api depth depth_small (CallSendData data)). Qed.
#[local] Hint Resolve rekey_safe keepalive_safe send_data_safe : safety.

Lemma maybe_rekey_safe i last : safe depth (noxssh_maybe_rekey depth i last).
Proof. unfold noxssh_maybe_rekey, noxssh_now_seconds. safety. Qed.
#[local] Hint Resolve maybe_rekey_safe : safety.

Lemma readable_safe sock ms : safe depth (noxssh_socket_readable (E:=E) sock ms).
Proof. unfold noxssh_socket_readable. safety. Qed.
#[local] Hint Resolve readable_safe : safety.

Lemma wait_safe sock ms o a : safe depth (noxssh_wait_socket_or_keepalive depth sock ms o a).
Proof. unfold noxssh_wait_socket_or_keepalive, wait_pass, noxssh_now_seconds. safety. Qed.
#[local] Hint Resolve wait_safe : safety.

Lemma print_output_safe data a : safe depth (print_output (E:=E) data a).
Proof. unfold print_output, noxssh_now_seconds. safety. Qed.
Lemma recv_output_safe : safe depth (recv_output (E:=E) depth).
Proof. unfold recv_output. safety. Qed.
#[local] Hint Resolve print_output_safe recv_output_safe : safety.

Lemma print_channel_output_safe sock o : safe depth (noxssh_print_channel_output depth sock o).
Proof. unfold noxssh_print_channel_output, print_pass, noxssh_now_seconds. safety. Qed.

Lemma drain_safe sock ms o a : safe depth (noxssh_drain_shell_output depth sock ms o a).
Proof. unfold noxssh_drain_shell_output, drain_pass. safety. Qed.
#[local] Hint Resolve drain_safe : safety.

Lemma interactive_shell_safe sock o : safe depth (noxssh_interactive_shell depth sock o).
Proof. unfold noxssh_interactive_shell, shell_pass, noxssh_now_seconds. safety. Qed.

(** An API call whose code is looked at: it returns one. *)
Lemma api_code call w : call_ok call -> kept depth w ->
  wp (return_code (run_call depth call)) (fun o w' => match o with Ok _ => kept depth w' | Oob => True | _ => False end) w.
Proof.
  intros Hok [Hr Hn]. apply wp_return_code, wp_intro. intros o w' Hrun.
  destruct (triple_run _ _ _ _ _ _ _ _ (run_call_spec depth call depth_small Hok) (reachable_inv w Hr) Hn I Hrun)
    as (_ & _ & He).
  assert (Hk : o <> Oob -> zlen (inbox (env w')) <= zlen (inbox (env w)) -> kept depth w').
  { intros Ho Hle. split; [by eapply reach_call|lia]. }
  destruct o; try done; apply Hk; try done. by destruct He.
Qed.

(** *** What happens while the client waits *)

(** A re-keying that is not due, or is due and done. *)
Inductive rekeyed (o : alive_options) w (a : alive_t) : world netnox_ssh_client_t E -> alive_t -> Prop :=
| rekey_off : rekey_interval_sec o = 0 -> rekeyed o w a w a
| rekey_early now e : rekey_interval_sec o <> 0 -> c_time (env w) = (now, e) ->
    now < u64 (last_rekey_sec a + rekey_interval_sec o) -> rekeyed o w a (w <| env := e |>) a
| rekey_done now e w' : rekey_interval_sec o <> 0 -> c_time (env w) = (now, e) ->
    u64 (last_rekey_sec a + rekey_interval_sec o) <= now ->
    return_code (netnox_ssh_client_rekey depth) (w <| env := e |>) = (Ok NETNOX_RETURN_SUCCESS, w') ->
    rekeyed o w a w' (mkAlive (io_quiet_since_sec a) (unanswered_keepalive_count a) now).

(** A slice of at most 250 ms in which nothing arrives, and the time at its end. *)
Definition silent (o : alive_options) (sock : Z) w (a : alive_t) w' (a' : alive_t) (now : Z) : Prop :=
  exists w1 ms e e', rekeyed o w a w1 a' /\ 0 < ms <= 250 /\ c_select_read sock ms (env w1) = (0, e) /\
    c_time e = (now, e') /\ w' = w1 <| env := e |> <| env := e' |>.

(** SSH_MSG_IGNORE with an empty string, in one packet on the wire. *)
Definition keepalive_sent w w' : Prop :=
  exists padding, packet_ok (message [FU8 NETNOX_SSH_MSG_IGNORE; FU32 0]) padding /\
    key_exchange_complete (transport (ctx w)) = true /\
    sent_packet w w' (packet (message [FU8 NETNOX_SSH_MSG_IGNORE; FU32 0]) padding).

(** Slices, at the end of which [k] keepalives were sent: one at the end of each slice that
    ends an interval or more after the last sign of life or the last keepalive, and none at
    the end of the others. *)
Inductive wait_slices (o : alive_options) (sock : Z) w (a : alive_t) : Z -> world netnox_ssh_client_t E -> alive_t -> Prop :=
| slices_start : wait_slices o sock w a 0 w a
| slices_silent k w1 a1 w2 a2 now : wait_slices o sock w a k w1 a1 -> silent o sock w1 a1 w2 a2 now ->
    now < io_quiet_since_sec a2 + keepalive_interval_sec o -> wait_slices o sock w a k w2 a2
| slices_keepalive k w1 a1 w2 a2 now w3 : wait_slices o sock w a k w1 a1 -> silent o sock w1 a1 w2 a2 now ->
    io_quiet_since_sec a2 + keepalive_interval_sec o <= now -> keepalive_sent w2 w3 ->
    wait_slices o sock w a (k + 1) w3 (mkAlive now (unanswered_keepalive_count a2 + 1) (last_rekey_sec a2)).

(** The ways a wait ends: its time is over, the socket is readable or has failed, a re-keying
    or a keepalive has failed, or one more keepalive than allowed went unanswered. *)
Inductive wait_ends (o : alive_options) (sock : Z) w (a : alive_t) (k : Z) :
    Z * alive_t -> world netnox_ssh_client_t E -> Prop :=
| ends_timeout w' a' : wait_slices o sock w a k w' a' -> wait_ends o sock w a k (0, a') w'
| ends_socket w1 a1 w2 a2 ms ready w' : wait_slices o sock w a k w1 a1 -> rekeyed o w1 a1 w2 a2 ->
    noxssh_socket_readable sock ms w2 = (Ok ready, w') -> ready <> 0 -> wait_ends o sock w a k (ready, a2) w'
| ends_rekey w1 a1 now e rc w' : wait_slices o sock w a k w1 a1 -> c_time (env w1) = (now, e) ->
    u64 (last_rekey_sec a1 + rekey_interval_sec o) <= now ->
    return_code (netnox_ssh_client_rekey depth) (w1 <| env := e |>) = (Ok rc, w') -> rc <> NETNOX_RETURN_SUCCESS ->
    wait_ends o sock w a k (-1, a1) w'
| ends_keepalive w1 a1 w2 a2 now rc w' : wait_slices o sock w a k w1 a1 -> silent o sock w1 a1 w2 a2 now ->
    io_quiet_since_sec a2 + keepalive_interval_sec o <= now ->
    return_code netnox_ssh_client_send_keepalive w2 = (Ok rc, w') -> rc <> NETNOX_RETURN_SUCCESS ->
    wait_ends o sock w a k (-1, a2) w'
| ends_unanswered w' a' quiet : wait_slices o sock w a k w' a' ->
    keepalive_count_max o < unanswered_keepalive_count a' ->
    wait_ends o sock w a k (-2, mkAlive quiet (unanswered_keepalive_count a') (last_rekey_sec a')) w'.

(** The variables after [k] keepalives. *)
Definition waited (o : alive_options) (a : alive_t) (r : Z * alive_t) (k : Z) : Prop :=
  let '(ready, a') := r in
  unanswered_keepalive_count a' = unanswered_keepalive_count a + k /\
  io_quiet_since_sec a + keepalive_interval_sec o * (if ready =? -2 then k - 1 else k) <= io_quiet_since_sec a' < 2 ^ 63 /\
  if ready =? -2 then unanswered_keepalive_count a' = keepalive_count_max o + 1
  else unanswered_keepalive_count a' <= keepalive_count_max o.

Lemma time_kept now e w : kept depth w -> c_time (env w) = (now, e) -> kept depth (w <| env := e |>).
Proof.
  intros Hk Ht. pose proof (safe_call depth _ time_offline w Hk) as Hs. unfold wp, call in Hs. rewrite Ht in Hs.
  by apply Hs.
Qed.

Lemma keepalive_run w w' : kept depth w ->
  return_code netnox_ssh_client_send_keepalive w = (Ok NETNOX_RETURN_SUCCESS, w') -> keepalive_sent w w'.
Proof.
  intros [Hr _] Hrun. destruct (reachable_inv w Hr) as ((D1 & _ & Hp & _) & _).
  set (p := message [FU8 NETNOX_SSH_MSG_IGNORE; FU32 0]).
  assert (Hka : netnox_ssh_client_send_keepalive w =
    (guard_m (connected (transport (ctx w)) && key_exchange_complete (transport (ctx w))) NETNOX_RETURN_BAD_PARAM;;
     netnox_ssh_send_packet p) w) by reflexivity.
  unfold return_code in Hrun. rewrite Hka, bind_guard in Hrun.
  destruct (connected _ && key_exchange_complete _) eqn:Hup; [|done]. apply andb_true_iff in Hup as [_ Hkex].
  pose proof (send_packet_coded p w) as Hcode.
  pose proof (send_packet_spec p w (conj D1 Hp) ltac:(unfold p; simpl; lia)) as Hs. unfold wp in Hs.
  destruct (netnox_ssh_send_packet p w) as [[u|rc| |] w2]; try done; [|simpl in Hcode; congruence].
  injection Hrun as <-. destruct Hs as (_ & padding & Hok & _ & _ & Hs). exists padding. by split_and!.
Qed.

(** A call of the API whose return code is looked at, with the run that gave it. *)
Lemma api_code_run call w (Q : outcome netnox_return_t -> world netnox_ssh_client_t E -> Prop) :
  call_ok call -> kept depth w ->
  (forall rc w', return_code (run_call depth call) w = (Ok rc, w') -> kept depth w' -> Q (Ok rc) w') ->
  (forall w', Q Oob w') -> wp (return_code (run_call depth call)) Q w.
Proof.
  intros Hok Hk HQ Hoob. pose proof (api_code call w Hok Hk) as Hc. unfold wp in *.
  destruct (return_code (run_call depth call) w) as [[rc|rc| |] w'] eqn:E'; try done. by apply HQ.
Qed.

Lemma maybe_rekey_kept o a w : kept depth w ->
  wp (noxssh_maybe_rekey depth (rekey_interval_sec o) (last_rekey_sec a))
    (fun out w' => match out with
      | Ok (r, last) => kept depth w' /\
          let a' := mkAlive (io_quiet_since_sec a) (unanswered_keepalive_count a) last in
          if r <? 0 then a' = a /\ forall sock w0 a0 k, wait_slices o sock w0 a0 k w a -> wait_ends o sock w0 a0 k (-1, a) w'
          else rekeyed o w a w' a'
      | Oob => True | _ => False end) w.
Proof.
  intros Hk. assert (Ha : mkAlive (io_quiet_since_sec a) (unanswered_keepalive_count a) (last_rekey_sec a) = a)
    by by destruct a.
  unfold noxssh_maybe_rekey. destruct (Z.eqb_spec (rekey_interval_sec o) 0) as [E0|E0].
  { apply wp_ret. cbv beta iota. rewrite Ha. split; [done|]. by apply rekey_off. }
  apply wp_bind, wp_call. intros now e Ht. cbn [ok_or]. pose proof (time_kept _ _ _ Hk Ht) as Hk1.
  destruct (Z.ltb_spec now (u64 (last_rekey_sec a + rekey_interval_sec o))).
  { apply wp_ret. cbv beta iota. rewrite Ha. split; [done|]. by eapply rekey_early. }
  apply wp_bind, (api_code_run CallRekey); [done|done| |done]. cbn [run_call]. intros rc w2 Hrun Hk2. cbn [ok_or].
  apply wp_ret. cbv beta. destruct (decide (rc = NETNOX_RETURN_SUCCESS)) as [->|Hrc].
  - split; [done|]. by eapply rekey_done.
  - replace (match rc with NETNOX_RETURN_SUCCESS => (1, now) | _ => (-1, last_rekey_sec a) end)
      with (-1, last_rekey_sec a) by by destruct rc.
    split; [done|]. cbv zeta beta iota. cbn [Z.ltb Z.compare]. rewrite Ha. split; [done|].
    intros sock w0 a0 k Hw. by eapply ends_rekey.
Qed.

Lemma socket_readable_kept sock step w : kept depth w ->
  wp (noxssh_socket_readable (E:=E) sock step)
    (fun out w' => match out with
      | Ok r => -1 <= r /\ kept depth w' /\ noxssh_socket_readable sock step w = (Ok r, w') | _ => False end) w.
Proof.
  intros Hk. unfold wp. destruct (noxssh_socket_readable sock step w) as [out w'] eqn:Hrun.
  pose proof Hrun as Hrun'. unfold noxssh_socket_readable in Hrun'. case_match; [by injection Hrun' as <- <-|].
  unfold call in Hrun'. pose proof (select_law sock step (env w)) as Hl.
  pose proof (safe_call depth _ (select_offline sock step) w Hk) as Hs. unfold wp, call in Hs.
  destruct (c_select_read sock step (env w)) as [r e]. injection Hrun' as <- <-. split_and!; [done|by apply Hs|done].
Qed.
Lemma readable_silent sock step w w' : noxssh_socket_readable sock step w = (Ok 0, w') ->
  exists e, c_select_read sock step (env w) = (0, e) /\ w' = w <| env := e |>.
Proof.
  unfold noxssh_socket_readable. case_match; [done|]. unfold call.
  destruct (c_select_read sock step (env w)) as [r e]. intros [= -> <-]. by exists e.
Qed.

(** What a pass adds to the slices so far. *)
Lemma wait_pass_spec sock o w0 a0 k remaining a w : wait_slices o sock w0 a0 k w a -> kept depth w ->
  0 < keepalive_interval_sec o < 2 ^ 32 -> 0 < keepalive_count_max o < 2 ^ 31 ->
  0 <= unanswered_keepalive_count a <= keepalive_count_max o ->
  0 <= io_quiet_since_sec a < 2 ^ 63 -> 0 <= remaining ->
  wp (wait_pass depth sock o (remaining, a)) (fun out w' => match out with
    | Ok (inl (remaining', a')) => kept depth w' /\ 0 < remaining /\ remaining' = remaining - Z.min remaining 250 /\
        exists j, 0 <= j <= 1 /\ waited o a (0, a') j /\ wait_slices o sock w0 a0 (k + j) w' a'
    | Ok (inr r) => kept depth w' /\ exists j, 0 <= j <= (if remaining =? 0 then 0 else 1) /\
        waited o a r j /\ wait_ends o sock w0 a0 (k + j) r w'
    | Oob => True
    | _ => False
    end) w.
Proof.
  intros Hwaits Hk Hi Hc Hu Hq Hr. unfold wait_pass. rewrite Z.gtb_ltb.
  destruct (Z.ltb_spec 0 remaining).
  2:{ apply wp_ret. split; [done|]. exists 0. rewrite Z.add_0_r. split_and!; [lia|case_match; lia| |by apply ends_timeout].
      unfold waited. simpl. lia. }
  replace (remaining =? 0) with false by lia.
  apply wp_bind. eapply wp_mono; [by apply maybe_rekey_kept|].
  intros [[r last]|rc| |] w1 Hw1; cbn [ok_or]; try done. destruct Hw1 as [Hk1 Hre]. cbv zeta in Hre.
  set (a1 := mkAlive (io_quiet_since_sec a) (unanswered_keepalive_count a) last) in *. destruct (r <? 0).
  { destruct Hre as [-> Hends]. apply wp_ret. split; [done|]. exists 0. rewrite Z.add_0_r.
    split_and!; [lia|lia| |by apply Hends]. unfold waited. simpl. lia. }
  assert (Hquiet1 : io_quiet_since_sec a1 = io_quiet_since_sec a) by done.
  assert (Hun1 : unanswered_keepalive_count a1 = unanswered_keepalive_count a) by done. clearbody a1.
  set (step := if remaining <? 250 then remaining else 250).
  assert (Hstep : step = Z.min remaining 250) by (unfold step; case_match; lia).
  apply wp_bind. eapply wp_mono; [by apply (socket_readable_kept sock step)|].
  intros [ready|rc| |] w2 Hw2; cbn [ok_or]; try done. destruct Hw2 as (Hready & Hk2 & Hsel).
  destruct (Z.eqb_spec ready 0) as [->|Hne]; cbn [negb].
  2:{ apply wp_ret. split; [done|]. exists 0. rewrite Z.add_0_r. split_and!; [lia|lia| |by eapply ends_socket].
      unfold waited. replace (ready =? -2) with false by lia. rewrite Hquiet1, Hun1. lia. }
  replace (keepalive_interval_sec o =? 0) with false by lia.
  apply wp_bind, wp_call. intros now e Ht. cbn [ok_or].
  pose proof (time_kept _ _ _ Hk2 Ht) as Hk3. pose proof (time_law (env w2)) as Htl. rewrite Ht in Htl. simpl in Htl.
  assert (Hsilent : silent o sock w a (w2 <| env := e |>) a1 now).
  { destruct (readable_silent _ _ _ _ Hsel) as (e1 & Hs & ->). exists w1, step, e1, e. by split_and!; [|lia|lia|..]. }
  rewrite u64_small by lia. rewrite Z.geb_leb, Hquiet1.
  destruct (Z.leb_spec (io_quiet_since_sec a + keepalive_interval_sec o) now).
  2:{ apply wp_ret. split_and!; [done|done|lia|]. exists 0. rewrite Z.add_0_r. unfold waited. simpl.
      split_and!; [lia..|]. eapply slices_silent; [done|done|lia]. }
  apply wp_bind, (api_code_run CallKeepalive); [done|done| |done]. cbn [run_call]. intros rc w4 Hrun Hk4. cbn [ok_or].
  rewrite Hun1, u32_small by ulia. destruct (decide (rc = NETNOX_RETURN_SUCCESS)) as [->|Hrc].
  2:{ replace (match rc with NETNOX_RETURN_SUCCESS => _ | _ => _ end) with
        (mret (inr (-1, a1)) : M (world netnox_ssh_client_t E) (Z * alive_t + Z * alive_t)) by by destruct rc.
      apply wp_ret. split; [done|]. exists 0. rewrite Z.add_0_r. split_and!; [lia|lia| |eapply ends_keepalive; [done|done| |done|done]; lia].
      unfold waited. simpl. lia. }
  pose proof (slices_keepalive _ _ _ _ _ _ _ _ _ _ _ Hwaits Hsilent ltac:(lia) (keepalive_run _ _ Hk3 Hrun)) as Hnext.
  rewrite Hun1 in Hnext. rewrite !Z.gtb_ltb. replace (0 <? keepalive_count_max o) with true by lia. cbn [andb].
  destruct (Z.ltb_spec (keepalive_count_max o) (unanswered_keepalive_count a + 1)); apply wp_ret.
  - split; [done|]. exists 1. split_and!; [lia|lia|unfold waited; simpl; lia|].
    by apply (ends_unanswered _ _ _ _ _ _ _ (io_quiet_since_sec a) Hnext).
  - split_and!; [done|done|lia|]. exists 1. split_and!; [lia|lia|unfold waited; simpl; lia|done].
Qed.

(** C23: waiting for the server always ends, at the latest after its time in slices of
    250 ms. A keepalive - an SSH_MSG_IGNORE packet on the wire - is sent at the end of exactly
    those slices that end at least an interval after the last sign of life or the last
    keepalive; in between only a re-keying that is due happens. The count of unanswered
    keepalives grows by the number sent, and the result is -2 exactly when one more than
    allowed went unanswered; the other ways to end are the time, the socket, and a
    re-keying or a keepalive that fails. (A re-keying reads packets, and so can come to the
    overrun of a packet length from 5 to 11, [Oob].) *)
Theorem keepalives_bounded sock wait_ms o a w : kept depth w -> 0 < wait_ms ->
  0 < keepalive_interval_sec o < 2 ^ 32 -> 0 < keepalive_count_max o < 2 ^ 31 ->
  0 <= unanswered_keepalive_count a <= keepalive_count_max o -> 0 <= io_quiet_since_sec a < 2 ^ 63 ->
  wp (noxssh_wait_socket_or_keepalive depth sock wait_ms o a) (fun out w' => match out with
    | Ok r => kept depth w' /\ exists k, 0 <= k <= (wait_ms + 249) / 250 /\
        wait_ends o sock w a k r w' /\ waited o a r k
    | Oob => True
    | _ => False
    end) w.
Proof.
  intros Hk Hms Hi Hc Hu Hq. unfold noxssh_wait_socket_or_keepalive. replace (wait_ms =? 0) with false by lia.
  apply (wp_loop (wait_pass depth sock o)
    (fun st w' => kept depth w' /\ 0 <= st.1 <= wait_ms /\ exists k, 0 <= k /\
       250 * k <= (wait_ms + 249) / 250 * 250 - (st.1 + 249) / 250 * 250 /\
       wait_slices o sock w a k w' st.2 /\ waited o a (0, st.2) k) (fun st _ => st.1)).
  - intros [remaining a1] w1 (Hk1 & Hr & k & Hk0 & Hkr & Hwaits & Hw). cbn [fst snd] in *.
    unfold waited in Hw. cbn [Z.eqb] in Hw. destruct Hw as (Hun & Hqq & Hle).
    assert (Hq0 : 0 <= keepalive_interval_sec o * k) by nia.
    eapply wp_mono; [apply (wait_pass_spec _ _ _ _ _ _ _ _ Hwaits); try done; lia|]. cbv beta.
    intros [[[r2 a2]|[ready a2]]|rc| |] w2 Ho; cbn [loop_step fst snd]; try done.
    + destruct Ho as (Hk2 & Hpos & -> & j & Hj & (Hun2 & Hq2 & Hle2) & Hwaits2). cbn [Z.eqb] in *. split; [|lia].
      split; [done|]. split; [lia|]. exists (k + j). split; [lia|]. split; [Z.to_euclidean_division_equations; lia|].
      split; [done|]. unfold waited. cbn [Z.eqb]. nia.
    + destruct Ho as (Hk2 & j & Hj & Hw2 & Hends). unfold waited in *. destruct Hw2 as (Hun2 & Hq2 & Hle2).
      split; [done|]. exists (k + j). split; [|split_and!; [done|lia| |lia|done]].
      * destruct (Z.eqb_spec remaining 0); Z.to_euclidean_division_equations; lia.
      * destruct (ready =? -2); nia.
  - split; [done|]. cbn [fst snd]. split; [lia|]. exists 0. split_and!; [lia|lia|apply slices_start|].
    unfold waited. cbn [Z.eqb]. lia.
  - simpl. lia.
Qed.
End facts.
#[export] Hint Resolve print_channel_output_safe interactive_shell_safe : safety.
