(* ===== verification/ClientNet.v ===== *)
(** The TCP connection of the command line client (client/main.c): connecting to the
    addresses of a host in turn, with a timeout, and the timeouts of the socket. *)

From stdpp Require Import gmap.
From S2P Require Export Posix CString.

(** ** The calls *)

Inductive connect_result : Type := Connected | InProgress | ConnectFailed.

Class Network (E : Type) : Type := {
  c_address : Type;
  (** [getaddrinfo(host, port_str, ..)]: the list, [None] for an error *)
  c_resolve : list Z -> list Z -> E -> option (list c_address) * E;
  c_tcp_socket : c_address -> E -> Z * E;
  (** [fcntl(sock, F_GETFL, 0)], [fcntl(sock, F_SETFL, flags) == 0] *)
  c_getfl : Z -> E -> Z * E;
  c_setfl : Z -> Z -> E -> bool * E;
  c_connect : Z -> c_address -> E -> connect_result * E;
  (** [select] on the socket for writing and errors, with a timeout in ms *)
  c_select_write : Z -> Z -> E -> Z * E;
  (** [getsockopt(sock, SOL_SOCKET, SO_ERROR, ..)]: [None] when the call fails *)
  c_so_error : Z -> E -> option Z * E;
  (** [setsockopt] of SO_RCVTIMEO and SO_SNDTIMEO in ms is 0 *)
  c_rcvtimeo : Z -> Z -> E -> bool * E;
  c_sndtimeo : Z -> Z -> E -> bool * E;
  c_close_tcp : Z -> E -> E;
  (** [usleep], in ms *)
  c_sleep : Z -> E -> E
}.

Definition O_NONBLOCK : Z := 2048.

(** ** The code *)

Section code.
Context {E : Type} `{Network E}.

Definition noxssh_sleep_ms (ms : Z) : M E unit := modify (c_sleep ms).

(** [noxssh_socket_set_blocking(sock, blocking) == 0] *)
Definition noxssh_socket_set_blocking (sock : Z) (blocking : bool) : M E bool :=
  flags ← ask (c_getfl sock);
  if flags <? 0 then mret false
  else ask (c_setfl sock (if blocking then Z.land flags (Z.lnot O_NONBLOCK) else Z.lor flags O_NONBLOCK)).

(** [noxssh_connect_with_timeout(..) == 0] *)
Definition noxssh_connect_with_timeout (sock : Z) (addr : c_address) (timeout_ms : Z) : M E bool :=
  if timeout_ms =? 0 then
    rc ← ask (c_connect sock addr); mret (match rc with Connected => true | _ => false end)
  else
    nonblocking ← noxssh_socket_set_blocking sock false;
    if negb nonblocking then mret false
    else
      let failed : M E bool := noxssh_socket_set_blocking sock true;; mret false in
      rc ← ask (c_connect sock addr);
      match rc with
      | Connected => noxssh_socket_set_blocking sock true;; mret true
      | ConnectFailed => failed
      | InProgress =>
          sel ← ask (c_select_write sock timeout_ms);
          if sel <=? 0 then failed
          else
            so_error ← ask (c_so_error sock);
            if bool_decide (so_error = Some 0) then noxssh_socket_set_blocking sock true else failed
      end.

(** The loop over the addresses. *)
Fixpoint connect_first (results : list c_address) (timeout_ms : Z) : M E (option Z) :=
  match results with
  | [] => mret None
  | it :: results =>
      sock ← ask (c_tcp_socket it);
      if sock =? -1 then connect_first results timeout_ms
      else
        connected ← noxssh_connect_with_timeout sock it timeout_ms;
        if (connected : bool) then mret (Some sock)
        else modify (c_close_tcp sock);; connect_first results timeout_ms
  end.

(** The socket in [*out_sock]; [None] is [return -1]. *)
Definition noxssh_connect_tcp (host : list Z) (port timeout_ms : Z) : M E (option Z) :=
  results ← ask (c_resolve host (print_u port));
  match results with
  | None | Some [] => mret None
  | Some results => connect_first results timeout_ms
  end.

(** [noxssh_set_socket_io_timeout(sock, timeout_ms) == 0] *)
Definition noxssh_set_socket_io_timeout (sock timeout_ms : Z) : M E bool :=
  received ← ask (c_rcvtimeo sock timeout_ms);
  if negb received then mret false else ask (c_sndtimeo sock timeout_ms).

(** The loop over the attempts in [main]; [n] more are allowed after a failure. *)
Fixpoint connect_attempts (n : nat) (host : list Z) (port timeout_ms : Z) : M E (option Z) :=
  sock ← noxssh_connect_tcp host port timeout_ms;
  match sock, n with
  | Some sock, _ => mret (Some sock)
  | None, S n => noxssh_sleep_ms 1000;; connect_attempts n host port timeout_ms
  | None, O => mret None
  end.
End code.

(** ** What the calls do to the sockets *)

Class Sockets (E : Type) `{Network E} : Type := {
  open_sockets : E -> gset Z;
  tcp_socket_law a e fd e' : c_tcp_socket a e = (fd, e') ->
    if fd =? -1 then open_sockets e' = open_sockets e
    else (fd ∉ open_sockets e) /\ open_sockets e' = ({[fd]} ∪ open_sockets e);
  close_tcp_law fd e : open_sockets (c_close_tcp fd e) = open_sockets e ∖ {[fd]};
  resolve_law host port e : open_sockets (c_resolve host port e).2 = open_sockets e;
  getfl_law fd e : open_sockets (c_getfl fd e).2 = open_sockets e;
  setfl_law fd flags e : open_sockets (c_setfl fd flags e).2 = open_sockets e;
  connect_law fd a e : open_sockets (c_connect fd a e).2 = open_sockets e;
  select_write_law fd ms e : open_sockets (c_select_write fd ms e).2 = open_sockets e;
  so_error_law fd e : open_sockets (c_so_error fd e).2 = open_sockets e;
  sleep_law ms e : open_sockets (c_sleep ms e) = open_sockets e
}.

Section spec.
Context {E : Type} `{Sockets E}.

(** The step returns, and no socket is opened or closed. *)
Definition steady {A} (m : M E A) : Prop :=
  forall e, exists a e', m e = (Ok a, e') /\ open_sockets e' = open_sockets e.

Lemma steady_ret {A} (a : A) : steady (mret a).
Proof. intros e. by exists a, e. Qed.
Lemma steady_bind {A B} (m : M E A) (k : A -> M E B) : steady m -> (forall a, steady (k a)) -> steady (m ≫= k).
Proof.
  intros Hm Hk e. destruct (Hm e) as (a & e1 & Hrun & H1). destruct (Hk a e1) as (b & e2 & Hrun2 & H2').
  exists b, e2. split; [by rewrite (bind_run _ _ _ _ _ Hrun)|congruence].
Qed.
Lemma steady_ask {A} (f : E -> A * E) : (forall e, open_sockets (f e).2 = open_sockets e) -> steady (ask f).
Proof. intros Hf e. unfold ask. specialize (Hf e). destruct (f e) as [a e']. by exists a, e'. Qed.

Lemma set_blocking_steady sock b : steady (noxssh_socket_set_blocking sock b).
Proof.
  apply steady_bind; [apply steady_ask, getfl_law|]. intros flags.
  case_match; [apply steady_ret|apply steady_ask, setfl_law].
Qed.

Lemma connect_timeout_steady sock a ms : steady (noxssh_connect_with_timeout sock a ms).
Proof.
  pose proof (set_blocking_steady sock) as Hb. unfold noxssh_connect_with_timeout.
  assert (Hfail : forall r : bool, steady (noxssh_socket_set_blocking sock true;; mret r))
    by (intros r; apply steady_bind; [done|intros ?; apply steady_ret]).
  case_match; apply steady_bind; try (intros ?; apply steady_ret); try apply steady_ask, connect_law; [done|].
  intros []; cbn [negb]; [|apply steady_ret]. apply steady_bind; [apply steady_ask, connect_law|].
  intros []; [apply Hfail| |apply Hfail]. apply steady_bind; [apply steady_ask, select_write_law|]. intros sel.
  case_match; [apply Hfail|]. apply steady_bind; [apply steady_ask, so_error_law|]. intros r.
  case_bool_decide; [done|apply Hfail].
Qed.

(** The step returns: only the socket it returns has been opened. *)
Definition opens_one (m : M E (option Z)) : Prop :=
  forall e, exists r e', m e = (Ok r, e') /\
    match r with
    | Some fd => (fd ∉ open_sockets e) /\ open_sockets e' = ({[fd]} ∪ open_sockets e)
    | None => open_sockets e' = open_sockets e
    end.

Lemma connect_first_opens results ms : opens_one (connect_first results ms).
Proof.
  induction results as [|it results IH]; intros e; [by exists None, e|]. cbn [connect_first].
  rewrite ask_run. pose proof (tcp_socket_law it e) as Hs. destruct (c_tcp_socket it e) as [sock e1].
  specialize (Hs _ _ eq_refl). cbn [fst snd]. destruct (Z.eqb_spec sock (-1)) as [->|Hne].
  - destruct (IH e1) as (r & e2 & Hrun & H2'). exists r, e2. split; [done|]. by rewrite <- Hs.
  - destruct Hs as [Hnew Hs]. destruct (connect_timeout_steady sock it ms e1) as (b & e2 & Hrun & H2').
    rewrite (bind_run _ _ _ _ _ Hrun). destruct b.
    + exists (Some sock), e2. split; [done|]. split; [done|congruence].
    + unfold mbind, M_bind, modify. destruct (IH (c_close_tcp sock e2)) as (r & e3 & Hrun3 & H3).
      exists r, e3. split; [done|]. rewrite close_tcp_law, H2', Hs in H3.
      replace (({[sock]} ∪ open_sockets e) ∖ {[sock]}) with (open_sockets e) in H3 by set_solver. done.
Qed.

Lemma connect_tcp_opens host port ms : opens_one (noxssh_connect_tcp host port ms).
Proof.
  intros e. unfold noxssh_connect_tcp. rewrite ask_run. pose proof (resolve_law host (print_u port) e) as Hr.
  destruct (c_resolve host (print_u port) e) as [results e1]. simpl in Hr |- *.
  destruct results as [[|a results]|]; [by exists None, e1| |by exists None, e1].
  rewrite <- Hr. apply connect_first_opens.
Qed.

Lemma connect_attempts_opens n host port ms e : exists r e',
  connect_attempts n host port ms e = (Ok r, e') /\
  match r with
  | Some fd => (fd ∉ open_sockets e) /\ open_sockets e' = ({[fd]} ∪ open_sockets e)
  | None => open_sockets e' = open_sockets e
  end.
Proof.
  revert e. induction n as [|n IH]; intros e; cbn [connect_attempts];
    destruct (connect_tcp_opens host port ms e) as (r & e1 & Hrun & H1);
    rewrite (bind_run _ _ _ _ _ Hrun); destruct r as [fd|].
  - by exists (Some fd), e1.
  - by exists None, e1.
  - by exists (Some fd), e1.
  - unfold mbind, M_bind, noxssh_sleep_ms, modify. destruct (IH (c_sleep 1000 e1)) as (r & e2 & Hrun2 & H2').
    exists r, e2. split; [done|]. by rewrite sleep_law, H1 in H2'.
Qed.

(** C27: connecting to the server always ends, after at most the allowed attempts, and leaks
    no socket: afterwards the returned socket, a new one, is the only one that has been opened,
    and when every address of every attempt failed, none. *)
Theorem connect_attempts_sockets n host port ms e : exists r e',
  connect_attempts n host port ms e = (Ok r, e') /\
  match r with
  | Some fd => (fd ∉ open_sockets e) /\ open_sockets e' = ({[fd]} ∪ open_sockets e)
  | None => open_sockets e' = open_sockets e
  end.
Proof. apply connect_attempts_opens. Qed.
End spec.
