(* ===== verification/ClientOptions.v ===== *)
(** The options of the command line client (client/main.c): the arguments, the user's
    ssh_config, and the settings that [main] makes of the two. At most 65535 arguments are
    given (the code counts them in 16 bits when it joins a command). *)

From S2P Require Export ClientLoop ClientNet.

Definition NOXSSH_DEFAULT_USER : list Z := bs "user".
Definition NOXSSH_MAX_COMMAND_LEN : Z := NETNOX_SSH_MAX_COMMAND_LEN.
Definition NOXSSH_MAX_PASSWORD_LEN : Z := 128.
Definition NOXSSH_ED25519_KEY_HEX_LEN : Z := 64.

(** ** Arguments *)

(** The variables that the loop over the arguments sets; a variable with a [_set] flag is an
    option. *)
Record cli_options : Type := mkCli {
  o_target : option (list Z);
  o_command : option (list Z);
  o_port : option Z;
  o_connect_retries : Z;
  o_connect_timeout_ms : option Z;
  o_io_timeout_ms : Z;
  o_server_alive_interval_sec : option Z;
  o_server_alive_count_max : option Z;
  o_rekey_interval_sec : option Z;
  o_identity_file : option (list Z);
  o_password : option (list Z);
  o_debug_level : Z;
  o_request_pty : bool;
  o_batch_mode : bool;
  o_strict : option host_key_check;
  o_pinned_hostkey_hex : list Z;
  o_known_hosts_file : option (list Z);
  o_ed25519_private_key : option (list Z)
}.

#[export] Instance cli_eta : Eta cli_options := fun r =>
  mkCli (o_target r) (o_command r) (o_port r) (o_connect_retries r) (o_connect_timeout_ms r) (o_io_timeout_ms r)
    (o_server_alive_interval_sec r) (o_server_alive_count_max r) (o_rekey_interval_sec r) (o_identity_file r)
    (o_password r) (o_debug_level r) (o_request_pty r) (o_batch_mode r) (o_strict r) (o_pinned_hostkey_hex r)
    (o_known_hosts_file r) (o_ed25519_private_key r).
#[export] Instance set_o_target : Setter o_target := ltac:(build_setter).
#[export] Instance set_o_command : Setter o_command := ltac:(build_setter).
#[export] Instance set_o_port : Setter o_port := ltac:(build_setter).
#[export] Instance set_o_retries : Setter o_connect_retries := ltac:(build_setter).
#[export] Instance set_o_timeout : Setter o_connect_timeout_ms := ltac:(build_setter).
#[export] Instance set_o_io_timeout : Setter o_io_timeout_ms := ltac:(build_setter).
#[export] Instance set_o_interval : Setter o_server_alive_interval_sec := ltac:(build_setter).
#[export] Instance set_o_count : Setter o_server_alive_count_max := ltac:(build_setter).
#[export] Instance set_o_rekey : Setter o_rekey_interval_sec := ltac:(build_setter).
#[export] Instance set_o_identity : Setter o_identity_file := ltac:(build_setter).
#[export] Instance set_o_password : Setter o_password := ltac:(build_setter).
#[export] Instance set_o_debug : Setter o_debug_level := ltac:(build_setter).
#[export] Instance set_o_pty : Setter o_request_pty := ltac:(build_setter).
#[export] Instance set_o_batch : Setter o_batch_mode := ltac:(build_setter).
#[export] Instance set_o_strict : Setter o_strict := ltac:(build_setter).
#[export] Instance set_o_pin : Setter o_pinned_hostkey_hex := ltac:(build_setter).
#[export] Instance set_o_known : Setter o_known_hosts_file := ltac:(build_setter).
#[export] Instance set_o_key : Setter o_ed25519_private_key := ltac:(build_setter).

Definition cli_zero : cli_options :=
  mkCli None None None 0 None 0 None None None None None 0 true false None [] None None.

(** An option with a value, a number; [Some None] is an invalid value, which ends the program
    with 1. *)
Definition number_option (a v : list Z) (o : cli_options) : option (option cli_options) :=
  let opt s := bool_decide (a = bs s) in
  if opt "-p" then Some ((fun n => o <| o_port := Some n |>) <$> strtoul_all v 1 65535)
  else if opt "--connect-retries" then Some ((fun n => o <| o_connect_retries := n |>) <$> strtol_all v 0 100)
  else if opt "--connect-timeout" then
    Some ((fun n => o <| o_connect_timeout_ms := Some n |>) <$> strtoul_all v 0 600000)
  else if opt "--io-timeout" then Some ((fun n => o <| o_io_timeout_ms := n |>) <$> strtoul_all v 0 600000)
  else if opt "--server-alive-interval" then
    Some ((fun n => o <| o_server_alive_interval_sec := Some n |>) <$> strtoul_all v 0 3600)
  else if opt "--server-alive-count-max" then
    Some ((fun n => o <| o_server_alive_count_max := Some n |>) <$> strtoul_all v 0 100)
  else if opt "--rekey-interval" then
    Some ((fun n => o <| o_rekey_interval_sec := Some n |>) <$> strtoul_all v 0 86400)
  else None.

(** A text. *)
Definition text_option (a v : list Z) (o : cli_options) : option (option cli_options) :=
  let opt s := bool_decide (a = bs s) in
  let path := ztake (NOXSSH_MAX_PATH_LEN - 1) v in
  if opt "-i" then Some (Some (o <| o_identity_file := Some path |>))
  else if opt "-w" then Some (Some (o <| o_password := Some (ztake NOXSSH_MAX_PASSWORD_LEN v) |>))
  else if opt "--strict-host-key-checking" then
    Some ((fun m => o <| o_strict := Some m |>) <$> noxssh_parse_strict_host_key_mode v)
  else if opt "--host-key-pin" then
    Some (if noxssh_is_valid_hex_fingerprint v
          then Some (o <| o_pinned_hostkey_hex := noxssh_ascii_tolower_inplace (ztake NOXSSH_HOSTKEY_HEX_LEN v) |>)
          else None)
  else if opt "--known-hosts-file" then Some (Some (o <| o_known_hosts_file := Some path |>))
  else if opt "--ed25519-key" then
    Some (if negb (zlen v =? NOXSSH_ED25519_KEY_HEX_LEN) then None
          else (fun k => o <| o_ed25519_private_key := Some k |>) <$> noxssh_hex_to_bytes v 32)
  else None.

Definition value_option (a v : list Z) (o : cli_options) : option (option cli_options) :=
  match number_option a v o with Some r => Some r | None => text_option a v o end.

(** An option without one. *)
Definition flag_option (a : list Z) (o : cli_options) : option cli_options :=
  let opt s := bool_decide (a = bs s) in
  if opt "-d" || opt "-dd" || opt "-ddd" then Some (o <| o_debug_level := Z.min (zlen a - 1) 3 |>)
  else if opt "-T" then Some (o <| o_request_pty := false |>)
  else if opt "--batch" then Some (o <| o_batch_mode := true |>)
  else if opt "--strict-host-key" then Some (o <| o_strict := Some CheckYes |>)
  else None.

(** The option takes a value. *)
Definition takes_value (a : list Z) : bool := match value_option a [] cli_zero with Some _ => true | None => false end.

(** The next argument fits the command. *)
Definition joins (o : cli_options) (arg : list Z) : bool :=
  match o_command o with
  | Some command =>
      let remaining := NOXSSH_MAX_COMMAND_LEN - zlen command in
      negb ((remaining <? 2) || (zlen arg + 1 >? remaining))
  | None => false
  end.

(** What the loop leaves: the options, or the exit code of the program. [joining]: the
    inner loop that collects the words of the command goes on; '-' is 45, a blank 32. *)
Fixpoint parse_arguments (joining : bool) (o : cli_options) (args : list (list Z)) : Z + cli_options :=
  match args with
  | [] => inr o
  | a :: rest =>
      if joining && joins o a then
        parse_arguments true (o <| o_command := (fun command => command ++ 32 :: a) <$> o_command o |>) rest
      else if takes_value a then
        match rest with
        | [] => inl 1
        | v :: rest =>
            match value_option a v o with
            | Some (Some o) => parse_arguments false o rest
            | _ => inl 1
            end
        end
      else
        match flag_option a o with
        | Some o => parse_arguments false o rest
        | None =>
            if bool_decide (a = bs "-h") || bool_decide (a = bs "--help") then inl 0
            else if bool_decide (head a = Some 45) then inl 1
            else
              match o_target o, o_command o with
              | None, _ => parse_arguments false (o <| o_target := Some a |>) rest
              | Some _, None =>
                  let command := ztake NOXSSH_MAX_COMMAND_LEN a in
                  parse_arguments (zlen command <? NOXSSH_MAX_COMMAND_LEN) (o <| o_command := Some command |>) rest
              | Some _, Some _ => parse_arguments false o rest
              end
        end
  end.

(** ** Settings *)

(** [noxssh_parse_target], with the buffers of 65 and 256 characters; '@' is 64. *)
Definition noxssh_parse_target (target : list Z) (username_out_len host_out_len : Z) : outcome (list Z * list Z) :=
  match strchr_split 64 target with
  | None =>
      if (zlen NOXSSH_DEFAULT_USER >=? username_out_len) || (zlen target =? 0) || (zlen target >=? host_out_len)
      then Err NETNOX_RETURN_BAD_PARAM
      else Ok (NOXSSH_DEFAULT_USER, target)
  | Some (user, host) =>
      if (zlen user =? 0) || (zlen host =? 0) || (zlen user >=? username_out_len) || (zlen host >=? host_out_len)
      then Err NETNOX_RETURN_BAD_PARAM
      else Ok (user, host)
  end.

(** The same in [main]: the user, empty when none is named, and the host alias. *)
Definition split_target (target : list Z) : option (list Z * list Z) :=
  match strchr_split 64 target with
  | Some (user, host) =>
      if (zlen user =? 0) || (zlen user >? NOXSSH_MAX_USER_LEN) || (zlen host =? 0) || (zlen host >? NOXSSH_MAX_HOST_LEN)
      then None else Some (user, host)
  | None => if (zlen target =? 0) || (zlen target >? NOXSSH_MAX_HOST_LEN) then None else Some ([], target)
  end.

(** What the rest of [main] works with. *)
Record settings : Type := mkSettings {
  s_user : list Z; s_host : list Z; s_port : Z; s_strict : host_key_check; s_batch_mode : bool;
  s_connect_timeout_ms : Z; s_alive : alive_options; s_identity_file : option (list Z); s_known_hosts_file : list Z
}.

(** [if(x_set_cli == 0 && ssh_cfg.has_x != 0) x = ssh_cfg.x;] *)
Definition prefer {A} (cli cfg : option A) (otherwise : A) : A :=
  match cli with Some a => a | None => default otherwise cfg end.

Definition make_settings (o : cli_options) (cfg : ssh_config) (target_user target_host_alias : list Z) : settings :=
  mkSettings
    (match target_user with [] => ztake NOXSSH_MAX_USER_LEN (default NOXSSH_DEFAULT_USER (cfg_user cfg)) | _ => target_user end)
    (default target_host_alias (cfg_host_name cfg))
    (prefer (o_port o) (cfg_port cfg) NETNOX_SSH_DEFAULT_PORT)
    (prefer (o_strict o) (cfg_strict cfg) CheckAsk)
    (o_batch_mode o || default false (cfg_batch_mode cfg))
    (prefer (o_connect_timeout_ms o) (cfg_connect_timeout_ms cfg) 0)
    (mkAliveOptions (prefer (o_server_alive_interval_sec o) (cfg_server_alive_interval_sec cfg) 0)
       (prefer (o_server_alive_count_max o) (cfg_server_alive_count_max cfg) 3)
       (prefer (o_rekey_interval_sec o) (cfg_rekey_interval_sec cfg) 0))
    (match o_identity_file o, o_ed25519_private_key o with
     | None, None => cfg_identity_file cfg
     | path, _ => path
     end)
    (prefer (o_known_hosts_file o) (cfg_user_known_hosts_file cfg) []).

(** ** Specification: what fits the variables *)

Definition path_ok (path : list Z) : Prop := zlen path < NOXSSH_MAX_PATH_LEN.

(** A fingerprint as [noxssh_verify_host_key] prints it. *)
Definition pin_ok (pin : list Z) : Prop :=
  pin = [] \/ zlen pin = NOXSSH_HOSTKEY_HEX_LEN /\ Forall (fun c => 48 <= c <= 57 \/ 97 <= c <= 102) pin.

Definition cli_ok (o : cli_options) : Prop :=
  opt_all (fun c => zlen c <= NOXSSH_MAX_COMMAND_LEN) (o_command o) /\
  opt_all (fun p => 1 <= p <= 65535) (o_port o) /\ 0 <= o_connect_retries o <= 100 /\
  opt_all (fun t => 0 <= t <= 600000) (o_connect_timeout_ms o) /\ 0 <= o_io_timeout_ms o <= 600000 /\
  opt_all (fun t => 0 <= t <= 3600) (o_server_alive_interval_sec o) /\
  opt_all (fun n => 0 <= n <= 100) (o_server_alive_count_max o) /\
  opt_all (fun t => 0 <= t <= 86400) (o_rekey_interval_sec o) /\
  opt_all path_ok (o_identity_file o) /\ opt_all (fun p => zlen p <= NOXSSH_MAX_PASSWORD_LEN) (o_password o) /\
  pin_ok (o_pinned_hostkey_hex o) /\ opt_all path_ok (o_known_hosts_file o) /\
  opt_all (fun k => zlen k = 32) (o_ed25519_private_key o).

Definition settings_ok (s : settings) : Prop :=
  1 <= zlen (s_user s) <= NOXSSH_MAX_USER_LEN /\ 1 <= zlen (s_host s) <= NOXSSH_MAX_HOST_LEN /\
  1 <= s_port s <= 65535 /\ 0 <= s_connect_timeout_ms s <= 600000 /\
  0 <= keepalive_interval_sec (s_alive s) <= 3600 /\ 0 <= keepalive_count_max (s_alive s) <= 100 /\
  0 <= rekey_interval_sec (s_alive s) <= 86400 /\ opt_all path_ok (s_identity_file s) /\ path_ok (s_known_hosts_file s).

(** ** Facts *)

Lemma strtol_all_range s lo hi : opt_all (fun v => lo <= v <= hi) (strtol_all s lo hi).
Proof.
  intros v. unfold strtol_all. destruct (match skip_space s with [] => _ | _ => _ end) as [neg d].
  destruct (digits d) as [ds rest]. case_match eqn:E; [|done]. intros [= <-]. lia.
Qed.

(** A value that is stored when it is valid. *)
Lemma stored_ok {A} (P : A -> Prop) (r : option A) (f : A -> cli_options) o' :
  opt_all P r -> (forall a, P a -> cli_ok (f a)) -> f <$> r = Some o' -> cli_ok o'.
Proof. intros Hr Hf (a & -> & ->)%fmap_Some. apply Hf. by apply Hr. Qed.

Lemma pin_lower v : noxssh_is_valid_hex_fingerprint v = true ->
  pin_ok (noxssh_ascii_tolower_inplace (ztake NOXSSH_HOSTKEY_HEX_LEN v)).
Proof.
  unfold noxssh_is_valid_hex_fingerprint. intros [Hl Hv]%andb_prop. right.
  rewrite ztake_all by lia. unfold noxssh_ascii_tolower_inplace. rewrite length_fmap. split; [lia|].
  apply Forall_fmap. apply Is_true_true, forallb_True in Hv. eapply Forall_impl; [exact Hv|]. intros c Hc. unfold compose.
  apply Is_true_true in Hc. case_match; lia.
Qed.

Lemma hex_pairs_length : forall n hex out, length hex = (2 * n)%nat -> hex_pairs hex = Some out -> length out = n.
Proof.
  intros n. induction n as [|n IH]; intros hex out Hl Hh.
  - destruct hex; [|done]. by injection Hh as <-.
  - destruct hex as [|h [|l hex]]; simpl in Hl; try lia. simpl in Hh. case_match; [done|].
    destruct (hex_pairs hex) as [r|] eqn:E; [|done]. injection Hh as <-. simpl. f_equal. apply (IH hex); [lia|done].
Qed.

Lemma seed_length v k : noxssh_hex_to_bytes v 32 = Some k -> zlen k = 32.
Proof.
  unfold noxssh_hex_to_bytes. case_match; [done|]. intros Hk. apply (hex_pairs_length 32) in Hk; lia.
Qed.

(** A number that is stored when it is in its range. *)
Ltac stored_range Ho :=
  let Hs := fresh in let n := fresh in let Hn := fresh in
  intros [= Hs]; eapply stored_ok; [| |exact Hs]; [apply strtoul_all_range || apply strtol_all_range|];
  intros n Hn; unfold cli_ok in *; simpl; destruct_and!; split_and!; try assumption; by apply opt_all_some.

Lemma number_option_ok a v o o' : cli_ok o -> number_option a v o = Some (Some o') -> cli_ok o'.
Proof. intros Ho. unfold number_option. by repeat (case_match; [stored_range Ho|]). Qed.

Lemma text_option_ok a v o o' : cli_ok o -> text_option a v o = Some (Some o') -> cli_ok o'.
Proof.
  intros Ho. assert (Hpath : path_ok (ztake (NOXSSH_MAX_PATH_LEN - 1) v)).
  { pose proof (ztake_le v (NOXSSH_MAX_PATH_LEN - 1)). unfold path_ok, NOXSSH_MAX_PATH_LEN in *. lia. }
  unfold text_option.
  destruct Ho as (? & ? & ? & ? & ? & ? & ? & ? & ? & ? & ? & ? & ?). unfold cli_ok.
  assert (Hbounds : 0 <= o_connect_retries o /\ o_connect_retries o <= 100 /\ 0 <= o_io_timeout_ms o /\
    o_io_timeout_ms o <= 600000) by lia. destruct Hbounds as (? & ? & ? & ?).
  case_match; [intros [= <-]; simpl; split_and!; try assumption; by apply opt_all_some|].
  case_match; [intros [= <-]; simpl; split_and!; try assumption; by apply opt_all_some, ztake_le|].
  case_match; [intros [= (m & _ & ->)%fmap_Some]; simpl; split_and!; assumption|].
  case_match; [case_match eqn:Ev; [|done]; intros [= <-]; simpl; split_and!; try assumption; by apply pin_lower|].
  case_match; [intros [= <-]; simpl; split_and!; try assumption; by apply opt_all_some|].
  case_match; [|done]. case_match; [done|]. intros [= (k & Hk & ->)%fmap_Some]. simpl.
  split_and!; try assumption. apply opt_all_some. by apply seed_length in Hk.
Qed.

Lemma value_option_ok a v o o' : cli_ok o -> value_option a v o = Some (Some o') -> cli_ok o'.
Proof.
  intros Ho. unfold value_option. destruct (number_option a v o) as [r|] eqn:E; [|by apply text_option_ok].
  intros [= ->]. by eapply number_option_ok.
Qed.

Lemma flag_option_ok a o o' : cli_ok o -> flag_option a o = Some o' -> cli_ok o'.
Proof.
  intros Ho. unfold flag_option. repeat (case_match; [by intros [= <-]|]). done.
Qed.

Lemma parse_arguments_ok joining o args o' : cli_ok o -> parse_arguments joining o args = inr o' -> cli_ok o'.
Proof.
  assert (Hlen : forall n (l : list (list Z)), (length l <= n)%nat -> forall joining o, cli_ok o ->
    parse_arguments joining o l = inr o' -> cli_ok o').
  { intros n. induction n as [|n IH]; intros l Hl j o1 Ho1; (destruct l as [|a rest]; [by intros [= <-]|]); simpl in Hl; [lia|].
    cbn [parse_arguments]. destruct (j && joins o1 a) eqn:Ej.
    { apply IH; [lia|]. apply andb_prop in Ej as [_ Ej]. unfold joins in Ej.
      destruct (o_command o1) as [command|] eqn:Ec; [|done]. unfold cli_ok in *. simpl. rewrite Ec in *.
      destruct_and! Ho1. split_and!; try done; try lia. apply opt_all_some.
      unfold NOXSSH_MAX_COMMAND_LEN, NETNOX_SSH_MAX_COMMAND_LEN in *. rewrite length_app. simpl. lia. }
    destruct (takes_value a).
    { destruct rest as [|v rest]; [done|]. simpl in Hl. destruct (value_option a v o1) as [[o2|]|] eqn:Ev; [|done..].
      apply IH; [lia|]. by eapply value_option_ok. }
    destruct (flag_option a o1) as [o2|] eqn:Ef; [apply IH; [lia|]; by eapply flag_option_ok|].
    case_match; [done|]. case_match; [done|].
    destruct (o_target o1); [destruct (o_command o1) as [c|] eqn:Ec|]; (apply IH; [lia|]); [done| |done].
    unfold cli_ok in *. simpl. destruct_and! Ho1. split_and!; try done; try lia.
    apply opt_all_some, ztake_le. done. }
  intros Ho. by apply (Hlen (length args)).
Qed.

Lemma cli_zero_ok : cli_ok cli_zero.
Proof. unfold cli_ok, opt_all. simpl. split_and!; try done; try lia. by left. Qed.

Lemma prefer_ok {A} (P : A -> Prop) cli cfg d : opt_all P cli -> opt_all P cfg -> P d -> P (prefer cli cfg d).
Proof. intros H1 H2 Hd. destruct cli as [a|]; [by apply H1|]. destruct cfg as [a|]; [by apply H2|done]. Qed.

(** ** Properties *)

(** C22: whatever the arguments and the ssh_config file are, what [main] goes on with fits its
    variables: a port from 1 to 65535, a user and a host name that are not empty and that
    [netnox_ssh_client_set_target] accepts, times and counts in their ranges, paths, password
    and command within their buffers, a seed of 32 bytes, and a pinned fingerprint in the
    form in which the fingerprint of the server is printed. *)
Theorem settings_well_formed args home content o target user host_alias : parse_arguments false cli_zero args = inr o ->
  o_target o = Some target -> split_target target = Some (user, host_alias) ->
  cli_ok o /\ settings_ok (make_settings o (config_text home host_alias content) user host_alias).
Proof.
  intros Hp Ht Hs. pose proof (parse_arguments_ok _ _ _ _ cli_zero_ok Hp) as Ho. split; [done|].
  pose proof (config_text_ok home host_alias content) as Hc. revert Hc.
  generalize (config_text home host_alias content). intros cfg Hc.
  assert (Hname : zlen user <= NOXSSH_MAX_USER_LEN /\ 1 <= zlen host_alias <= NOXSSH_MAX_HOST_LEN).
  { unfold split_target in Hs. destruct (strchr_split 64 target) as [[u h]|];
      (case_match eqn:E; [done|]); injection Hs as <- <-; simpl; unfold NOXSSH_MAX_USER_LEN in *; lia. }
  unfold cli_ok in Ho. unfold config_ok in Hc. destruct_and! Ho. destruct_and! Hc.
  unfold settings_ok, make_settings, NOXSSH_MAX_USER_LEN, NOXSSH_MAX_HOST_LEN, NETNOX_SSH_DEFAULT_PORT in *.
  cbn [s_user s_host s_port s_strict s_batch_mode s_connect_timeout_ms s_alive s_identity_file s_known_hosts_file
    keepalive_interval_sec keepalive_count_max rekey_interval_sec].
  split; [|split; [|do 5 (split; [apply (prefer_ok (fun v => _ <= v <= _)); done || lia|]); split]].
  - destruct user as [|c u]; [|simpl length in *; lia]. destruct (cfg_user cfg) as [u|] eqn:Eu; cbn [default from_option id].
    + apply ztake_some; [lia|]. intros ->. match goal with Hu : opt_all _ (Some []) |- _ => specialize (Hu [] eq_refl); simpl in Hu end. lia.
    + vm_compute. done.
  - destruct (cfg_host_name cfg) as [h|]; cbn [default from_option id]; [by auto|lia].
  - destruct (o_identity_file o); [done|]. destruct (o_ed25519_private_key o); [done|].
    unfold opt_all, path_ok, NOXSSH_MAX_PATH_LEN in *. intros p Hq. match goal with Hi : forall v, cfg_identity_file cfg = Some v -> _ |- _ => specialize (Hi p Hq) end. cbv beta in *. lia.
  - apply (prefer_ok path_ok); [done| |done]. intros p Hq. match goal with Hi : opt_all _ (cfg_user_known_hosts_file cfg) |- _ => specialize (Hi p Hq) end.
    unfold path_ok, NOXSSH_MAX_PATH_LEN. cbv beta in *. lia.
Qed.

(** ** The words of a command *)

Definition joined (cmd : list Z) (words : list (list Z)) : list Z := cmd ++ concat ((fun w => 32 :: w) <$> words).

Lemma join_words words : forall o cmd, o_command o = Some cmd ->
  Forall (fun w => w <> []) words -> zlen (joined cmd words) <= NOXSSH_MAX_COMMAND_LEN ->
  parse_arguments true o words = inr (o <| o_command := Some (joined cmd words) |>).
Proof.
  induction words as [|w words IH]; intros o cmd Hc Hw Hl.
  - unfold joined. simpl. rewrite app_nil_r. f_equal. by destruct o; simpl in Hc |- *; rewrite Hc.
  - apply Forall_cons in Hw as [Hne Hw]. cbn [parse_arguments].
    assert (Hj : joined cmd (w :: words) = joined (cmd ++ 32 :: w) words)
      by (unfold joined; simpl; by rewrite <- app_assoc).
    assert (Hjoins : joins o w = true).
    { unfold joins. rewrite Hc. unfold joined in Hl. simpl in Hl. rewrite length_app in Hl. simpl in Hl.
      rewrite length_app in Hl. destruct w as [|c w]; [done|]. simpl in Hl |- *. lia. }
    rewrite Hjoins. cbn [andb]. rewrite (IH _ (cmd ++ 32 :: w)); [rewrite <- Hj; by destruct o|simpl; by rewrite Hc|done|].
    by rewrite <- Hj.
Qed.

(** C28: the command is what follows the host: when its words, none empty, fit in 512
    characters, exactly these words, joined by blanks, and none of them is taken for an
    option of the client. *)
Theorem command_is_joined o target cmd words : o_target o = Some target -> o_command o = None ->
  cmd <> [] -> head cmd <> Some 45 -> Forall (fun w => w <> []) words ->
  zlen (joined cmd words) <= NOXSSH_MAX_COMMAND_LEN ->
  parse_arguments false o (cmd :: words) = inr (o <| o_command := Some (joined cmd words) |>).
Proof.
  intros Ht Hc Hne Hh Hw Hl. assert (Hopt : forall s, head (bs s) = Some 45 -> bool_decide (cmd = bs s) = false).
  { intros s Hs. apply bool_decide_eq_false_2. intros ->. done. }
  assert (Hcmd : zlen cmd <= NOXSSH_MAX_COMMAND_LEN) by (unfold joined in Hl; rewrite length_app in Hl; lia).
  cbn [parse_arguments]. unfold takes_value, value_option, number_option, text_option, flag_option. cbv zeta. rewrite !Hopt by done.
  cbn [andb orb]. rewrite (bool_decide_eq_false_2 (head cmd = Some 45)) by done. rewrite Ht, Hc, ztake_all by lia.
  destruct (Z.ltb_spec (zlen cmd) NOXSSH_MAX_COMMAND_LEN).
  - rewrite (join_words _ _ cmd) by done. by destruct o.
  - destruct words as [|w words]; [unfold joined; simpl; by rewrite app_nil_r|].
    unfold joined in Hl. simpl in Hl. rewrite length_app in Hl. simpl in Hl. lia.
Qed.

(** [noxssh_parse_target], which nothing calls, agrees with what [main] does. *)
Lemma parse_target_agrees target : noxssh_parse_target target 65 256 =
  match split_target target with
  | Some ([], host) => Ok (NOXSSH_DEFAULT_USER, host)
  | Some (user, host) => Ok (user, host)
  | None => Err NETNOX_RETURN_BAD_PARAM
  end.
Proof.
  unfold noxssh_parse_target, split_target, NOXSSH_MAX_USER_LEN, NOXSSH_MAX_HOST_LEN.
  destruct (strchr_split 64 target) as [[user host]|].
  - destruct (_ || _ || _ || _) eqn:E1; destruct (_ || _) eqn:E2 in |- *; try done; try lia. by destruct user.
  - change (zlen NOXSSH_DEFAULT_USER >=? 65) with false. cbn [orb].
    destruct (_ || _) eqn:E1; destruct (_ || _) eqn:E2 in |- *; try done; lia.
Qed.

(** ** Witnesses *)

Definition example_args : list (list Z) :=
  [bs "-p"; bs "2222"; bs "--batch"; bs "me@argenox.com"; bs "ls"; bs "-l"; bs "-p"; bs "9"].

Lemma command_is_joined_witness :
  parse_arguments false (cli_zero <| o_target := Some (bs "host") |>) [bs "ls"; bs "-l"; bs "-p"; bs "9"] =
  inr (cli_zero <| o_target := Some (bs "host") |> <| o_command := Some (bs "ls -l -p 9") |>).
Proof.
  rewrite (command_is_joined _ (bs "host") (bs "ls") [bs "-l"; bs "-p"; bs "9"]).
  - reflexivity.
  - reflexivity.
  - reflexivity.
  - done.
  - done.
  - repeat constructor; done.
  - vm_compute. done.
Defined.

Lemma settings_well_formed_witness : exists o, parse_arguments false cli_zero example_args = inr o /\
  o_command o = Some (bs "ls -l -p 9") /\
  settings_ok (make_settings o (config_text None (bs "argenox.com") example_config) (bs "me") (bs "argenox.com")).
Proof.
  eexists. split; [vm_compute; reflexivity|]. split; [reflexivity|].
  eapply (settings_well_formed example_args None example_config _ (bs "me@argenox.com")).
  - vm_compute. reflexivity.
  - reflexivity.
  - vm_compute. reflexivity.
Defined.
