(* ===== verification/ClientMain.v ===== *)
(** The command line client (client/main.c, [main]): it reads its settings, connects,
    verifies the host key, logs in, and runs a command or a shell. The texts it prints
    about itself are left out; the debug level goes to the environment variable that the
    library reads. *)

From S2P Require Export ClientOptions.

(** ** The calls: terminal mode and environment *)

Class Prompt (E : Type) : Type := {
  (** [tcgetattr] and [tcsetattr] without ECHO are both 0 *)
  c_hide_input : E -> bool * E;
  c_show_input : E -> E;
  (** [setenv(name, value, 1)]; [None]: [unsetenv] *)
  c_setenv : list Z -> option (list Z) -> E -> E
}.

Section files.
Context {E : Type} `{UserHost E} `{Prompt E}.

(** ** Identities *)

(** At most 4095 bytes of the file. *)
Definition noxssh_load_ed25519_seed_file (path : list Z) : M E key_load :=
  raw ← ask (c_read_file path);
  match raw with None => mret KeyFailed | Some content => lift (load_seed_text (ztake 4095 content)) end.

Definition identity_names : list (list Z) :=
  [bs "/.ssh/id_ed25519"; bs "/.ssh/id_ed25519.seed"; bs "/.noxssh/id_ed25519.seed"].

(** The loop over the names; the path is only printed. *)
Fixpoint try_identities (home : list Z) (rels : list (list Z)) : M E key_load :=
  match rels with
  | [] => mret KeyFailed
  | rel :: rels =>
      let candidate := home ++ rel in
      if zlen candidate >=? NOXSSH_MAX_PATH_LEN then try_identities home rels
      else
        rc ← noxssh_load_ed25519_seed_file candidate;
        match rc with KeyFailed => try_identities home rels | _ => mret rc end
  end.

Definition noxssh_try_load_default_identity : M E key_load :=
  home ← gets c_home;
  match noxssh_get_home_dir home NOXSSH_MAX_PATH_LEN with
  | None => mret KeyFailed
  | Some home => try_identities home identity_names
  end.

(** ** The configuration file *)

(** [cfg] afterwards; nothing is set when the file cannot be read. *)
Definition noxssh_load_ssh_config_for_host (host_alias : list Z) : M E ssh_config :=
  home ← gets c_home;
  match noxssh_get_home_dir home NOXSSH_MAX_PATH_LEN with
  | None => mret config_zero
  | Some dir =>
      content ← ask (c_read_file (ztake (NOXSSH_MAX_PATH_LEN - 1) (dir ++ bs "/.ssh/config")));
      mret (match content with Some content => config_text home host_alias content | None => config_zero end)
  end.

(** ** The password *)

(** Without its end of line, which is one character. *)
Definition strip_eol (line : list Z) : list Z :=
  match rev line with
  | c :: r => if (c =? 10) || (c =? 13) then rev r else line
  | [] => line
  end.

(** [None] is NETNOX_RETURN_BAD_PARAM. *)
Definition noxssh_prompt_password (out_password_len : Z) : M E (option (list Z)) :=
  hidden ← ask c_hide_input;
  line ← ask (c_read_stdin (out_password_len - 1));
  (if hidden : bool then modify c_show_input else mret tt);;
  mret ((fun line => strip_eol (cstr line)) <$> line).
End files.

Section code.
Context {E : Type} `{Host E} `{UserHost E} `{Prompt E} `{Terminal E} `{Network E} `{NoxTLS}.
Context (depth : nat).

Abbreviation C := (M (world netnox_ssh_client_t E)).

(** Run a function of the environment. *)
Definition in_env {A} (m : M E A) : C A := fun w => let '(o, e) := m (env w) in (o, w <| env := e |>).

Definition succeeded (rc : netnox_return_t) : bool := bool_decide (rc = NETNOX_RETURN_SUCCESS).
(** [f(..) == NETNOX_RETURN_SUCCESS] *)
Definition succeeds {A} (m : C A) : C bool :=
  r ← attempt m; mret (match r with Some _ => true | None => false end).

Definition APP_CLOSESOCK (sock : Z) : C unit := in_env (modify (c_close_tcp sock)).
(** [netnox_ssh_client_close(&client); APP_CLOSESOCK(conn.sock); return code;] *)
Definition exit_with (sock code : Z) : C Z :=
  netnox_ssh_client_close;; APP_CLOSESOCK sock;; mret code.

(** ** The session *)

Definition run_command (sock : Z) (o : alive_options) (command : list Z) : C Z :=
  started ← succeeds (netnox_ssh_client_exec depth command);
  if negb started then exit_with sock 1
  else
    noxssh_print_channel_output depth sock o;;
    c ← client_;
    exit_with sock (match netnox_ssh_client_get_remote_exit_status c with
                    | Ok remote_status => Z.land remote_status 255 | _ => 0 end).

Definition run_shell (sock : Z) (o : alive_options) (request_pty : bool) : C Z :=
  started ← succeeds (netnox_ssh_client_request_shell_ex depth request_pty);
  if negb started then exit_with sock 1
  else noxssh_interactive_shell depth sock o;; exit_with sock 0.

Definition open_and_run (o : cli_options) (s : settings) (sock : Z) : C Z :=
  opened ← succeeds (netnox_ssh_client_open_session depth);
  if negb opened then exit_with sock 1
  else
    match o_command o with
    | Some command => run_command sock (s_alive s) command
    | None => run_shell sock (s_alive s) (o_request_pty o)
    end.

(** ** Logging in *)

(** The keys: [ed25519_key_set], or [None] for the error exit. *)
Definition configure_key (o : cli_options) (s : settings) : C (option bool) :=
  given ← (match o_ed25519_private_key o with
           | Some key => succeeds (netnox_ssh_client_set_ed25519_private_key key)
           | None => mret true
           end);
  if negb given then mret None
  else
    match s_identity_file s, o_ed25519_private_key o with
    | Some path, _ =>
        loaded ← in_env (noxssh_load_ed25519_seed_file path);
        match loaded with
        | KeySuccess seed =>
            ok ← succeeds (netnox_ssh_client_set_ed25519_private_key seed);
            mret (if (ok : bool) then Some true else None)
        | _ => mret None
        end
    | None, Some _ => mret (Some true)
    | None, None =>
        loaded ← in_env noxssh_try_load_default_identity;
        match loaded with
        | KeySuccess seed => ok ← succeeds (netnox_ssh_client_set_ed25519_private_key seed); mret (Some ok)
        | _ => mret (Some false)
        end
    end.

Definition prompt_for_password : C (option (list Z)) := in_env (noxssh_prompt_password (NOXSSH_MAX_PASSWORD_LEN + 1)).

(** [password_set], or [None] for the error exit. *)
Definition configure_password (o : cli_options) (batch_mode ed25519_key_set : bool) : C (option bool) :=
  password ← (match o_password o with
              | Some password => mret (Some (Some password))
              | None =>
                  if negb ed25519_key_set && negb batch_mode
                  then answer ← prompt_for_password; mret (Some <$> answer)
                  else mret (Some None)
              end);
  match password with
  | None => mret None
  | Some None => mret (Some false)
  | Some (Some password) =>
      ok ← succeeds (netnox_ssh_client_set_password password);
      mret (if (ok : bool) then Some true else None)
  end.

(** Authenticate, with a second attempt by password when the key was rejected. *)
Definition authenticate_twice (batch_mode password_set ed25519_key_set : bool) : C netnox_return_t :=
  rc ← return_code (netnox_ssh_client_authenticate depth);
  if bool_decide (rc = NETNOX_RETURN_AUTH_REJECTED) && negb password_set && ed25519_key_set && negb batch_mode then
    answer ← prompt_for_password;
    match answer with
    | None => mret rc
    | Some password =>
        ok ← succeeds (netnox_ssh_client_set_password password);
        if (ok : bool) then return_code (netnox_ssh_client_authenticate depth) else mret rc
    end
  else mret rc.

(** What follows once the host key is trusted. *)
Definition log_in_and_run (o : cli_options) (s : settings) (sock : Z) : C Z :=
  key ← configure_key o s;
  match key with
  | None => exit_with sock 1
  | Some key =>
      password ← configure_password o (s_batch_mode s) key;
      match password with
      | None => exit_with sock 1
      | Some password =>
          if password || key then
            rc ← authenticate_twice (s_batch_mode s) password key;
            if succeeded rc then open_and_run o s sock else exit_with sock 1
          else exit_with sock 0
      end
  end.

(** ** Connecting *)

(** The fingerprint of the server's key, and the decision on it. *)
Definition check_server (o : cli_options) (s : settings) : C bool :=
  c ← client_;
  match (netnox_ssh_client_get_server_host_key_fingerprint c NETNOX_SSH_HOST_KEY_FINGERPRINT_LEN).1 with
  | Ok hostkey_fp =>
      in_env (noxssh_verify_host_key (s_host s) (s_port s) hostkey_fp (s_strict s) (o_pinned_hostkey_hex o)
                (s_batch_mode s) (s_known_hosts_file s))
  | _ => mret false
  end.

(** The client has its callbacks. *)
Definition start_ssh (o : cli_options) (s : settings) (sock : Z) : C Z :=
  connected ← succeeds (netnox_ssh_client_connect depth);
  if negb connected then APP_CLOSESOCK sock;; mret 1
  else
    trusted ← check_server o s;
    if negb trusted then exit_with sock 1 else log_in_and_run o s sock.

(** The socket is connected. *)
Definition set_up (o : cli_options) (s : settings) (sock : Z) : C Z :=
  timeouts ← (if o_io_timeout_ms o >? 0 then in_env (noxssh_set_socket_io_timeout sock (o_io_timeout_ms o)) else mret true);
  if negb timeouts then APP_CLOSESOCK sock;; mret 1
  else
    in_env (modify (c_setenv (bs "NETNOX_SSH_DEBUG")
      (if negb (o_debug_level o =? 0) then Some [48 + o_debug_level o] else None)));;
    init ← succeeds (netnox_ssh_client_init (s_port s));
    if negb init then APP_CLOSESOCK sock;; mret 1
    else
      target ← succeeds (netnox_ssh_client_set_target (s_user s) (s_host s));
      if negb target then APP_CLOSESOCK sock;; mret 1
      else
        netnox_ssh_client_set_io_callbacks true true;;
        start_ssh o s sock.

(** [args] are [argv\[1\]] to [argv\[argc - 1\]]; the result is the exit code. *)
Definition noxssh_main (args : list (list Z)) : C Z :=
  match parse_arguments false cli_zero args with
  | inl code => mret code
  | inr o =>
      match (target ← o_target o; split_target target) with
      | None => mret 1
      | Some (target_user, target_host_alias) =>
          ssh_cfg ← in_env (noxssh_load_ssh_config_for_host target_host_alias);
          let s := make_settings o ssh_cfg target_user target_host_alias in
          sock ← in_env (connect_attempts (Z.to_nat (o_connect_retries o)) (s_host s) (s_port s) (s_connect_timeout_ms s));
          match sock with
          | None => mret 1
          | Some sock => set_up o s sock
          end
      end
  end.
End code.

(** ** What the calls do *)

(** None of the calls touches the connection; only [send_cb] and [recv_cb] do. *)
Class ClientLaws (E : Type) `{HostLaws E} `{UserFiles E} `{Prompt E} `{Terminal E} `{Network E} : Prop := {
  client_terminal : TerminalLaws E;
  read_file_offline path : offline (c_read_file path);
  open_append_offline path : offline (c_open_append path);
  write_close_offline path text : offline (fun e => (tt, c_write_close path text e));
  mkdir_offline dir : offline (c_mkdir dir);
  hide_input_offline : offline c_hide_input;
  show_input_offline : offline (fun e => (tt, c_show_input e));
  setenv_offline name value : offline (fun e => (tt, c_setenv name value e));
  resolve_offline host port : offline (c_resolve host port);
  tcp_socket_offline a : offline (c_tcp_socket a);
  getfl_offline fd : offline (c_getfl fd);
  setfl_offline fd flags : offline (c_setfl fd flags);
  connect_offline fd a : offline (c_connect fd a);
  select_write_offline fd ms : offline (c_select_write fd ms);
  so_error_offline fd : offline (c_so_error fd);
  rcvtimeo_offline fd ms : offline (c_rcvtimeo fd ms);
  sndtimeo_offline fd ms : offline (c_sndtimeo fd ms);
  close_tcp_offline fd : offline (fun e => (tt, c_close_tcp fd e));
  sleep_offline ms : offline (fun e => (tt, c_sleep ms e))
}.

Section offline.
Context {E : Type} `{HostLaws E}.

(** A function of the environment that leaves the connection alone. *)
Definition off_line {A} (m : M E A) : Prop :=
  forall e, wp m (fun _ e' => sent e' = sent e /\ inbox e' = inbox e) e.

Lemma off_line_ret {A} (a : A) : off_line (mret a).
Proof. intros e. by apply wp_ret. Qed.
Lemma off_line_lift {A} (o : outcome A) : off_line (lift o).
Proof. intros e. by apply wp_lift. Qed.
Lemma off_line_gets {A} (f : E -> A) : off_line (gets f).
Proof. intros e. by apply wp_gets. Qed.
Lemma off_line_ask {A} (f : E -> A * E) : offline f -> off_line (ask f).
Proof. intros Hf e. apply wp_ask. intros a e' Ha. specialize (Hf e). by rewrite Ha in Hf. Qed.
Lemma off_line_modify (f : E -> E) : offline (fun e => (tt, f e)) -> off_line (modify f).
Proof. intros Hf e. apply wp_modify. apply Hf. Qed.
Lemma off_line_bind {A B} (m : M E A) (k : A -> M E B) : off_line m -> (forall a, off_line (k a)) -> off_line (m ≫= k).
Proof.
  intros Hm Hk e. apply wp_bind. eapply wp_mono; [apply Hm|]. intros o e1 [Hs Hi].
  destruct o as [a| | |]; cbn [ok_or]; [|done..]. eapply wp_mono; [apply Hk|]. intros o e2 [Hs2 Hi2].
  split; congruence.
Qed.
End offline.

#[export] Hint Resolve off_line_ret off_line_lift off_line_gets off_line_ask off_line_modify : safety.
#[export] Hint Resolve read_file_offline open_append_offline write_close_offline mkdir_offline hide_input_offline show_input_offline
  setenv_offline resolve_offline tcp_socket_offline getfl_offline setfl_offline connect_offline select_write_offline
  so_error_offline rcvtimeo_offline sndtimeo_offline close_tcp_offline sleep_offline client_terminal : safety.

Ltac off_line_step :=
  lazymatch goal with
  | |- off_line (_ ≫= _) => apply off_line_bind; [|intros ?]
  | |- off_line (match ?x with _ => _ end) => destruct x
  end.
Ltac off_line := repeat off_line_step; eauto with safety.

Section facts.
Context {E : Type} `{CL : ClientLaws E} {T : NoxTLS} {L : NoxTLSLaws T}.
Context (depth : nat) (depth_small : Z.of_nat depth < 2 ^ 62).
Implicit Types w : world netnox_ssh_client_t E.

Lemma load_seed_file_off_line path : off_line (noxssh_load_ed25519_seed_file (E:=E) path).
Proof. unfold noxssh_load_ed25519_seed_file. off_line. Qed.
#[local] Hint Resolve load_seed_file_off_line : safety.
Lemma default_identity_off_line : off_line (noxssh_try_load_default_identity (E:=E)).
Proof.
  unfold noxssh_try_load_default_identity. off_line. generalize identity_names. intros rels.
  induction rels as [|rel rels IH]; cbn [try_identities]; off_line.
Qed.
Lemma load_config_off_line alias : off_line (noxssh_load_ssh_config_for_host (E:=E) alias).
Proof. unfold noxssh_load_ssh_config_for_host. off_line. Qed.
Lemma prompt_off_line n : off_line (noxssh_prompt_password (E:=E) n).
Proof. unfold noxssh_prompt_password. off_line. Qed.
Lemma connect_timeout_off_line sock a ms : off_line (noxssh_connect_with_timeout (E:=E) sock a ms).
Proof. unfold noxssh_connect_with_timeout, noxssh_socket_set_blocking. off_line. Qed.
#[local] Hint Resolve connect_timeout_off_line : safety.
Lemma connect_attempts_off_line n host port ms : off_line (connect_attempts (E:=E) n host port ms).
Proof.
  assert (Hf : forall results, off_line (connect_first (E:=E) results ms))
    by (intros results; induction results; cbn [connect_first]; off_line).
  assert (Ht : off_line (noxssh_connect_tcp (E:=E) host port ms)) by (unfold noxssh_connect_tcp; off_line).
  induction n; cbn [connect_attempts]; unfold noxssh_sleep_ms; off_line.
Qed.
Lemma io_timeout_off_line sock ms : off_line (noxssh_set_socket_io_timeout (E:=E) sock ms).
Proof. unfold noxssh_set_socket_io_timeout. off_line. Qed.
Lemma verify_off_line host port fp check pin batch known :
  off_line (noxssh_verify_host_key (E:=E) host port fp check pin batch known).
Proof.
  assert (Ha : forall path hex, off_line (noxssh_append_known_host (E:=E) path host port hex)).
  { intros path hex. unfold noxssh_append_known_host, noxssh_ensure_known_hosts_dir. off_line. }
  unfold noxssh_verify_host_key, noxssh_lookup_known_host, verify_unknown. off_line.
Qed.
#[local] Hint Resolve default_identity_off_line load_config_off_line prompt_off_line connect_attempts_off_line
  io_timeout_off_line verify_off_line : safety.

Lemma in_env_safe {A} (m : M E A) : off_line m -> safe depth (in_env m).
Proof.
  intros Hm w [Hr Hn]. unfold wp, in_env. specialize (Hm (env w)). unfold wp in Hm. destruct (m (env w)) as [o e].
  destruct Hm as [Hs Hi]. intros _. split; [by apply reach_env|]. simpl. by rewrite Hi.
Qed.
#[local] Hint Resolve in_env_safe : safety.

(** ** The seeds have 32 bytes *)

Lemma read_private_key_length blob seed : read_private_key blob = Ok seed -> zlen seed = 32.
Proof.
  unfold read_private_key. intros Hr. inv_ok. unfold view_bytes in *.
  match goal with
  | Hp : mem_read _ 0 (v_len ?priv) = Ok ?b, H64 : (v_len ?priv =? 64) = true |- zlen (ztake 32 ?b) = _ =>
      apply mem_read_ok in Hp as [-> Hp]; apply Z.eqb_eq in H64; rewrite H64 in *
  end.
  unfold ztake, zdrop in *. rewrite !length_take, length_drop. lia.
Qed.

Lemma load_seed_text_length raw seed : load_seed_text raw = Ok (KeySuccess seed) -> zlen seed = 32.
Proof.
  assert (Hssh : forall text, noxssh_load_openssh_ed25519_key text = Ok (KeySuccess seed) -> zlen seed = 32).
  { intros text. unfold noxssh_load_openssh_ed25519_key. case_match; [|done]. unfold or_failed.
    destruct (read_ciphers _) as [[off|]| | |]; cbn [mbind outcome_bind]; try done.
    destruct (read_private_blob _ off) as [blob| | |]; cbn [mbind outcome_bind]; try done.
    destruct (read_private_key blob) as [s| | |] eqn:E1; cbn [mbind outcome_bind]; try done.
    intros [= <-]. by eapply read_private_key_length. }
  unfold load_seed_text. case_bool_decide; [done|]. case_match; [by eapply Hssh|]. case_match; [|done].
  case_match; [|by eapply Hssh]. case_match eqn:E1; [|done]. intros [= <-]. by eapply seed_length.
Qed.

(** The result of a loader. *)
Definition seeds (k : key_load) : Prop := forall seed, k = KeySuccess seed -> length seed = 32%nat.

Lemma load_seed_file_seeds path e : wp (noxssh_load_ed25519_seed_file (E:=E) path)
  (fun o _ => match o with Ok k => seeds k | _ => True end) e.
Proof.
  apply wp_bind, wp_ask. intros raw e' _. cbn [ok_or]. destruct raw as [content|]; [|by apply wp_ret].
  apply wp_lift. destruct (load_seed_text _) as [k| | |] eqn:E1; [|done..].
  intros seed ->. apply load_seed_text_length in E1. lia.
Qed.
Lemma default_identity_seeds e : wp (noxssh_try_load_default_identity (E:=E))
  (fun o _ => match o with Ok k => seeds k | _ => True end) e.
Proof.
  apply wp_bind, wp_gets. cbn [ok_or]. destruct (noxssh_get_home_dir _ _) as [home|]; [|by apply wp_ret].
  generalize identity_names, e. clear e. intros rels. induction rels as [|rel rels IH]; intros e; cbn [try_identities];
    [by apply wp_ret|]. case_match; [apply IH|].
  apply wp_bind. eapply wp_mono; [apply load_seed_file_seeds|]. intros o e1 Ho.
  destruct o as [[seed| |]| | |]; cbn [ok_or]; done.
Qed.

(** ** The program keeps to the API *)

Lemma succeeds_safe {A} (m : M _ A) : safe depth m -> safe depth (succeeds (E:=E) m).
Proof. intros Hm. unfold succeeds. safety. Qed.
Lemma set_key_safe key : length key = 32%nat -> safe depth (netnox_ssh_client_set_ed25519_private_key (E:=E) key).
Proof. by apply (safe_api depth depth_small (CallSetKey key)). Qed.
Lemma api_safe call : call_ok call -> safe depth (run_call (E:=E) depth call).
Proof. by apply safe_api. Qed.
Lemma close_safe sock : safe depth (APP_CLOSESOCK (E:=E) sock).
Proof. unfold APP_CLOSESOCK. eauto with safety. Qed.
Lemma exit_safe sock code : safe depth (exit_with (E:=E) sock code).
Proof. pose proof (api_safe CallClose I). unfold exit_with. pose proof close_safe. safety. Qed.
Lemma client_safe : safe depth (client_ (E:=E)).
Proof. unfold client_. safety. Qed.
#[local] Hint Resolve succeeds_safe close_safe exit_safe client_safe : safety.

Lemma open_and_run_safe o s sock : safe depth (open_and_run (E:=E) depth o s sock).
Proof.
  pose proof client_terminal. pose proof (fun c => api_safe (CallExec c) I). pose proof (fun p => api_safe (CallRequestShell p) I).
  pose proof (api_safe CallOpenSession I). unfold open_and_run, run_command, run_shell. cbn [run_call] in *. safety.
Qed.

Lemma set_loaded_safe (m : M E key_load) {B} (k : key_load -> M _ B) : off_line m ->
  (forall e, wp m (fun o _ => match o with Ok k => seeds k | _ => True end) e) ->
  (forall x, seeds x -> safe depth (k x)) -> safe depth (in_env m ≫= k).
Proof.
  intros Hm Hs Hk w Hw. apply wp_bind.
  eapply wp_mono; [apply (wp_and _ (fun o w' => o <> Oob -> kept depth w') (fun o _ => match o with Ok k => seeds k | _ => True end)); [by apply in_env_safe|]|].
  - unfold wp, in_env. specialize (Hs (env w)). unfold wp in Hs. destruct (m (env w)). exact Hs.
  - intros o w1 [Hkept Ho]. destruct o as [x| | |]; cbn [ok_or]; [|by intros _; apply Hkept|done|by intros _; apply Hkept].
    apply Hk; [done|by apply Hkept].
Qed.

Lemma configure_key_safe o s : cli_ok o -> safe depth (configure_key (E:=E) o s).
Proof.
  intros Ho. assert (Hkey : forall key, o_ed25519_private_key o = Some key ->
    safe depth (netnox_ssh_client_set_ed25519_private_key (E:=E) key)).
  { intros key Hkey. apply set_key_safe. unfold cli_ok in Ho. destruct_and! Ho.
    match goal with Hi : opt_all _ (o_ed25519_private_key o) |- _ => specialize (Hi key Hkey) end. cbv beta in *. lia. }
  unfold configure_key. apply safe_bind; [destruct (o_ed25519_private_key o); eauto with safety|]. intros [].
  - cbn [negb]. destruct (s_identity_file s) as [path|].
    + apply set_loaded_safe; [eauto with safety|apply load_seed_file_seeds|]. intros [seed| |] Hs; [|apply safe_ret..].
      pose proof (set_key_safe seed (Hs seed eq_refl)). safety.
    + destruct (o_ed25519_private_key o); [apply safe_ret|].
      apply set_loaded_safe; [eauto with safety|apply default_identity_seeds|]. intros [seed| |] Hs; [|apply safe_ret..].
      pose proof (set_key_safe seed (Hs seed eq_refl)). safety.
  - apply safe_ret.
Qed.

Lemma log_in_and_run_safe o s sock : cli_ok o -> safe depth (log_in_and_run (E:=E) depth o s sock).
Proof.
  intros Ho. pose proof (configure_key_safe o s Ho). pose proof (open_and_run_safe o s sock).
  pose proof (fun pw => api_safe (CallSetPassword pw) I). pose proof (api_safe CallAuthenticate I). cbn [run_call] in *.
  assert (Hp : safe depth (prompt_for_password (E:=E))) by (unfold prompt_for_password; eauto with safety).
  unfold log_in_and_run, configure_password, authenticate_twice. safety.
Qed.

Lemma check_server_safe o s : safe depth (check_server (E:=E) o s).
Proof. unfold check_server. safety. Qed.
#[local] Hint Resolve check_server_safe log_in_and_run_safe : safety.

Lemma start_ssh_safe o s sock : cli_ok o -> safe depth (start_ssh (E:=E) depth o s sock).
Proof. intros Ho. pose proof (api_safe CallConnect I). cbn [run_call] in *. unfold start_ssh. safety. Qed.

(** ** Before and after the handshake *)

(** Neither the context nor the connection has changed. *)
Definition unmoved w w' : Prop :=
  ctx w' = ctx w /\ sent (env w') = sent (env w) /\ inbox (env w') = inbox (env w).

Lemma in_env_wp {A} (m : M E A) Q w :
  wp m (fun o e' => Q o (w <| env := e' |>)) (env w) -> wp (in_env m) Q w.
Proof. unfold wp, in_env. by destruct (m (env w)). Qed.
Lemma in_env_unmoved {A} (m : M E A) w : off_line m -> wp (in_env m) (fun _ w' => unmoved w w') w.
Proof. intros Hm. apply in_env_wp. eapply wp_mono; [apply Hm|]. by intros o e' []. Qed.

Lemma exit_with_spec sock code w : wp (exit_with sock code) (fun o w' => o = Ok code /\ sent (env w') = sent (env w)) w.
Proof.
  unfold exit_with, netnox_ssh_client_close, set_client, APP_CLOSESOCK. apply wp_bind, wp_modify. cbn [ok_or].
  apply wp_bind, in_env_wp, wp_modify. cbn [ok_or]. apply wp_ret. split; [done|].
  apply (close_tcp_offline sock).
Qed.
Lemma close_socket_spec sock (code : Z) w :
  wp (APP_CLOSESOCK sock;; mret code) (fun o w' => o = Ok code /\ sent (env w') = sent (env w)) w.
Proof.
  unfold APP_CLOSESOCK. apply wp_bind, in_env_wp, wp_modify. cbn [ok_or]. apply wp_ret. split; [done|].
  apply (close_tcp_offline sock).
Qed.

(** The key with this fingerprint is pinned, or the known hosts file, the mode of host key
    checking and the user make it trusted. *)
Definition key_trusted (o : cli_options) (s : settings) (e : E) (fp : list Z) : Prop :=
  exists e', decision (s_host s) (s_port s) fp (s_strict s) (o_pinned_hostkey_hex o) (s_batch_mode s)
    (s_known_hosts_file s) e e' true.

Lemma check_server_spec o s w : keyed (ctx w) ->
  wp (check_server o s) (fun out w' => exists trusted, out = Ok trusted /\ sent (env w') = sent (env w) /\
    (trusted = true -> key_trusted o s (env w) (server_host_key_fingerprint (ctx w)))) w.
Proof.
  intros [(Hready & Hfp & _) _]. assert (Hl : zlen (server_host_key_fingerprint (ctx w)) = 32).
  { rewrite Hfp. pose proof (sha256_length (server_host_key_blob (ctx w))). lia. }
  unfold check_server, client_. apply wp_bind, wp_gets. cbn [ok_or].
  unfold netnox_ssh_client_get_server_host_key_fingerprint. rewrite Hready. cbn [negb fst].
  change (NETNOX_SSH_HOST_KEY_FINGERPRINT_LEN <? NETNOX_SSH_HOST_KEY_FINGERPRINT_LEN) with false. cbn [fst].
  apply in_env_wp. eapply wp_mono; [apply wp_and; [apply verify_off_line|by apply verify_host_key_spec]|].
  intros out e' [[Hs _] (trusted & -> & _ & Hd)]. exists trusted. split; [done|]. split; [done|]. intros ->.
  by exists e'.
Qed.

(** What the program sends after the handshake that ended in [w1] with [r]: nothing, and it
    does not exit with 0; or the server has proved that it holds the key, which is trusted. *)
Definition guarded (o : cli_options) (s : settings) (r : outcome unit) w1 (out : outcome Z) w' : Prop :=
  sent (env w') = sent (env w1) /\ out <> Ok 0 \/
  r = Ok tt /\ keyed (ctx w1) /\ key_trusted o s (env w1) (server_host_key_fingerprint (ctx w1)).

Lemma start_ssh_guarded o s sock w : kept depth w ->
  wp (start_ssh depth o s sock) (fun out w' => exists r w1, netnox_ssh_client_connect depth w = (r, w1) /\
    guarded o s r w1 out w') w.
Proof.
  intros [Hr Hn]. unfold start_ssh, succeeds.
  destruct (netnox_ssh_client_connect depth w) as [r w1] eqn:Ec.
  assert (Hrc : forall (Q : outcome (option unit) -> _ -> Prop),
    match r with Ok _ => Q (Ok (Some tt)) w1 | Err _ => Q (Ok None) w1 | Oob => Q Oob w1 | Diverge => Q Diverge w1 end ->
    wp (attempt (netnox_ssh_client_connect depth)) Q w).
  { intros Q HQ. apply wp_attempt. unfold wp. rewrite Ec. by destruct r as [[]| | |]. }
  apply wp_bind, wp_bind, Hrc. destruct r as [[]|rc| |]; cbn [ok_or].
  - destruct (triple_run _ _ _ _ _ _ _ _ (connect_spec depth depth_small) (reachable_inv w Hr) Hn I Ec)
      as (_ & _ & _ & Hkey & _).
    apply wp_ret. cbn [ok_or negb]. apply wp_bind. eapply wp_mono; [by apply check_server_spec|].
    intros out w2 (trusted & -> & Hs & Ht). cbn [ok_or]. destruct trusted; cbn [negb].
    + apply wp_intro. intros out w3 _. exists (Ok tt), w1. split; [done|]. right. auto.
    + eapply wp_mono; [apply exit_with_spec|]. intros out w3 [-> Hs3]. exists (Ok tt), w1. split; [done|].
      left. split; [congruence|done].
  - apply wp_ret. cbn [ok_or negb].
    eapply wp_mono; [apply close_socket_spec|]. intros out w3 [-> Hs3]. exists (Err rc), w1. split; [done|]. by left.
  - exists Oob, w1. split; [done|]. by left.
  - exists Diverge, w1. split; [done|]. by left.
Qed.

(** The handshake that the program made, if it came to that. *)
Definition handshake_guarded (o : cli_options) (s : settings) w (out : outcome Z) w' : Prop :=
  sent (env w') = sent (env w) /\ out <> Ok 0 \/
  exists w0 r w1, sent (env w0) = sent (env w) /\ reachable w0 /\ netnox_ssh_client_connect depth w0 = (r, w1) /\
    guarded o s r w1 out w'.

Lemma set_target_env user target w : wp (netnox_ssh_client_set_target user target) (fun _ w' => env w' = env w) w.
Proof.
  unfold netnox_ssh_client_set_target, client_, set_client. apply wp_bind, wp_gets. cbn [ok_or].
  apply wp_bind, wp_lift. destruct (netnox_ssh_copy_string _ user); cbn [ok_or]; try done.
  apply wp_bind, wp_modify. cbn [ok_or]. apply wp_bind, wp_lift. by destruct (netnox_ssh_copy_string _ target).
Qed.

Lemma set_up_guarded o s sock w : zlen (inbox (env w)) <= Z.of_nat depth ->
  wp (set_up depth o s sock) (handshake_guarded o s w) w.
Proof.
  intros Hn. unfold set_up.
  assert (Hclose : forall w1, sent (env w1) = sent (env w) ->
    wp (APP_CLOSESOCK sock;; mret 1) (handshake_guarded o s w) w1).
  { intros w1 Hs. eapply wp_mono; [apply close_socket_spec|]. intros out w2 [-> Hs2]. left. split; [congruence|done]. }
  apply wp_bind. assert (Ht : wp (if o_io_timeout_ms o >? 0 then in_env (noxssh_set_socket_io_timeout sock (o_io_timeout_ms o))
    else mret true) (fun _ w' => unmoved w w') w).
  { case_match; [apply in_env_unmoved, io_timeout_off_line|by apply wp_ret]. }
  eapply wp_mono; [exact Ht|]. intros out w1 (_ & Hs1 & Hi1).
  destruct out as [timeouts|rc| |]; cbn [ok_or]; [|left; by split..].
  destruct timeouts; cbn [negb]; [|by apply Hclose]. apply wp_bind.
  eapply wp_mono; [apply in_env_unmoved; eauto with safety|]. intros out w2 (_ & Hs2 & Hi2).
  destruct out as [[]|rc| |]; cbn [ok_or]; [|left; split; [congruence|done]..].
  destruct (init_spec (s_port s) w2) as (w3 & Hrun & _ & He & _).
  assert (Hk3 : kept depth w3) by (split; [by eapply reach_init|]; by rewrite He, Hi2, Hi1).
  apply wp_bind. unfold succeeds at 1. apply wp_bind, wp_attempt. unfold wp at 1. rewrite Hrun. cbn [ok_or].
  apply wp_ret. cbn [ok_or negb]. apply wp_bind. unfold succeeds at 1. apply wp_bind, wp_attempt.
  eapply wp_mono; [apply (wp_and _ (fun o w' => o <> Oob -> kept depth w') (fun _ w' => env w' = env w3));
    [by apply (safe_api depth depth_small (CallSetTarget (s_user s) (s_host s)) I)|apply set_target_env]|].
  intros out w4 [Hk4 He4]. destruct out as [[]|rc| |]; cbn [ok_or].
  - apply wp_ret. cbn [ok_or negb]. apply wp_bind. unfold netnox_ssh_client_set_io_callbacks, set_client.
    apply wp_modify. cbn [ok_or].
    pose proof (safe_api depth depth_small (CallSetIo true true) I w4 (Hk4 ltac:(done))) as Hk5.
    unfold wp in Hk5. cbn [run_call netnox_ssh_client_set_io_callbacks set_client modify] in Hk5.
    eapply wp_mono; [by apply start_ssh_guarded, Hk5|]. intros out w6 (r & w7 & Hc & Hg). right.
    eexists _, r, w7. split; [|split; [|by split]]; [simpl; congruence|by apply Hk5].
  - apply wp_ret. cbn [ok_or negb]. apply Hclose. congruence.
  - left. split; [congruence|done].
  - left. split; [congruence|done].
Qed.
(** The context is untouched, or the API has made it. *)
Definition api_only w (out : outcome Z) w' : Prop := out <> Oob -> ctx w' = ctx w \/ reachable w'.

Lemma close_socket_unmoved sock (code : Z) w : wp (APP_CLOSESOCK sock;; mret code) (fun _ w' => unmoved w w') w.
Proof.
  unfold APP_CLOSESOCK. apply wp_bind, in_env_wp, wp_modify. cbn [ok_or]. apply wp_ret. split; [done|].
  apply (close_tcp_offline sock).
Qed.

Lemma set_up_api o s sock w : cli_ok o -> zlen (inbox (env w)) <= Z.of_nat depth ->
  wp (set_up depth o s sock) (api_only w) w.
Proof.
  intros Ho Hn. unfold set_up. apply wp_bind.
  assert (Ht : wp (if o_io_timeout_ms o >? 0 then in_env (noxssh_set_socket_io_timeout sock (o_io_timeout_ms o))
    else mret true) (fun _ w' => unmoved w w') w).
  { case_match; [apply in_env_unmoved, io_timeout_off_line|by apply wp_ret]. }
  eapply wp_mono; [exact Ht|]. intros out w1 (Hc1 & Hs1 & Hi1).
  destruct out as [timeouts|rc| |]; cbn [ok_or]; [|by left..].
  destruct timeouts; cbn [negb].
  2:{ eapply wp_mono; [apply close_socket_unmoved|]. intros out w2 (Hc2 & _) _. left. congruence. }
  apply wp_bind. eapply wp_mono; [apply in_env_unmoved; eauto with safety|]. intros out w2 (Hc2 & Hs2 & Hi2).
  destruct out as [[]|rc| |]; cbn [ok_or]; [|intros _; left; congruence..].
  destruct (init_spec (s_port s) w2) as (w3 & Hrun & _ & He & _).
  assert (Hk3 : kept depth w3) by (split; [by eapply reach_init|]; by rewrite He, Hi2, Hi1).
  apply wp_bind. unfold succeeds at 1. apply wp_bind, wp_attempt. unfold wp at 1. rewrite Hrun. cbn [ok_or].
  apply wp_ret. cbn [ok_or negb].
  assert (Hsafe : safe depth (target ← succeeds (netnox_ssh_client_set_target (s_user s) (s_host s));
    if negb target then APP_CLOSESOCK sock;; mret 1
    else netnox_ssh_client_set_io_callbacks true true;; start_ssh depth o s sock)).
  { pose proof (start_ssh_safe o s sock Ho). pose proof (fun u t => api_safe (CallSetTarget u t) I).
    pose proof (fun a b => api_safe (CallSetIo a b) I). cbn [run_call] in *. safety. }
  eapply wp_mono; [by apply Hsafe|]. intros out w4 Hk Hne. right. by apply Hk.
Qed.
End facts.

(** ** Properties *)

(** The settings the program works with. *)
Definition main_settings `{UserHost E} (args : list (list Z)) (e : E) (o : cli_options) (s : settings) : Prop :=
  parse_arguments false cli_zero args = inr o /\
  exists target user host_alias cfg, o_target o = Some target /\ split_target target = Some (user, host_alias) /\
    (noxssh_load_ssh_config_for_host host_alias e).1 = Ok cfg /\ s = make_settings o cfg user host_alias.

(** C4: the program logs in only to a server it trusts. Either it sends nothing at all (and then
    exits with 0 only to show its help); or it does one SSH handshake with the settings of
    its arguments and of the user's ssh_config, and sends anything after it - a password, a
    signature, a command - or exits with 0 only when the server has proved to hold its host
    key and the fingerprint of that key is the pinned one or is accepted by the known hosts
    file and the mode of host key checking; in the mode ask, a key of an unknown host needs the
    user's "yes". *)
Theorem log_in_needs_trusted_key E (H : Host E) (HL : HostLaws E) (UH : UserHost E) (UF : UserFiles E) (PR : Prompt E)
    (TE : Terminal E) (NW : Network E) (CL : ClientLaws E) (T : NoxTLS) (L : NoxTLSLaws T)
    depth args (w w' : world netnox_ssh_client_t E) out :
  zlen (inbox (env w)) <= Z.of_nat depth < 2 ^ 62 -> noxssh_main depth args w = (out, w') ->
  sent (env w') = sent (env w) /\ (out = Ok 0 -> parse_arguments false cli_zero args = inl 0) \/
  exists o s w0 r w1, main_settings args (env w) o s /\ sent (env w0) = sent (env w) /\ reachable w0 /\
    netnox_ssh_client_connect depth w0 = (r, w1) /\ guarded o s r w1 out w'.
Proof.
  intros [Hn Hd] Hrun. revert Hrun. unfold noxssh_main.
  destruct (parse_arguments false cli_zero args) as [code|o] eqn:Hp.
  { intros [= <- <-]. left. split; [done|]. by intros [= ->]. }
  destruct (o_target o) as [target|] eqn:Ht; [|intros [= <- <-]; by left]. cbn [mbind option_bind].
  destruct (split_target target) as [[user host_alias]|] eqn:Hs; [|intros [= <- <-]; by left].
  apply (wp_run _ (fun out w' => sent (env w') = sent (env w) /\ (out = Ok 0 -> _) \/
    exists o s w0 r w1, main_settings args (env w) o s /\ sent (env w0) = sent (env w) /\ reachable w0 /\
    netnox_ssh_client_connect depth w0 = (r, w1) /\ guarded o s r w1 out w') w out w').
  apply wp_bind, wp_intro. intros out1 w1 H1.
  pose proof (in_env_unmoved (noxssh_load_ssh_config_for_host host_alias) w (load_config_off_line host_alias)) as Hu.
  eapply wp_run in Hu; [|exact H1]. destruct Hu as (_ & Hs1 & Hi1).
  destruct out1 as [cfg|rc| |]; cbn [ok_or]; [|left; by split..].
  assert (Hcfg : (noxssh_load_ssh_config_for_host host_alias (env w)).1 = Ok cfg).
  { unfold in_env in H1. destruct (noxssh_load_ssh_config_for_host host_alias (env w)). by injection H1 as -> _. }
  apply wp_bind. eapply wp_mono; [apply in_env_unmoved, connect_attempts_off_line|]. intros out2 w2 (_ & Hs2 & Hi2).
  destruct out2 as [[sock|]|rc| |]; cbn [ok_or]; [|apply wp_ret; left; split; [congruence|done]|left; split; [congruence|done]..].
  eapply wp_mono; [apply set_up_guarded; [done|by rewrite Hi2, Hi1]|].
  intros out3 w3 [[Hs3 Hne]|(w0 & r & w4 & Hs0 & Hr0 & Hc & Hg)]; [left; split; [congruence|done]|].
  right. exists o, (make_settings o cfg user host_alias), w0, r, w4.
  split; [split; [done|]; by exists target, user, host_alias, cfg|]. split; [congruence|done].
Qed.

(** The program uses its SSH context only as the API allows: whatever its arguments, its
    files, its user and the server do, the context at the end is the untouched one or one that
    calls of the API reach from [netnox_ssh_client_init], so what holds of all these holds of
    every run of the program. *)
Theorem main_keeps_to_api E (H : Host E) (HL : HostLaws E) (UH : UserHost E) (UF : UserFiles E) (PR : Prompt E)
    (TE : Terminal E) (NW : Network E) (CL : ClientLaws E) (T : NoxTLS) (L : NoxTLSLaws T)
    depth args (w w' : world netnox_ssh_client_t E) out :
  zlen (inbox (env w)) <= Z.of_nat depth < 2 ^ 62 -> noxssh_main depth args w = (out, w') -> out <> Oob ->
  ctx w' = ctx w \/ reachable w'.
Proof.
  intros [Hn Hd] Hrun Ho. revert Hrun. unfold noxssh_main.
  destruct (parse_arguments false cli_zero args) as [code|o] eqn:Hp; [intros [= <- <-]; by left|].
  destruct (target ← o_target o; split_target target) as [[user host_alias]|]; [|intros [= <- <-]; by left].
  intros Hrun. refine (wp_run _ (api_only w) w out w' _ Hrun Ho). clear Hrun Ho.
  apply wp_bind. eapply wp_mono; [apply in_env_unmoved, load_config_off_line|]. intros out1 w1 (Hc1 & _ & Hi1).
  destruct out1 as [cfg|rc| |]; cbn [ok_or]; [|by left..].
  apply wp_bind. eapply wp_mono; [apply in_env_unmoved, connect_attempts_off_line|]. intros out2 w2 (Hc2 & _ & Hi2).
  destruct out2 as [[sock|]|rc| |]; cbn [ok_or]; [|apply wp_ret; intros _; left; congruence|intros _; left; congruence..].
  eapply wp_mono; [apply set_up_api; [done|by eapply parse_arguments_ok, Hp; apply cli_zero_ok|by rewrite Hi2, Hi1]|].
  intros out3 w3 Hapi Hne. destruct (Hapi Hne); [left; congruence|by right].
Qed.
