(* ===== verification/ClientSockets.v ===== *)
(** The socket of the command line client: no call but those of [ClientNet] opens or closes
    one, and [main] closes the one it has connected on every way out. *)

From stdpp Require Import gmap.
From S2P Require Export Frame ClientMain.

(** ** What the other calls do *)

(** They neither open nor close a socket. *)
Class ClientSockets (E : Type) `{Host E} `{UserHost E} `{Prompt E} `{Terminal E} `{Sockets E} : Prop := {
  send_sockets data e : open_sockets (send_cb data e).2 = open_sockets e;
  recv_sockets len e : open_sockets (recv_cb len e).2 = open_sockets e;
  rand_sockets e : open_sockets (c_rand e).2 = open_sockets e;
  srand_sockets e : open_sockets (c_srand_time e) = open_sockets e;
  x25519_sockets e : open_sockets (noxtls_x25519_generate_key e).2 = open_sockets e;
  read_file_sockets path e : open_sockets (c_read_file path e).2 = open_sockets e;
  open_append_sockets path e : open_sockets (c_open_append path e).2 = open_sockets e;
  write_close_sockets path text e : open_sockets (c_write_close path text e) = open_sockets e;
  mkdir_sockets dir e : open_sockets (c_mkdir dir e).2 = open_sockets e;
  read_stdin_sockets n e : open_sockets (c_read_stdin n e).2 = open_sockets e;
  hide_input_sockets e : open_sockets (c_hide_input e).2 = open_sockets e;
  show_input_sockets e : open_sockets (c_show_input e) = open_sockets e;
  setenv_sockets name value e : open_sockets (c_setenv name value e) = open_sockets e;
  time_sockets e : open_sockets (c_time e).2 = open_sockets e;
  select_read_sockets sock ms e : open_sockets (c_select_read sock ms e).2 = open_sockets e;
  stdout_sockets data e : open_sockets (c_stdout data e) = open_sockets e;
  rcvtimeo_sockets fd ms e : open_sockets (c_rcvtimeo fd ms e).2 = open_sockets e;
  sndtimeo_sockets fd ms e : open_sockets (c_sndtimeo fd ms e).2 = open_sockets e
}.

(** A call of one of them, or of one of the network that does not change the sockets either. *)
Ltac same_sockets_call :=
  first [apply send_sockets|apply recv_sockets|apply rand_sockets|apply srand_sockets|apply x25519_sockets
    |apply read_file_sockets|apply open_append_sockets|apply write_close_sockets|apply mkdir_sockets
    |apply read_stdin_sockets|apply hide_input_sockets|apply show_input_sockets|apply setenv_sockets
    |apply time_sockets|apply select_read_sockets|apply stdout_sockets|apply rcvtimeo_sockets
    |apply sndtimeo_sockets].

Section frame.
Context {E : Type} `{CS : ClientSockets E} {T : NoxTLS}.
Implicit Types w : world netnox_ssh_client_t E.

(** The sockets stay open or closed. *)
Definition same_sockets w w' : Prop := open_sockets (env w') = open_sockets (env w).
#[export] Instance same_sockets_preorder : PreOrder same_sockets.
Proof. split; unfold same_sockets; [by intros w|by intros w1 w2 w3 -> ->]. Qed.
Definition same_env (e e' : E) : Prop := open_sockets e' = open_sockets e.
#[export] Instance same_env_preorder : PreOrder same_env.
Proof. split; unfold same_env; [by intros e|by intros e1 e2 e3 -> ->]. Qed.

Lemma sockets_call {A} (f : E -> A * E) : (forall e, open_sockets (f e).2 = open_sockets e) ->
  moves same_sockets (call (C:=netnox_ssh_client_t) f).
Proof. intros Hf. apply moves_call; [exact _|]. intros w. apply Hf. Qed.
Lemma sockets_ask {A} (f : E -> A * E) : (forall e, open_sockets (f e).2 = open_sockets e) -> moves same_env (ask f).
Proof. intros Hf e. unfold ask. specialize (Hf e). by destruct (f e). Qed.
Lemma sockets_in_env {A} (m : M E A) : moves same_env m -> moves same_sockets (in_env m).
Proof. intros Hm w. unfold in_env. specialize (Hm (env w)). by destruct (m (env w)). Qed.
Lemma sockets_on_tr {A} (m : M ssh_transport_t A) : moves same_sockets (on_tr (E:=E) m).
Proof. intros w. unfold on_tr. by destruct (m _). Qed.
End frame.

(** [mv] with the state changes and the calls. *)
Ltac sockets_step :=
  lazymatch goal with
  | |- moves same_sockets (call _) => apply sockets_call; intros; simpl; same_sockets_call
  | |- moves same_env (ask _) => apply sockets_ask; intros; simpl; same_sockets_call
  | |- moves same_env (modify _) => apply moves_modify; intros; unfold same_env; same_sockets_call
  | |- moves same_sockets (in_env _) => apply sockets_in_env
  | |- moves same_sockets (on_tr _) => apply sockets_on_tr
  | |- moves same_sockets (modify _) => apply moves_modify; reflexivity
  | |- _ => mv_step
  end.
Ltac smv := repeat first [solve [eauto 2 with moves nocore]|sockets_step].

(** ** The library *)

Section library.
Context {E : Type} `{CS : ClientSockets E} {T : NoxTLS}.
Context (depth : nat).

Abbreviation quiet m := (moves (same_sockets (E:=E)) m).

Lemma sockets_client : quiet client_.
Proof. unfold client_. smv. Qed.
Lemma sockets_tr : quiet tr.
Proof. unfold tr. smv. Qed.
Lemma sockets_set_client f : quiet (set_client f).
Proof. unfold set_client. smv. Qed.
Lemma sockets_set_tr f : quiet (set_tr f).
Proof. apply sockets_set_client. Qed.
#[local] Hint Resolve sockets_client sockets_tr sockets_set_client sockets_set_tr : moves.

Lemma sockets_send_all data : quiet (netnox_ssh_send_all data).
Proof. unfold netnox_ssh_send_all, send_loop. smv. Qed.
Lemma sockets_recv_exact room len : quiet (netnox_ssh_recv_exact room len).
Proof. unfold netnox_ssh_recv_exact, recv_loop. smv. Qed.
Lemma sockets_recv_char : quiet recv_char.
Proof. unfold recv_char. smv. Qed.
#[local] Hint Resolve sockets_recv_char : moves.
Lemma sockets_recv_line : quiet netnox_ssh_recv_line.
Proof. unfold netnox_ssh_recv_line, recv_line_loop. smv. Qed.
Lemma sockets_rand_bytes n : quiet (rand_bytes n).
Proof. induction n; cbn [rand_bytes]; smv. Qed.
#[local] Hint Resolve sockets_send_all sockets_recv_exact sockets_recv_line sockets_rand_bytes : moves.
Lemma sockets_fill_random len : quiet (netnox_ssh_fill_random len).
Proof. unfold netnox_ssh_fill_random. smv. Qed.
#[local] Hint Resolve sockets_fill_random : moves.
Lemma sockets_send_packet payload : quiet (netnox_ssh_send_packet payload).
Proof. unfold netnox_ssh_send_packet, send_sealed, send_encrypted. smv. Qed.
Lemma sockets_recv_packet max : quiet (netnox_ssh_recv_packet max).
Proof. unfold netnox_ssh_recv_packet, recv_packet_encrypted, recv_packet_plain, recv_rest, recv_verify. smv. Qed.
#[local] Hint Resolve sockets_send_packet sockets_recv_packet : moves.

(** *** The key exchange *)

Lemma sockets_perform wait : (forall a b max, quiet (wait a b max)) -> quiet (netnox_ssh_perform_curve25519_kex wait).
Proof.
  intros Hw. unfold netnox_ssh_perform_curve25519_kex, kex_process_reply, record_host_key, kex_newkeys. smv; apply Hw.
Qed.
Lemma sockets_build_kexinit max : quiet (netnox_ssh_build_kexinit_payload max).
Proof. unfold netnox_ssh_build_kexinit_payload. smv. Qed.
#[local] Hint Resolve sockets_build_kexinit : moves.
Lemma sockets_handle_kexinit wait rx : (forall a b max, quiet (wait a b max)) ->
  quiet (netnox_ssh_handle_server_kexinit wait rx).
Proof. intros Hw. pose proof (sockets_perform wait Hw). unfold netnox_ssh_handle_server_kexinit. smv. Qed.
Lemma sockets_wait_iter n handle a b max : (forall rx, quiet (handle rx)) -> quiet (wait_iter n handle a b max).
Proof. intros Hh. induction n as [|n IH]; cbn [wait_iter]; smv; apply Hh. Qed.
Lemma sockets_wait d a b max : quiet (netnox_ssh_wait_for_message d a b max).
Proof.
  revert a b max. induction d as [|d IH]; intros a b max; cbn [netnox_ssh_wait_for_message];
    apply sockets_wait_iter; intros rx; [smv|by apply sockets_handle_kexinit].
Qed.
Lemma sockets_exchange : quiet (netnox_ssh_exchange_kexinit (netnox_ssh_wait_for_message depth)).
Proof. pose proof (sockets_perform _ (sockets_wait depth)). unfold netnox_ssh_exchange_kexinit. smv. Qed.
Lemma sockets_handle rx : quiet (netnox_ssh_handle_server_kexinit (netnox_ssh_wait_for_message depth) rx).
Proof. apply sockets_handle_kexinit, sockets_wait. Qed.
#[local] Hint Resolve sockets_wait sockets_exchange sockets_handle : moves.

(** *** The API *)

Lemma sockets_banner_loop n : quiet (banner_loop depth n).
Proof. induction n; cbn [banner_loop]; smv. Qed.
Lemma sockets_recv_data_loop fuel len : quiet (recv_data_loop depth fuel len).
Proof.
  induction fuel as [|fuel IH]; cbn [recv_data_loop]; [smv|].
  unfold recv_data_step, recv_data_handle, recv_request, copy_data, for_our_channel. smv.
Qed.
Lemma sockets_wait_userauth : quiet (netnox_ssh_wait_userauth_result depth).
Proof. unfold netnox_ssh_wait_userauth_result. smv. Qed.
Lemma sockets_negotiate service : quiet (negotiate_service depth service).
Proof. unfold negotiate_service, netnox_ssh_send_service_request. smv. Qed.
Lemma sockets_channel_request payload : quiet (channel_request depth payload).
Proof. unfold channel_request. smv. Qed.
#[local] Hint Resolve sockets_banner_loop sockets_recv_data_loop sockets_wait_userauth sockets_negotiate
  sockets_channel_request : moves.

Lemma sockets_recv_data len : quiet (netnox_ssh_client_recv_data depth len).
Proof. unfold netnox_ssh_client_recv_data. smv. Qed.
Lemma sockets_close : quiet netnox_ssh_client_close.
Proof. apply sockets_set_client. Qed.
#[local] Hint Resolve sockets_recv_data sockets_close : moves.

Lemma sockets_api call : quiet (run_call depth call).
Proof.
  destruct call; cbn [run_call]; try solve [smv];
    unfold netnox_ssh_client_set_io_callbacks, netnox_ssh_client_set_identification, netnox_ssh_client_set_target,
      netnox_ssh_client_set_password, netnox_ssh_client_set_ed25519_private_key, netnox_ssh_client_connect,
      netnox_ssh_client_authenticate, authenticate_password, netnox_ssh_negotiate_userauth_service,
      netnox_ssh_client_open_session, netnox_ssh_negotiate_connection_service,
      netnox_ssh_send_userauth_password, netnox_ssh_send_userauth_publickey_ed25519,
      netnox_ssh_send_channel_open_session, netnox_ssh_client_exec,
      netnox_ssh_client_request_shell_ex, netnox_ssh_client_send_data,
      netnox_ssh_client_send_keepalive, netnox_ssh_client_rekey; smv.
Qed.
End library.

(** ** The program *)

Section program.
Context {E : Type} `{CS : ClientSockets E} {T : NoxTLS}.
Context (depth : nat).
Implicit Types w : world netnox_ssh_client_t E.

Abbreviation quiet m := (moves (same_sockets (E:=E)) m).

Lemma api_quiet call : quiet (run_call depth call).
Proof. apply sockets_api. Qed.
Lemma recv_quiet len : quiet (netnox_ssh_client_recv_data depth len).
Proof. apply sockets_recv_data. Qed.
#[local] Hint Resolve recv_quiet : moves.
(** The calls one by one. *)
Ltac api_quiets :=
  pose proof (api_quiet CallConnect); pose proof (api_quiet CallAuthenticate); pose proof (api_quiet CallOpenSession);
  pose proof (api_quiet CallKeepalive); pose proof (api_quiet CallRekey); pose proof (api_quiet CallClose);
  pose proof (fun c => api_quiet (CallExec c)); pose proof (fun p => api_quiet (CallRequestShell p));
  pose proof (fun d => api_quiet (CallSendData d)); pose proof (fun k => api_quiet (CallSetKey k));
  pose proof (fun p => api_quiet (CallSetPassword p)); pose proof (fun u t => api_quiet (CallSetTarget u t));
  pose proof (fun a b => api_quiet (CallSetIo a b)); cbn [run_call] in *.

(** *** The loops *)

Lemma wait_quiet sock ms o a : quiet (noxssh_wait_socket_or_keepalive depth sock ms o a).
Proof.
  api_quiets. unfold noxssh_wait_socket_or_keepalive, wait_pass, noxssh_maybe_rekey, noxssh_socket_readable,
    noxssh_now_seconds. smv.
Qed.
#[local] Hint Resolve wait_quiet : moves.
Lemma print_quiet data a : quiet (print_output data a).
Proof. unfold print_output, noxssh_now_seconds. smv. Qed.
#[local] Hint Resolve print_quiet : moves.
Lemma print_channel_quiet sock o : quiet (noxssh_print_channel_output depth sock o).
Proof. unfold noxssh_print_channel_output, print_pass, recv_output, noxssh_now_seconds. smv. Qed.
Lemma drain_quiet sock ms o a : quiet (noxssh_drain_shell_output depth sock ms o a).
Proof. unfold noxssh_drain_shell_output, drain_pass, recv_output. smv. Qed.
#[local] Hint Resolve drain_quiet : moves.
Lemma shell_quiet sock o : quiet (noxssh_interactive_shell depth sock o).
Proof. api_quiets. unfold noxssh_interactive_shell, shell_pass, noxssh_now_seconds. smv. Qed.
#[local] Hint Resolve print_channel_quiet shell_quiet : moves.

(** *** The files *)

Lemma load_seed_file_quiet path : moves (same_env (E:=E)) (noxssh_load_ed25519_seed_file path).
Proof. unfold noxssh_load_ed25519_seed_file. smv. Qed.
#[local] Hint Resolve load_seed_file_quiet : moves.
Lemma default_identity_quiet : moves (same_env (E:=E)) noxssh_try_load_default_identity.
Proof.
  unfold noxssh_try_load_default_identity. smv. generalize identity_names. intros rels.
  induction rels as [|rel rels IH]; cbn [try_identities]; smv.
Qed.
Lemma load_config_quiet alias : moves (same_env (E:=E)) (noxssh_load_ssh_config_for_host alias).
Proof. unfold noxssh_load_ssh_config_for_host. smv. Qed.
Lemma password_quiet n : moves (same_env (E:=E)) (noxssh_prompt_password n).
Proof. unfold noxssh_prompt_password. smv. Qed.
Lemma verify_quiet host port fp check pin batch known :
  moves (same_env (E:=E)) (noxssh_verify_host_key host port fp check pin batch known).
Proof.
  unfold noxssh_verify_host_key, noxssh_lookup_known_host, verify_unknown, noxssh_append_known_host,
    noxssh_ensure_known_hosts_dir. smv.
Qed.
#[local] Hint Resolve default_identity_quiet password_quiet verify_quiet : moves.

(** *** The ways out *)

(** When it returns, the socket is closed, and no other socket was opened or closed. *)
Definition closes (sock : Z) {A} (m : M (world netnox_ssh_client_t E) A) : Prop := forall w,
  wp m (fun o w' => match o with Ok _ => open_sockets (env w') = open_sockets (env w) ∖ {[sock]} | _ => True end) w.

Lemma closes_bind {A B} sock (m : M _ A) (k : A -> M _ B) : quiet m -> (forall a, closes sock (k a)) ->
  closes sock (m ≫= k).
Proof.
  intros Hm Hk w. apply wp_bind. apply moves_wp with (s := w) in Hm. eapply wp_mono; [exact Hm|].
  intros o w1 H1'. destruct o; cbn [ok_or]; [|done..]. unfold same_sockets in H1'. rewrite <- H1'. apply Hk.
Qed.
Lemma closes_now sock (code : Z) : closes sock (APP_CLOSESOCK sock;; mret code).
Proof.
  intros w. unfold APP_CLOSESOCK. apply wp_bind, in_env_wp, wp_modify. cbn [ok_or]. apply wp_ret. apply close_tcp_law.
Qed.
Lemma closes_exit sock code : closes sock (exit_with sock code).
Proof. unfold exit_with. apply closes_bind; [apply sockets_close|]. intros ?. apply closes_now. Qed.

Ltac closing :=
  repeat first
    [apply closes_now|apply closes_exit
    |lazymatch goal with
     | |- closes _ (_ ≫= _) => apply closes_bind; [smv|intros ?]
     | |- closes _ (match ?x with _ => _ end) => destruct x
     end].

Lemma log_in_and_run_closes o s sock : closes sock (log_in_and_run depth o s sock).
Proof.
  api_quiets. unfold log_in_and_run, configure_key, configure_password, authenticate_twice, prompt_for_password,
    open_and_run, run_command, run_shell, succeeds, client_. closing.
Qed.

Lemma set_up_closes o s sock : closes sock (set_up depth o s sock).
Proof.
  pose proof (log_in_and_run_closes o s sock). api_quiets.
  unfold set_up, start_ssh, check_server, noxssh_set_socket_io_timeout, netnox_ssh_client_init, succeeds, client_.
  closing; done.
Qed.
End program.

(** C21: the program leaks no socket: on whatever way it comes to its exit - wrong arguments, a
    failed connection, a handshake or a log in that failed, a host key that is not trusted, the
    end of a command or of a shell - the sockets that are open are those that were open when
    it started; the one it has connected is closed. *)
Theorem main_closes_sockets E (H : Host E) (UH : UserHost E) (PR : Prompt E) (TE : Terminal E) (NW : Network E)
    (SO : Sockets E) (CS : ClientSockets E) (T : NoxTLS) depth args (w w' : world netnox_ssh_client_t E) code :
  noxssh_main depth args w = (Ok code, w') -> open_sockets (env w') = open_sockets (env w).
Proof.
  unfold noxssh_main. destruct (parse_arguments false cli_zero args) as [c|o]; [by intros [= _ <-]|].
  destruct (target ← o_target o; split_target target) as [[user host_alias]|]; [|by intros [= _ <-]].
  intros Hrun.
  refine (wp_run _ (fun o w' => match o with Ok _ => open_sockets (env w') = open_sockets (env w) | _ => True end)
    w (Ok code) w' _ Hrun). clear Hrun.
  apply wp_bind. pose proof (sockets_in_env _ (load_config_quiet host_alias)) as Hcfg.
  apply moves_wp with (s := w) in Hcfg. eapply wp_mono; [exact Hcfg|]. intros [cfg|rc| |] w1 H1; cbn [ok_or]; [|done..].
  apply wp_bind, in_env_wp.
  destruct (connect_attempts_opens (Z.to_nat (o_connect_retries o)) (s_host (make_settings o cfg user host_alias))
    (s_port (make_settings o cfg user host_alias)) (s_connect_timeout_ms (make_settings o cfg user host_alias)) (env w1))
    as (r & e & Hc & Ho). unfold wp at 1. rewrite Hc. cbn [ok_or].
  destruct r as [sock|]; [|apply wp_ret; simpl; congruence].
  eapply wp_mono; [apply set_up_closes|]. intros [c|rc| |] w2 H2; [|done..]. simpl in H2. rewrite H2.
  destruct Ho as [Hnew ->]. rewrite H1. unfold same_sockets in H1. rewrite H1 in Hnew. set_solver.
Qed.
