(* ===== verification/SampleClient.v ===== *)
(** A sample system for the command line client: the sample transport, a user with a
    configuration and a known hosts file, no keys, and a TCP connection that always
    succeeds. The witnesses of the program's properties evaluate on it. *)

From stdpp Require Import gmap.
From S2P Require Export ClientRun ClientSockets.

Import SampleInstances.

(** ** The system *)

Definition main_host : list Z := bs "www.example.org".
Definition main_files : gmap (list Z) (list Z) :=
  <[sample_home ++ bs "/.ssh/config" := example_config]>
  (<[sample_known_hosts := known_host_line main_host 2222 (hex_of (sample_hash sample_host_blob))]> ∅).

(** They say nothing about the state, so that they serve the systems below. *)
#[local] Instance main_user_host E : UserHost E := {
  c_home e := Some sample_home;
  c_read_file path e := (main_files !! path, e);
  c_open_append path e := (false, e);
  c_write_close path text e := e;
  c_mkdir dir e := (true, e);
  c_read_stdin n e := (None, e)
}.
#[local] Instance main_user_files E : UserFiles E.
Proof.
  refine {| user_files e := main_files; user_input e := [] |};
    cbn [c_home c_read_file c_open_append c_write_close c_mkdir c_read_stdin main_user_host]; intros; simplify_eq; try done.
  split; [done|]. exists []. split; [apply prefix_nil|]. by rewrite app_nil_r, insert_id.
Defined.
#[local] Instance main_prompt E : Prompt E := {
  c_hide_input e := (true, e); c_show_input e := e; c_setenv name value e := e
}.
#[local] Instance main_terminal E : Terminal E := {
  c_time e := (1000, e); c_select_read sock ms e := (0, e); c_stdout data e := e
}.
#[local] Instance main_network : Network sample_env := {
  c_address := unit;
  c_resolve host port e := (Some [tt], e);
  c_tcp_socket a e := (3, e);
  c_getfl fd e := (0, e);
  c_setfl fd flags e := (true, e);
  c_connect fd a e := (Connected, e);
  c_select_write fd ms e := (1, e);
  c_so_error fd e := (Some 0, e);
  c_rcvtimeo fd ms e := (true, e);
  c_sndtimeo fd ms e := (true, e);
  c_close_tcp fd e := e;
  c_sleep ms e := e
}.
#[local] Instance main_terminal_laws : TerminalLaws sample_env.
Proof. by split. Defined.
#[local] Instance main_laws : ClientLaws sample_env.
Proof. by split. Defined.

(** ** Keepalives *)

(** The clock stands still at 1000 s and nothing arrives: in one second of waiting, one
    keepalive is sent, as the last sign of life was an interval ago. *)
Abbreviation alive_run := (noxssh_wait_socket_or_keepalive run_depth 3 1000 (mkAliveOptions 10 3 0) (mkAlive 990 0 0)).
Lemma alive_run_ok : (alive_run run_authenticating).1 = Ok (0, mkAlive 1000 1 0).
Proof. vm_compute. reflexivity. Qed.

Lemma keepalives_bounded_witness : exists w', alive_run run_authenticating = (Ok (0, mkAlive 1000 1 0), w') /\
  wait_ends run_depth (mkAliveOptions 10 3 0) 3 run_authenticating (mkAlive 990 0 0) 1 (0, mkAlive 1000 1 0) w'.
Proof.
  pose proof run_authenticating_inbox as Hi. pose proof (ClientRun.pair_eq _ _ alive_run_ok) as Hrun. eexists. split; [exact Hrun|].
  assert (Hb := keepalives_bounded run_depth (proj2 Hi) 3 1000 (mkAliveOptions 10 3 0) (mkAlive 990 0 0)
    run_authenticating (conj run_authenticating_reachable (proj1 Hi))).
  do 5 (specialize (Hb ltac:(simpl; lia))). apply (wp_run _ _ _ _ _ Hb) in Hrun as (_ & k & _ & Hends & Hk & _).
  cbn [unanswered_keepalive_count] in Hk. replace 1 with k at 1 by lia. exact Hends.
Defined.

(** ** The program *)

Definition main_args : list (list Z) := [bs "--batch"; bs "--strict-host-key"; main_host].
Definition main_world : world netnox_ssh_client_t sample_env :=
  mkWorld client_zero (mkSample run_server_hello [] 0) true.

(** It connects, trusts the recorded key, and has nothing to log in with. *)
Lemma program_run : (noxssh_main run_depth main_args main_world).1 = Ok 0.
Proof. vm_compute. reflexivity. Qed.
Lemma main_not_help : parse_arguments false cli_zero main_args <> inl 0.
Proof. vm_compute. done. Qed.
Lemma main_inbox : zlen (inbox (env main_world)) <= Z.of_nat run_depth < 2 ^ 62.
Proof. split; [apply Z.leb_le; vm_compute; reflexivity|]. unfold run_depth. lia. Qed.

#[local] Opaque main_world.

Lemma log_in_needs_trusted_key_witness : exists o s (w1 : world netnox_ssh_client_t sample_env),
  main_settings main_args (env main_world) o s /\ keyed (ctx w1) /\
  key_trusted o s (env w1) (server_host_key_fingerprint (ctx w1)).
Proof.
  pose proof program_run as Hrun. destruct (noxssh_main run_depth main_args main_world) as [out w'] eqn:Em.
  cbn [fst] in Hrun. subst out.
  destruct (log_in_needs_trusted_key sample_env sample_host sample_host_laws (main_user_host _) (main_user_files _) (main_prompt _)
    (main_terminal _) main_network main_laws sample_noxtls sample_laws run_depth main_args main_world w' (Ok 0) main_inbox Em)
    as [[_ Hhelp]|(o & s & w0 & r & w1 & Hset & _ & _ & _ & [[_ Hne]|(_ & Hkey & Htrust)])].
  - destruct (main_not_help (Hhelp eq_refl)).
  - destruct (Hne eq_refl).
  - exists o, s, w1. split; [exact Hset|]. split; [exact Hkey|exact Htrust].
Defined.

(** ** Sockets *)

(** A host with one free socket, number 3, where connecting fails. *)
Definition sample_net : Type := gset Z.
#[local] Instance sample_network : Network sample_net := {
  c_address := unit;
  c_resolve host port e := (Some [tt; tt], e);
  c_tcp_socket a e := if decide (3 ∈ e) then (-1, e) else (3, ({[3]} ∪ e));
  c_getfl fd e := (0, e);
  c_setfl fd flags e := (true, e);
  c_connect fd a e := (ConnectFailed, e);
  c_select_write fd ms e := (0, e);
  c_so_error fd e := (None, e);
  c_rcvtimeo fd ms e := (true, e);
  c_sndtimeo fd ms e := (true, e);
  c_close_tcp fd e := e ∖ {[fd]};
  c_sleep ms e := e
}.
#[local] Instance sample_sockets : Sockets sample_net.
Proof.
  refine {| open_sockets e := e |}; try done. intros a e fd e'. cbn [c_tcp_socket sample_network].
  case_decide; intros [= <- <-]; done.
Defined.

Lemma connect_attempts_sockets_witness : exists e', connect_attempts (E:=sample_net) 2 main_host 22 500 ∅ = (Ok None, e') /\ e' = ∅.
Proof.
  destruct (connect_attempts_sockets (E:=sample_net) 2 main_host 22 500 ∅) as (r & e' & Hrun & He).
  assert (Hr : (connect_attempts (E:=sample_net) 2 main_host 22 500 ∅).1 = Ok None) by (vm_compute; reflexivity).
  rewrite Hrun in Hr. cbn [fst] in Hr. injection Hr as ->. exists e'. split; [exact Hrun|exact He].
Defined.

(** The sample transport with the sockets of the process: the next one gets number 3. *)
Definition socket_env : Type := sample_env * gset Z.
(** A call of the transport. *)
Definition on_sample {A} (f : sample_env -> A * sample_env) (e : socket_env) : A * socket_env :=
  let '(a, t) := f e.1 in (a, (t, e.2)).

#[local] Instance socket_host : Host socket_env := {
  send_cb data := on_sample (send_cb data);
  recv_cb len := on_sample (recv_cb len);
  c_rand := on_sample c_rand;
  c_srand_time e := (c_srand_time e.1, e.2);
  c_getenv name e := c_getenv name e.1;
  noxtls_x25519_generate_key := on_sample noxtls_x25519_generate_key;
  c_clock_ms := on_sample c_clock_ms;
  c_getrandom len := on_sample (c_getrandom len)
}.
#[local] Instance socket_network : Network socket_env := {
  c_address := unit;
  c_resolve host port e := (Some [tt], e);
  c_tcp_socket a e := if decide (3 ∈ e.2) then (-1, e) else (3, (e.1, {[3]} ∪ e.2));
  c_getfl fd e := (0, e);
  c_setfl fd flags e := (true, e);
  c_connect fd a e := (Connected, e);
  c_select_write fd ms e := (1, e);
  c_so_error fd e := (Some 0, e);
  c_rcvtimeo fd ms e := (true, e);
  c_sndtimeo fd ms e := (true, e);
  c_close_tcp fd e := (e.1, e.2 ∖ {[fd]});
  c_sleep ms e := e
}.
#[local] Instance socket_sockets : Sockets socket_env.
Proof.
  refine {| open_sockets e := e.2 |}; try done. intros a e fd e'. cbn [c_tcp_socket socket_network].
  case_decide; intros [= <- <-]; done.
Defined.
#[local] Instance socket_client : ClientSockets socket_env.
Proof. by split. Defined.

Definition socket_world : world netnox_ssh_client_t socket_env :=
  mkWorld client_zero (mkSample run_server_hello [] 0, {[7]}) true.
(** The program connects and ends the connection again: socket 7 is the only one left. *)
Lemma socket_run : (noxssh_main run_depth main_args socket_world).1 = Ok 0.
Proof. vm_compute. reflexivity. Qed.

Lemma main_closes_sockets_witness : exists w', noxssh_main run_depth main_args socket_world = (Ok 0, w') /\
  open_sockets (env w') = {[7]}.
Proof.
  pose proof socket_run as Hrun. destruct (noxssh_main run_depth main_args socket_world) as [out w'] eqn:Em.
  cbn [fst] in Hrun. subst out. exists w'. split; [reflexivity|].
  apply (main_closes_sockets socket_env socket_host (main_user_host _) (main_prompt _) (main_terminal _) socket_network
    socket_sockets socket_client sample_noxtls run_depth main_args socket_world w' 0 Em).
Defined.
